(* ===== verification/_CoqProject ===== *)
-Q . S2P
Prelude.v
Diagnostics.v
Script.v
Lexer.v
LexerFacts.v
LexerProps.v
Parser.v
ParserFacts.v
ParserProps.v
ParserPrint.v
Resolver.v
ResolverProps.v
Interpreter.v
InterpreterFacts.v
InterpreterProps.v
Payload.v
PayloadFacts.v
PayloadProps.v
ExecutionPlan.v
ExecutionPlanFacts.v
ExecutionPlanProps.v
Metrics.v
MetricsProps.v
MessageHandler.v
MessageHandlerProps.v
Session.v
SessionFacts.v
TcpSession.v
UdpSession.v
TcpSessionFacts.v
SessionHistory.v
TcpSessionProps.v
TcpDrain.v
UdpSessionProps.v
SessionEffects.v
SessionPool.v
SessionPoolProps.v
Shard.v
ShardSystem.v
ShardSystemFacts.v
ShardSystemProps.v
Orchestrator.v
OrchestratorProps.v
OrchestratorRun.v
SystemProps.v
SystemCalls.v
Logger.v
LoggerProps.v
Double.v
Display.v
DisplayProps.v
Cli.v
CliProps.v
Heartbeat.v
HeartbeatProps.v
