(* ===== verification/Prelude.v ===== *)
(** * Loadshear: a verified model of the load generator

    Loadshear reads a test script, plans it, and runs it: many TCP or UDP
    sessions, split over shards (threads), are connected, send the packets of the
    script with modifications, and are drained and disconnected at given times,
    while the terminal shows what happens.

<<
   script --Lexer--> tokens --Parser--> DSLData --Interpreter--> DSLData (valid)
                                   (Resolver: paths, files, environment)
     --ExecutionPlan--> payloads, counter steps, ActionDescriptors
     --Orchestrator--> Shard (one thread each) --SessionPool--> Session
                                    Session <--> PayloadManager, MessageHandler,
                                                 ShardMetrics
     Cli: all of the above from main; Display: the metrics on the terminal
>>

    Definitions keep the names of the code.  A class is a Module; its members are
    the Record [t] of the module (or [world] for a session), its methods are
    definitions that take and return it.  Results that may fail are [outcome]s:
    [Ok], [Err] (an error result with its message, or an exception), [Undef]
    (undefined behaviour of C++: an index out of range, a dangling pointer, a
    signed overflow) and [NoFuel] (no result with the fuel given; of a call that
    does not return, with any fuel).

    ** Files and the code they model

    - Prelude: machine integers at their width ([u8] ... [u64], [i32], [i64]),
      the error monad, numbers as text.  Double: IEEE doubles, as rationals
      rounded to 53 bits.
    - Diagnostics (interpreter/diagnostic-colors), Script (token.h,
      script-structs.h, action-descriptor.h).
    - Lexer, LexerFacts, LexerProps (interpreter/lexer).
    - Parser, ParserFacts, ParserProps, ParserPrint (interpreter/parser); the
      printer is the inverse the round trip is stated with, it is not code.
    - Resolver, ResolverProps (resolver/): expansion of paths, reading files.
    - Interpreter, InterpreterFacts, InterpreterProps (interpreter/interpreter).
    - Payload, PayloadFacts, PayloadProps (packets/payload-structs.h,
      payload-manager).
    - ExecutionPlan, ExecutionPlanFacts, ExecutionPlanProps (cli/execution-plan).
    - Metrics, MetricsProps (metrics/).
    - MessageHandler, MessageHandlerProps (packets/*-message-handler): the
      interface is the class [MessageHandler], what the sessions rely on is
      the class [HandlerLaws], and both handlers are instances.
    - Session, SessionFacts, SessionHistory: what the TCP and the UDP session
      share, over the state of the read path, and its invariant.  TcpSession,
      TcpSessionFacts, TcpSessionProps, TcpDrain (transports/tcp-session) and
      UdpSession, UdpSessionProps (transports/udp-session) are built on it.  SessionEffects:
      what a session does to the objects it shares with others.
    - SessionPool, SessionPoolProps (orchestrator/session-pool.h) over the class
      [PoolSession]; Shard (orchestrator/shard.h) over a pool; Orchestrator,
      OrchestratorProps, OrchestratorRun (orchestrator/orchestrator.h).
    - ShardSystem, ShardSystemFacts, ShardSystemProps: a shard together with its
      sessions, which share its payload manager, metrics and handler; over the
      class [PostingSession], which both kinds of session are instances of.
    - SystemProps, SystemCalls: from an accepted script to the calls of its
      sessions, and to their safety.
    - Logger, LoggerProps (logger/).
    - Display, DisplayProps (cli/numeric-strings.h, create-numeric-display.h,
      create-histogram.h).
    - Cli, CliProps (cli/cli, cli-parsing, main, version.h).
    - Heartbeat, HeartbeatProps (src/sdk/wasm/): the two guest modules, on linear
      memory, run by the WASM handler of MessageHandler.

    ** What the theorems show

    - Scripts: the lexer returns the tokens of a declarative specification and
      their positions, the parser always returns, what it accepts is well-formed,
      and a script printed as text is read back ([tokenize_spec],
      [script_roundtrip]).  The validator accepts exactly the valid scripts
      ([verify_script_spec]) and refines an abstract plan of sets of sessions
      ([validator_refines_plan]).
    - Plans: a plan agrees with its script ([plan_consistent]); a SEND sends its
      packet with the modifications written over it, and a prepared payload
      designates exactly those bytes ([send_patches_packet],
      [fill_payload_bytes]).
    - Sessions: in every history of completions, errors and calls of the pool a
      session keeps its invariant and meets no undefined behaviour
      ([tcp_session_safe], [udp_session_safe]), writes its payloads in turn and
      forgets none; several of them in a shard, interleaved in any way, do not
      break each other's invariants, and the count of the pool is right
      ([shard_sessions_safe], [shard_counts_sessions]).
    - Orchestration: the ranges of the shards partition the sessions, due actions
      are handed out once and in order, a pool reports its end once, and the plan
      of an accepted script whose first action is its CREATE runs to its end
      ([accepted_script_runs]).  From the
      script down to each write of each session: [accepted_sessions_safe].
    - Around it: the logger loses nothing in any interleaving; nothing is started
      without consent; the exit code reports errors, and the program ends if the
      run of the orchestrator does ([main_reports]); a message gets exactly the
      answer of the WASM guest ([wasm_message_contract]); what the terminal draws
      is what exact arithmetic gives; a session of the heartbeat guest.
    - Theorems that show a defect, as general as the ones it is an exception to:
      [out_of_order_overread] (to [send_patches_packet]), [early_action_undefined]
      (to [accepted_script_runs]), [tcp_drain_hangs] (a drain closes, but not after
      a flood), [flood_without_payloads], [shutdown_stops_nothing], [tui_crash],
      [reconnect_accepted], and the bounds in [try_parse_time_units] and
      [bytes_display_spec].

    ** Loops and fuel

    The [while] loops of the lexer and parser are fixpoints on fuel, one more
    than the characters or tokens there are; [tokenize_spec] and [parse_returns]
    show that it is enough.  [do_write] calls itself after going back to the
    first payload; [RESTARTS], 2, is enough whenever there is a payload, since the
    first one is then found (the invariant of the sessions shows that no
    [NoFuel] occurs), and no fuel is enough when there is none
    ([flood_without_payloads]).  Decimal numbers are printed with one digit of fuel
    per bit.  Loops over vectors are structural.  What runs until something
    outside ends it (the event loop of the terminal, the dispatch timer, the
    thread of the logger, the operations of a session) is a list of inputs or a
    step relation.

    ** Parameters

    Code that is not under src/ is an argument of what uses it: the operating
    system ([System]), the iteration order of a hash table ([HashOrder]), the WASM
    runtime ([Runtime]; [guest_runtime] runs the modules of the SDK), boost's
    program_options ([ProgramOptions]), FTXUI ([Ftxui]), the name resolver and the
    compiler of WASM modules, whether allocations succeed, the clocks, the
    contents of uninitialised memory, the line typed at the prompt, and for the
    command line how the run of the orchestrator ends: it returns, throws, meets
    undefined behaviour or never returns ([environment]).  The result of an asynchronous operation is any that asio
    documents: an error, or the bytes asked for ([result_of]).

    The theorems on sessions assume that [start] is called first and once, that
    messages stay below 4 GiB, that fewer than 2^64 writes are requested, that
    payloads stay inside their packets ([descriptor_ok]) and that there is one
    when they repeat.  The first and the third hold for an accepted script that
    connects no session twice and disconnects only connected ones
    ([accepted_calls_ok]), the fourth when its modifications come in increasing
    order ([plan_payloads_ok]).  The validator accepts other scripts too: see
    [reconnect_accepted], [out_of_order_overread] and [flood_without_payloads].  In the histories of a shard
    ([ShardSystem.run]) the other shards only fill payloads; the orchestrator's
    posts and its loop are the subject of [accepted_script_runs], which is about
    the calls the sessions get, in their order.

    ** Not modelled

    The internals of asio and boost, of the WASM engine and of FTXUI (the layout
    and the terminal); memory orders and the scheduling of threads below the
    handlers and critical sections that are the steps of the model; the
    destructor of the logger; allocation failures outside the plan.  The trace of
    the command line ([Cli]) holds what the files of src/cli do: the log calls of
    the other parts are not in it, and what the orchestrator's thread logs is put
    at its start.  Tests, documentation and build files are not code of the
    program. *)

From Stdlib Require Export ZArith Lia Ascii.
From Stdlib Require String.
From stdpp Require Export base list strings gmap numbers.
#[global] Open Scope Z_scope.
#[global] Arguments String.append !_ _ / : simpl nomatch.

(** ** Machine integers

    An unsigned w-bit integer is a [Z] in [0, 2^w); the wrap-around of the
    conversions and of the arithmetic is written out with these functions. *)

Definition u8 (x : Z) : Z := x mod 2 ^ 8.
Definition u16 (x : Z) : Z := x mod 2 ^ 16.
Definition u32 (x : Z) : Z := x mod 2 ^ 32.
Definition u64 (x : Z) : Z := x mod 2 ^ 64.

(** The conversions of an integer to [int] and [int64_t] (two's complement). *)
Definition i32 (x : Z) : Z := (x + 2 ^ 31) mod 2 ^ 32 - 2 ^ 31.

Definition i64 (x : Z) : Z := (x + 2 ^ 63) mod 2 ^ 64 - 2 ^ 63.

Definition INT_MAX : Z := 2 ^ 31 - 1.
Definition INT_MIN : Z := - 2 ^ 31.

Lemma u32_small x : 0 <= x < 2 ^ 32 -> u32 x = x.
Proof. apply Z.mod_small. Qed.

Lemma u64_small x : 0 <= x < 2 ^ 64 -> u64 x = x.
Proof. apply Z.mod_small. Qed.

Lemma u16_small x : 0 <= x < 2 ^ 16 -> u16 x = x.
Proof. apply Z.mod_small. Qed.

Lemma i64_small x : - 2 ^ 63 <= x < 2 ^ 63 -> i64 x = x.
Proof. intros H. unfold i64. rewrite Z.mod_small; lia. Qed.

Lemma u8_range x : 0 <= u8 x < 256.
Proof. apply Z.mod_pos_bound. lia. Qed.

Lemma u16_range x : 0 <= u16 x < 2 ^ 16.
Proof. apply Z.mod_pos_bound. lia. Qed.

Lemma u32_range x : 0 <= u32 x < 2 ^ 32.
Proof. apply Z.mod_pos_bound. lia. Qed.

Lemma u64_range x : 0 <= u64 x < 2 ^ 64.
Proof. apply Z.mod_pos_bound. lia. Qed.

(** ** Outcomes

    What a call of the program can do: return a value, return an error value
    (a [ParseResult] with [success = false], a [std::unexpected]), run into
    undefined behaviour (an unchecked access outside a container), or, in the
    model only, run out of fuel. *)

Inductive outcome (A : Type) : Type :=
| Ok (a : A)
| Err (reason : string)
| Undef
| NoFuel.

Arguments Ok {A} a.
Arguments Err {A} reason.
Arguments Undef {A}.
Arguments NoFuel {A}.

Definition obind {A B : Type} (m : outcome A) (k : A -> outcome B) : outcome B :=
  match m with
  | Ok a => k a
  | Err e => Err e
  | Undef => Undef
  | NoFuel => NoFuel
  end.

Declare Scope outcome_scope.
Delimit Scope outcome_scope with outcome.
#[global] Open Scope outcome_scope.

Notation "'let!' x ':=' m 'in' k" := (obind m (fun x => k))
  (at level 10, x pattern, m at level 100, k at level 200) : outcome_scope.

(** The early return of the C++ code: stop with [e] unless [b] holds. *)
Notation "'check!' b 'else' e 'in' k" := (if b then k else e)
  (at level 10, b at level 100, e at level 100, k at level 200, only parsing)
  : outcome_scope.

Definition is_err {A} (m : outcome A) : bool :=
  match m with Err _ => true | _ => false end.

Definition is_ok {A} (m : outcome A) : bool :=
  match m with Ok _ => true | _ => false end.

(** A call is safe when it neither meets undefined behaviour nor lacks fuel:
    it returns a value or an error. *)
Definition returns {A} (m : outcome A) : Prop :=
  match m with Ok _ | Err _ => True | Undef | NoFuel => False end.

Lemma obind_Ok {A B} (m : outcome A) (k : A -> outcome B) b :
  obind m k = Ok b <-> exists a, m = Ok a /\ k a = Ok b.
Proof.
  destruct m; simpl; split; try done; try (by intros (? & [=] & ?)).
  - intros H. by exists a.
  - by intros (? & [= ->] & ?).
Qed.

Lemma obind_assoc {A B C} (m : outcome A) (f : A -> outcome B) (g : B -> outcome C) :
  obind (obind m f) g = obind m (fun a => obind (f a) g).
Proof. by destruct m. Qed.

Lemma returns_obind {A B} (m : outcome A) (k : A -> outcome B) :
  returns m -> (forall a, m = Ok a -> returns (k a)) -> returns (obind m k).
Proof. destruct m; simpl; auto. Qed.

Lemma returns_spec {A} (m : outcome A) :
  returns m <-> (exists a, m = Ok a) \/ (exists e, m = Err e).
Proof. destruct m; simpl; split; try done; eauto; intros [[? [=]]|[? [=]]]. Qed.

Lemma Ok_inj {A} (a b : A) : Ok a = Ok b -> a = b.
Proof. congruence. Qed.

(** Inversion of successful outcomes, step by step. *)
Ltac inv_ok :=
  repeat match goal with
  | H : obind _ _ = Ok _ |- _ =>
      let x := fresh "x" in let Hm := fresh "Hm" in
      apply obind_Ok in H as (x & Hm & H); cbv beta in H
  | H : Ok _ = Ok _ |- _ => apply Ok_inj in H
  | H : Err _ = Ok _ |- _ => discriminate H
  | H : Undef = Ok _ |- _ => discriminate H
  | H : NoFuel = Ok _ |- _ => discriminate H
  | H : (if ?b then _ else _) = Ok _ |- _ =>
      let E := fresh "E" in destruct b eqn:E
  | H : context [let '(_, _) := ?p in _] |- _ => destruct p; cbv beta iota in H
  | H : _ = Ok _ |- _ => discriminate H
  end.

(** Case analysis on every [if] and [match] of the goal. *)
Ltac split_ifs :=
  repeat match goal with
  | |- context [if ?b then _ else _] => let E := fresh "E" in destruct b eqn:E
  end.

(** Boolean comparisons to arithmetic. *)
Ltac bool_to_Z :=
  repeat match goal with
  | H : (_ && _) = true |- _ => apply andb_true_iff in H as [? ?]
  | H : (_ || _) = false |- _ => apply orb_false_iff in H as [? ?]
  | H : negb _ = true |- _ => apply negb_true_iff in H
  | H : negb _ = false |- _ => apply negb_false_iff in H
  | H : (_ <? _) = true |- _ => apply Z.ltb_lt in H
  | H : (_ <? _) = false |- _ => apply Z.ltb_ge in H
  | H : (_ <=? _) = true |- _ => apply Z.leb_le in H
  | H : (_ <=? _) = false |- _ => apply Z.leb_gt in H
  | H : (_ =? _) = true |- _ => apply Z.eqb_eq in H
  | H : (_ =? _) = false |- _ => apply Z.eqb_neq in H
  | H : (_ >? _) = true |- _ => apply Z.gtb_lt in H
  | H : (_ >? _) = false |- _ => rewrite Z.gtb_ltb in H; apply Z.ltb_ge in H
  | H : (_ >=? _) = true |- _ => rewrite Z.geb_leb in H; apply Z.leb_le in H
  | H : (_ >=? _) = false |- _ => rewrite Z.geb_leb in H; apply Z.leb_gt in H
  end.

(** Comparisons of closed numbers. *)
Ltac closed_Z :=
  repeat match goal with |- _ /\ _ => split end;
  first [ apply Z.leb_le; vm_compute; reflexivity
        | apply Z.ltb_lt; vm_compute; reflexivity
        | vm_compute; reflexivity ].

(** ** Characters and strings

    [std::string] is [string]; the classification functions are those of the
    C locale. *)

Definition char_code (c : ascii) : Z := Z.of_N (N_of_ascii c).

Definition NUL : ascii := "000"%char.
Definition TAB : ascii := "009"%char.
Definition NEWLINE : ascii := "010"%char.
Definition CR : ascii := "013"%char.
Definition DQUOTE : ascii := "034"%char.
Definition BACKSLASH : ascii := "092"%char.

Definition char_eqb (c d : ascii) : bool := Ascii.eqb c d.

Definition in_range (lo hi : Z) (c : ascii) : bool :=
  (lo <=? char_code c) && (char_code c <=? hi).

Definition isdigit (c : ascii) : bool := in_range 48 57 c.
Definition isalpha (c : ascii) : bool := in_range 65 90 c || in_range 97 122 c.
Definition isalnum (c : ascii) : bool := isalpha c || isdigit c.
Definition isspace (c : ascii) : bool := in_range 9 13 c || char_eqb c " "%char.

(** A one-character string, [std::string(1, c)]. *)
Definition char_string (c : ascii) : string := String c EmptyString.

(** [s.push_back(c)]. *)
Definition push_back (s : string) (c : ascii) : string := s +:+ char_string c.

(** [s.ends_with(suffix)]. *)
Definition ends_with (s suffix : string) : bool :=
  let n := String.length s in
  let k := String.length suffix in
  Nat.leb k n && String.eqb (String.substring (n - k) k s) suffix.

(** [s.substr(0, s.size() - 1)], for a non-empty string. *)
Definition drop_last (s : string) : string :=
  String.substring 0 (String.length s - 1) s.

Definition str_mem (s : string) (l : list string) : bool :=
  existsb (String.eqb s) l.

Lemma char_eqb_eq c d : char_eqb c d = true <-> c = d.
Proof. apply Ascii.eqb_eq. Qed.

Lemma str_mem_In s l : str_mem s l = true <-> In s l.
Proof.
  unfold str_mem. rewrite existsb_exists. split.
  - intros (x & Hin & Hx). apply String.eqb_eq in Hx. by subst.
  - intros Hin. exists s. split; [done | apply String.eqb_refl].
Qed.

Lemma string_app_assoc (a b c : string) : (a +:+ b) +:+ c = a +:+ (b +:+ c).
Proof. induction a; simpl; congruence. Qed.

Lemma string_app_nil_r (s : string) : s +:+ EmptyString = s.
Proof. induction s; simpl; congruence. Qed.

Lemma string_length_app (a b : string) :
  String.length (a +:+ b) = (String.length a + String.length b)%nat.
Proof. induction a; simpl; congruence. Qed.

Create Rewrite HintDb strings.
#[export] Hint Rewrite string_app_assoc string_app_nil_r string_length_app : strings.

Lemma ascii_all (P : ascii -> bool) :
  forallb P (map (fun n => ascii_of_nat n) (seq 0 256)) = true ->
  forall c, P c = true.
Proof.
  intros H c. rewrite forallb_forall in H. apply H, in_map_iff.
  exists (nat_of_ascii c). split; [apply ascii_nat_embedding|].
  apply in_seq. split; [lia|]. apply nat_ascii_bounded.
Qed.

(** ** Decimal numbers: [std::to_string] and [std::stoi] *)

Definition digit_char (d : Z) : ascii := ascii_of_N (Z.to_N (48 + d)).

Definition digit_value (c : ascii) : Z := char_code c - 48.

Fixpoint decimal_digits (fuel : nat) (z : Z) (acc : string) : string :=
  match fuel with
  | O => acc
  | S f =>
      let acc' := String (digit_char (z mod 10)) acc in
      if z <? 10 then acc' else decimal_digits f (z / 10) acc'
  end.

(** [std::to_string] of an integer: no fuel problem, [z] has at most
    [log2 z + 1] decimal digits. *)
Definition to_string (z : Z) : string :=
  let n := Z.abs z in
  let digits := decimal_digits (S (Z.to_nat (Z.log2 n))) n EmptyString in
  if z <? 0 then String "-"%char digits else digits.

(** The value of the longest prefix of decimal digits. *)
Fixpoint scan_digits (acc : Z) (s : string) : Z :=
  match s with
  | String c s' => if isdigit c then scan_digits (10 * acc + digit_value c) s' else acc
  | EmptyString => acc
  end.

Definition starts_with_digit (s : string) : bool :=
  match s with String c _ => isdigit c | EmptyString => false end.

Fixpoint skip_spaces (s : string) : string :=
  match s with
  | String c s' => if isspace c then skip_spaces s' else s
  | EmptyString => EmptyString
  end.

Definition split_sign (s : string) : bool * string :=
  match s with
  | String c s' =>
      if char_eqb c "-"%char then (true, s')
      else if char_eqb c "+"%char then (false, s')
      else (false, s)
  | EmptyString => (false, s)
  end.

(** [std::stoi(s)]: base 10, leading white space and a sign allowed, anything
    may follow the digits; [None] is one of the two exceptions it throws
    ([invalid_argument] without a digit, [out_of_range] outside [int]). *)
Definition stoi (s : string) : option Z :=
  let '(neg, s) := split_sign (skip_spaces s) in
  if starts_with_digit s then
    let v := if neg : bool then - scan_digits 0 s else scan_digits 0 s in
    if (INT_MIN <=? v) && (v <=? INT_MAX) then Some v else None
  else None.

Lemma digit_char_spec d :
  0 <= d < 10 -> isdigit (digit_char d) = true /\ digit_value (digit_char d) = d.
Proof.
  intros Hd.
  assert (Hc : char_code (digit_char d) = 48 + d).
  { unfold char_code, digit_char. rewrite N_ascii_embedding by lia. lia. }
  unfold isdigit, in_range, digit_value. rewrite Hc. split; lia.
Qed.

Lemma isdigit_not_space c : isdigit c = true -> isspace c = false.
Proof.
  intros H.
  pose proof (ascii_all (fun c => negb (isdigit c) || negb (isspace c)) eq_refl c) as Hc.
  simpl in Hc. rewrite H in Hc. simpl in Hc. by apply negb_true_iff.
Qed.

Lemma decimal_digits_scan fuel z acc a :
  0 <= z < 2 ^ Z.of_nat fuel -> (0 < fuel)%nat ->
  exists k : nat,
    z < 10 ^ Z.of_nat k /\
    scan_digits a (decimal_digits fuel z acc) =
    scan_digits (a * 10 ^ Z.of_nat k + z) acc /\
    starts_with_digit (decimal_digits fuel z acc) = true.
Proof.
  revert z acc a. induction fuel as [|f IH]; intros z acc a Hz Hf; [lia|].
  simpl decimal_digits. cbv zeta.
  destruct (digit_char_spec (z mod 10)) as [Hd Hv]; [apply Z.mod_pos_bound; lia|].
  destruct (z <? 10) eqn:E; bool_to_Z.
  - exists 1%nat. simpl. rewrite Hd, Hv. rewrite Z.mod_small by lia.
    repeat split; [lia | f_equal; lia].
  - rewrite Nat2Z.inj_succ, Z.pow_succ_r in Hz by lia.
    assert (Hf' : (0 < f)%nat). { destruct f; [simpl in Hz; lia | lia]. }
    destruct (IH (z / 10) (String (digit_char (z mod 10)) acc) a) as (k & Hk & Hs & Hd').
    { split; [apply Z.div_pos; lia|]. apply Z.div_lt_upper_bound; lia. }
    { done. }
    exists (S k). rewrite Nat2Z.inj_succ, Z.pow_succ_r by lia.
    pose proof (Z.div_mod z 10 ltac:(lia)) as Hdm.
    pose proof (Z.mod_pos_bound z 10 ltac:(lia)).
    repeat split; [lia | | done].
    rewrite Hs. simpl. rewrite Hd, Hv. f_equal. lia.
Qed.

Lemma decimal_digits_app f n acc s :
  decimal_digits f n acc +:+ s = decimal_digits f n (acc +:+ s).
Proof.
  revert n acc. induction f as [|f IH]; intros n acc; simpl; [done|].
  destruct (n <? 10); simpl; [done | apply IH].
Qed.

Lemma to_string_last z :
  0 <= z -> exists s d, to_string z = s +:+ char_string d /\ isdigit d = true.
Proof.
  intros Hz. unfold to_string. rewrite Z.abs_eq by done.
  destruct (z <? 0) eqn:E; bool_to_Z; [lia|]. cbn [decimal_digits].
  destruct (digit_char_spec (z mod 10)) as [Hd _]; [apply Z.mod_pos_bound; lia|].
  destruct (z <? 10).
  - by exists EmptyString, (digit_char (z mod 10)).
  - exists (decimal_digits (Z.to_nat (Z.log2 z)) (z / 10) EmptyString), (digit_char (z mod 10)).
    by rewrite decimal_digits_app.
Qed.

Lemma to_string_scan z s :
  0 <= z -> starts_with_digit s = false ->
  scan_digits 0 (to_string z +:+ s) = z /\ starts_with_digit (to_string z +:+ s) = true.
Proof.
  intros Hz Hs. unfold to_string. rewrite Z.abs_eq by done.
  destruct (z <? 0) eqn:E; bool_to_Z; [lia|]. clear E.
  set (fuel := S _).
  rewrite decimal_digits_app. simpl (EmptyString +:+ s).
  destruct (decimal_digits_scan fuel z s 0) as (k & _ & Hscan & Hd).
  - subst fuel. rewrite Nat2Z.inj_succ, Z2Nat.id by apply Z.log2_nonneg.
    destruct (Z.eq_dec z 0) as [->|]; [simpl; lia|].
    split; [done|]. apply Z.log2_spec. lia.
  - subst fuel. lia.
  - rewrite Hscan, Hd, Z.mul_0_l, Z.add_0_l. split; [|done].
    destruct s as [|c s]; simpl in *; [done | by rewrite Hs].
Qed.

(** Reading back a printed number, whatever text without a leading digit
    follows it. *)
Lemma stoi_to_string_app z s :
  0 <= z <= INT_MAX -> starts_with_digit s = false -> stoi (to_string z +:+ s) = Some z.
Proof.
  intros Hz Hs. destruct (to_string_scan z s) as [Hv Hd]; [lia | done |].
  unfold stoi. remember (to_string z +:+ s) as t eqn:Ht. clear Ht.
  destruct t as [|c t]; [done|]. simpl in Hd.
  assert (skip_spaces (String c t) = String c t) as ->.
  { simpl. by rewrite isdigit_not_space. }
  assert (split_sign (String c t) = (false, String c t)) as ->.
  { clear Hv. destruct c as [[] [] [] [] [] [] [] []]; done. } simpl starts_with_digit. rewrite Hd, Hv.
  unfold INT_MIN, INT_MAX in *.
  replace (_ && _) with true by (symmetry; apply andb_true_iff; split; lia). done.
Qed.

Lemma stoi_to_string z : 0 <= z <= INT_MAX -> stoi (to_string z) = Some z.
Proof. intros Hz. rewrite <- (string_app_nil_r (to_string z)). by apply stoi_to_string_app. Qed.

Lemma stoi_range s z : stoi s = Some z -> INT_MIN <= z <= INT_MAX.
Proof.
  unfold stoi. destruct (split_sign (skip_spaces s)) as [neg t].
  destruct (starts_with_digit t); [|done]. cbv zeta.
  match goal with |- context [if ?b then _ else _] => destruct b eqn:E end; [|done].
  intros [= <-]. bool_to_Z. lia.
Qed.
