(* ===== verification/Diagnostics.v ===== *)
(** * The coloured diagnostics (src/interpreter/diagnostic-colors.{h,cpp})

    Every error message of the lexer, the parser and the validator is built
    from fragments passed through [styled_string]. *)

From S2P Require Import Prelude.

(** [enum class PrintStyle] *)
Module PrintStyle.
Inductive t : Type :=
| Error
| Expected
| Keyword
| Context
| BadField
| BadValue
| Reference
| Limits.

#[global] Instance eq_dec : EqDecision t.
Proof. solve_decision. Defined.
End PrintStyle.

Definition ESC : ascii := "027"%char.

Definition ansi (code : string) : string := String ESC code.

Definition ANSI_RESET : string := ansi "[0m".
Definition PALETTE_ERROR : string := ansi "[31m".
Definition PALETTE_EXPECTED : string := ansi "[32m".
Definition PALETTE_KEYWORD : string := ansi "[1m".
Definition PALETTE_CONTEXT : string := ansi "[95m".
Definition PALETTE_BAD_FIELD : string := ansi "[4;31m".
Definition PALETTE_BAD_VALUE : string := ansi "[91m".
Definition PALETTE_REFERENCE : string := ansi "[36m".
Definition PALETTE_LIMITS : string := ansi "[33m".

Definition apply_palette (input palette : string) : string :=
  palette +:+ input +:+ ANSI_RESET.

Definition styled_string (input : string) (style : PrintStyle.t) : string :=
  match style with
  | PrintStyle.Error => apply_palette input PALETTE_ERROR
  | PrintStyle.Expected => apply_palette input PALETTE_EXPECTED
  | PrintStyle.Keyword => apply_palette input PALETTE_KEYWORD
  | PrintStyle.Context => apply_palette input PALETTE_CONTEXT
  | PrintStyle.BadField => apply_palette input PALETTE_BAD_FIELD
  | PrintStyle.BadValue => apply_palette input PALETTE_BAD_VALUE
  | PrintStyle.Reference => apply_palette input PALETTE_REFERENCE
  | PrintStyle.Limits => apply_palette input PALETTE_LIMITS
  end.

(** ["[line " + std::to_string(line) + " column " + std::to_string(col) + "]"],
    the location fragment of the messages. *)
Definition location (line col : Z) : string :=
  styled_string ("[line " +:+ to_string line +:+ " column " +:+ to_string col +:+ "]")
    PrintStyle.Context.
