(* ===== verification/Script.v ===== *)
(** * Tokens and script structures

    The data the interpreter passes along: tokens (src/interpreter/token.h),
    the parsed script (src/interpreter/script-structs.h) and the action kinds
    (src/orchestrator/action-descriptor.h). *)

From S2P Require Import Prelude.

(** ** Tokens *)

Definition VALID_TOKEN_OPERATORS : list ascii := ["="; ","; ":"]%char.

Definition VALID_KEYWORDS : list string :=
  [ "SETTINGS"; "SESSION"; "PORT"; "HEADERSIZE"; "BODYMAX"; "READ"; "REPEAT";
    "SAMPLERATE"; "ENDPOINTS"; "SHARDS"; "PACKETS"; "HANDLER"; "ORCHESTRATOR";
    "CREATE"; "CONNECT"; "SEND"; "FLOOD"; "DRAIN"; "DISCONNECT"; "OFFSET";
    "COPIES"; "TIMESTAMP"; "COUNTER" ].

(** [enum class TokenType] *)
Module TokenType.
Inductive t : Type :=
| Keyword
| Identity
| Operator
| Value
| BraceOpen
| BraceClosed.

#[global] Instance eq_dec : EqDecision t.
Proof. solve_decision. Defined.

Definition eqb (x y : t) : bool := bool_decide (x = y).
End TokenType.

Definition ttype_to_string (ttype : TokenType.t) : string :=
  match ttype with
  | TokenType.Keyword => "Keyword"
  | TokenType.Identity => "Identity"
  | TokenType.Operator => "Operator"
  | TokenType.Value => "Value"
  | TokenType.BraceOpen => "BraceOpen"
  | TokenType.BraceClosed => "BraceClosed"
  end.

Module Token.
Record t : Type := mk {
  type : TokenType.t;
  text : string;
  line : Z;
  col : Z
}.

#[global] Instance eq_dec : EqDecision t.
Proof. solve_decision. Defined.
End Token.

(** A token without its position. *)
Definition kind : Type := TokenType.t * string.

Definition token_kind (tok : Token.t) : kind := (Token.type tok, Token.text tok).

(** ** Script structures *)

Definition VALID_PROTOCOLS : list string := ["TCP"; "UDP"].

Definition VALID_MESSAGE_HANDLERS : list string := ["NOP"].

Definition VALID_TIME_FORMATS : list string :=
  ["seconds"; "milliseconds"; "microseconds"; "nanoseconds"].

(** [struct Range]: [second] is the end of the session range of an action and
    the length of the byte range of a modification. *)
Module Range.
Record t : Type := mk { start : Z; second : Z }.

#[global] Instance eq_dec : EqDecision t.
Proof. solve_decision. Defined.

Definition end_from_length (r : t) : Z := u32 (start r + second r).

Definition size_from_end (r : t) : Z := u32 (second r - start r).
End Range.

Module ModificationType.
Inductive t : Type := Counter | Timestamp.

#[global] Instance eq_dec : EqDecision t.
Proof. solve_decision. Defined.
End ModificationType.

Module CounterModification.
Record t : Type := mk {
  counter_bytes : Range.t;
  counter_step : Z;
  little_endian : bool
}.
End CounterModification.

Module TimestampModification.
Record t : Type := mk {
  timestamp_bytes : Range.t;
  little_endian : bool;
  format_name : string
}.
End TimestampModification.

(** [enum class ActionType] *)
Module ActionType.
Inductive t : Type := CREATE | CONNECT | SEND | FLOOD | DRAIN | DISCONNECT.

#[global] Instance eq_dec : EqDecision t.
Proof. solve_decision. Defined.
End ActionType.

Module Action.
Record t : Type := mk {
  type : ActionType.t;
  count : Z;
  range : Range.t;
  offset_ms : Z;
  packet_identifier : string;
  timestamp_mods : list TimestampModification.t;
  counter_mods : list CounterModification.t;
  mod_order : list ModificationType.t
}.

(** The [Action action;] of the parser: the integer members are not
    initialised, [garbage] is what they hold. *)
Definition fresh (garbage : Z) : t :=
  mk ActionType.CREATE garbage (Range.mk garbage garbage) garbage EmptyString [] [] [].

Definition set_type (a : t) v :=
  mk v (count a) (range a) (offset_ms a) (packet_identifier a)
     (timestamp_mods a) (counter_mods a) (mod_order a).
Definition set_count (a : t) v :=
  mk (type a) v (range a) (offset_ms a) (packet_identifier a)
     (timestamp_mods a) (counter_mods a) (mod_order a).
Definition set_range (a : t) v :=
  mk (type a) (count a) v (offset_ms a) (packet_identifier a)
     (timestamp_mods a) (counter_mods a) (mod_order a).
Definition set_offset_ms (a : t) v :=
  mk (type a) (count a) (range a) v (packet_identifier a)
     (timestamp_mods a) (counter_mods a) (mod_order a).
Definition set_packet_identifier (a : t) v :=
  mk (type a) (count a) (range a) (offset_ms a) v
     (timestamp_mods a) (counter_mods a) (mod_order a).

(** [push_modifier], one definition per instance of the template. *)
Definition push_timestamp (a : t) (m : TimestampModification.t) : t :=
  mk (type a) (count a) (range a) (offset_ms a) (packet_identifier a)
     (timestamp_mods a ++ [m]) (counter_mods a)
     (mod_order a ++ [ModificationType.Timestamp]).
Definition push_counter (a : t) (m : CounterModification.t) : t :=
  mk (type a) (count a) (range a) (offset_ms a) (packet_identifier a)
     (timestamp_mods a) (counter_mods a ++ [m])
     (mod_order a ++ [ModificationType.Counter]).
End Action.

Module Settings.
Record t : Type := mk {
  identifier : string;
  session_protocol : string;
  header_size : Z;
  body_max : Z;
  read : bool;
  repeat : bool;
  packet_sample_rate : Z;
  shards : Z;
  port : Z;
  handler_value : string;
  endpoints : list string;
  packet_identifiers : gmap string string
}.

(** A default-initialised [SettingsBlock]: [header_size] and [body_max] have
    no initialiser, [garbage_header] and [garbage_body] are what they hold. *)
Definition fresh (garbage_header garbage_body : Z) : t :=
  mk EmptyString EmptyString garbage_header garbage_body false false 0 0 0
     EmptyString [] ∅.

Definition set_identifier (s : t) v :=
  mk v (session_protocol s) (header_size s) (body_max s) (read s) (repeat s)
     (packet_sample_rate s) (shards s) (port s) (handler_value s) (endpoints s)
     (packet_identifiers s).
Definition set_session_protocol (s : t) v :=
  mk (identifier s) v (header_size s) (body_max s) (read s) (repeat s)
     (packet_sample_rate s) (shards s) (port s) (handler_value s) (endpoints s)
     (packet_identifiers s).
Definition set_header_size (s : t) v :=
  mk (identifier s) (session_protocol s) v (body_max s) (read s) (repeat s)
     (packet_sample_rate s) (shards s) (port s) (handler_value s) (endpoints s)
     (packet_identifiers s).
Definition set_body_max (s : t) v :=
  mk (identifier s) (session_protocol s) (header_size s) v (read s) (repeat s)
     (packet_sample_rate s) (shards s) (port s) (handler_value s) (endpoints s)
     (packet_identifiers s).
Definition set_read (s : t) v :=
  mk (identifier s) (session_protocol s) (header_size s) (body_max s) v (repeat s)
     (packet_sample_rate s) (shards s) (port s) (handler_value s) (endpoints s)
     (packet_identifiers s).
Definition set_repeat (s : t) v :=
  mk (identifier s) (session_protocol s) (header_size s) (body_max s) (read s) v
     (packet_sample_rate s) (shards s) (port s) (handler_value s) (endpoints s)
     (packet_identifiers s).
Definition set_packet_sample_rate (s : t) v :=
  mk (identifier s) (session_protocol s) (header_size s) (body_max s) (read s)
     (repeat s) v (shards s) (port s) (handler_value s) (endpoints s)
     (packet_identifiers s).
Definition set_shards (s : t) v :=
  mk (identifier s) (session_protocol s) (header_size s) (body_max s) (read s)
     (repeat s) (packet_sample_rate s) v (port s) (handler_value s) (endpoints s)
     (packet_identifiers s).
Definition set_port (s : t) v :=
  mk (identifier s) (session_protocol s) (header_size s) (body_max s) (read s)
     (repeat s) (packet_sample_rate s) (shards s) v (handler_value s) (endpoints s)
     (packet_identifiers s).
Definition set_handler_value (s : t) v :=
  mk (identifier s) (session_protocol s) (header_size s) (body_max s) (read s)
     (repeat s) (packet_sample_rate s) (shards s) (port s) v (endpoints s)
     (packet_identifiers s).
Definition set_endpoints (s : t) v :=
  mk (identifier s) (session_protocol s) (header_size s) (body_max s) (read s)
     (repeat s) (packet_sample_rate s) (shards s) (port s) (handler_value s) v
     (packet_identifiers s).
Definition set_packet_identifiers (s : t) v :=
  mk (identifier s) (session_protocol s) (header_size s) (body_max s) (read s)
     (repeat s) (packet_sample_rate s) (shards s) (port s) (handler_value s)
     (endpoints s) v.
End Settings.

Module Orchestrator_block.
Record t : Type := mk {
  settings_identifier : string;
  actions : list Action.t
}.

Definition fresh : t := mk EmptyString [].

Definition push_action (o : t) (a : Action.t) : t :=
  mk (settings_identifier o) (actions o ++ [a]).
Definition set_settings_identifier (o : t) v : t := mk v (actions o).
End Orchestrator_block.

(** [struct DSLData]: one settings block and one orchestrator block. *)
Module DSLData.
Record t : Type := mk {
  settings : Settings.t;
  orchestrator : Orchestrator_block.t
}.

Definition fresh (garbage_header garbage_body : Z) : t :=
  mk (Settings.fresh garbage_header garbage_body) Orchestrator_block.fresh.

Definition set_settings (d : t) v : t := mk v (orchestrator d).
Definition set_orchestrator (d : t) v : t := mk (settings d) v.
End DSLData.

Lemma ttype_eqb_eq x y : TokenType.eqb x y = true <-> x = y.
Proof. apply bool_decide_eq_true. Qed.
