(* ===== verification/Lexer.v ===== *)
(** * The lexer (src/interpreter/lexer.{h,cpp})

    [Lexer.t] is the lexer object; every method of the class is a definition
    of the same name.  The [while] loops are fixpoints on fuel, and
    [Lexer.fuel] (one more than the length of the script) is enough for each
    of them: [tokenize_returns]. *)

From S2P Require Import Prelude Diagnostics Script.

Module Lexer.

(** ** The object and its methods *)

Record t : Type := mk {
  script_source_ : string;
  pos_ : nat;
  line_ : Z;
  col_ : Z
}.

(** The constructor and the default member initialisers. *)
Definition init (source : string) : t := mk source 0 1 1.

Definition size (l : t) : nat := String.length (script_source_ l).

(** [script_source_[i]]: reading at [size()] gives the terminator. *)
Definition char_at (s : string) (i : nat) : ascii :=
  match String.get i s with Some c => c | None => NUL end.

Definition jump_next_line (l : t) : t :=
  mk (script_source_ l) (pos_ l) (line_ l + 1) 1.

Definition peek (l : t) : ascii :=
  if Nat.ltb (size l) (pos_ l) then NUL else char_at (script_source_ l) (pos_ l).

Definition peek_next (l : t) : ascii :=
  if Nat.ltb (size l) (pos_ l + 1) then NUL
  else char_at (script_source_ l) (pos_ l + 1).

Definition eof (l : t) : bool := Nat.leb (size l) (pos_ l).

Definition advance (l : t) : ascii * t :=
  if Nat.leb (size l) (pos_ l) then (NUL, l)
  else
    let c := char_at (script_source_ l) (pos_ l) in
    let l := mk (script_source_ l) (pos_ l + 1) (line_ l) (col_ l) in
    if char_eqb c NEWLINE then (c, jump_next_line l)
    else (c, mk (script_source_ l) (pos_ l) (line_ l) (col_ l + 1)).

(** [advance()] with its result dropped. *)
Definition skip (l : t) : t := snd (advance l).

Definition fuel (l : t) : nat := S (size l).

(** The inner loop of [skip_ignorable]: the rest of a comment. *)
Fixpoint skip_comment (n : nat) (l : t) : outcome t :=
  match n with
  | O => NoFuel
  | S n =>
      if negb (eof l) && negb (char_eqb (peek l) NEWLINE)
      then skip_comment n (skip l)
      else Ok l
  end.

Fixpoint skip_ignorable_loop (n : nat) (l : t) : outcome t :=
  match n with
  | O => NoFuel
  | S n =>
      if eof l then Ok l
      else
        let c := peek l in
        if char_eqb c " "%char || char_eqb c TAB || char_eqb c CR
        then skip_ignorable_loop n (skip l)
        else if char_eqb c NEWLINE
        then skip_ignorable_loop n (skip l)
        else if char_eqb c "/"%char && char_eqb (peek_next l) "/"%char
        then
          let! l := skip_comment (fuel l) (skip (skip l)) in
          skip_ignorable_loop n l
        else Ok l
  end.

Definition skip_ignorable (l : t) : outcome t := skip_ignorable_loop (fuel l) l.

Definition make_token (type : TokenType.t) (text : string) (line column : Z) : Token.t :=
  Token.mk type text line column.

(** The body of a quoted value, up to the closing quote or the end. *)
Fixpoint read_quoted (n : nat) (l : t) (value : string) : outcome (t * string) :=
  match n with
  | O => NoFuel
  | S n =>
      if negb (eof l) && negb (char_eqb (peek l) DQUOTE)
      then
        let '(next_c, l) := advance l in
        if char_eqb next_c BACKSLASH && char_eqb (peek l) DQUOTE
        then read_quoted n (skip l) (push_back value DQUOTE)
        else if char_eqb next_c BACKSLASH && char_eqb (peek l) "$"%char
        then read_quoted n (skip l) (push_back value "$"%char)
        else read_quoted n l (push_back value next_c)
      else Ok (l, value)
  end.

(** The two scanning loops for identifiers and numbers differ only in the
    characters they accept. *)
Fixpoint read_while (accept : ascii -> bool) (n : nat) (l : t) (text : string)
  : outcome (t * string) :=
  match n with
  | O => NoFuel
  | S n =>
      if eof l then Ok (l, text)
      else if accept (peek l)
      then let '(c, l) := advance l in read_while accept n l (push_back text c)
      else Ok (l, text)
  end.

Definition ident_char (c : ascii) : bool := isalnum c || char_eqb c "_"%char.

Definition value_char (c : ascii) : bool := isalnum c || char_eqb c "."%char.

Definition eof_error (l : t) : string :=
  "Reached EOF at " +:+ location (line_ l) (col_ l) +:+ " (expected '"
  +:+ styled_string (char_string DQUOTE) PrintStyle.Expected +:+ "')".

Definition bad_char_error (bad_c : ascii) (l : t) : string :=
  "Invalid character "
  +:+ styled_string ("'" +:+ char_string bad_c +:+ "'") PrintStyle.BadValue
  +:+ " at " +:+ location (line_ l) (col_ l).

(** One iteration of [tokenize] after [skip_ignorable], not at the end of the
    script: the token found and the lexer after it. *)
Definition next_token (l : t) : outcome (Token.t * t) :=
  let token_line := line_ l in
  let token_col := col_ l in
  let c := peek l in
  if char_eqb c "{"%char then
    Ok (make_token TokenType.BraceOpen "{" token_line token_col, skip l)
  else if char_eqb c "}"%char then
    Ok (make_token TokenType.BraceClosed "}" token_line token_col, skip l)
  else if existsb (char_eqb c) VALID_TOKEN_OPERATORS then
    let '(op, l) := advance l in
    Ok (make_token TokenType.Operator (char_string op) token_line token_col, l)
  else if char_eqb c DQUOTE then
    let! (l, value) := read_quoted (fuel l) (skip l) EmptyString in
    if eof l then Err (eof_error (skip l))
    else Ok (make_token TokenType.Value value token_line token_col, skip l)
  else if isalpha c then
    let! (l, ident_str) := read_while ident_char (fuel l) l EmptyString in
    if str_mem ident_str VALID_KEYWORDS
    then Ok (make_token TokenType.Keyword ident_str token_line token_col, l)
    else Ok (make_token TokenType.Identity ident_str token_line token_col, l)
  else if isdigit c then
    let! (l, value) := read_while value_char (fuel l) l EmptyString in
    Ok (make_token TokenType.Value value token_line token_col, l)
  else
    let '(bad_c, l) := advance l in
    Err (bad_char_error bad_c l).

Fixpoint tokenize_loop (n : nat) (l : t) (tokens : list Token.t)
  : outcome (list Token.t) :=
  match n with
  | O => NoFuel
  | S n =>
      if eof l then Ok tokens
      else
        let! l := skip_ignorable l in
        if eof l then Ok tokens
        else
          let! (tok, l) := next_token l in
          tokenize_loop n l (tokens ++ [tok])
  end.

Definition tokenize (source : string) : outcome (list Token.t) :=
  let l := init source in
  tokenize_loop (fuel l) l [].

End Lexer.
