(* ===== verification/LexerFacts.v ===== *)
(** * What the lexer computes

    Positions: every lexer state the methods go through is [at_pos src p], so
    the line and column of a state are those of its offset.  The scanning loops
    are then related to functions on the characters that remain, which gives
    termination, the shape of the tokens and the print/lex round trip. *)

From S2P Require Import Prelude Diagnostics Script Lexer.

Abbreviation chars := String.list_ascii_of_string.
Abbreviation implode := String.string_of_list_ascii.

(** ** Strings as lists of characters *)

Lemma chars_implode l : chars (implode l) = l.
Proof. apply String.list_ascii_of_string_of_list_ascii. Qed.

Lemma implode_chars s : implode (chars s) = s.
Proof. apply String.string_of_list_ascii_of_string. Qed.

Lemma chars_app a b : chars (a +:+ b) = chars a ++ chars b.
Proof. induction a; simpl; congruence. Qed.

Lemma chars_length s : length (chars s) = String.length s.
Proof. induction s; simpl; congruence. Qed.

Lemma chars_inj a b : chars a = chars b -> a = b.
Proof. intros H. by rewrite <- (implode_chars a), H, implode_chars. Qed.

Lemma chars_push_back s c : chars (push_back s c) = chars s ++ [c].
Proof. apply chars_app. Qed.

Lemma push_back_app v c s : push_back v c +:+ s = v +:+ String c s.
Proof. apply string_app_assoc. Qed.

Lemma get_chars i s : String.get i s = chars s !! i.
Proof. revert i. induction s as [|c s IH]; intros [|i]; simpl; auto. Qed.

(** ** Positions *)

Definition is_newline (c : ascii) : bool := char_eqb c NEWLINE.

(** The line of offset [p]: one more than the newlines before it. *)
Definition line_of (cs : list ascii) (p : nat) : Z :=
  1 + Z.of_nat (length (List.filter is_newline (take p cs))).

(** The characters since the last newline. *)
Definition last_line (cs : list ascii) : list ascii :=
  fold_left (fun acc c => if is_newline c then [] else acc ++ [c]) cs [].

(** The column of offset [p]: one more than the characters between the last
    newline and it. *)
Definition col_of (cs : list ascii) (p : nat) : Z :=
  1 + Z.of_nat (length (last_line (take p cs))).

Lemma line_of_S cs p c :
  cs !! p = Some c -> line_of cs (S p) = line_of cs p + (if is_newline c then 1 else 0).
Proof.
  intros H. unfold line_of. rewrite (take_S_r _ _ _ H), List.filter_app, length_app.
  simpl. destruct (is_newline c); simpl; lia.
Qed.

Lemma col_of_S cs p c :
  cs !! p = Some c -> col_of cs (S p) = if is_newline c then 1 else col_of cs p + 1.
Proof.
  intros H. unfold col_of, last_line. rewrite (take_S_r _ _ _ H), fold_left_app. simpl.
  destruct (is_newline c); [done|]. rewrite length_app. simpl. lia.
Qed.

(** The lexer at offset [p] of the script. *)
Definition at_pos (src : string) (p : nat) : Lexer.t :=
  Lexer.mk src p (line_of (chars src) p) (col_of (chars src) p).

(** The characters that remain at offset [p]. *)
Definition rest (src : string) (p : nat) : list ascii := drop p (chars src).

Section States.
Context (src : string).

Lemma rest_lookup p c s : rest src p = c :: s -> chars src !! p = Some c.
Proof.
  intros H. rewrite <- (Nat.add_0_r p), <- lookup_drop. unfold rest in H. by rewrite H.
Qed.

Lemma rest_S p c s : rest src p = c :: s -> rest src (S p) = s.
Proof.
  unfold rest. intros H. rewrite <- Nat.add_1_r, <- drop_drop, H. done.
Qed.

Lemma rest_add p k s1 s2 :
  rest src p = s1 ++ s2 -> k = length s1 -> rest src (p + k) = s2.
Proof. unfold rest. intros H ->. by rewrite <- drop_drop, H, drop_app_length. Qed.

Lemma rest_nil p : rest src p = [] -> (String.length src <= p)%nat.
Proof.
  unfold rest. intros H%(f_equal length). rewrite length_drop, chars_length in H.
  simpl in H. lia.
Qed.

Lemma rest_length p : length (rest src p) = (String.length src - p)%nat.
Proof. unfold rest. by rewrite length_drop, chars_length. Qed.

Lemma rest_lt p c s : rest src p = c :: s -> (p < String.length src)%nat.
Proof. intros H%(f_equal length). rewrite rest_length in H. simpl in H. lia. Qed.

Lemma eof_at p : Lexer.eof (at_pos src p) = bool_decide (rest src p = []).
Proof.
  unfold Lexer.eof, Lexer.size. simpl.
  destruct (rest src p) as [|c s] eqn:E.
  - rewrite bool_decide_true by done. apply Nat.leb_le, rest_nil, E.
  - rewrite bool_decide_false by done. apply Nat.leb_gt, (rest_lt _ _ _ E).
Qed.

Lemma peek_at p : Lexer.peek (at_pos src p) = default NUL (head (rest src p)).
Proof.
  unfold Lexer.peek, Lexer.size, Lexer.char_at. simpl. rewrite get_chars.
  destruct (rest src p) as [|c s] eqn:E; simpl.
  - apply rest_nil in E. destruct (Nat.ltb_spec (String.length src) p); [done|].
    rewrite lookup_ge_None_2; [done|]. rewrite chars_length. lia.
  - rewrite (rest_lookup _ _ _ E). apply rest_lt in E.
    destruct (Nat.ltb_spec (String.length src) p); [lia | done].
Qed.

Lemma peek_next_at p c s :
  rest src p = c :: s -> Lexer.peek_next (at_pos src p) = default NUL (head s).
Proof.
  intros E. unfold Lexer.peek_next, Lexer.size, Lexer.char_at. simpl. rewrite get_chars.
  pose proof (rest_lt _ _ _ E). pose proof (rest_S _ _ _ E) as E'.
  rewrite Nat.add_1_r.
  destruct (Nat.ltb_spec (String.length src) (S p)); [lia|].
  destruct s as [|d s]; simpl.
  - apply rest_nil in E'. rewrite lookup_ge_None_2; [done|]. rewrite chars_length. lia.
  - by rewrite (rest_lookup _ _ _ E').
Qed.

(** [advance] moves to the next offset, whose line and column it computes. *)
Lemma advance_at p c s :
  rest src p = c :: s -> Lexer.advance (at_pos src p) = (c, at_pos src (S p)).
Proof.
  intros E. pose proof (rest_lt _ _ _ E) as Hlt. pose proof (rest_lookup _ _ _ E) as Hl.
  unfold Lexer.advance, Lexer.size, Lexer.char_at. simpl.
  destruct (Nat.leb_spec (String.length src) p); [lia|].
  rewrite get_chars, Hl. unfold Lexer.jump_next_line, at_pos. simpl.
  rewrite (line_of_S _ _ _ Hl), (col_of_S _ _ _ Hl), Nat.add_1_r.
  unfold is_newline. destruct (char_eqb c NEWLINE); [done|]. by rewrite Z.add_0_r.
Qed.

Lemma skip_at p c s :
  rest src p = c :: s -> Lexer.skip (at_pos src p) = at_pos src (S p).
Proof. intros E. unfold Lexer.skip. by rewrite (advance_at _ _ _ E). Qed.

Lemma init_at : Lexer.init src = at_pos src 0.
Proof. reflexivity. Qed.

Lemma fuel_at p : Lexer.fuel (at_pos src p) = S (String.length src).
Proof. reflexivity. Qed.
End States.

#[global] Arguments Lexer.fuel : simpl never.
#[global] Arguments at_pos : simpl never.

(** ** The scanning loops as functions on the remaining characters *)

Fixpoint comment_len (s : list ascii) : nat :=
  match s with
  | [] => 0
  | c :: s => if is_newline c then 0 else S (comment_len s)
  end.

Definition is_blank (c : ascii) : bool :=
  char_eqb c " "%char || char_eqb c TAB || char_eqb c CR || is_newline c.

(** The white space and comments at the front, [cm] when inside a comment. *)
Fixpoint ignorable_len (cm : bool) (s : list ascii) : nat :=
  match s with
  | [] => 0
  | c :: s =>
      if cm then S (ignorable_len (negb (is_newline c)) s)
      else if is_blank c then S (ignorable_len false s)
      else if char_eqb c "/"%char && char_eqb (default NUL (head s)) "/"%char
      then S (ignorable_len true s)
      else 0
  end.

(** The value of a quoted literal after its opening quote, and its length. *)
Fixpoint quoted (s : list ascii) : list ascii * nat :=
  match s with
  | [] => ([], 0%nat)
  | c :: s =>
      if char_eqb c DQUOTE then ([], 0%nat)
      else
        match s with
        | d :: s' =>
            if char_eqb c BACKSLASH && (char_eqb d DQUOTE || char_eqb d "$"%char)
            then let '(v, k) := quoted s' in (d :: v, S (S k))
            else let '(v, k) := quoted s in (c :: v, S k)
        | [] => ([c], 1%nat)
        end
  end.

Fixpoint take_while (accept : ascii -> bool) (s : list ascii) : list ascii :=
  match s with
  | [] => []
  | c :: s => if accept c then c :: take_while accept s else []
  end.

Lemma take_while_prefix accept s :
  s = take_while accept s ++ drop (length (take_while accept s)) s.
Proof. induction s as [|c s IH]; simpl; [done|]. destruct (accept c); simpl; congruence. Qed.

Lemma take_while_length accept s : (length (take_while accept s) <= length s)%nat.
Proof. induction s as [|c s IH]; simpl; [done|]. destruct (accept c); simpl; lia. Qed.

Lemma take_while_Forall accept s : Forall (fun c => accept c = true) (take_while accept s).
Proof. induction s as [|c s IH]; simpl; [done|]. destruct (accept c) eqn:E; auto. Qed.

Lemma take_while_app accept s1 s2 :
  Forall (fun c => accept c = true) s1 -> accept (default NUL (head s2)) = false ->
  take_while accept (s1 ++ s2) = s1.
Proof.
  intros H1 H2. induction H1 as [|c s1 Hc _ IH]; simpl; [|by rewrite Hc, IH].
  destruct s2 as [|d s2]; simpl in *; [done | by rewrite H2].
Qed.

Lemma quoted_plain c s :
  char_eqb c DQUOTE = false ->
  char_eqb c BACKSLASH && (char_eqb (default NUL (head s)) DQUOTE
                           || char_eqb (default NUL (head s)) "$"%char) = false ->
  quoted (c :: s) = (c :: fst (quoted s), S (snd (quoted s))).
Proof.
  intros H1 H2. destruct s as [|d s]; [by simpl; rewrite H1|].
  change (quoted (c :: d :: s)) with
    (if char_eqb c DQUOTE then ([], 0%nat)
     else if char_eqb c BACKSLASH && (char_eqb d DQUOTE || char_eqb d "$"%char)
          then let '(v, k) := quoted s in (d :: v, S (S k))
          else let '(v, k) := quoted (d :: s) in (c :: v, S k)).
  simpl default in H2. rewrite H1, H2. by destruct (quoted (d :: s)).
Qed.

Lemma quoted_escape d s :
  char_eqb d DQUOTE || char_eqb d "$"%char = true ->
  quoted (BACKSLASH :: d :: s) = (d :: fst (quoted s), S (S (snd (quoted s)))).
Proof.
  intros H. cbn [quoted].
  change (char_eqb BACKSLASH DQUOTE) with false.
  change (char_eqb BACKSLASH BACKSLASH) with true. rewrite H. cbn [andb].
  by destruct (quoted s).
Qed.

(** Induction along the escapes of a quoted literal. *)
Lemma quoted_ind (P : list ascii -> Prop) :
  P [] -> (forall s, P (DQUOTE :: s)) ->
  (forall c s,
      char_eqb c DQUOTE = false ->
      char_eqb c BACKSLASH && (char_eqb (default NUL (head s)) DQUOTE
                               || char_eqb (default NUL (head s)) "$"%char) = false ->
      P s -> P (c :: s)) ->
  (forall d s, char_eqb d DQUOTE || char_eqb d "$"%char = true ->
      P s -> P (BACKSLASH :: d :: s)) ->
  forall s, P s.
Proof.
  intros Hnil Hq Hp He s.
  induction s as [s IH] using (induction_ltof1 _ (@length _)); unfold ltof in IH.
  destruct s as [|c s]; [done|].
  destruct (char_eqb c DQUOTE) eqn:E1; [apply char_eqb_eq in E1 as ->; apply Hq|].
  destruct (char_eqb c BACKSLASH && (char_eqb (default NUL (head s)) DQUOTE
                               || char_eqb (default NUL (head s)) "$"%char)) eqn:E2.
  - apply andb_true_iff in E2 as [E2 E3]. apply char_eqb_eq in E2 as ->.
    destruct s as [|d s]; [done|]. apply He; [done|]. apply IH. simpl. lia.
  - apply Hp; [done | done |]. apply IH. simpl. lia.
Qed.

Lemma quoted_length s : (snd (quoted s) <= length s)%nat.
Proof.
  induction s as [|s|c s H1 H2 IH|d s H IH] using quoted_ind; [done | simpl; lia | |].
  - rewrite quoted_plain by done. simpl. lia.
  - rewrite quoted_escape by done. simpl. lia.
Qed.

Lemma ignorable_comment s :
  ignorable_len true s = (comment_len s + ignorable_len false (drop (comment_len s) s))%nat.
Proof.
  induction s as [|c s IH]; simpl; [done|].
  destruct (is_newline c) eqn:E; simpl; [|by rewrite IH].
  unfold is_blank. by rewrite E, !orb_true_r.
Qed.

(** What [skip_ignorable] stops at is not ignorable. *)
Definition not_ignorable (s : list ascii) : Prop := ignorable_len false s = 0%nat.

Lemma ignorable_done cm s : not_ignorable (drop (ignorable_len cm s) s).
Proof.
  unfold not_ignorable. revert cm. induction s as [|c s IH]; intros cm; simpl; [done|].
  destruct cm; [apply IH|]. destruct (is_blank c) eqn:E1; [apply IH|].
  destruct (char_eqb c "/"%char && _) eqn:E2; [apply IH|]. simpl. by rewrite E1, E2.
Qed.

Lemma ignorable_length cm s : (ignorable_len cm s <= length s)%nat.
Proof.
  revert cm. induction s as [|c s IH]; intros cm; simpl; [done|].
  destruct cm; [specialize (IH (negb (is_newline c))); lia|].
  destruct (is_blank c); [specialize (IH false); lia|].
  destruct (_ && _); [specialize (IH true); lia | lia].
Qed.

(** ** The methods, on the remaining characters *)

Section Loops.
Context (src : string).

Lemma skip_comment_at n p :
  (length (rest src p) < n)%nat ->
  Lexer.skip_comment n (at_pos src p) = Ok (at_pos src (p + comment_len (rest src p))).
Proof.
  revert p. induction n as [|n IH]; intros p Hn; [lia|]. simpl.
  rewrite eof_at, peek_at. destruct (rest src p) as [|c s] eqn:E; simpl.
  - by rewrite Nat.add_0_r.
  - fold (is_newline c). destruct (is_newline c); simpl; [by rewrite Nat.add_0_r|].
    rewrite (skip_at _ _ _ _ E), IH by (rewrite (rest_S _ _ _ _ E); simpl in Hn; lia).
    by rewrite (rest_S _ _ _ _ E), Nat.add_succ_comm.
Qed.

Lemma skip_ignorable_loop_at n p :
  (length (rest src p) < n)%nat ->
  Lexer.skip_ignorable_loop n (at_pos src p)
  = Ok (at_pos src (p + ignorable_len false (rest src p))).
Proof.
  revert p. induction n as [|n IH]; intros p Hn; [lia|]. cbn [Lexer.skip_ignorable_loop].
  rewrite eof_at, peek_at. destruct (rest src p) as [|c s] eqn:E.
  { simpl. by rewrite Nat.add_0_r. }
  rewrite bool_decide_false by done. cbn [ignorable_len].
  change (default NUL (head (c :: s))) with c.
  pose proof (rest_S _ _ _ _ E) as E1. simpl in Hn.
  assert (Hstep : Lexer.skip_ignorable_loop n (at_pos src (S p))
                  = Ok (at_pos src (p + S (ignorable_len false s)))).
  { rewrite IH by (rewrite E1; lia). by rewrite E1, Nat.add_succ_comm. }
  unfold is_blank. rewrite (skip_at _ _ _ _ E). fold (is_newline c).
  destruct (char_eqb c " "%char || char_eqb c TAB || char_eqb c CR); [done|].
  destruct (is_newline c); [done|]. cbn [orb].
  rewrite (peek_next_at _ _ _ _ E).
  destruct (char_eqb c "/"%char); [|by rewrite Nat.add_0_r]. cbn [andb].
  destruct (char_eqb (default NUL (head s)) "/"%char) eqn:E3;
    [|by rewrite Nat.add_0_r].
  destruct s as [|d s]; [done|]. simpl in E3. apply char_eqb_eq in E3 as ->.
  pose proof (rest_S _ _ _ _ E1) as E2. simpl in Hn.
  rewrite (skip_at _ _ _ _ E1), fuel_at, skip_comment_at
    by (rewrite rest_length; lia). cbn [obind].
  rewrite E2, IH.
  - f_equal. f_equal. unfold rest. rewrite <- drop_drop. fold (rest src (S (S p))).
    rewrite E2. simpl ignorable_len. rewrite ignorable_comment. lia.
  - rewrite rest_length. apply (f_equal length) in E2. rewrite rest_length in E2.
    lia.
Qed.

Lemma skip_ignorable_at p :
  Lexer.skip_ignorable (at_pos src p)
  = Ok (at_pos src (p + ignorable_len false (rest src p))).
Proof. apply skip_ignorable_loop_at. rewrite rest_length, fuel_at. lia. Qed.

Lemma read_quoted_at n p v :
  (length (rest src p) < n)%nat ->
  Lexer.read_quoted n (at_pos src p) v
  = Ok (at_pos src (p + snd (quoted (rest src p))),
        v +:+ implode (fst (quoted (rest src p)))).
Proof.
  remember (rest src p) as r eqn:E. symmetry in E. revert n p v E.
  induction r as [|s|c s H1 H2 IH|d s H IH] using quoted_ind; intros n p v E Hn;
    (destruct n as [|n]; [simpl in Hn; lia|]); cbn [Lexer.read_quoted];
    rewrite eof_at, peek_at, E; simpl default.
  - simpl. by rewrite Nat.add_0_r, string_app_nil_r.
  - simpl. by rewrite Nat.add_0_r, string_app_nil_r.
  - pose proof (rest_S _ _ _ _ E) as E1.
    rewrite bool_decide_false by done. rewrite H1. cbn [negb andb].
    rewrite (advance_at _ _ _ _ E), peek_at, E1. rewrite quoted_plain by done.
    rewrite andb_orb_distrib_r in H2. apply orb_false_iff in H2 as [H2 H3].
    rewrite H2, H3, (IH n) by (done || (simpl in Hn; lia)). simpl.
    by rewrite push_back_app, Nat.add_succ_r.
  - pose proof (rest_S _ _ _ _ E) as E1. pose proof (rest_S _ _ _ _ E1) as E2.
    rewrite bool_decide_false by done.
    change (char_eqb BACKSLASH DQUOTE) with false. cbn [negb andb].
    rewrite (advance_at _ _ _ _ E), peek_at, E1. simpl default.
    change (char_eqb BACKSLASH BACKSLASH) with true. cbn [andb].
    rewrite quoted_escape by done. rewrite (skip_at _ _ _ _ E1). simpl fst. simpl snd.
    rewrite !(IH n) by (done || (simpl in Hn; lia)).
    rewrite !Nat.add_succ_r. simpl Nat.add.
    destruct (char_eqb d DQUOTE) eqn:Ed; simpl in H; [apply char_eqb_eq in Ed as ->|].
    + by rewrite push_back_app.
    + rewrite H. apply char_eqb_eq in H as ->. by rewrite push_back_app.
Qed.

Lemma read_while_at accept n p v :
  (length (rest src p) < n)%nat ->
  Lexer.read_while accept n (at_pos src p) v
  = Ok (at_pos src (p + length (take_while accept (rest src p))),
        v +:+ implode (take_while accept (rest src p))).
Proof.
  revert p v. induction n as [|n IH]; intros p v Hn; [lia|]. cbn [Lexer.read_while].
  rewrite eof_at, peek_at. destruct (rest src p) as [|c s] eqn:E; simpl.
  - by rewrite Nat.add_0_r, string_app_nil_r.
  - destruct (accept c); simpl; [|by rewrite Nat.add_0_r, string_app_nil_r].
    pose proof (rest_S _ _ _ _ E) as E1. simpl in Hn.
    rewrite (advance_at _ _ _ _ E), IH by (rewrite E1; lia).
    by rewrite E1, push_back_app, Nat.add_succ_r.
Qed.
End Loops.

(** ** One token *)

(** The token at the front of the remaining characters: its type, its text and
    the number of characters it takes; [None] when there is none. *)
Definition scan_token (s : list ascii) : option (TokenType.t * list ascii * nat) :=
  match s with
  | [] => None
  | c :: r =>
      if char_eqb c "{"%char then Some (TokenType.BraceOpen, [c], 1%nat)
      else if char_eqb c "}"%char then Some (TokenType.BraceClosed, [c], 1%nat)
      else if existsb (char_eqb c) VALID_TOKEN_OPERATORS
      then Some (TokenType.Operator, [c], 1%nat)
      else if char_eqb c DQUOTE then
        if Nat.ltb (snd (quoted r)) (length r)
        then Some (TokenType.Value, fst (quoted r), S (S (snd (quoted r))))
        else None
      else if isalpha c then
        let w := take_while Lexer.ident_char s in
        Some (if str_mem (implode w) VALID_KEYWORDS then TokenType.Keyword
              else TokenType.Identity, w, length w)
      else if isdigit c then
        let w := take_while Lexer.value_char s in
        Some (TokenType.Value, w, length w)
      else None
  end.

Section Tokens.
Context (src : string).

Definition token_at (p : nat) (ty : TokenType.t) (tx : list ascii) : Token.t :=
  Token.mk ty (implode tx) (line_of (chars src) p) (col_of (chars src) p).

Lemma next_token_at p :
  rest src p <> [] ->
  match scan_token (rest src p) with
  | Some (ty, tx, k) =>
      Lexer.next_token (at_pos src p) = Ok (token_at p ty tx, at_pos src (p + k))
  | None => is_err (Lexer.next_token (at_pos src p)) = true
  end.
Proof.
  intros Hne. unfold Lexer.next_token. rewrite peek_at.
  destruct (rest src p) as [|c s] eqn:E; [done|]. clear Hne.
  change (default NUL (head (c :: s))) with c. cbn [scan_token].
  rewrite (skip_at _ _ _ _ E), (advance_at _ _ _ _ E).
  pose proof (rest_S _ _ _ _ E) as E1.
  destruct (char_eqb c "{"%char) eqn:Eo.
  { apply char_eqb_eq in Eo as ->. by rewrite Nat.add_1_r. }
  destruct (char_eqb c "}"%char) eqn:Ec.
  { apply char_eqb_eq in Ec as ->. by rewrite Nat.add_1_r. }
  destruct (existsb _ _); [by rewrite Nat.add_1_r|].
  destruct (char_eqb c DQUOTE).
  { rewrite fuel_at, read_quoted_at by (rewrite rest_length; lia). rewrite E1.
    cbn [obind]. rewrite eof_at.
    pose proof (rest_length src (S p + snd (quoted s))) as Hr.
    pose proof (rest_length src (S p)) as Hs. rewrite E1 in Hs.
    pose proof (quoted_length s).
    destruct (Nat.ltb_spec (snd (quoted s)) (length s)) as [Hlt|Hge].
    - rewrite bool_decide_false by (intros Hn; rewrite Hn in Hr; simpl in Hr; lia).
      destruct (rest src (S p + snd (quoted s))) as [|d r] eqn:Er; [simpl in Hr; lia|].
      rewrite (skip_at _ _ _ _ Er).
      replace (p + S (S (snd (quoted s))))%nat with (S (S p + snd (quoted s))) by lia.
      done.
    - rewrite bool_decide_true; [done|].
      apply nil_length_inv. lia. }
  destruct (isalpha c).
  { rewrite fuel_at, read_while_at by (rewrite rest_length; lia). rewrite E.
    cbn [obind]. simpl (EmptyString +:+ _).
    by destruct (str_mem _ _). }
  destruct (isdigit c); [|done].
  rewrite fuel_at, read_while_at by (rewrite rest_length; lia). by rewrite E.
Qed.

Lemma scan_token_length s ty tx k :
  scan_token s = Some (ty, tx, k) -> (0 < k <= length s)%nat.
Proof.
  destruct s as [|c r]; [done|]. cbn [scan_token].
  assert (Hw : forall accept, accept c = true ->
            (0 < length (take_while accept (c :: r)) <= S (length r))%nat).
  { intros accept Hc. pose proof (take_while_length accept r). simpl. rewrite Hc.
    simpl. lia. }
  repeat match goal with
  | |- (if ?b then _ else _) = _ -> _ => destruct b eqn:?
  end; intros [= <- <- <-]; simpl; try lia.
  - apply Nat.ltb_lt in Heqb3. lia.
  - apply (Hw Lexer.ident_char). unfold Lexer.ident_char, isalnum. by rewrite Heqb3.
  - apply (Hw Lexer.value_char). unfold Lexer.value_char, isalnum.
    by rewrite Heqb4, orb_true_r.
Qed.
End Tokens.

(** ** The whole script

    [lexes src p ts]: from offset [p] to the end of the script stand the
    tokens [ts], separated by white space and comments. *)
Inductive lexes (src : string) : nat -> list Token.t -> Prop :=
| lexes_end p :
    rest src (p + ignorable_len false (rest src p)) = [] -> lexes src p []
| lexes_token p q ty tx k ts :
    q = (p + ignorable_len false (rest src p))%nat ->
    scan_token (rest src q) = Some (ty, tx, k) ->
    lexes src (q + k) ts -> lexes src p (token_at src q ty tx :: ts).

Lemma tokenize_loop_at src n p acc :
  (length (rest src p) < n)%nat ->
  match Lexer.tokenize_loop n (at_pos src p) acc with
  | Ok ts => exists ts', lexes src p ts' /\ ts = acc ++ ts'
  | Err _ => forall ts, ~ lexes src p ts
  | Undef | NoFuel => False
  end.
Proof.
  revert p acc. induction n as [|n IH]; intros p acc Hn; [lia|].
  cbn [Lexer.tokenize_loop]. rewrite eof_at.
  destruct (bool_decide_reflect (rest src p = [])) as [E|E].
  { exists []. rewrite app_nil_r. split; [|done]. constructor.
    rewrite E. simpl. by rewrite Nat.add_0_r, E. }
  rewrite skip_ignorable_at. cbn [obind]. rewrite eof_at.
  set (q := (p + ignorable_len false (rest src p))%nat).
  destruct (bool_decide_reflect (rest src q = [])) as [Eq|Eq].
  { exists []. rewrite app_nil_r. split; [by constructor | done]. }
  pose proof (next_token_at src q Eq) as Hnext.
  destruct (scan_token (rest src q)) as [[[ty tx] k]|] eqn:Es.
  - rewrite Hnext. cbn [obind].
    pose proof (scan_token_length _ _ _ _ Es) as Hk.
    rewrite rest_length in Hk. rewrite rest_length in Hn.
    specialize (IH (q + k)%nat (acc ++ [token_at src q ty tx])).
    rewrite rest_length in IH. specialize (IH ltac:(lia)).
    destruct (Lexer.tokenize_loop _ _ _) as [ts|e| |]; [| |done..].
    + destruct IH as (ts' & Hl & ->). exists (token_at src q ty tx :: ts').
      split; [by econstructor | by rewrite <- app_assoc].
    + intros ts Hl. inversion Hl as [|? q' ? ? ? ts' Hq Hs Hl']; subst.
      * done.
      * fold q in Hs, Hl'. rewrite Es in Hs. injection Hs as <- <- <-. by eapply IH.
  - destruct (Lexer.next_token (at_pos src q)) as [| e | |]; try done. cbn [obind].
    intros ts Hl. inversion Hl as [|? q' ? ? ? ts' Hq Hs Hl']; subst; [done|].
    fold q in Hs. by rewrite Es in Hs.
Qed.

Lemma tokenize_at src :
  match Lexer.tokenize src with
  | Ok ts => lexes src 0 ts
  | Err _ => forall ts, ~ lexes src 0 ts
  | Undef | NoFuel => False
  end.
Proof.
  unfold Lexer.tokenize. rewrite init_at, fuel_at.
  pose proof (tokenize_loop_at src (S (String.length src)) 0 []) as H.
  rewrite rest_length in H. specialize (H ltac:(lia)).
  destruct (Lexer.tokenize_loop _ _ _); [|done..].
  destruct H as (ts' & Hl & ->). done.
Qed.

Lemma lexes_deterministic src p ts1 ts2 :
  lexes src p ts1 -> lexes src p ts2 -> ts1 = ts2.
Proof.
  intros H1. revert ts2. induction H1 as [p E|p q ty tx k ts Hq Hs H IH]; intros ts2 H2;
    inversion H2 as [|? q' ? ? ? ts' Hq' Hs' H']; subst; try done.
  - by rewrite E in Hs'.
  - by rewrite H0 in Hs.
  - rewrite Hs in Hs'. injection Hs' as <- <- <-. f_equal. by apply IH.
Qed.
