(* ===== verification/LexerProps.v ===== *)
(** * Properties of the lexer

    Termination, the declarative specification [lexes], the shape and the
    source positions of the tokens, and the print/lex round trip. *)

From S2P Require Import Prelude Diagnostics Script Lexer LexerFacts.

(** ** The shape of the tokens *)

(** An identifier or keyword: a letter, then letters, digits and underscores. *)
Definition ident_shape (s : string) : bool :=
  match s with
  | EmptyString => false
  | String c _ => isalpha c && forallb Lexer.ident_char (chars s)
  end.

Definition ends_in_backslash (s : string) : bool :=
  match list.last (chars s) with Some c => char_eqb c BACKSLASH | None => false end.

(** What a token of each type can hold. *)
Definition token_wf (t : Token.t) : bool :=
  let text := Token.text t in
  match Token.type t with
  | TokenType.Keyword => str_mem text VALID_KEYWORDS
  | TokenType.Identity => ident_shape text && negb (str_mem text VALID_KEYWORDS)
  | TokenType.Operator => existsb (fun c => String.eqb text (char_string c)) VALID_TOKEN_OPERATORS
  | TokenType.Value => negb (ends_in_backslash text)
  | TokenType.BraceOpen => String.eqb text "{"
  | TokenType.BraceClosed => String.eqb text "}"
  end.

Lemma char_classes c :
  (isalpha c = true ->
     char_eqb c "{" = false /\ char_eqb c "}" = false /\
     existsb (char_eqb c) VALID_TOKEN_OPERATORS = false /\
     char_eqb c DQUOTE = false /\ is_blank c = false /\ char_eqb c "/" = false /\
     Lexer.ident_char c = true) /\
  (Lexer.value_char c = true -> char_eqb c BACKSLASH = false).
Proof.
  pose proof (ascii_all (fun c =>
    (negb (isalpha c) ||
       (negb (char_eqb c "{") && negb (char_eqb c "}") &&
        negb (existsb (char_eqb c) VALID_TOKEN_OPERATORS) &&
        negb (char_eqb c DQUOTE) && negb (is_blank c) && negb (char_eqb c "/") &&
        Lexer.ident_char c)) &&
    (negb (Lexer.value_char c) || negb (char_eqb c BACKSLASH))) eq_refl c) as H.
  cbv beta in H. apply andb_true_iff in H as [H1 H2]. split.
  - intros Hc. rewrite Hc in H1. cbn [negb orb] in H1.
    repeat (apply andb_true_iff in H1 as [H1 ?]). bool_to_Z. done.
  - intros Hc. rewrite Hc in H2. cbn [negb orb] in H2. by bool_to_Z.
Qed.

Lemma quoted_no_backslash s :
  (snd (quoted s) < length s)%nat -> list.last (fst (quoted s)) <> Some BACKSLASH.
Proof.
  induction s as [|s|c s H1 H2 IH|d s H IH] using quoted_ind; try done; intros Hlt.
  - rewrite quoted_plain in * by done. simpl in Hlt. specialize (IH ltac:(lia)).
    simpl fst. destruct (fst (quoted s)) as [|e v] eqn:Ev; [|done].
    simpl. intros [= ->]. destruct s as [|d s]; [simpl in Hlt; lia|].
    simpl default in H2. change (char_eqb BACKSLASH BACKSLASH) with true in H2.
    cbn [andb] in H2. apply orb_false_iff in H2 as [H2 H3].
    destruct s as [|e s].
    + rewrite quoted_plain in Ev; [done | done |]. simpl. by rewrite andb_false_r.
    + destruct (char_eqb d BACKSLASH &&
                 (char_eqb e DQUOTE || char_eqb e "$")) eqn:E.
      * apply andb_true_iff in E as [E1 E2]. apply char_eqb_eq in E1 as ->.
        by rewrite quoted_escape in Ev.
      * by rewrite quoted_plain in Ev.
  - rewrite quoted_escape in * by done. simpl in Hlt. specialize (IH ltac:(lia)).
    simpl fst. destruct (fst (quoted s)) as [|e v]; [|done].
    simpl. intros [= ->]. done.
Qed.

Lemma scan_token_wf s ty tx k line col :
  scan_token s = Some (ty, tx, k) -> token_wf (Token.mk ty (implode tx) line col) = true.
Proof.
  destruct s as [|c r]; [done|]. cbn [scan_token].
  destruct (char_eqb c "{") eqn:E1; [apply char_eqb_eq in E1 as ->; by intros [= <- <- <-]|].
  destruct (char_eqb c "}") eqn:E2; [apply char_eqb_eq in E2 as ->; by intros [= <- <- <-]|].
  destruct (existsb _ _) eqn:E3.
  { intros [= <- <- <-]. unfold token_wf. simpl in E3 |- *.
    unfold char_string. rewrite !String.eqb_refl || idtac.
    repeat (apply orb_true_iff in E3 as [E3|E3]; [apply char_eqb_eq in E3 as ->; done|]).
    done. }
  destruct (char_eqb c DQUOTE) eqn:E4.
  { destruct (Nat.ltb_spec (snd (quoted r)) (length r)) as [Hlt|]; [|done].
    intros [= <- <- <-]. unfold token_wf, ends_in_backslash. simpl.
    rewrite chars_implode. pose proof (quoted_no_backslash r Hlt) as Hn.
    destruct (list.last _) as [d|]; [|done]. apply negb_true_iff.
    destruct (char_eqb d BACKSLASH) eqn:E; [|done]. apply char_eqb_eq in E as ->. done. }
  destruct (isalpha c) eqn:E5.
  { destruct (char_classes c) as [Hc _].
    destruct (Hc E5) as (_ & _ & _ & _ & _ & _ & Hi).
    assert (Hw : take_while Lexer.ident_char (c :: r) = c :: take_while Lexer.ident_char r)
      by (simpl; by rewrite Hi).
    pose proof (take_while_Forall Lexer.ident_char (c :: r)) as Hf.
    rewrite Hw in Hf |- *. set (w := take_while Lexer.ident_char r) in *. cbv zeta.
    destruct (str_mem (implode (c :: w)) VALID_KEYWORDS) eqn:Em;
      intros H; inversion H; subst; unfold token_wf; cbn [Token.text Token.type]; [done|].
    rewrite Em, andb_true_r. unfold ident_shape. cbn [String.string_of_list_ascii].
    rewrite E5. cbn [String.list_ascii_of_string andb]. rewrite chars_implode.
    by apply forallb_forall, List.Forall_forall. }
  destruct (isdigit c) eqn:E6; [|done]. intros [= <- <- <-].
  unfold token_wf, ends_in_backslash. simpl Token.type. cbv iota.
  cbn [Token.text]. rewrite chars_implode. apply negb_true_iff.
  destruct (list.last _) as [d|] eqn:El; [|done]. apply char_classes.
  apply last_Some_elem_of in El. pose proof (take_while_Forall Lexer.value_char (c :: r)) as Hf.
  rewrite List.Forall_forall in Hf. apply Hf, list_elem_of_In, El.
Qed.

(** ** Printing tokens *)

Definition escape_char (c : ascii) : list ascii :=
  if char_eqb c DQUOTE || char_eqb c "$" then [BACKSLASH; c] else [c].

Definition escape (v : list ascii) : list ascii := flat_map escape_char v.

(** A value between quotes, every other token as its text. *)
Definition print_token (t : Token.t) : list ascii :=
  match Token.type t with
  | TokenType.Value => DQUOTE :: escape (chars (Token.text t)) ++ [DQUOTE]
  | _ => chars (Token.text t)
  end.

(** The tokens in order, each followed by a space. *)
Definition print_tokens (ts : list Token.t) : list ascii :=
  flat_map (fun t => print_token t ++ [" "%char]) ts.

Lemma quoted_escape_inverse v r :
  list.last v <> Some BACKSLASH ->
  quoted (escape v ++ DQUOTE :: r) = (v, length (escape v)).
Proof.
  induction v as [|c v IH]; intros Hv; [done|].
  assert (Hv' : list.last v <> Some BACKSLASH) by (by destruct v).
  specialize (IH Hv'). unfold escape in *. cbn [flat_map].
  destruct (char_eqb c DQUOTE || char_eqb c "$") eqn:Ec.
  - assert (escape_char c = [BACKSLASH; c]) as -> by (unfold escape_char; by rewrite Ec).
    cbn [app]. rewrite quoted_escape by done. by rewrite IH.
  - assert (escape_char c = [c]) as -> by (unfold escape_char; by rewrite Ec).
    cbn [app]. apply orb_false_iff in Ec as [E1 E2].
    rewrite quoted_plain; [by rewrite IH | done |].
    destruct (char_eqb c BACKSLASH) eqn:Eb; [|done]. apply char_eqb_eq in Eb as ->.
    destruct v as [|d v]; [done|]. cbn [flat_map andb].
    destruct (char_eqb d DQUOTE || char_eqb d "$") eqn:Ed.
    + assert (escape_char d = [BACKSLASH; d]) as -> by (unfold escape_char; by rewrite Ed).
      done.
    + assert (escape_char d = [d]) as -> by (unfold escape_char; by rewrite Ed).
      done.
Qed.

Lemma scan_print t r :
  token_wf t = true ->
  scan_token (print_token t ++ " "%char :: r)
  = Some (Token.type t, chars (Token.text t), length (print_token t)).
Proof.
  destruct t as [ty tx line col]. unfold token_wf, print_token. cbn [Token.type Token.text].
  assert (Hid : ident_shape tx = true ->
    scan_token (chars tx ++ " "%char :: r)
    = Some (if str_mem tx VALID_KEYWORDS then TokenType.Keyword else TokenType.Identity,
            chars tx, length (chars tx))).
  { unfold ident_shape. destruct tx as [|c tx]; [done|]. intros H.
    apply andb_true_iff in H as [Ha Hf].
    destruct (char_classes c) as [Hc _].
    destruct (Hc Ha) as (H1 & H2 & H3 & H4 & _ & _ & _).
    assert (Hw : take_while Lexer.ident_char (chars (String c tx) ++ " "%char :: r)
                 = chars (String c tx)).
    { apply take_while_app; [|done]. apply List.Forall_forall.
      by apply forallb_forall. }
    cbn [String.list_ascii_of_string app scan_token] in *.
    rewrite H1, H2, H3, H4, Ha, Hw. cbv zeta.
    change (c :: chars tx) with (chars (String c tx)). by rewrite implode_chars. }
  destruct ty; intros Hwf.
  - rewrite Hid, Hwf; [done|]. apply str_mem_In in Hwf.
    assert (Hk : forallb ident_shape VALID_KEYWORDS = true) by reflexivity.
    rewrite forallb_forall in Hk. by apply Hk.
  - apply andb_true_iff in Hwf as [Hs Hk]. apply negb_true_iff in Hk.
    by rewrite Hid, Hk.
  - apply existsb_exists in Hwf as (c & Hin & Hc). apply String.eqb_eq in Hc as ->.
    by repeat destruct Hin as [<-|Hin].
  - apply negb_true_iff in Hwf. cbn [app scan_token]. rewrite <- app_assoc. cbn [app].
    change (char_eqb DQUOTE "{") with false. change (char_eqb DQUOTE "}") with false.
    change (existsb (char_eqb DQUOTE) VALID_TOKEN_OPERATORS) with false.
    change (char_eqb DQUOTE DQUOTE) with true. cbv iota.
    rewrite quoted_escape_inverse.
    + cbn [fst snd]. rewrite !length_app. cbn [length].
      destruct (Nat.ltb_spec (length (escape (chars tx)))
                  (length (escape (chars tx)) + S (S (length r)))); [|lia].
      do 3 f_equal. rewrite length_app. simpl. lia.
    + unfold ends_in_backslash in Hwf. destruct (list.last _) as [d|]; [|done].
      intros [= ->]. done.
  - apply String.eqb_eq in Hwf as ->. done.
  - apply String.eqb_eq in Hwf as ->. done.
Qed.

Lemma ignorable_blanks pre s :
  Forall (fun c => is_blank c = true) pre ->
  ignorable_len false (pre ++ s) = (length pre + ignorable_len false s)%nat.
Proof. induction 1 as [|c pre Hc _ IH]; simpl; [done|]. by rewrite Hc, IH. Qed.

(** A printed token starts with a character that is not ignorable. *)
Lemma print_not_ignorable t r :
  token_wf t = true -> not_ignorable (print_token t ++ " "%char :: r).
Proof.
  destruct t as [ty tx line col]. unfold token_wf, print_token, not_ignorable.
  cbn [Token.type Token.text].
  assert (Hid : ident_shape tx = true ->
                ignorable_len false (chars tx ++ " "%char :: r) = 0%nat).
  { unfold ident_shape. destruct tx as [|c tx]; [done|]. intros H.
    apply andb_true_iff in H as [Ha _]. destruct (char_classes c) as [Hc _].
    destruct (Hc Ha) as (_ & _ & _ & _ & Hb & Hs & _).
    cbn [String.list_ascii_of_string app ignorable_len]. by rewrite Hb, Hs. }
  destruct ty; intros Hwf.
  - apply Hid. apply str_mem_In in Hwf.
    assert (Hk : forallb ident_shape VALID_KEYWORDS = true) by reflexivity.
    rewrite forallb_forall in Hk. by apply Hk.
  - apply andb_true_iff in Hwf as [Hs _]. by apply Hid.
  - apply existsb_exists in Hwf as (c & Hin & Hc). apply String.eqb_eq in Hc as ->.
    by repeat destruct Hin as [<-|Hin].
  - done.
  - by apply String.eqb_eq in Hwf as ->.
  - by apply String.eqb_eq in Hwf as ->.
Qed.

Lemma lexes_print src ts pre p :
  Forall (fun t => token_wf t = true) ts ->
  rest src p = pre ++ print_tokens ts -> Forall (fun c => is_blank c = true) pre ->
  exists ts', lexes src p ts' /\ map token_kind ts' = map token_kind ts.
Proof.
  intros Hwf. revert pre p. induction Hwf as [|t ts Ht _ IH]; intros pre p Hr Hpre.
  - exists []. split; [|done]. constructor.
    rewrite (rest_add src p _ pre []); [done | by simpl in Hr |].
    rewrite Hr, ignorable_blanks by done. simpl. lia.
  - unfold print_tokens in Hr. cbn [flat_map] in Hr. fold (print_tokens ts) in Hr.
    rewrite <- (app_assoc (print_token t)) in Hr. simpl in Hr.
    pose proof (scan_print t (print_tokens ts) Ht) as Hs.
    set (q := (p + ignorable_len false (rest src p))%nat).
    assert (Hq : rest src q = print_token t ++ " "%char :: print_tokens ts).
    { subst q. rewrite (rest_add src p _ pre (print_token t ++ " "%char :: print_tokens ts));
        [done | done |].
      rewrite Hr, ignorable_blanks by done.
      rewrite (print_not_ignorable t (print_tokens ts) Ht). lia. }
    destruct (IH [" "%char] (q + length (print_token t))%nat) as (ts' & Hl & Hm).
    { by apply (rest_add src q _ (print_token t)). }
    { by repeat constructor. }
    exists (token_at src q (Token.type t) (chars (Token.text t)) :: ts'). split.
    + econstructor; [done | by rewrite Hq | done].
    + cbn [map]. rewrite Hm. f_equal. unfold token_kind. simpl. by rewrite implode_chars.
Qed.

(** ** The properties *)

Lemma lexes_token_at src p ts t :
  lexes src p ts -> In t ts ->
  exists q ty tx k, scan_token (rest src q) = Some (ty, tx, k) /\ t = token_at src q ty tx.
Proof.
  induction 1 as [|p q ty tx k ts Hq Hs Hl IH]; intros Hin; [done|].
  destruct Hin as [<-|Hin]; [by exists q, ty, tx, k | by apply IH].
Qed.

Lemma tokenize_lexes src ts : Lexer.tokenize src = Ok ts <-> lexes src 0 ts.
Proof.
  pose proof (tokenize_at src) as H. split.
  - intros E. by rewrite E in H.
  - intros Hl. destruct (Lexer.tokenize src) as [ts'| e | |]; [|by destruct (H ts)|done..].
    f_equal. by eapply lexes_deterministic.
Qed.

Lemma returns_tokenize src : returns (Lexer.tokenize src).
Proof. pose proof (tokenize_at src) as H. by destruct (Lexer.tokenize src). Qed.

Lemma tokenize_printed ts :
  forallb token_wf ts = true ->
  exists ts', Lexer.tokenize (implode (print_tokens ts)) = Ok ts' /\
              map token_kind ts' = map token_kind ts.
Proof.
  intros Hwf. rewrite forallb_forall in Hwf.
  destruct (lexes_print (implode (print_tokens ts)) ts [] 0) as (ts' & Hl & Hm).
  - by apply List.Forall_forall.
  - unfold rest. by rewrite chars_implode.
  - constructor.
  - exists ts'. by rewrite tokenize_lexes.
Qed.

(** the lexer terminates on every script: it returns the tokens or an
    error message, never running out of the fuel its loops are given. *)
Theorem tokenize_returns (src : string) : returns (Lexer.tokenize src).
Proof. apply returns_tokenize. Qed.


(** C13: the lexer implements its specification: it returns exactly the
    sequence of tokens that stand in the script between white space and
    comments, and an error when there is no such sequence. *)
Theorem tokenize_spec (src : string) (ts : list Token.t) :
  Lexer.tokenize src = Ok ts <-> lexes src 0 ts.
Proof. apply tokenize_lexes. Qed.

(** every token the lexer returns is well-formed for its type: a keyword
    is in the keyword table, an identifier is not and has the shape of one, an
    operator is one of the three, and no value ends in a backslash. *)
Theorem tokenize_wf (src : string) (ts : list Token.t) :
  Lexer.tokenize src = Ok ts -> forallb token_wf ts = true.
Proof.
  intros H%tokenize_lexes. apply forallb_forall. intros t Hin.
  destruct (lexes_token_at _ _ _ _ H Hin) as (q & ty & tx & k & Hs & ->).
  by eapply scan_token_wf.
Qed.

(** printing any sequence of well-formed tokens, values quoted and
    escaped, and lexing the text gives the same types and texts back. *)
Theorem tokenize_print (ts : list Token.t) :
  forallb token_wf ts = true ->
  exists ts', Lexer.tokenize (implode (print_tokens ts)) = Ok ts' /\
              map token_kind ts' = map token_kind ts.
Proof. apply tokenize_printed. Qed.

(** C30: the line and column of every token are those of its first character
    in the script: one more than the newlines before it, one more than the
    characters between the last newline and it. *)
Theorem tokenize_positions (src : string) (ts : list Token.t) (t : Token.t) :
  Lexer.tokenize src = Ok ts -> In t ts ->
  exists p k,
    scan_token (rest src p) = Some (Token.type t, chars (Token.text t), k) /\
    Token.line t = line_of (chars src) p /\ Token.col t = col_of (chars src) p.
Proof.
  intros H%tokenize_lexes Hin.
  destruct (lexes_token_at _ _ _ _ H Hin) as (q & ty & tx & k & Hs & ->).
  exists q, k. simpl. by rewrite chars_implode.
Qed.

(** ** Witnesses *)

Definition sample_script : string :=
  "SETTINGS s { // comment" +:+ char_string NEWLINE +:+ " PORT = 80 }".

Definition sample_tokens : list Token.t :=
  [ Token.mk TokenType.Keyword "SETTINGS" 1 1;
    Token.mk TokenType.Identity "s" 1 10;
    Token.mk TokenType.BraceOpen "{" 1 12;
    Token.mk TokenType.Keyword "PORT" 2 2;
    Token.mk TokenType.Operator "=" 2 7;
    Token.mk TokenType.Value "80" 2 9;
    Token.mk TokenType.BraceClosed "}" 2 12 ].

Lemma tokenize_wf_witness :
  Lexer.tokenize sample_script = Ok sample_tokens /\ forallb token_wf sample_tokens = true.
Proof.
  split; [vm_compute; reflexivity|].
  apply (tokenize_wf sample_script sample_tokens). vm_compute. reflexivity.
Defined.

Lemma tokenize_print_witness :
  exists ts', Lexer.tokenize (implode (print_tokens sample_tokens)) = Ok ts' /\
              map token_kind ts' = map token_kind sample_tokens.
Proof. apply (tokenize_print sample_tokens). vm_compute. reflexivity. Defined.

Lemma tokenize_positions_witness :
  exists p k,
    scan_token (rest sample_script p) = Some (TokenType.Keyword, chars "PORT", k) /\
    2 = line_of (chars sample_script) p /\ 2 = col_of (chars sample_script) p.
Proof.
  apply (tokenize_positions sample_script sample_tokens
           (Token.mk TokenType.Keyword "PORT" 2 2)).
  - vm_compute. reflexivity.
  - vm_compute. do 3 right. left. reflexivity.
Defined.
