(* ===== verification/Parser.v ===== *)
(** * The parser (src/interpreter/parser.{h,cpp})

    [Parser.t] is the parser object (the token vector and the position in it);
    every method is a definition of the same name that threads the object and
    the structure it fills.  A failed method returns [Err] with the text of its
    [ParseResult]; what it had stored in the structure by then is discarded by
    the caller of [parse].  [consume] is [Undef] where the C++ code would index
    the token vector out of range.

    The [while] loops are fixpoints on fuel; [Parser.fuel], one more than the
    number of tokens, is enough for each of them (ParserFacts.v). *)

From S2P Require Import Prelude Diagnostics Script.

Module Parser.

(** ** The object and the token stream *)

Record t : Type := mk {
  input_tokens_ : list Token.t;
  token_pos_ : nat
}.

Definition init (tokens : list Token.t) : t := mk tokens 0.

(** Default to 250ms offsets. *)
Definition DEFAULT_OFFSET_MS : Z := 250.

Definition end_of_tokens (p : t) : bool :=
  Nat.leb (length (input_tokens_ p)) (token_pos_ p).

(** Increment the token position and return the token gone over. *)
Definition consume (p : t) : outcome (Token.t * t) :=
  let p :=
    if negb (end_of_tokens p) then mk (input_tokens_ p) (token_pos_ p + 1) else p in
  match token_pos_ p with
  | O => Undef
  | S i =>
      match input_tokens_ p !! i with
      | Some tok => Ok (tok, p)
      | None => Undef
      end
  end.

Definition EOF_TOKEN : Token.t := Token.mk TokenType.Value "EOF" 0 0.

Definition peek (p : t) : Token.t :=
  match input_tokens_ p !! token_pos_ p with
  | Some tok => tok
  | None => EOF_TOKEN
  end.

Definition is_expected (p : t) (expected : TokenType.t) : bool :=
  if end_of_tokens p then false
  else TokenType.eqb (Token.type (peek p)) expected.

(** [is_expected(TokenType::Operator) && peek().text == op] *)
Definition is_operator (p : t) (op : string) : bool :=
  is_expected p TokenType.Operator && String.eqb (Token.text (peek p)) op.

Definition fuel (p : t) : nat := S (length (input_tokens_ p)).

(** ** Errors *)

Definition at_token (tok : Token.t) : string :=
  " at " +:+ location (Token.line tok) (Token.col tok).

(** The start most messages share: the token, its type and its place. *)
Definition unexpected (tok : Token.t) : string :=
  "Unexpected token " +:+ styled_string (Token.text tok) PrintStyle.BadValue
  +:+ " of type " +:+ styled_string (ttype_to_string (Token.type tok)) PrintStyle.Keyword
  +:+ at_token tok.

Definition expected_text (s : string) : string := styled_string s PrintStyle.Expected.

Definition arbitrary_error {A} (reason : string) : outcome A := Err reason.

Definition bad_type_error {A} (tok : Token.t) (expected : TokenType.t) : outcome A :=
  arbitrary_error
    (unexpected tok +:+ " (expected type " +:+ expected_text (ttype_to_string expected)
     +:+ ")").

Definition bad_action_error {A} (tok : Token.t) : outcome A :=
  arbitrary_error
    ("Unexpected keyword " +:+ styled_string (Token.text tok) PrintStyle.BadValue
     +:+ at_token tok
     +:+ " (expected a valid action keyword" +:+ " such as "
     +:+ styled_string "CREATE" PrintStyle.Context +:+ ", "
     +:+ styled_string "CONNECT" PrintStyle.Context +:+ ", "
     +:+ styled_string "..." PrintStyle.Context +:+ " )").

Definition bad_operator_error {A} (tok : Token.t) (op : string) : outcome A :=
  arbitrary_error
    (unexpected tok +:+ " (expected operator " +:+ expected_text op +:+ ")").

Definition bad_integer_error {A} (tok : Token.t) (keyword : string) : outcome A :=
  arbitrary_error
    (unexpected tok +:+ " (expected an integer value for " +:+ expected_text keyword
     +:+ ")").

Definition negative_integer_error {A} (tok : Token.t) : outcome A :=
  arbitrary_error (unexpected tok +:+ " (expected a positive integer)").

Definition oob_port_error {A} (tok : Token.t) : outcome A :=
  arbitrary_error
    ("Token " +:+ styled_string (Token.text tok) PrintStyle.BadValue +:+ at_token tok
     +:+ " has " +:+ styled_string "PORT" PrintStyle.BadField
     +:+ " value out of range " +:+ "(must be between "
     +:+ styled_string "1" PrintStyle.Limits +:+ " and "
     +:+ styled_string "65535" PrintStyle.Limits +:+ ")").

Definition bad_time_error {A} (tok : Token.t) : outcome A :=
  arbitrary_error
    (unexpected tok +:+ " (expected a valid time value, i.e " +:+ expected_text "1ms"
     +:+ ", " +:+ expected_text "1s" +:+ ")").

Definition bad_time_format {A} (tok : Token.t) : outcome A :=
  arbitrary_error
    (unexpected tok +:+ " (expected a valid time format, i.e "
     +:+ expected_text "seconds" +:+ ", " +:+ expected_text "milliseconds" +:+ ", "
     +:+ expected_text "microseconds" +:+ ", " +:+ expected_text "nanoseconds" +:+ ")").

Definition bad_bool_error {A} (tok : Token.t) : outcome A :=
  arbitrary_error
    (unexpected tok +:+ " (expected " +:+ expected_text "true" +:+ " or "
     +:+ expected_text "false" +:+ ")").

(** A word between double quotes. *)
Definition in_quotes (s : string) : string :=
  char_string DQUOTE +:+ s +:+ char_string DQUOTE.

Definition bad_endian_error {A} (tok : Token.t) : outcome A :=
  arbitrary_error
    (unexpected tok +:+ " (expected " +:+ expected_text (in_quotes "little")
     +:+ " or " +:+ expected_text (in_quotes "big") +:+ " for endian field)").

Definition bad_nesting_error {A} (tok : Token.t) : outcome A :=
  arbitrary_error (unexpected tok +:+ " (unexpected nesting)").

Definition missing_copies_error {A} (tok : Token.t) : outcome A :=
  arbitrary_error
    (unexpected tok +:+ " (expected " +:+ expected_text "COPIES" +:+ " instead)").

Definition unterminated_error {A} (tok : Token.t) : outcome A :=
  arbitrary_error
    (unexpected tok +:+ " (expected nesting terminator " +:+ expected_text "}"
     +:+ " instead)").

(** ** Values *)

Definition try_convert_int (tok : Token.t) (keyword : string) : outcome Z :=
  match stoi (Token.text tok) with
  | Some pos => if pos <? 0 then negative_integer_error tok else Ok (u32 pos)
  | None => bad_integer_error tok keyword
  end.

(** [first_value] [:] [Value]: the two ends are converted after both tokens
    have been read. *)
Definition try_parse_range (p : t) (first_value : Token.t) (keyword : string)
  : outcome (Range.t * t) :=
  check! is_operator p ":" else bad_operator_error (peek p) ":" in
  let! (_, p) := consume p in
  check! is_expected p TokenType.Value else bad_type_error (peek p) TokenType.Value in
  let! (second_val, p) := consume p in
  let! start := try_convert_int first_value keyword in
  let! second := try_convert_int second_val keyword in
  Ok (Range.mk start second, p).

(** A time with the suffix [ms] or [s], in milliseconds: the product is the
    unsigned 32-bit one. *)
Definition try_parse_time (time_token : Token.t) : outcome Z :=
  let time_string := Token.text time_token in
  let convert mul time_int :=
    match stoi time_int with
    | Some pos => if pos <? 0 then negative_integer_error time_token else Ok (u32 (pos * mul))
    | None => bad_time_error time_token
    end in
  if ends_with time_string "ms" then convert 1 (drop_last time_string)
  else if ends_with time_string "s" then convert 1000 (drop_last time_string)
  else bad_time_error time_token.

Definition parse_bool (tok : Token.t) : outcome bool :=
  if String.eqb (Token.text tok) "true" then Ok true
  else if String.eqb (Token.text tok) "false" then Ok false
  else bad_bool_error tok.

Definition parse_endian (tok : Token.t) : outcome bool :=
  if String.eqb (Token.text tok) "little" then Ok true
  else if String.eqb (Token.text tok) "big" then Ok false
  else bad_endian_error tok.

(** The part the two instances of [try_parse_send_option] share: a range, then
    [Value] [:] [Value]. *)
Definition parse_option_args (p : t) : outcome (Range.t * Token.t * Token.t * t) :=
  check! is_expected p TokenType.Value else bad_type_error (peek p) TokenType.Value in
  let! (first_value, p) := consume p in
  let! (bytes, p) := try_parse_range p first_value "TIMESTAMP" in
  check! is_expected p TokenType.Value else bad_type_error (peek p) TokenType.Value in
  let! (first_arg_val, p) := consume p in
  check! is_operator p ":" else bad_operator_error (peek p) ":" in
  let! (_, p) := consume p in
  check! is_expected p TokenType.Value else bad_type_error (peek p) TokenType.Value in
  let! (second_arg_val, p) := consume p in
  Ok (bytes, first_arg_val, second_arg_val, p).

(** [try_parse_send_option<ModificationType::Timestamp>] *)
Definition try_parse_timestamp (p : t) (action : Action.t) : outcome (Action.t * t) :=
  let! (bytes, first_arg_val, second_arg_val, p) := parse_option_args p in
  let! little_endian := parse_endian first_arg_val in
  check! str_mem (Token.text second_arg_val)
           ["seconds"; "milliseconds"; "microseconds"; "nanoseconds"]
    else bad_time_format second_arg_val in
  Ok (Action.push_timestamp action
        (TimestampModification.mk bytes little_endian (Token.text second_arg_val)), p).

(** [try_parse_send_option<ModificationType::Counter>] *)
Definition try_parse_counter (p : t) (action : Action.t) : outcome (Action.t * t) :=
  let! (bytes, first_arg_val, second_arg_val, p) := parse_option_args p in
  let! little_endian := parse_endian first_arg_val in
  let! counter_step := try_convert_int second_arg_val "COUNTER" in
  Ok (Action.push_counter action
        (CounterModification.mk bytes counter_step little_endian), p).

(** ** The SETTINGS block *)

(** The separator after an entry of a nested block: a comma, which is consumed
    ([true]), or the closing brace, which is not ([false]). *)
Definition entry_separator (p : t) : outcome (bool * t) :=
  if is_operator p "," then
    let! (_, p) := consume p in
    Ok (true, p)
  else if is_expected p TokenType.BraceClosed then Ok (false, p)
  else bad_operator_error (peek p) ",".

(** The loop over [Identity : Value ,] of a PACKETS block. *)
Fixpoint parse_packets (n : nat) (p : t) (settings : Settings.t)
  : outcome (Settings.t * t) :=
  match n with
  | O => NoFuel
  | S n =>
      if is_expected p TokenType.BraceClosed then Ok (settings, p)
      else
        check! is_expected p TokenType.Identity
          else bad_type_error (peek p) TokenType.Identity in
        let! (packet_identity, p) := consume p in
        check! is_operator p ":" else bad_operator_error (peek p) ":" in
        let! (_, p) := consume p in
        check! is_expected p TokenType.Value
          else bad_type_error (peek p) TokenType.Value in
        let! (packet_value, p) := consume p in
        let settings :=
          Settings.set_packet_identifiers settings
            (<[Token.text packet_identity := Token.text packet_value]>
               (Settings.packet_identifiers settings)) in
        let! (more, p) := entry_separator p in
        if more : bool then parse_packets n p settings else Ok (settings, p)
  end.

(** The loop over [Value ,] of an ENDPOINTS block. *)
Fixpoint parse_endpoints (n : nat) (p : t) (settings : Settings.t)
  : outcome (Settings.t * t) :=
  match n with
  | O => NoFuel
  | S n =>
      if is_expected p TokenType.BraceClosed then Ok (settings, p)
      else
        check! is_expected p TokenType.Value
          else bad_type_error (peek p) TokenType.Value in
        let! (endpoint_value, p) := consume p in
        let settings :=
          Settings.set_endpoints settings
            (Settings.endpoints settings ++ [Token.text endpoint_value]) in
        let! (more, p) := entry_separator p in
        if more : bool then parse_endpoints n p settings else Ok (settings, p)
  end.

(** The nested block after [keyword], from its opening brace to its closing
    brace. *)
Definition parse_nested (keyword : Token.t) (p : t) (settings : Settings.t)
  : outcome (Settings.t * t) :=
  let! (_, p) := consume p in
  let! (settings, p) :=
    if String.eqb (Token.text keyword) "PACKETS" then parse_packets (fuel p) p settings
    else if String.eqb (Token.text keyword) "ENDPOINTS"
    then parse_endpoints (fuel p) p settings
    else bad_nesting_error (peek p) in
  check! is_expected p TokenType.BraceClosed else unterminated_error (peek p) in
  let! (_, p) := consume p in
  Ok (settings, p).

(** Store the value of a plain [keyword = value] field. *)
Definition store_setting (keyword value_token : Token.t) (settings : Settings.t)
  : outcome Settings.t :=
  let named name := String.eqb (Token.text keyword) name in
  if named "SESSION" then Ok (Settings.set_session_protocol settings (Token.text value_token))
  else if named "PORT" then
    let! temp := try_convert_int value_token "PORT" in
    if temp >? 65535 then oob_port_error value_token
    else Ok (Settings.set_port settings (u16 temp))
  else if named "HEADERSIZE" then
    let! v := try_convert_int value_token "HEADERSIZE" in
    Ok (Settings.set_header_size settings v)
  else if named "BODYMAX" then
    let! v := try_convert_int value_token "BODYMAX" in
    Ok (Settings.set_body_max settings v)
  else if named "READ" then
    let! v := parse_bool value_token in
    Ok (Settings.set_read settings v)
  else if named "REPEAT" then
    let! v := parse_bool value_token in
    Ok (Settings.set_repeat settings v)
  else if named "SAMPLERATE" then
    let! v := try_convert_int value_token "SAMPLERATE" in
    Ok (Settings.set_packet_sample_rate settings v)
  else if named "SHARDS" then
    let! v := try_convert_int value_token "SHARDS" in
    Ok (Settings.set_shards settings v)
  else if named "HANDLER" then Ok (Settings.set_handler_value settings (Token.text value_token))
  else arbitrary_error "Bad keyword detected? This is a software bug.".

Definition parse_field (keyword : Token.t) (p : t) (settings : Settings.t)
  : outcome (Settings.t * t) :=
  check! is_operator p "=" else bad_operator_error (peek p) "=" in
  let! (_, p) := consume p in
  check! is_expected p TokenType.Value else bad_type_error (peek p) TokenType.Value in
  let! (value_token, p) := consume p in
  let! settings := store_setting keyword value_token settings in
  Ok (settings, p).

(** The loop of [parse_settings], up to the closing brace. *)
Fixpoint parse_settings_loop (n : nat) (p : t) (settings : Settings.t)
  : outcome (Settings.t * t) :=
  match n with
  | O => NoFuel
  | S n =>
      if is_expected p TokenType.BraceClosed then Ok (settings, p)
      else
        check! is_expected p TokenType.Keyword
          else bad_type_error (peek p) TokenType.Keyword in
        let! (keyword, p) := consume p in
        let! (settings, p) :=
          if is_expected p TokenType.BraceOpen then parse_nested keyword p settings
          else parse_field keyword p settings in
        parse_settings_loop n p settings
  end.

Definition parse_settings (p : t) (settings : Settings.t) : outcome (Settings.t * t) :=
  let! (_, p) := consume p in
  check! is_expected p TokenType.Identity
    else bad_type_error (peek p) TokenType.Identity in
  let settings := Settings.set_identifier settings (Token.text (peek p)) in
  let! (_, p) := consume p in
  check! is_expected p TokenType.BraceOpen
    else bad_type_error (peek p) TokenType.BraceOpen in
  let! (_, p) := consume p in
  let! (settings, p) := parse_settings_loop (fuel p) p settings in
  check! is_expected p TokenType.BraceClosed
    else bad_type_error (peek p) TokenType.BraceClosed in
  let! (_, p) := consume p in
  Ok (settings, p).

(** ** The ORCHESTRATOR block *)

(** The COUNTER and TIMESTAMP options of a SEND. *)
Fixpoint parse_send_mods (n : nat) (p : t) (action : Action.t)
  : outcome (Action.t * t) :=
  match n with
  | O => NoFuel
  | S n =>
      if negb (String.eqb (Token.text (peek p)) "OFFSET")
         && is_expected p TokenType.Keyword
      then
        if String.eqb (Token.text (peek p)) "COUNTER" then
          let! (_, p) := consume p in
          let! (action, p) := try_parse_counter p action in
          parse_send_mods n p action
        else if String.eqb (Token.text (peek p)) "TIMESTAMP" then
          let! (_, p) := consume p in
          let! (action, p) := try_parse_timestamp p action in
          parse_send_mods n p action
        else Ok (action, p)
      else Ok (action, p)
  end.

Definition parse_send (p : t) (t_action first_val : Token.t) (action : Action.t)
  : outcome (Action.t * t) :=
  let action := Action.set_type action ActionType.SEND in
  let! (range, p) := try_parse_range p first_val (Token.text t_action) in
  let action := Action.set_range action range in
  check! is_expected p TokenType.Identity
    else bad_type_error (peek p) TokenType.Identity in
  let! (packet_id, p) := consume p in
  let action := Action.set_packet_identifier action (Token.text packet_id) in
  check! is_expected p TokenType.Keyword
    else bad_type_error (peek p) TokenType.Keyword in
  check! String.eqb (Token.text (peek p)) "COPIES" else missing_copies_error (peek p) in
  let! (_, p) := consume p in
  check! is_expected p TokenType.Value else bad_type_error (peek p) TokenType.Value in
  let! (copies_value, p) := consume p in
  let! count := try_convert_int copies_value "COPIES" in
  parse_send_mods (fuel p) p (Action.set_count action count).

(** CONNECT, FLOOD, DRAIN and DISCONNECT take a session range only. *)
Definition parse_ranged (type : ActionType.t) (p : t) (t_action first_val : Token.t)
    (action : Action.t) : outcome (Action.t * t) :=
  let action := Action.set_type action type in
  let! (range, p) := try_parse_range p first_val (Token.text t_action) in
  Ok (Action.set_range action range, p).

Definition parse_create (p : t) (first_val : Token.t) (action : Action.t)
  : outcome (Action.t * t) :=
  let action := Action.set_type action ActionType.CREATE in
  let! count := try_convert_int first_val "CREATE" in
  Ok (Action.set_range (Action.set_count action count) (Range.mk 0 count), p).

Definition parse_action_body (p : t) (t_action first_val : Token.t) (action : Action.t)
  : outcome (Action.t * t) :=
  let named name := String.eqb (Token.text t_action) name in
  if named "SEND" then parse_send p t_action first_val action
  else if named "CONNECT" then parse_ranged ActionType.CONNECT p t_action first_val action
  else if named "FLOOD" then parse_ranged ActionType.FLOOD p t_action first_val action
  else if named "DRAIN" then parse_ranged ActionType.DRAIN p t_action first_val action
  else if named "DISCONNECT" then parse_ranged ActionType.DISCONNECT p t_action first_val action
  else if named "CREATE" then parse_create p first_val action
  else bad_action_error (peek p).

(** The optional OFFSET of an action. *)
Definition parse_offset (p : t) (action : Action.t) : outcome (Action.t * t) :=
  if String.eqb (Token.text (peek p)) "OFFSET" then
    let! (_, p) := consume p in
    check! is_expected p TokenType.Value else bad_type_error (peek p) TokenType.Value in
    let! (timeout_token, p) := consume p in
    let! offset_ms := try_parse_time timeout_token in
    Ok (Action.set_offset_ms action offset_ms, p)
  else Ok (Action.set_offset_ms action DEFAULT_OFFSET_MS, p).

(** One action line; [garbage] is what the uninitialised members of the local
    [Action] hold. *)
Definition parse_action (garbage : Z) (p : t) : outcome (Action.t * t) :=
  check! is_expected p TokenType.Keyword
    else bad_type_error (peek p) TokenType.Keyword in
  let! (t_action, p) := consume p in
  check! is_expected p TokenType.Value else bad_type_error (peek p) TokenType.Value in
  let! (first_val, p) := consume p in
  let! (action, p) := parse_action_body p t_action first_val (Action.fresh garbage) in
  parse_offset p action.

Fixpoint parse_actions_loop (garbage : Z) (n : nat) (p : t)
    (orchestrator : Orchestrator_block.t) : outcome (Orchestrator_block.t * t) :=
  match n with
  | O => NoFuel
  | S n =>
      if is_expected p TokenType.BraceClosed then Ok (orchestrator, p)
      else
        let! (action, p) := parse_action garbage p in
        parse_actions_loop garbage n p (Orchestrator_block.push_action orchestrator action)
  end.

Definition parse_orchestrator (garbage : Z) (p : t) (orchestrator : Orchestrator_block.t)
  : outcome (Orchestrator_block.t * t) :=
  let! (_, p) := consume p in
  check! is_expected p TokenType.Identity
    else bad_type_error (peek p) TokenType.Identity in
  let! (id, p) := consume p in
  let orchestrator := Orchestrator_block.set_settings_identifier orchestrator (Token.text id) in
  check! is_expected p TokenType.BraceOpen
    else bad_type_error (peek p) TokenType.BraceOpen in
  let! (_, p) := consume p in
  let! (orchestrator, p) := parse_actions_loop garbage (fuel p) p orchestrator in
  check! is_expected p TokenType.BraceClosed
    else bad_type_error (peek p) TokenType.BraceClosed in
  let! (_, p) := consume p in
  Ok (orchestrator, p).

(** ** The whole script *)

Definition unexpected_block_error {A} (tok : Token.t) : outcome A :=
  arbitrary_error
    (unexpected tok +:+ " (expected " +:+ expected_text "SETTINGS" +:+ " or "
     +:+ expected_text "ORCHESTRATOR" +:+ ")").

Fixpoint parse_loop (garbage : Z) (n : nat) (p : t) (script_data : DSLData.t)
  : outcome DSLData.t :=
  match n with
  | O => NoFuel
  | S n =>
      if end_of_tokens p then Ok script_data
      else
        let tok := peek p in
        if String.eqb (Token.text tok) "SETTINGS" then
          let! (settings, p) := parse_settings p (DSLData.settings script_data) in
          parse_loop garbage n p (DSLData.set_settings script_data settings)
        else if String.eqb (Token.text tok) "ORCHESTRATOR" then
          let! (orchestrator, p) :=
            parse_orchestrator garbage p (DSLData.orchestrator script_data) in
          parse_loop garbage n p (DSLData.set_orchestrator script_data orchestrator)
        else unexpected_block_error tok
  end.

Definition parse (garbage : Z) (p : t) (script_data : DSLData.t) : outcome DSLData.t :=
  parse_loop garbage (fuel p) p script_data.

End Parser.
