(* ===== verification/ParserFacts.v ===== *)
(** * The token stream of the parser, and why the parser always returns

    [sees p l] describes the tokens that remain without their positions;
    [reaches] and [safe] bound how far a method moves, which gives the fuel of
    every loop and excludes the out-of-range [consume]. *)

From S2P Require Import Prelude Diagnostics Script Parser.

(** ** The remaining tokens *)

Definition remaining (p : Parser.t) : list Token.t :=
  drop (Parser.token_pos_ p) (Parser.input_tokens_ p).

Definition sees (p : Parser.t) (l : list kind) : Prop := map token_kind (remaining p) = l.

(** The parser after one more token. *)
Definition next (p : Parser.t) : Parser.t :=
  Parser.mk (Parser.input_tokens_ p) (Parser.token_pos_ p + 1).

Section Stream.
Implicit Types p : Parser.t.

Lemma sees_cons p ty tx l :
  sees p ((ty, tx) :: l) ->
  Parser.end_of_tokens p = false /\
  Token.type (Parser.peek p) = ty /\ Token.text (Parser.peek p) = tx /\
  Parser.consume p = Ok (Parser.peek p, next p) /\ sees (next p) l.
Proof.
  unfold sees, remaining. intros H.
  destruct (drop (Parser.token_pos_ p) (Parser.input_tokens_ p)) as [|tok r] eqn:E; [done|].
  simpl in H. injection H as H1 H2 H3.
  assert (Hl : Parser.input_tokens_ p !! Parser.token_pos_ p = Some tok).
  { rewrite <- (Nat.add_0_r (Parser.token_pos_ p)), <- lookup_drop. by rewrite E. }
  assert (He : Parser.end_of_tokens p = false).
  { apply Nat.leb_gt. by eapply lookup_lt_Some. }
  unfold Parser.peek, Parser.consume, next. rewrite He. simpl.
  rewrite Nat.add_1_r. rewrite Hl. simpl. repeat split; try done.
  rewrite <- Nat.add_1_r, <- drop_drop, E. done.
Qed.

Lemma sees_nil p : sees p [] -> Parser.end_of_tokens p = true.
Proof.
  unfold sees, remaining. intros H%(f_equal length). rewrite length_map, length_drop in H.
  simpl in H. apply Nat.leb_le. lia.
Qed.

Lemma sees_expected p ty tx l ty' :
  sees p ((ty, tx) :: l) -> Parser.is_expected p ty' = TokenType.eqb ty ty'.
Proof.
  intros H. destruct (sees_cons _ _ _ _ H) as (He & Ht & _).
  unfold Parser.is_expected. by rewrite He, Ht.
Qed.

Lemma sees_operator p ty tx l op :
  sees p ((ty, tx) :: l) ->
  Parser.is_operator p op = TokenType.eqb ty TokenType.Operator && String.eqb tx op.
Proof.
  intros H. unfold Parser.is_operator. rewrite (sees_expected _ _ _ _ _ H).
  by destruct (sees_cons _ _ _ _ H) as (_ & _ & -> & _).
Qed.

Lemma sees_consume p ty tx l :
  sees p ((ty, tx) :: l) -> Parser.consume p = Ok (Parser.peek p, next p).
Proof. intros H. by destruct (sees_cons _ _ _ _ H) as (_ & _ & _ & ? & _). Qed.

Lemma sees_next p ty tx l : sees p ((ty, tx) :: l) -> sees (next p) l.
Proof. intros H. by destruct (sees_cons _ _ _ _ H) as (_ & _ & _ & _ & ?). Qed.

Lemma sees_text p ty tx l : sees p ((ty, tx) :: l) -> Token.text (Parser.peek p) = tx.
Proof. intros H. by destruct (sees_cons _ _ _ _ H) as (_ & _ & ? & _). Qed.
End Stream.

(** ** How far a method moves *)

Definition reaches (p0 : Parser.t) (k : nat) (p : Parser.t) : Prop :=
  Parser.input_tokens_ p = Parser.input_tokens_ p0 /\
  (Parser.token_pos_ p0 + k <= Parser.token_pos_ p <= length (Parser.input_tokens_ p0))%nat.

Definition safe {A} (p0 : Parser.t) (k : nat) (m : outcome (A * Parser.t)) : Prop :=
  match m with
  | Ok (_, p) => reaches p0 k p
  | Err _ => True
  | Undef | NoFuel => False
  end.

Ltac reach :=
  unfold reaches in *;
  repeat match goal with H : _ /\ _ |- _ => destruct H end;
  split; [congruence | repeat match goal with
    | H : Parser.input_tokens_ _ = Parser.input_tokens_ _ |- _ => rewrite H in *; clear H
    end; simpl in *; lia].

Lemma safe_obind {A B} p0 k p j (m : outcome (A * Parser.t))
    (f : A * Parser.t -> outcome (B * Parser.t)) :
  safe p j m -> (forall a p', reaches p j p' -> safe p0 k (f (a, p'))) ->
  safe p0 k (obind m f).
Proof. destruct m as [[a p']| | |]; simpl; auto. Qed.

Lemma safe_returns {A B} p0 k (m : outcome A) (f : A -> outcome (B * Parser.t)) :
  returns m -> (forall a, safe p0 k (f a)) -> safe p0 k (obind m f).
Proof. destruct m; simpl; auto; done. Qed.

Lemma safe_consume p : Parser.end_of_tokens p = false -> safe p 1 (Parser.consume p).
Proof.
  intros H. unfold Parser.consume. rewrite H. simpl. rewrite Nat.add_1_r.
  apply Nat.leb_gt in H.
  destruct (lookup_lt_is_Some_2 _ _ H) as [tok ->]. simpl. split; [done|]. simpl. lia.
Qed.

Lemma expected_not_end p ty :
  Parser.is_expected p ty = true -> Parser.end_of_tokens p = false.
Proof. unfold Parser.is_expected. by destruct (Parser.end_of_tokens p). Qed.

Lemma operator_not_end p op :
  Parser.is_operator p op = true -> Parser.end_of_tokens p = false.
Proof. intros H. apply andb_true_iff in H as [H _]. by eapply expected_not_end. Qed.

Lemma text_not_end p s :
  String.eqb (Token.text (Parser.peek p)) s = true -> s <> "EOF" ->
  Parser.end_of_tokens p = false.
Proof.
  intros H Hs. apply String.eqb_eq in H. apply Nat.leb_gt.
  destruct (decide (Parser.token_pos_ p < length (Parser.input_tokens_ p))%nat) as [|Hge]; [done|].
  unfold Parser.peek in H. rewrite lookup_ge_None_2 in H by lia. by subst s.
Qed.

Create HintDb parser discriminated.
#[export] Hint Resolve expected_not_end operator_not_end safe_consume : parser.
#[export] Hint Extern 1 (_ <> "EOF") => discriminate : parser.
#[export] Hint Resolve text_not_end : parser.

Lemma returns_try_convert_int tok kw : returns (Parser.try_convert_int tok kw).
Proof. unfold Parser.try_convert_int. destruct (stoi _); [by destruct (_ <? _)|done]. Qed.

Lemma returns_parse_bool tok : returns (Parser.parse_bool tok).
Proof. unfold Parser.parse_bool. by split_ifs. Qed.

Lemma returns_parse_endian tok : returns (Parser.parse_endian tok).
Proof. unfold Parser.parse_endian. by split_ifs. Qed.

Lemma returns_try_parse_time tok : returns (Parser.try_parse_time tok).
Proof.
  unfold Parser.try_parse_time. cbv zeta.
  destruct (ends_with _ "ms"); [|destruct (ends_with _ "s"); [|done]];
    (destruct (stoi _); [by destruct (_ <? _) | done]).
Qed.

#[export] Hint Resolve returns_try_convert_int returns_parse_bool returns_parse_endian
  returns_try_parse_time : parser.

(** Walk through a method: branch on its guards, step over its calls. *)
Ltac safe_walk :=
  cbv zeta;
  repeat match goal with
  | |- safe _ _ (if ?b then _ else _) => let E := fresh "E" in destruct b eqn:E
  | |- safe _ _ (Ok (_, _)) => simpl; solve [reach]
  | |- safe _ _ (obind _ _) =>
      first [ apply safe_returns; [solve [eauto with parser] | intros ?; cbv beta zeta]
            | eapply safe_obind; [solve [eauto with parser]
              | let a := fresh "a" in intros a ? ?; try destruct a as [[? ?] ?];
                cbv beta iota zeta] ]
  | |- safe _ _ _ => exact I
  end.

(** ** Every method is safe *)

Section Safe.
Implicit Types p : Parser.t.

Lemma reaches_valid p k q : reaches p k q -> reaches q 0 q.
Proof. intros H. reach. Qed.

Lemma safe_weaken {A} p k j (m : outcome (A * Parser.t)) :
  safe p k m -> (j <= k)%nat -> safe p j m.
Proof. destruct m as [[a q]| | |]; simpl; try done. intros H Hj. reach. Qed.

(** Continuing from a parser already reached. *)
Lemma safe_from {A} p0 p j k i (m : outcome (A * Parser.t)) :
  reaches p0 j p -> safe p i m -> (k <= j + i)%nat -> safe p0 k m.
Proof. destruct m as [[a q]| | |]; simpl; try done. intros H1 H2 Hk. reach. Qed.
End Safe.

#[export] Hint Resolve reaches_valid : parser.

Lemma safe_range p first kw :
  reaches p 0 p -> safe p 2 (Parser.try_parse_range p first kw).
Proof. intros Hv. unfold Parser.try_parse_range. safe_walk. Qed.
#[export] Hint Resolve safe_range : parser.

Lemma safe_option_args p : reaches p 0 p -> safe p 6 (Parser.parse_option_args p).
Proof. intros Hv. unfold Parser.parse_option_args. safe_walk. Qed.
#[export] Hint Resolve safe_option_args : parser.

Lemma safe_timestamp p a : reaches p 0 p -> safe p 6 (Parser.try_parse_timestamp p a).
Proof. intros Hv. unfold Parser.try_parse_timestamp. safe_walk. Qed.

Lemma safe_counter p a : reaches p 0 p -> safe p 6 (Parser.try_parse_counter p a).
Proof. intros Hv. unfold Parser.try_parse_counter. safe_walk. Qed.
#[export] Hint Resolve safe_timestamp safe_counter : parser.

Lemma safe_separator p :
  reaches p 0 p ->
  safe p 0 (Parser.entry_separator p) /\
  (forall p', Parser.entry_separator p = Ok (true, p') -> reaches p 1 p').
Proof.
  intros Hv. unfold Parser.entry_separator.
  destruct (Parser.is_operator p ",") eqn:E.
  - pose proof (safe_consume p (operator_not_end _ _ E)) as Hc.
    destruct (Parser.consume p) as [[a q]| | |]; simpl in *; try done.
    split; [reach|]. intros p' [= <-]. done.
  - destruct (Parser.is_expected p TokenType.BraceClosed); simpl; [|done].
    split; [reach | done].
Qed.

(** The loops: enough fuel is one more than the tokens that remain. *)
Definition left (p : Parser.t) : nat :=
  (length (Parser.input_tokens_ p) - Parser.token_pos_ p)%nat.

Lemma left_fuel p : reaches p 0 p -> (left p < Parser.fuel p)%nat.
Proof. unfold left, Parser.fuel. lia. Qed.

Ltac left_lia := unfold left, reaches in *;
  repeat match goal with H : _ /\ _ |- _ => destruct H end;
  repeat match goal with
    | H : Parser.input_tokens_ _ = Parser.input_tokens_ _ |- _ => rewrite H in *; clear H
    end; simpl in *; lia.

Lemma safe_packets n p s :
  reaches p 0 p -> (left p < n)%nat -> safe p 0 (Parser.parse_packets n p s).
Proof.
  revert p s. induction n as [|n IH]; intros p s Hv Hn; [lia|].
  cbn [Parser.parse_packets]. safe_walk.
  destruct (safe_separator p'1) as [Hs Ht]; [eauto with parser|].
  destruct (Parser.entry_separator p'1) as [[[] q]| | |]; simpl in Hs; try done; cbn [obind].
  - specialize (Ht q eq_refl). eapply (safe_from p q 3 0 0); [reach | | lia].
    apply IH; [eauto with parser | left_lia].
  - simpl. reach.
Qed.

Lemma safe_endpoints n p s :
  reaches p 0 p -> (left p < n)%nat -> safe p 0 (Parser.parse_endpoints n p s).
Proof.
  revert p s. induction n as [|n IH]; intros p s Hv Hn; [lia|].
  cbn [Parser.parse_endpoints]. safe_walk.
  destruct (safe_separator p') as [Hs Ht]; [eauto with parser|].
  destruct (Parser.entry_separator p') as [[[] q]| | |]; simpl in Hs; try done; cbn [obind].
  - specialize (Ht q eq_refl). eapply (safe_from p q 2 0 0); [reach | | lia].
    apply IH; [eauto with parser | left_lia].
  - simpl. reach.
Qed.

Lemma safe_nested kw p s :
  Parser.is_expected p TokenType.BraceOpen = true -> safe p 2 (Parser.parse_nested kw p s).
Proof.
  intros Hb. unfold Parser.parse_nested.
  eapply safe_obind; [eauto with parser|]. intros a q Hq. cbv beta iota.
  eapply (safe_obind p 2 q 0).
  - destruct (String.eqb _ "PACKETS").
    { apply safe_packets; [|apply left_fuel]; eauto with parser. }
    destruct (String.eqb _ "ENDPOINTS"); [|exact I].
    apply safe_endpoints; [|apply left_fuel]; eauto with parser.
  - intros s' q' Hq'. cbv beta iota. safe_walk.
Qed.
#[export] Hint Resolve safe_nested : parser.

Lemma returns_store_setting kw v s : returns (Parser.store_setting kw v s).
Proof.
  unfold Parser.store_setting. cbv zeta. split_ifs; try exact I;
    (apply returns_obind; [eauto with parser | intros ? _]); try exact I.
  by split_ifs.
Qed.
#[export] Hint Resolve returns_store_setting : parser.

Lemma safe_field kw p s : safe p 2 (Parser.parse_field kw p s).
Proof. unfold Parser.parse_field. safe_walk. Qed.
#[export] Hint Resolve safe_field : parser.

Lemma safe_settings_loop n p s :
  reaches p 0 p -> (left p < n)%nat -> safe p 0 (Parser.parse_settings_loop n p s).
Proof.
  revert p s. induction n as [|n IH]; intros p s Hv Hn; [lia|].
  cbn [Parser.parse_settings_loop]. safe_walk.
  eapply (safe_obind p 0 p' 2).
  - destruct (Parser.is_expected p' TokenType.BraceOpen) eqn:Eb; eauto with parser.
  - intros s' q Hq. cbv beta iota. eapply (safe_from p q 3 0 0); [reach | | lia].
    apply IH; [eauto with parser | left_lia].
Qed.

Lemma safe_settings p s :
  Parser.end_of_tokens p = false -> safe p 4 (Parser.parse_settings p s).
Proof.
  intros He. unfold Parser.parse_settings. safe_walk.
  eapply (safe_obind p 4 p'1 0).
  - apply safe_settings_loop; [|apply left_fuel]; eauto with parser.
  - intros s' q Hq. cbv beta iota. safe_walk.
Qed.

Lemma safe_send_mods n p a :
  reaches p 0 p -> (left p < n)%nat -> safe p 0 (Parser.parse_send_mods n p a).
Proof.
  revert p a. induction n as [|n IH]; intros p a Hv Hn; [lia|].
  cbn [Parser.parse_send_mods].
  destruct (negb _ && Parser.is_expected p TokenType.Keyword) eqn:E; [|simpl; reach].
  apply andb_true_iff in E as [_ E].
  destruct (String.eqb _ "COUNTER"); [|destruct (String.eqb _ "TIMESTAMP")].
  1,2: safe_walk; eapply (safe_from p _ 7 0 0); [|apply IH; [eauto with parser | left_lia]|lia];
       reach.
  simpl. reach.
Qed.

Lemma safe_send p ta fv a : reaches p 0 p -> safe p 5 (Parser.parse_send p ta fv a).
Proof.
  intros Hv. unfold Parser.parse_send. safe_walk.
  eapply (safe_from p _ 5 5 0); [|apply safe_send_mods; [|apply left_fuel]|lia];
    eauto with parser; reach.
Qed.

Lemma safe_ranged ty p ta fv a :
  reaches p 0 p -> safe p 2 (Parser.parse_ranged ty p ta fv a).
Proof. intros Hv. unfold Parser.parse_ranged. safe_walk. Qed.

Lemma safe_create p fv a : reaches p 0 p -> safe p 0 (Parser.parse_create p fv a).
Proof. intros Hv. unfold Parser.parse_create. safe_walk. Qed.

Lemma safe_action_body p ta fv a :
  reaches p 0 p -> safe p 0 (Parser.parse_action_body p ta fv a).
Proof.
  intros Hv. unfold Parser.parse_action_body. cbv zeta.
  pose proof (safe_send p ta fv a Hv). pose proof (safe_create p fv a Hv).
  pose proof (fun ty => safe_ranged ty p ta fv a Hv).
  split_ifs; try exact I; try (eapply safe_weaken; [eauto | lia]); done.
Qed.
#[export] Hint Resolve safe_action_body : parser.

Lemma safe_offset p a : reaches p 0 p -> safe p 0 (Parser.parse_offset p a).
Proof. intros Hv. unfold Parser.parse_offset. safe_walk. Qed.
#[export] Hint Resolve safe_offset : parser.

Lemma safe_action g p : safe p 2 (Parser.parse_action g p).
Proof.
  unfold Parser.parse_action. safe_walk.
  eapply (safe_from p _ 2 2 0); [|apply safe_offset; eauto with parser|lia]; reach.
Qed.
#[export] Hint Resolve safe_action : parser.

Lemma safe_actions_loop g n p o :
  reaches p 0 p -> (left p < n)%nat -> safe p 0 (Parser.parse_actions_loop g n p o).
Proof.
  revert p o. induction n as [|n IH]; intros p o Hv Hn; [lia|].
  cbn [Parser.parse_actions_loop]. safe_walk.
  eapply (safe_from p _ 2 0 0); [|apply IH; [eauto with parser | left_lia]|lia]; reach.
Qed.

Lemma safe_orchestrator g p o :
  Parser.end_of_tokens p = false -> safe p 4 (Parser.parse_orchestrator g p o).
Proof.
  intros He. unfold Parser.parse_orchestrator. safe_walk.
  eapply (safe_obind p 4 p'1 0).
  - apply safe_actions_loop; [|apply left_fuel]; eauto with parser.
  - intros s' q Hq. cbv beta iota. safe_walk.
Qed.

Lemma returns_parse_loop g n p d :
  reaches p 0 p -> (left p < n)%nat -> returns (Parser.parse_loop g n p d).
Proof.
  revert p d. induction n as [|n IH]; intros p d Hv Hn; [lia|].
  cbn [Parser.parse_loop]. cbv zeta.
  destruct (Parser.end_of_tokens p) eqn:He; [exact I|].
  destruct (String.eqb _ "SETTINGS"); [|destruct (String.eqb _ "ORCHESTRATOR"); [|exact I]].
  - pose proof (safe_settings p (DSLData.settings d) He) as Hs.
    destruct (Parser.parse_settings _ _) as [[s q]| | |]; simpl in *; try done.
    apply IH; [eauto with parser | left_lia].
  - pose proof (safe_orchestrator g p (DSLData.orchestrator d) He) as Hs.
    destruct (Parser.parse_orchestrator _ _ _) as [[s q]| | |]; simpl in *; try done.
    apply IH; [eauto with parser | left_lia].
Qed.

Lemma init_valid tokens : reaches (Parser.init tokens) 0 (Parser.init tokens).
Proof. unfold reaches, Parser.init. simpl. split; [done | lia]. Qed.
