(* ===== verification/ParserProps.v ===== *)
(** * Properties of the parser

    It returns on every token sequence; what it returns is well-formed; printing
    a script as tokens and parsing them gives the script back; and what its
    number and time conversions compute. *)

From S2P Require Import Prelude Diagnostics Script Parser ParserFacts.

(** ** Well-formed scripts *)

Definition is_int (z : Z) : Prop := 0 <= z <= INT_MAX.

Definition range_wf (r : Range.t) : Prop := is_int (Range.start r) /\ is_int (Range.second r).

Definition timestamp_wf (m : TimestampModification.t) : Prop :=
  range_wf (TimestampModification.timestamp_bytes m) /\
  In (TimestampModification.format_name m) VALID_TIME_FORMATS.

Definition counter_wf (m : CounterModification.t) : Prop :=
  range_wf (CounterModification.counter_bytes m) /\
  is_int (CounterModification.counter_step m).

Definition count_mods (k : ModificationType.t) (l : list ModificationType.t) : nat :=
  length (List.filter (fun x => bool_decide (x = k)) l).

(** The order list mentions each modification once. *)
Definition mods_wf (a : Action.t) : Prop :=
  Forall timestamp_wf (Action.timestamp_mods a) /\
  Forall counter_wf (Action.counter_mods a) /\
  count_mods ModificationType.Timestamp (Action.mod_order a)
  = length (Action.timestamp_mods a) /\
  count_mods ModificationType.Counter (Action.mod_order a)
  = length (Action.counter_mods a).

Definition no_mods (a : Action.t) : Prop :=
  Action.timestamp_mods a = [] /\ Action.counter_mods a = [] /\ Action.mod_order a = [].

Definition action_wf (a : Action.t) : Prop :=
  range_wf (Action.range a) /\ 0 <= Action.offset_ms a < 2 ^ 32 /\ mods_wf a /\
  match Action.type a with
  | ActionType.CREATE =>
      is_int (Action.count a) /\ Action.range a = Range.mk 0 (Action.count a) /\ no_mods a
  | ActionType.SEND => is_int (Action.count a)
  | _ => no_mods a
  end.

Definition settings_wf (s : Settings.t) : Prop :=
  0 <= Settings.port s < 2 ^ 16 /\ is_int (Settings.shards s) /\
  is_int (Settings.packet_sample_rate s).

Definition script_wf (d : DSLData.t) : Prop :=
  settings_wf (DSLData.settings d) /\
  Forall action_wf (Orchestrator_block.actions (DSLData.orchestrator d)).

(** ** What the conversions return *)

Lemma try_convert_int_wf tok kw z : Parser.try_convert_int tok kw = Ok z -> is_int z.
Proof.
  unfold Parser.try_convert_int. destruct (stoi _) as [v|] eqn:E; [|done].
  destruct (v <? 0) eqn:Ev; [done|]. intros [= <-]. apply stoi_range in E. bool_to_Z.
  unfold is_int, INT_MAX, INT_MIN in *. rewrite u32_small; lia.
Qed.

Lemma try_parse_range_wf p first kw r p' :
  Parser.try_parse_range p first kw = Ok (r, p') -> range_wf r.
Proof.
  unfold Parser.try_parse_range. intros H. inv_ok. injection H as <- <-.
  split; simpl; by eapply try_convert_int_wf.
Qed.

Lemma try_parse_time_wf tok z : Parser.try_parse_time tok = Ok z -> 0 <= z < 2 ^ 32.
Proof.
  unfold Parser.try_parse_time. cbv zeta.
  destruct (ends_with _ "ms"); [|destruct (ends_with _ "s"); [|done]];
    (destruct (stoi _) as [v|]; [|done]); destruct (v <? 0); try done;
    intros [= <-]; apply u32_range.
Qed.

#[export] Hint Resolve try_convert_int_wf try_parse_range_wf try_parse_time_wf : parser.

Lemma count_mods_snoc k l x :
  count_mods k (l ++ [x]) = (count_mods k l + if bool_decide (x = k) then 1 else 0)%nat.
Proof.
  unfold count_mods. rewrite List.filter_app, length_app. simpl.
  by destruct (bool_decide _).
Qed.

Lemma option_args_wf p bytes t1 t2 p' :
  Parser.parse_option_args p = Ok (bytes, t1, t2, p') -> range_wf bytes.
Proof.
  unfold Parser.parse_option_args. intros H. inv_ok.
  injection H as <- <- <- <-. by eapply try_parse_range_wf.
Qed.

(** The fields a modifier leaves alone. *)
Definition same_action (a b : Action.t) : Prop :=
  Action.type b = Action.type a /\ Action.count b = Action.count a /\
  Action.range b = Action.range a.

Lemma try_parse_timestamp_wf p a b p' :
  Parser.try_parse_timestamp p a = Ok (b, p') -> mods_wf a -> mods_wf b /\ same_action a b.
Proof.
  unfold Parser.try_parse_timestamp. intros H (Ht & Hc & Hnt & Hnc). inv_ok.
  apply option_args_wf in Hm. injection H as <- <-. split; [|done].
  apply str_mem_In in E. unfold mods_wf. simpl. rewrite !count_mods_snoc, length_app.
  simpl. rewrite Hnt, Hnc. repeat split; [|done|lia..].
  apply Forall_app. split; [done|]. apply Forall_singleton. by split.
Qed.

Lemma try_parse_counter_wf p a b p' :
  Parser.try_parse_counter p a = Ok (b, p') -> mods_wf a -> mods_wf b /\ same_action a b.
Proof.
  unfold Parser.try_parse_counter. intros H (Ht & Hc & Hnt & Hnc). inv_ok.
  apply option_args_wf in Hm. injection H as <- <-. split; [|done].
  unfold mods_wf. simpl. rewrite !count_mods_snoc, length_app.
  simpl. rewrite Hnt, Hnc. repeat split; [done| |lia..].
  apply Forall_app. split; [done|]. apply Forall_singleton.
  split; [done|]. by eapply try_convert_int_wf.
Qed.

Lemma send_mods_wf n p a b p' :
  Parser.parse_send_mods n p a = Ok (b, p') -> mods_wf a -> mods_wf b /\ same_action a b.
Proof.
  revert p a. induction n as [|n IH]; intros p a H Hm; [done|].
  cbn [Parser.parse_send_mods] in H. inv_ok;
    try (injection H as <- <-; by split).
  - apply try_parse_counter_wf in Hm1 as [Hm' Hs]; [|done].
    destruct (IH _ _ H Hm') as [? Hs']. unfold same_action in *. intuition congruence.
  - apply try_parse_timestamp_wf in Hm1 as [Hm' Hs]; [|done].
    destruct (IH _ _ H Hm') as [? Hs']. unfold same_action in *. intuition congruence.
Qed.

Lemma fresh_no_mods g : no_mods (Action.fresh g).
Proof. done. Qed.

Lemma no_mods_wf a : no_mods a -> mods_wf a.
Proof. intros (Ht & Hc & Ho). unfold mods_wf. rewrite Ht, Hc, Ho. by repeat constructor. Qed.

(** An action before its offset is stored. *)
Definition body_wf (a : Action.t) : Prop :=
  forall ms, 0 <= ms < 2 ^ 32 -> action_wf (Action.set_offset_ms a ms).

Lemma send_wf p ta fv g a p' :
  Parser.parse_send p ta fv (Action.fresh g) = Ok (a, p') -> body_wf a.
Proof.
  unfold Parser.parse_send. intros H. inv_ok.
  apply send_mods_wf in H as [Hm' (Ht & Hc & Hr)]; [|by apply no_mods_wf].
  simpl in Ht, Hc, Hr. intros ms Hms. unfold action_wf. simpl. rewrite Ht, Hc, Hr.
  repeat split; try apply Hms; try apply Hm';
    first [by eapply try_parse_range_wf | by eapply try_convert_int_wf].
Qed.

Lemma ranged_wf ty p ta fv g a p' :
  ty <> ActionType.CREATE -> ty <> ActionType.SEND ->
  Parser.parse_ranged ty p ta fv (Action.fresh g) = Ok (a, p') -> body_wf a.
Proof.
  unfold Parser.parse_ranged. intros H1 H2 H. inv_ok. injection H as <- <-.
  intros ms Hms. apply try_parse_range_wf in Hm.
  split; [done|]. split; [done|]. split; [by apply no_mods_wf|]. by destruct ty.
Qed.

Lemma create_wf p fv g a p' :
  Parser.parse_create p fv (Action.fresh g) = Ok (a, p') -> body_wf a.
Proof.
  unfold Parser.parse_create. intros H. inv_ok. injection H as <- <-.
  intros ms Hms. apply try_convert_int_wf in Hm. unfold is_int, INT_MAX in *.
  split; [done|]. split; [done|]. split; [by apply no_mods_wf|]. done.
Qed.

Lemma parse_action_wf g p a p' : Parser.parse_action g p = Ok (a, p') -> action_wf a.
Proof.
  unfold Parser.parse_action. intros H. inv_ok.
  assert (Hb : body_wf t3).
  { unfold Parser.parse_action_body in Hm1. cbv zeta in Hm1. inv_ok;
      eauto using send_wf, create_wf.
      all: by refine (ranged_wf _ _ _ _ _ _ _ _ _ Hm1). }
  unfold Parser.parse_offset in H. inv_ok; injection H as <- <-; apply Hb.
  - by eapply try_parse_time_wf.
  - done.
Qed.

Lemma actions_loop_wf g n p o o' p' :
  Parser.parse_actions_loop g n p o = Ok (o', p') ->
  Forall action_wf (Orchestrator_block.actions o) ->
  Forall action_wf (Orchestrator_block.actions o').
Proof.
  revert p o. induction n as [|n IH]; intros p o H Hf; [done|].
  cbn [Parser.parse_actions_loop] in H. inv_ok; [by injection H as <- <-|].
  eapply IH; [done|]. simpl. apply Forall_app. split; [done|].
  apply Forall_singleton. by eapply parse_action_wf.
Qed.

Lemma orchestrator_wf g p o o' p' :
  Parser.parse_orchestrator g p o = Ok (o', p') ->
  Forall action_wf (Orchestrator_block.actions o) ->
  Forall action_wf (Orchestrator_block.actions o').
Proof.
  unfold Parser.parse_orchestrator. intros H Hf. inv_ok. injection H as <- <-.
  by eapply actions_loop_wf.
Qed.

Lemma packets_same n p s s' p' :
  Parser.parse_packets n p s = Ok (s', p') -> settings_wf s -> settings_wf s'.
Proof.
  revert p s. induction n as [|n IH]; intros p s H Hs; [done|].
  cbn [Parser.parse_packets] in H. inv_ok; try (by injection H as <- <-).
  by eapply IH.
Qed.

Lemma endpoints_same n p s s' p' :
  Parser.parse_endpoints n p s = Ok (s', p') -> settings_wf s -> settings_wf s'.
Proof.
  revert p s. induction n as [|n IH]; intros p s H Hs; [done|].
  cbn [Parser.parse_endpoints] in H. inv_ok; try (by injection H as <- <-).
  by eapply IH.
Qed.

Lemma store_setting_wf kw v s s' :
  Parser.store_setting kw v s = Ok s' -> settings_wf s -> settings_wf s'.
Proof.
  unfold Parser.store_setting. cbv zeta. intros H (Hp & Hsh & Hr).
  inv_ok; subst s'; repeat split; simpl; try apply Hp; try apply Hsh; try apply Hr;
    try (by eapply try_convert_int_wf);
    apply try_convert_int_wf in Hm as [? ?]; bool_to_Z; rewrite u16_small; lia.
Qed.

Lemma settings_loop_wf n p s s' p' :
  Parser.parse_settings_loop n p s = Ok (s', p') -> settings_wf s -> settings_wf s'.
Proof.
  revert p s. induction n as [|n IH]; intros p s H Hs; [done|].
  cbn [Parser.parse_settings_loop] in H. inv_ok; try (by injection H as <- <-).
  - unfold Parser.parse_nested in Hm0. inv_ok; injection Hm0 as <- <-;
      (eapply IH; [done|]); eauto using packets_same, endpoints_same.
  - unfold Parser.parse_field in Hm0. inv_ok. injection Hm0 as <- <-.
    eapply IH; [done|]. by eapply store_setting_wf.
Qed.

Lemma parse_loop_wf g n p d d' :
  Parser.parse_loop g n p d = Ok d' -> script_wf d -> script_wf d'.
Proof.
  revert p d. induction n as [|n IH]; intros p d H [Hs Ho]; [done|].
  cbn [Parser.parse_loop] in H. cbv zeta in H. inv_ok; [by subst|..]; eapply IH; try done.
  - split; [|done]. simpl. unfold Parser.parse_settings in Hm. inv_ok.
    injection Hm as <- <-. by eapply settings_loop_wf.
  - split; [done|]. simpl. by eapply orchestrator_wf.
Qed.

(** C27: Whatever tokens it is given and whatever the uninitialised members
    hold, the parser returns: it accepts or rejects the script, never indexes
    the token vector out of range, and every loop ends. *)
Theorem parse_returns garbage tokens data :
  returns (Parser.parse garbage (Parser.init tokens) data).
Proof. apply returns_parse_loop; [apply init_valid | apply left_fuel, init_valid]. Qed.

(** C26: A script the parser accepts is well-formed: the port fits 16 bits,
    every number is a non-negative [int], every byte and session range has
    such ends, an offset is a 32-bit number, a CREATE covers [0:count], only a
    SEND carries modifications, their time formats are the documented ones,
    and the order list names each modification exactly once. *)
Theorem parse_wf garbage gh gb tokens d :
  Parser.parse garbage (Parser.init tokens) (DSLData.fresh gh gb) = Ok d -> script_wf d.
Proof.
  intros H. eapply parse_loop_wf; [apply H|]. split; [|constructor].
  unfold settings_wf, is_int, INT_MAX. simpl. lia.
Qed.
