(* ===== verification/ParserPrint.v ===== *)
(** * Printing scripts, and parsing them back

    [print_script] writes a script structure as tokens, every setting and every
    offset explicit; parsing those tokens gives the structure back.  With the
    round trip of the lexer this holds for the text of the script. *)

From S2P Require Import Prelude Diagnostics Script Lexer LexerFacts LexerProps.
From S2P Require Import Parser ParserFacts ParserProps.

(** ** The printer *)

Abbreviation KW s := (TokenType.Keyword, s : string) (only parsing).
Abbreviation ID s := (TokenType.Identity, s : string) (only parsing).
Abbreviation OP s := (TokenType.Operator, s : string) (only parsing).
Abbreviation VAL s := (TokenType.Value, s : string) (only parsing).
Abbreviation OPEN := (TokenType.BraceOpen, "{"%string) (only parsing).
Abbreviation CLOSE := (TokenType.BraceClosed, "}"%string) (only parsing).

Definition print_bool (b : bool) : string := if b then "true" else "false".

Definition print_endian (b : bool) : string := if b then "little" else "big".

Definition print_range (r : Range.t) : list kind :=
  [VAL (to_string (Range.start r)); OP ":"; VAL (to_string (Range.second r))].

Definition print_timestamp (m : TimestampModification.t) : list kind :=
  KW "TIMESTAMP" :: print_range (TimestampModification.timestamp_bytes m) ++
  [VAL (print_endian (TimestampModification.little_endian m)); OP ":";
   VAL (TimestampModification.format_name m)].

Definition print_counter (m : CounterModification.t) : list kind :=
  KW "COUNTER" :: print_range (CounterModification.counter_bytes m) ++
  [VAL (print_endian (CounterModification.little_endian m)); OP ":";
   VAL (to_string (CounterModification.counter_step m))].

Fixpoint print_mods (order : list ModificationType.t) (ts : list TimestampModification.t)
    (cs : list CounterModification.t) : list kind :=
  match order, ts, cs with
  | ModificationType.Timestamp :: order, t :: ts, cs =>
      print_timestamp t ++ print_mods order ts cs
  | ModificationType.Counter :: order, ts, c :: cs =>
      print_counter c ++ print_mods order ts cs
  | _, _, _ => []
  end.

Definition print_body (a : Action.t) : list kind :=
  match Action.type a with
  | ActionType.CREATE => [KW "CREATE"; VAL (to_string (Action.count a))]
  | ActionType.CONNECT => KW "CONNECT" :: print_range (Action.range a)
  | ActionType.FLOOD => KW "FLOOD" :: print_range (Action.range a)
  | ActionType.DRAIN => KW "DRAIN" :: print_range (Action.range a)
  | ActionType.DISCONNECT => KW "DISCONNECT" :: print_range (Action.range a)
  | ActionType.SEND =>
      KW "SEND" :: print_range (Action.range a) ++
      [ID (Action.packet_identifier a); KW "COPIES"; VAL (to_string (Action.count a))] ++
      print_mods (Action.mod_order a) (Action.timestamp_mods a) (Action.counter_mods a)
  end.

Definition print_action (a : Action.t) : list kind :=
  print_body a ++ [KW "OFFSET"; VAL (to_string (Action.offset_ms a) +:+ "ms")].

Definition print_packet (pk : string * string) : list kind :=
  [ID pk.1; OP ":"; VAL pk.2; OP ","].

Definition print_endpoint (e : string) : list kind := [VAL e; OP ","].

Definition print_field (name value : string) : list kind := [KW name; OP "="; VAL value].

Definition print_settings (s : Settings.t) : list kind :=
  [KW "SETTINGS"; ID (Settings.identifier s); OPEN] ++
  print_field "SESSION" (Settings.session_protocol s) ++
  print_field "PORT" (to_string (Settings.port s)) ++
  print_field "HEADERSIZE" (to_string (Settings.header_size s)) ++
  print_field "BODYMAX" (to_string (Settings.body_max s)) ++
  print_field "READ" (print_bool (Settings.read s)) ++
  print_field "REPEAT" (print_bool (Settings.repeat s)) ++
  print_field "SAMPLERATE" (to_string (Settings.packet_sample_rate s)) ++
  print_field "SHARDS" (to_string (Settings.shards s)) ++
  print_field "HANDLER" (Settings.handler_value s) ++
  [KW "PACKETS"; OPEN] ++
  flat_map print_packet (map_to_list (Settings.packet_identifiers s)) ++ [CLOSE] ++
  [KW "ENDPOINTS"; OPEN] ++ flat_map print_endpoint (Settings.endpoints s) ++ [CLOSE] ++
  [CLOSE].

Definition print_orchestrator (o : Orchestrator_block.t) : list kind :=
  [KW "ORCHESTRATOR"; ID (Orchestrator_block.settings_identifier o); OPEN] ++
  flat_map print_action (Orchestrator_block.actions o) ++ [CLOSE].

Definition print_script (d : DSLData.t) : list kind :=
  print_settings (DSLData.settings d) ++ print_orchestrator (DSLData.orchestrator d).

(** What a printed script can hold beyond [script_wf]: an offset and the two
    sizes are written as [int]s, and a member the syntax of an action does not
    mention keeps its initial content. *)
Definition action_printable (garbage : Z) (a : Action.t) : Prop :=
  is_int (Action.offset_ms a) /\
  (Action.type a <> ActionType.SEND -> Action.packet_identifier a = EmptyString) /\
  (Action.type a <> ActionType.SEND -> Action.type a <> ActionType.CREATE ->
   Action.count a = garbage).

Definition script_printable (garbage : Z) (d : DSLData.t) : Prop :=
  script_wf d /\
  is_int (Settings.header_size (DSLData.settings d)) /\
  is_int (Settings.body_max (DSLData.settings d)) /\
  Forall (action_printable garbage) (Orchestrator_block.actions (DSLData.orchestrator d)).

(** ** Consuming printed tokens *)

(** Evaluate the comparisons between constants. *)
Ltac eval_tests :=
  repeat match goal with
  | |- context [TokenType.eqb ?a ?b] =>
      let v := eval vm_compute in (TokenType.eqb a b) in
      match v with true => idtac | false => idtac end;
      change (TokenType.eqb a b) with v
  | |- context [String.eqb ?a ?b] =>
      let v := eval vm_compute in (String.eqb a b) in
      match v with true => idtac | false => idtac end;
      change (String.eqb a b) with v
  end; cbn [andb negb].

(** One token: answer every question about it, then step over it. *)
Ltac look :=
  match goal with
  | H : sees ?p ((?ty, ?tx) :: ?l) |- _ =>
      repeat first
        [ rewrite (fun ty' => sees_expected p ty tx l ty' H)
        | rewrite (fun op => sees_operator p ty tx l op H)
        | rewrite (sees_text p ty tx l H) ];
      eval_tests
  end.

Ltac eat :=
  match goal with
  | H : sees ?p ((?ty, ?tx) :: ?l) |- _ =>
      look; rewrite (sees_consume p ty tx l H); cbn [obind];
      let T := fresh "T" in pose proof (sees_text p ty tx l H) as T;
      apply sees_next in H; rewrite ?T; eval_tests
  end.

Lemma try_convert_print tok kw z :
  is_int z -> Token.text tok = to_string z -> Parser.try_convert_int tok kw = Ok z.
Proof.
  intros Hz Ht. unfold Parser.try_convert_int. rewrite Ht, stoi_to_string by done.
  unfold is_int, INT_MAX in Hz. destruct (z <? 0) eqn:E; bool_to_Z; [lia|].
  rewrite u32_small by lia. done.
Qed.

Lemma sees_fuel p l : sees p l -> (length l < Parser.fuel p)%nat.
Proof.
  unfold sees, remaining, Parser.fuel. intros H%(f_equal length).
  rewrite length_map, length_drop in H. lia.
Qed.

Lemma ends_with_app s t : ends_with (s +:+ t) t = true.
Proof.
  unfold ends_with. rewrite string_length_app. apply andb_true_iff. split.
  - apply Nat.leb_le. lia.
  - apply String.eqb_eq. replace (String.length s + _ - _)%nat with (String.length s) by lia.
    induction s as [|c s IH]; [|done]. simpl. induction t as [|c t IH]; [done|]. simpl.
    by f_equal.
Qed.

Lemma drop_last_app s c : drop_last (s +:+ char_string c) = s.
Proof.
  unfold drop_last. rewrite string_length_app. simpl.
  replace (String.length s + 1 - 1)%nat with (String.length s) by lia.
  induction s as [|d s IH]; [done|]. simpl. by f_equal.
Qed.

Lemma try_parse_time_print tok z :
  is_int z -> Token.text tok = to_string z +:+ "ms" -> Parser.try_parse_time tok = Ok z.
Proof.
  intros Hz Ht. unfold Parser.try_parse_time. rewrite Ht, ends_with_app. cbv zeta.
  change "ms"%string with (char_string "m" +:+ char_string "s").
  rewrite <- string_app_assoc, drop_last_app, stoi_to_string_app by done.
  unfold is_int, INT_MAX in Hz. destruct (z <? 0) eqn:E; bool_to_Z; [lia|].
  rewrite Z.mul_1_r, u32_small by lia. done.
Qed.

(** ** Parsing what is printed *)

(** [m] reads a printed prefix, returns [a] and leaves [l] to be seen. *)
Definition reads {A} (m : outcome (A * Parser.t)) (a : A) (l : list kind) : Prop :=
  exists p, m = Ok (a, p) /\ sees p l.

Lemma reads_obind {A B} (m : outcome (A * Parser.t)) (k : A * Parser.t -> outcome (B * Parser.t))
    a b l l' :
  reads m a l -> (forall p, sees p l -> reads (k (a, p)) b l') -> reads (obind m k) b l'.
Proof. intros (p & -> & Hs) Hk. by apply Hk. Qed.

Lemma reads_Ok {A} (a : A) p l : sees p l -> reads (Ok (a, p)) a l.
Proof. intros H. by exists p. Qed.

Ltac reads_step lem :=
  eapply reads_obind; [apply lem; eauto|]; let q := fresh "q" in intros q ?; cbv beta iota.

Lemma range_print p first kw r l :
  range_wf r -> Token.text first = to_string (Range.start r) ->
  sees p (OP ":" :: VAL (to_string (Range.second r)) :: l) ->
  reads (Parser.try_parse_range p first kw) r l.
Proof.
  intros [Hs He] Hf H. unfold Parser.try_parse_range. eat. eat.
  rewrite !(try_convert_print _ _ (Range.start r)) by done. cbn [obind].
  rewrite (try_convert_print _ _ (Range.second r)) by done. cbn [obind].
  destruct r. by apply reads_Ok.
Qed.

Lemma endian_print tok b :
  Token.text tok = print_endian b -> Parser.parse_endian tok = Ok b.
Proof. intros H. unfold Parser.parse_endian. rewrite H. by destruct b. Qed.

Lemma bool_print tok b : Token.text tok = print_bool b -> Parser.parse_bool tok = Ok b.
Proof. intros H. unfold Parser.parse_bool. rewrite H. by destruct b. Qed.

Lemma option_args_print p r v1 v2 l :
  range_wf r -> sees p (print_range r ++ [VAL v1; OP ":"; VAL v2] ++ l) ->
  exists t1 t2 q, Parser.parse_option_args p = Ok (r, t1, t2, q) /\
    Token.text t1 = v1 /\ Token.text t2 = v2 /\ sees q l.
Proof.
  intros Hr H. unfold Parser.parse_option_args. cbn [print_range app] in H. eat.
  destruct (range_print (next p) (Parser.peek p) "TIMESTAMP" r _ Hr T H) as (q & -> & H').
  clear H. rename H' into H. cbn [obind]. eat. eat. eat. eauto 10.
Qed.

Lemma timestamp_print p m a l :
  timestamp_wf m -> sees p (tail (print_timestamp m) ++ l) ->
  reads (Parser.try_parse_timestamp p a) (Action.push_timestamp a m) l.
Proof.
  intros [Hr Hf] H. unfold Parser.try_parse_timestamp. cbn [print_timestamp tail] in H.
  rewrite <- app_assoc in H.
  destruct (option_args_print _ _ _ _ _ Hr H) as (t1 & t2 & q & -> & H1 & H2 & H').
  cbn [obind]. rewrite (endian_print _ _ H1). cbn [obind]. rewrite H2.
  apply str_mem_In in Hf. unfold VALID_TIME_FORMATS in Hf. rewrite Hf.
  destruct m. by apply reads_Ok.
Qed.

Lemma counter_print p m a l :
  counter_wf m -> sees p (tail (print_counter m) ++ l) ->
  reads (Parser.try_parse_counter p a) (Action.push_counter a m) l.
Proof.
  intros [Hr Hf] H. unfold Parser.try_parse_counter. cbn [print_counter tail] in H.
  rewrite <- app_assoc in H.
  destruct (option_args_print _ _ _ _ _ Hr H) as (t1 & t2 & q & -> & H1 & H2 & H').
  cbn [obind]. rewrite (endian_print _ _ H1). cbn [obind].
  rewrite (try_convert_print _ _ _ Hf H2). cbn [obind].
  destruct m. by apply reads_Ok.
Qed.

(** The action with the modifications of an order list pushed onto it. *)
Definition push_mods (a : Action.t) order ts cs : Action.t :=
  Action.mk (Action.type a) (Action.count a) (Action.range a) (Action.offset_ms a)
    (Action.packet_identifier a) (Action.timestamp_mods a ++ ts)
    (Action.counter_mods a ++ cs) (Action.mod_order a ++ order).

Lemma send_mods_print n order ts cs p a l :
  Forall timestamp_wf ts -> Forall counter_wf cs ->
  count_mods ModificationType.Timestamp order = length ts ->
  count_mods ModificationType.Counter order = length cs ->
  (length order < n)%nat ->
  sees p (print_mods order ts cs ++ KW "OFFSET" :: l) ->
  reads (Parser.parse_send_mods n p a) (push_mods a order ts cs) (KW "OFFSET" :: l).
Proof.
  revert n ts cs p a. induction order as [|k order IH]; intros n ts cs p a Ht Hc Hnt Hnc Hn H.
  - destruct n as [|n]; [lia|]. destruct ts; [|done]. destruct cs; [|done].
    cbn [Parser.parse_send_mods print_mods app] in *. look.
    unfold push_mods. rewrite !app_nil_r. destruct a. by apply reads_Ok.
  - destruct n as [|n]; [lia|]. simpl length in Hn.
    destruct k; unfold count_mods in Hnt, Hnc; simpl in Hnt, Hnc.
    + destruct cs as [|c cs]; [done|]. inversion Hc as [|? ? Hw Hc']; subst.
      assert (H' : sees p (KW "COUNTER" :: (tail (print_counter c) ++
                print_mods order ts cs ++ KW "OFFSET" :: l))).
      { rewrite app_assoc. destruct ts; exact H. }
      clear H. rename H' into H. cbn [Parser.parse_send_mods]. look. eat.
      eapply reads_obind; [by apply counter_print|]. intros q Hq. cbv beta iota.
      specialize (IH n ts cs q (Action.push_counter a c)).
      unfold push_mods in *. simpl in IH. rewrite <- !app_assoc in IH.
      apply IH; try done; [injection Hnc; done | lia].
    + destruct ts as [|t ts]; [done|]. inversion Ht as [|? ? Hw Ht']; subst.
      assert (H' : sees p (KW "TIMESTAMP" :: (tail (print_timestamp t) ++
                print_mods order ts cs ++ KW "OFFSET" :: l))).
      { rewrite app_assoc. exact H. }
      clear H. rename H' into H. cbn [Parser.parse_send_mods]. look. eat.
      eapply reads_obind; [by apply timestamp_print|]. intros q Hq. cbv beta iota.
      specialize (IH n ts cs q (Action.push_timestamp a t)).
      unfold push_mods in *. simpl in IH. rewrite <- !app_assoc in IH.
      apply IH; try done; [injection Hnt; done | lia].
Qed.

Lemma length_print_mods order ts cs :
  count_mods ModificationType.Timestamp order = length ts ->
  count_mods ModificationType.Counter order = length cs ->
  (length order <= length (print_mods order ts cs))%nat.
Proof.
  revert ts cs. induction order as [|k order IH]; intros ts cs Ht Hc; [simpl; lia|].
  destruct k; unfold count_mods in Ht, Hc; simpl in Ht, Hc.
  - destruct cs as [|c cs]; [done|]. injection Hc as Hc. specialize (IH ts cs Ht Hc).
    destruct ts; simpl in *; lia.
  - destruct ts as [|t ts]; [done|]. injection Ht as Ht. specialize (IH ts cs Ht Hc).
    simpl in *. lia.
Qed.

Lemma send_print g p a ta fv l :
  action_wf a -> Action.type a = ActionType.SEND ->
  Token.text fv = to_string (Range.start (Action.range a)) ->
  sees p (tail (tail (print_body a)) ++ KW "OFFSET" :: l) ->
  reads (Parser.parse_send p ta fv (Action.fresh g))
    (Action.set_offset_ms a g) (KW "OFFSET" :: l).
Proof.
  intros (Hr & _ & (Hts & Hcs & Hnt & Hnc) & Hc) Ht Hf H. rewrite Ht in Hc.
  unfold Parser.parse_send, print_body in *. rewrite Ht in H.
  cbn [print_range app tail] in H.
  eapply reads_obind; [by apply range_print|]. clear H. intros q H. cbv beta iota.
  eat. look. eat. eat.
  rewrite (try_convert_print _ _ _ Hc T1). cbn [obind].
  destruct a as [ty c r o pk ts cs mo].
  cbn [Action.type Action.count Action.range Action.offset_ms Action.packet_identifier
       Action.timestamp_mods Action.counter_mods Action.mod_order] in *. subst ty.
  pose proof (sees_fuel _ _ H) as Hl. rewrite length_app in Hl.
  pose proof (length_print_mods mo ts cs Hnt Hnc).
  eapply (send_mods_print _ mo ts cs _ _ l) in H; [exact H | done.. | lia].
Qed.

Lemma action_print g p a l :
  action_wf a -> action_printable g a -> sees p (print_action a ++ l) ->
  reads (Parser.parse_action g p) a l.
Proof.
  intros Hwf (Ho & Hpk & Hcount) H.
  assert (Hb : forall fv ta q,
    Token.text fv = default "" (snd <$> head (tail (print_body a))) ->
    Token.text ta = default "" (snd <$> head (print_body a)) ->
    sees q (tail (tail (print_body a)) ++ KW "OFFSET" ::
            VAL (to_string (Action.offset_ms a) +:+ "ms") :: l) ->
    reads (Parser.parse_action_body q ta fv (Action.fresh g)) (Action.set_offset_ms a g)
      (KW "OFFSET" :: VAL (to_string (Action.offset_ms a) +:+ "ms") :: l)).
  { intros fv ta q Hfv Hta Hq. unfold Parser.parse_action_body. cbv zeta.
    destruct (Action.type a) eqn:Et.
    2-6: unfold print_body in Hta; rewrite Et in Hta; simpl in Hta; rewrite Hta; eval_tests.
    3: by apply send_print; try done; unfold print_body in Hfv; rewrite Et in Hfv.
    1: unfold print_body in Hta, Hfv, Hq; rewrite Et in Hta, Hfv, Hq; simpl in Hta, Hfv, Hq;
       rewrite Hta; eval_tests; unfold Parser.parse_create.
    2-5: unfold print_body in Hfv, Hq; rewrite Et in Hfv, Hq; cbn in Hfv, Hq;
      unfold Parser.parse_ranged; eapply reads_obind;
      [apply range_print; [apply Hwf | exact Hfv | exact Hq]|]; intros q' Hq'; cbv beta iota.
    all: destruct Hwf as (_ & _ & _ & Hwf); rewrite Et in Hwf; unfold no_mods in Hwf;
      destruct a as [ty c r o pk ts cs mo]; simpl in *; subst ty.
    1: { destruct Hwf as (Hc & -> & -> & -> & ->). rewrite (try_convert_print _ _ _ Hc Hfv).
      cbn [obind]. rewrite Hpk by done. by apply reads_Ok. }
    all: destruct Hwf as (-> & -> & ->); rewrite Hpk, Hcount by done; by apply reads_Ok. }
  unfold print_action in H. rewrite <- app_assoc in H. cbn [app] in H.
  assert (exists k v r, print_body a = KW k :: VAL v :: r) as (k & v & r & E).
  { unfold print_body, print_range. destruct (Action.type a); simpl; eauto. }
  rewrite E in H, Hb. cbn in H, Hb. unfold Parser.parse_action. eat. eat.
  eapply reads_obind; [by apply Hb|]. clear H. intros q H. cbv beta iota.
  unfold Parser.parse_offset. look. eat. eat.
  rewrite (try_parse_time_print _ _ Ho) by done. cbn [obind]. destruct a. by apply reads_Ok.
Qed.

Lemma length_flat_map {A B} (f : A -> list B) l :
  (forall x, f x <> []) -> (length l <= length (flat_map f l))%nat.
Proof.
  intros Hf. induction l as [|x l IH]; [simpl; lia|]. simpl. rewrite length_app.
  specialize (Hf x). destruct (f x); simpl; [done | lia].
Qed.

Lemma print_action_cons a : exists k v r, print_action a = KW k :: VAL v :: r.
Proof.
  unfold print_action, print_body, print_range. destruct (Action.type a); simpl; eauto.
Qed.

Lemma print_action_not_nil a : print_action a <> [].
Proof. destruct (print_action_cons a) as (k & v & r & E). by rewrite E. Qed.

Lemma actions_print g n l p o rest :
  Forall action_wf l -> Forall (action_printable g) l -> (length l < n)%nat ->
  sees p (flat_map print_action l ++ CLOSE :: rest) ->
  reads (Parser.parse_actions_loop g n p o)
    (Orchestrator_block.mk (Orchestrator_block.settings_identifier o)
       (Orchestrator_block.actions o ++ l)) (CLOSE :: rest).
Proof.
  revert n p o. induction l as [|a l IH]; intros n p o Hw Hp Hn H;
    (destruct n as [|n]; [simpl in Hn; lia|]); cbn [Parser.parse_actions_loop].
  - cbn [flat_map app] in H. look. rewrite app_nil_r. destruct o. by apply reads_Ok.
  - inversion Hw; inversion Hp; subst. cbn [flat_map] in H. rewrite <- app_assoc in H.
    assert (Hx : Parser.is_expected p TokenType.BraceClosed = false).
    { destruct (print_action_cons a) as (k & v & r & E). rewrite E in H. simpl in H. by look. }
    rewrite Hx. eapply reads_obind; [by apply action_print|]. intros q Hq. cbv beta iota.
    specialize (IH n q (Orchestrator_block.push_action o a)). simpl in IH.
    rewrite <- app_assoc in IH. apply IH; try done. simpl in Hn. lia.
Qed.

Lemma orchestrator_print g p o o' l :
  Forall action_wf (Orchestrator_block.actions o) ->
  Forall (action_printable g) (Orchestrator_block.actions o) ->
  Orchestrator_block.actions o' = [] ->
  sees p (print_orchestrator o ++ l) ->
  reads (Parser.parse_orchestrator g p o') o l.
Proof.
  intros Hw Hp Ho H. unfold print_orchestrator in H. rewrite <- !app_assoc in H.
  cbn [app] in H. unfold Parser.parse_orchestrator. eat. eat. eat.
  eapply reads_obind.
  - eapply actions_print; [exact Hw | exact Hp | | exact H].
    apply sees_fuel in H. rewrite length_app in H.
    assert (Hl := length_flat_map print_action (Orchestrator_block.actions o)).
    specialize (Hl print_action_not_nil).
    unfold Parser.fuel in *. simpl in *. lia.
  - clear H. intros q H. cbv beta iota. eat. simpl. rewrite Ho.
    destruct o. by apply reads_Ok.
Qed.

Definition insert_packet (m : gmap string string) (pk : string * string) :=
  <[pk.1 := pk.2]> m.

Lemma packets_print n l p s rest :
  (length l < n)%nat -> sees p (flat_map print_packet l ++ CLOSE :: rest) ->
  reads (Parser.parse_packets n p s)
    (Settings.set_packet_identifiers s
       (fold_left insert_packet l (Settings.packet_identifiers s))) (CLOSE :: rest).
Proof.
  revert n p s. induction l as [|[i f] l IH]; intros n p s Hn H;
    (destruct n as [|n]; [simpl in Hn; lia|]); cbn [Parser.parse_packets].
  - cbn [flat_map app] in H. look. destruct s. by apply reads_Ok.
  - cbn [flat_map print_packet app fst snd] in H. look. eat. eat. eat.
    unfold Parser.entry_separator. eat.
    apply (IH n _ (Settings.set_packet_identifiers s
                     (<[i:=f]> (Settings.packet_identifiers s)))) in H; [done|].
    simpl in Hn. lia.
Qed.

Lemma endpoints_print n l p s rest :
  (length l < n)%nat -> sees p (flat_map print_endpoint l ++ CLOSE :: rest) ->
  reads (Parser.parse_endpoints n p s)
    (Settings.set_endpoints s (Settings.endpoints s ++ l)) (CLOSE :: rest).
Proof.
  revert n p s. induction l as [|e l IH]; intros n p s Hn H;
    (destruct n as [|n]; [simpl in Hn; lia|]); cbn [Parser.parse_endpoints].
  - cbn [flat_map app] in H. look. rewrite app_nil_r. destruct s. by apply reads_Ok.
  - cbn [flat_map print_endpoint app] in H. look. eat.
    unfold Parser.entry_separator. eat.
    specialize (IH n _ (Settings.set_endpoints s (Settings.endpoints s ++ [e])) ltac:(simpl in Hn; lia) H).
    simpl in IH. rewrite <- app_assoc in IH. exact IH.
Qed.

Lemma insert_all (m : gmap string string) :
  fold_left insert_packet (map_to_list m) ∅ = m.
Proof.
  change insert_packet with (fun a pk => (fun pk m => insert_packet m pk) pk a).
  rewrite <- fold_left_rev_right.
  change (list_to_map (M := gmap string string) (rev (map_to_list m)) = m).
  rewrite <- (list_to_map_to_list m) at 2. apply list_to_map_proper.
  - rewrite <- Permutation_rev. apply NoDup_fst_map_to_list.
  - by rewrite <- Permutation_rev.
Qed.

(** ** The settings block *)

Definition stores (name value : string) (s s' : Settings.t) : Prop :=
  forall kw v, Token.text kw = name -> Token.text v = value ->
               Parser.store_setting kw v s = Ok s'.

Lemma field_step n p s s' name value l res l' :
  sees p (print_field name value ++ l) -> stores name value s s' ->
  (forall q, sees q l -> reads (Parser.parse_settings_loop n q s') res l') ->
  reads (Parser.parse_settings_loop (S n) p s) res l'.
Proof.
  intros H Hst Hk. cbn [Parser.parse_settings_loop print_field app] in *. look. eat. look.
  unfold Parser.parse_field. eat. eat. rewrite (Hst _ _ T T1). cbn [obind]. by apply Hk.
Qed.

Lemma packets_step n p s l m res l' :
  Settings.packet_identifiers s = ∅ ->
  sees p ([KW "PACKETS"; OPEN] ++ flat_map print_packet (map_to_list m) ++ [CLOSE] ++ l) ->
  (forall q, sees q l ->
     reads (Parser.parse_settings_loop n q (Settings.set_packet_identifiers s m)) res l') ->
  reads (Parser.parse_settings_loop (S n) p s) res l'.
Proof.
  intros Hs H Hk. cbn [Parser.parse_settings_loop app] in *. look. eat. look.
  unfold Parser.parse_nested. eat. rewrite T. eval_tests.
  pose proof (sees_fuel _ _ H) as Hf. rewrite length_app in Hf. 
  pose proof (length_flat_map print_packet (map_to_list m) ltac:(done)).
  eapply packets_print in H as (q & Hq & H); [rewrite Hq | unfold Parser.fuel in *; simpl in *; lia].
  cbn [obind]. eat. rewrite Hs, insert_all. by apply Hk.
Qed.

Lemma endpoints_step n p s l es res l' :
  Settings.endpoints s = [] ->
  sees p ([KW "ENDPOINTS"; OPEN] ++ flat_map print_endpoint es ++ [CLOSE] ++ l) ->
  (forall q, sees q l ->
     reads (Parser.parse_settings_loop n q (Settings.set_endpoints s es)) res l') ->
  reads (Parser.parse_settings_loop (S n) p s) res l'.
Proof.
  intros Hs H Hk. cbn [Parser.parse_settings_loop app] in *. look. eat. look.
  unfold Parser.parse_nested. eat. rewrite T. eval_tests.
  pose proof (sees_fuel _ _ H) as Hf. rewrite length_app in Hf. 
  pose proof (length_flat_map print_endpoint es ltac:(done)).
  eapply endpoints_print in H as (q & Hq & H); [rewrite Hq | unfold Parser.fuel in *; simpl in *; lia].
  cbn [obind]. eat. rewrite Hs. by apply Hk.
Qed.

Ltac store :=
  intros kw v Hkw Hv; unfold Parser.store_setting; cbv zeta; rewrite Hkw; eval_tests;
  first [ rewrite Hv; reflexivity
        | rewrite (bool_print _ _ Hv); reflexivity
        | match type of Hv with _ = to_string ?z =>
            rewrite (try_convert_print v _ z) by assumption; reflexivity end ].

Lemma settings_print p s gh gb l :
  settings_wf s -> is_int (Settings.header_size s) -> is_int (Settings.body_max s) ->
  sees p (print_settings s ++ l) ->
  reads (Parser.parse_settings p (Settings.fresh gh gb)) s l.
Proof.
  intros (Hp & Hsh & Hsr) Hh Hb H. unfold print_settings in H.
  rewrite <- !app_assoc in H. cbn [app] in H. unfold Parser.parse_settings. eat.
  eat. eat.
  assert (exists k, Parser.fuel (next (next (next p))) = (12 + k)%nat) as [k ->].
  { apply sees_fuel in H. simpl in H. exists (Parser.fuel (next (next (next p))) - 12)%nat. lia. }
  eapply reads_obind.
  - eapply field_step; [exact H | store | clear H; intros q0 H].
    eapply field_step; [exact H | | clear H; intros q1 H].
    { intros kw v Hkw Hv. unfold Parser.store_setting. cbv zeta. rewrite Hkw. eval_tests.
      rewrite (try_convert_print _ _ (Settings.port s)); [|unfold is_int, INT_MAX; lia|done].
      cbn [obind]. destruct (Settings.port s >? 65535) eqn:E; bool_to_Z; [lia|].
      rewrite u16_small by lia. reflexivity. }
    do 7 (eapply field_step; [exact H | store | clear H; intros ? H]).
    eapply packets_step; [done | exact H | clear H; intros ? H].
    eapply endpoints_step; [done | exact H | clear H; intros ? H].
    change (S k) with (1 + k)%nat. cbn [Parser.parse_settings_loop Nat.add]. look. by apply reads_Ok.
  - clear H. intros q H. cbv beta iota. eat. destruct s. by apply reads_Ok.
Qed.

(** ** The round trips *)

Lemma parse_printed garbage gh gb tokens d :
  script_printable garbage d -> map token_kind tokens = print_script d ->
  Parser.parse garbage (Parser.init tokens) (DSLData.fresh gh gb) = Ok d.
Proof.
  intros ((Hs & Ha) & Hh & Hb & Hp) H.
  assert (Hl : sees (Parser.init tokens) (print_script d)) by exact H. clear H. rename Hl into H.
  unfold Parser.parse.
  assert (exists k, Parser.fuel (Parser.init tokens) = (3 + k)%nat) as [k ->].
  { apply sees_fuel in H. simpl in H. exists (Parser.fuel (Parser.init tokens) - 3)%nat. lia. }
  unfold print_script in H. cbn [Parser.parse_loop Nat.add].
  destruct (sees_cons _ _ _ _ H) as (He & _ & Ht & _). rewrite He, Ht. eval_tests.
  destruct (settings_print _ _ gh gb _ Hs Hh Hb H) as (q & Hq & H').
  cbn [DSLData.fresh DSLData.settings]. rewrite Hq. cbn [obind]. clear H He Ht Hq.
  rewrite <- (app_nil_r (print_orchestrator _)) in H'. unfold print_orchestrator in H'.
  pose proof H' as H. cbn [app] in H.
  destruct (sees_cons _ _ _ _ H) as (He & _ & Ht & _). rewrite He, Ht. eval_tests.
  destruct (orchestrator_print garbage q _ Orchestrator_block.fresh [] Ha Hp eq_refl H')
    as (q' & Hq' & Hn).
  cbn [DSLData.set_settings DSLData.orchestrator DSLData.fresh]. rewrite Hq'. cbn [obind].
  rewrite (sees_nil _ Hn). by destruct d.
Qed.

(** Printing a well-formed script as tokens, with every setting and offset written out, and parsing the tokens, at
    whatever positions, gives exactly that script back. *)
Theorem parse_print garbage gh gb tokens d :
  script_printable garbage d -> map token_kind tokens = print_script d ->
  Parser.parse garbage (Parser.init tokens) (DSLData.fresh gh gb) = Ok d.
Proof. apply parse_printed. Qed.

(** The text of a script. *)
Definition place (k : kind) : Token.t := Token.mk k.1 k.2 0 0.

Definition script_text (d : DSLData.t) : string :=
  implode (print_tokens (map place (print_script d))).

(** C3: Writing a well-formed script as text, its values quoted and escaped,
    then lexing and parsing the text, gives exactly that script back, provided
    its names have the shape of identifiers and no value ends in a backslash. *)
Theorem script_roundtrip garbage gh gb d :
  script_printable garbage d -> forallb token_wf (map place (print_script d)) = true ->
  (let! tokens := Lexer.tokenize (script_text d) in
   Parser.parse garbage (Parser.init tokens) (DSLData.fresh gh gb)) = Ok d.
Proof.
  intros Hp Hw. destruct (tokenize_printed _ Hw) as (ts & Hts & Hk).
  unfold script_text. rewrite Hts. cbn [obind]. apply parse_printed; [done|].
  rewrite Hk, map_map. etransitivity; [|apply map_id]. apply map_ext. by intros [ty tx].
Qed.

Lemma seconds_not_ms u d :
  isdigit d = true -> ends_with ((u +:+ char_string d) +:+ "s") "ms" = false.
Proof.
  intros Hd. unfold ends_with. rewrite string_app_assoc, string_length_app. simpl.
  replace (String.length u + 2 - 2)%nat with (String.length u) by lia.
  apply andb_false_iff. right. apply String.eqb_neq.
  assert (String.substring (String.length u) 2 (u +:+ String d "s") = String d "s") as ->.
  { clear Hd. by induction u. }
  by intros [= ->].
Qed.

(** C31: A time is read in milliseconds with a unit [ms] and in thousands of
    milliseconds with a unit [s], in 32-bit arithmetic: from 4294968 seconds on
    the offset of an action wraps around to a short one. *)
Theorem try_parse_time_units tok z :
  is_int z ->
  (Token.text tok = to_string z +:+ "ms" -> Parser.try_parse_time tok = Ok z) /\
  (Token.text tok = to_string z +:+ "s" ->
   Parser.try_parse_time tok = Ok (1000 * z - 2 ^ 32 * (z * 1000 / 2 ^ 32))).
Proof.
  intros Hz. split; [by apply try_parse_time_print|]. intros Ht.
  unfold Parser.try_parse_time. rewrite Ht. cbv zeta.
  assert (ends_with (to_string z +:+ "s") "ms" = false) as ->.
  { destruct (to_string_last z) as (u & d & -> & Hd); [apply Hz | by apply seconds_not_ms]. }
  rewrite ends_with_app. change "s"%string with (char_string "s").
  rewrite drop_last_app, stoi_to_string by done. pose proof Hz as [H0 _].
  destruct (z <? 0) eqn:E; bool_to_Z; [lia|]. f_equal. unfold u32.
  rewrite Z.mod_eq by lia. lia.
Qed.

(** ** Witnesses *)

Definition sample_actions (garbage : Z) : list Action.t :=
  let plain ty r := Action.mk ty garbage r 100 EmptyString [] [] [] in
  [ Action.mk ActionType.CREATE 100 (Range.mk 0 100) 0 EmptyString [] [] [];
    plain ActionType.CONNECT (Range.mk 0 100);
    Action.mk ActionType.SEND 20 (Range.mk 0 50) 5000 "packet"
      [TimestampModification.mk (Range.mk 12 8) true "microseconds"]
      [CounterModification.mk (Range.mk 0 4) 1 false]
      [ModificationType.Counter; ModificationType.Timestamp];
    plain ActionType.DRAIN (Range.mk 0 100) ].

Definition sample_data (garbage : Z) : DSLData.t :=
  DSLData.mk
    (Settings.mk "s" "TCP" 8 1024 true true 100 2 12345 "NOP" ["127.0.0.1"; "::1"]
       {[ "packet"%string := "a$b.bin"%string ]})
    (Orchestrator_block.mk "s" (sample_actions garbage)).

Ltac wf_sample :=
  repeat first
    [ progress unfold script_printable, script_wf, settings_wf, action_wf, action_printable,
        mods_wf, no_mods, timestamp_wf, counter_wf, range_wf, is_int, INT_MAX in *
    | progress simpl
    | apply List.Forall_cons
    | apply List.Forall_nil
    | match goal with |- _ /\ _ => split end
    | intros ?; done
    | lia
    | done
    | tauto ].

Lemma sample_printable garbage : script_printable garbage (sample_data garbage).
Proof. unfold sample_data, sample_actions. wf_sample. Qed.

Lemma parse_print_witness :
  Parser.parse 7 (Parser.init (map place (print_script (sample_data 7)))) (DSLData.fresh 1 2)
  = Ok (sample_data 7).
Proof. apply (parse_print 7 1 2); [apply sample_printable | vm_compute; reflexivity]. Defined.

Lemma script_roundtrip_witness :
  (let! tokens := Lexer.tokenize (script_text (sample_data 7)) in
   Parser.parse 7 (Parser.init tokens) (DSLData.fresh 1 2)) = Ok (sample_data 7).
Proof. apply (script_roundtrip 7 1 2); [apply sample_printable | vm_compute; reflexivity]. Defined.

Lemma parse_wf_witness : script_wf (sample_data 7).
Proof.
  apply (parse_wf 7 1 2 (map place (print_script (sample_data 7)))).
  vm_compute. reflexivity.
Defined.

Lemma try_parse_time_units_witness :
  Parser.try_parse_time (Token.mk TokenType.Value "4294968s" 1 1) = Ok 704.
Proof.
  apply (try_parse_time_units (Token.mk TokenType.Value "4294968s" 1 1) 4294968);
    [unfold is_int, INT_MAX; lia | vm_compute; reflexivity].
Defined.
