(* ===== verification/Resolver.v ===== *)
(** * The resolver (src/resolver/resolver.{h,cpp}) and the system below it

    [System] is what the program asks of the operating system: environment
    variables, path resolution, file sizes and file contents.  The definitions
    of the namespace [Resolver] are translated over it; the global options are
    an argument. *)

From S2P Require Import Prelude.

(** ** The system *)

(** [canonical] is [std::filesystem::canonical]: the path, or the message of
    the error code.  [file_size] fails with an error code; [open_file] gives
    the bytes of a file that can be opened. *)
Class System : Type := {
  getenv : string -> option string;
  canonical : string -> string + string;
  file_size : string -> option Z;
  open_file : string -> option string
}.

(** The first [n] bytes, when there are as many: [file.read(buffer, n)]. *)
Definition read_bytes (contents : string) (n : Z) : option string :=
  if n <=? Z.of_nat (String.length contents)
  then Some (String.substring 0 (Z.to_nat n) contents) else None.

Definition bytes_of (s : string) : list Z := map char_code (String.list_ascii_of_string s).

Module Resolver.
Section Resolver.
Context `{System}.

(** [struct ResolverOptions] *)
Record options : Type := mk_options { expand_envs : bool }.

(** [s.data()] as a C string: up to the first NUL. *)
Fixpoint c_string (s : string) : string :=
  match s with
  | EmptyString => EmptyString
  | String c s => if char_eqb c NUL then EmptyString else String c (c_string s)
  end.

(** The loop of [expand_env_variables]. *)
Fixpoint expand_loop (in_path : string) (finding_env : bool)
    (current_env_str out_path : string) : string :=
  match in_path with
  | EmptyString => out_path
  | String c in_path =>
      if char_eqb c "$"%char then expand_loop in_path true EmptyString out_path
      else
        let '(finding_env, out_path) :=
          if char_eqb c "/"%char then
            if finding_env then
              (false,
               match getenv (c_string current_env_str) with
               | Some env_str => out_path +:+ env_str
               | None => out_path
               end)
            else (finding_env, out_path)
          else (finding_env, out_path) in
        if negb finding_env
        then expand_loop in_path finding_env current_env_str (push_back out_path c)
        else expand_loop in_path finding_env (push_back current_env_str c) out_path
  end.

Definition expand_env_variables (in_path : string) : string :=
  expand_loop in_path false EmptyString EmptyString.

Definition expand_tilde (in_path : string) : string :=
  if String.eqb in_path EmptyString then in_path
  else if String.eqb (String.substring 0 2 in_path) "~/" then
    match getenv "HOME" with
    | Some home => home +:+ String.substring 1 (String.length in_path) in_path
    | None => in_path
    end
  else in_path.

(** The path, empty on an error, and the [error_string] set then. *)
Definition resolve_file (global_options : options) (raw_file : string) : string * string :=
  let expanded := raw_file in
  let expanded :=
    if expand_envs global_options then expand_env_variables expanded else expanded in
  let expanded := expand_tilde expanded in
  match canonical expanded with
  | inl out_path => (out_path, EmptyString)
  | inr message => (EmptyString, message)
  end.

Definition get_file_size (path : string) : Z :=
  match file_size path with
  | Some size => size
  | None => 0
  end.

Definition SIZE_MAX : Z := 2 ^ 64 - 1.

(** The bytes, none on an error, and the [error_string] set then. *)
Definition read_binary_file (path : string) : list Z * string :=
  let file_size := get_file_size path in
  if file_size =? 0 then ([], "File " +:+ path +:+ " had zero bytes to read!")
  else if file_size >=? SIZE_MAX
  then ([], "File " +:+ path +:+ " has more than SIZE_T bytes!")
  else
    match open_file path with
    | Some contents =>
        match read_bytes contents file_size with
        | Some bytes => (bytes_of bytes, EmptyString)
        | None => ([], "Failed to read file " +:+ path)
        end
    | None => ([], "Failed to read file " +:+ path)
    end.

(** The bytes read into a buffer of [size] bytes, or the error returned. *)
Definition read_bytes_to_contiguous (path : string) (size : Z) : list Z + string :=
  match open_file path with
  | Some contents =>
      match read_bytes contents size with
      | Some bytes => inl (bytes_of bytes)
      | None => inr ("Failed to read file " +:+ path)
      end
  | None => inr ("Failed to read file " +:+ path)
  end.

End Resolver.
End Resolver.
