(* ===== verification/ResolverProps.v ===== *)
(** * Properties of the resolver

    Environment variables are expanded path component by path component, the
    way a reference definition says; file reads return what the file holds. *)

From S2P Require Import Prelude Resolver.

(** ** A reference definition of the expansion *)

(** The components of a path: the texts between its slashes. *)
Fixpoint components (s : string) : list string :=
  match s with
  | EmptyString => [EmptyString]
  | String c s =>
      if char_eqb c "/"%char then EmptyString :: components s
      else match components s with
           | h :: l => String c h :: l
           | [] => [char_string c]
           end
  end.

(** The text of a component before its first dollar sign. *)
Fixpoint before_dollar (s : string) : string :=
  match s with
  | EmptyString => EmptyString
  | String c s => if char_eqb c "$"%char then EmptyString else String c (before_dollar s)
  end.

(** The text after its last dollar sign, if it has one. *)
Fixpoint after_dollar (s : string) : option string :=
  match s with
  | EmptyString => None
  | String c s =>
      match after_dollar s with
      | Some v => Some v
      | None => if char_eqb c "$"%char then Some s else None
      end
  end.

Section Expansion.
Context `{System}.

Definition env_value (name : string) : string :=
  default EmptyString (getenv (Resolver.c_string name)).

Definition component_value (c : string) : string :=
  match after_dollar c with Some v => env_value v | None => EmptyString end.

(** A component contributes the text before its first dollar sign and, unless
    it is the last one, the value of the variable its last dollar sign names. *)
Fixpoint expand_components (l : list string) : string :=
  match l with
  | [] => EmptyString
  | [c] => before_dollar c
  | c :: l => before_dollar c +:+ component_value c +:+ "/" +:+ expand_components l
  end.

(** What is appended to the output from a state of the loop on. *)
Definition expand_rest (finding : bool) (cur : string) (l : list string) : string :=
  match l with
  | [] => EmptyString
  | h :: l =>
      if finding then
        match l with
        | [] => EmptyString
        | _ => env_value (default (cur +:+ h) (after_dollar h)) +:+ "/" +:+ expand_components l
        end
      else expand_components (h :: l)
  end.

Lemma components_not_nil s : components s <> [].
Proof. destruct s as [|c s]; [done|]. simpl. by destruct (char_eqb _ _), (components s). Qed.

Lemma append_env out name :
  match getenv (Resolver.c_string name) with
  | Some env_str => out +:+ env_str
  | None => out
  end = out +:+ env_value name.
Proof. unfold env_value. destruct (getenv _); simpl; by rewrite ?string_app_nil_r. Qed.

Lemma expand_loop_spec s finding cur out :
  Resolver.expand_loop s finding cur out = out +:+ expand_rest finding cur (components s).
Proof.
  revert finding cur out. induction s as [|c s IH]; intros finding cur out.
  - simpl. destruct finding; by rewrite string_app_nil_r.
  - cbn [Resolver.expand_loop components].
    pose proof (components_not_nil s) as Hn.
    destruct (char_eqb c "$") eqn:Ed.
    { apply char_eqb_eq in Ed as ->. rewrite IH. f_equal.
      change (char_eqb "$" "/") with false. cbv iota.
      destruct (components s) as [|h [|h' l]]; [done|by destruct finding|].
      unfold expand_rest. cbn [expand_components before_dollar after_dollar].
      unfold component_value. cbn [after_dollar].
      change (char_eqb "$" "$") with true. cbv iota.
      destruct finding, (after_dollar h); reflexivity. }
    destruct (char_eqb c "/") eqn:Es.
    + apply char_eqb_eq in Es as ->. destruct finding; cbn [negb]; rewrite IH;
        unfold push_back; rewrite ?append_env, ?string_app_assoc; f_equal;
        destruct (components s) as [|h l]; try done;
        unfold expand_rest; simpl; by rewrite ?string_app_nil_r.
    + destruct (components s) as [|h l] eqn:Ec; [done|].
      destruct finding; cbn [negb]; rewrite IH; unfold push_back.
      * f_equal. unfold expand_rest. destruct l as [|h' l]; [done|].
        cbn [after_dollar]. rewrite Ed. f_equal. f_equal.
        destruct (after_dollar h); cbn; [done|]. by rewrite string_app_assoc.
      * rewrite string_app_assoc. f_equal. unfold expand_rest, component_value.
        cbn [expand_components before_dollar after_dollar]. rewrite Ed.
        destruct l; [done|]. unfold component_value. cbn [after_dollar]. rewrite Ed.
        by destruct (after_dollar h).
Qed.

(** C33: Environment variables are expanded component by component: a component
    keeps the text before its first dollar sign and gets the value of the
    variable named after its last one, except that a variable in the last
    component, with no slash after it, is dropped. *)
Theorem expand_env_variables_spec s :
  Resolver.expand_env_variables s = expand_components (components s).
Proof.
  unfold Resolver.expand_env_variables. rewrite expand_loop_spec. simpl.
  pose proof (components_not_nil s). by destruct (components s).
Qed.

End Expansion.
