(* ===== verification/Interpreter.v ===== *)
(** * The interpreter (src/interpreter/interpreter.{h,cpp})

    [parse_script] reads a script file, lexes and parses it, completes it with
    defaults and validates it.  The validator is translated check by check, in
    the order of the code; the [switch] over the action types is one definition
    per case.  The vectors [session_active] and [session_disconnect_called] are
    lists of bytes, an access out of range is [Undef].

    What is not under src/ is a parameter: the operating system ([System]), the
    iteration order of an [unordered_map] ([HashOrder]) and
    [std::thread::hardware_concurrency]. *)

From S2P Require Import Prelude Diagnostics Script Lexer Parser Resolver.

(** The order in which a range [for] visits an [unordered_map]. *)
Class HashOrder : Type := {
  hash_order : gmap string string -> list (string * string);
  hash_order_perm : forall m, Permutation (hash_order m) (map_to_list m)
}.

Module Interpreter.

Definition DEFAULT_PACKET_SAMPLE_RATE : Z := 100.

(** ** Message fragments *)

Definition keyword (s : string) : string := styled_string s PrintStyle.Keyword.
Definition bad_field (s : string) : string := styled_string s PrintStyle.BadField.
Definition bad_value (s : string) : string := styled_string s PrintStyle.BadValue.
Definition reference (s : string) : string := styled_string s PrintStyle.Reference.
Definition expected (s : string) : string := styled_string s PrintStyle.Expected.
Definition limits (s : string) : string := styled_string s PrintStyle.Limits.
Definition context (s : string) : string := styled_string s PrintStyle.Context.
Definition error (s : string) : string := styled_string s PrintStyle.Error.

Definition arbitrary_error {A} (reason : string) : outcome A := Err reason.

Definition action_ref (i : Z) : string := reference ("[action " +:+ to_string i +:+ "]").

Definition quoted (s : string) : string := char_string DQUOTE +:+ s +:+ char_string DQUOTE.

Definition bad_range_error {A} (overlapped violating_range : Range.t) (action_id : Z)
  : outcome A :=
  arbitrary_error
    (bad_field "SEND" +:+ " " +:+ action_ref action_id
     +:+ " has modification of range {"
     +:+ bad_value (to_string (Range.start violating_range) +:+ " "
                    +:+ to_string (Range.second violating_range))
     +:+ "} overlapping previous modification of range {"
     +:+ limits (to_string (Range.start overlapped) +:+ " "
                 +:+ to_string (Range.second overlapped))
     +:+ "}").

(** ** [std::map<uint32_t, uint32_t>], as its key-sorted sequence *)

Definition range_map : Type := list (Z * Z).

(** The entries before [lower_bound(key)] and those from it on. *)
Fixpoint lower_bound (key : Z) (m : range_map) : range_map * range_map :=
  match m with
  | [] => ([], [])
  | (k, v) :: m' =>
      if k <? key then let '(before, after) := lower_bound key m' in ((k, v) :: before, after)
      else ([], m)
  end.

(** [map[key] = value]. *)
Definition map_store (key value : Z) (m : range_map) : range_map :=
  let '(before, after) := lower_bound key m in
  match after with
  | (k, v) :: after' =>
      if k =? key then before ++ (key, value) :: after' else before ++ (key, value) :: after
  | [] => before ++ [(key, value)]
  end.

Definition insert_mod_range (m : range_map) (to_insert : Range.t) (action_id : Z)
  : outcome range_map :=
  let '(before, after) := lower_bound (Range.start to_insert) m in
  let check_prev :=
    match list.last before with
    | Some (pk, pv) =>
        if pv >=? Range.start to_insert
        then bad_range_error (Range.mk pk pv) to_insert action_id
        else Ok (map_store (Range.start to_insert) (Range.second to_insert) m)
    | None => Ok (map_store (Range.start to_insert) (Range.second to_insert) m)
    end in
  match after with
  | (k, v) :: _ =>
      if k <=? Range.second to_insert
      then bad_range_error (Range.mk k v) to_insert action_id
      else check_prev
  | [] => check_prev
  end.

(** ** The state of the walk over the actions *)

Record sessions : Type := mk_sessions {
  pool_size : Z;
  session_active : list Z;
  session_disconnect_called : list Z
}.

Definition no_sessions : sessions := mk_sessions 0 [] [].

Definition set_active (st : sessions) v :=
  mk_sessions (pool_size st) v (session_disconnect_called st).

Definition set_disconnect_called (st : sessions) v :=
  mk_sessions (pool_size st) (session_active st) v.

(** [v.resize(n)]: truncated, or filled up with zeros. *)
Definition resize (v : list Z) (n : Z) : list Z :=
  take (Z.to_nat n) v ++ replicate (Z.to_nat n - length v) 0.

(** [v[j]] *)
Definition read_at (v : list Z) (j : Z) : outcome Z :=
  match v !! Z.to_nat j with
  | Some x => Ok x
  | None => Undef
  end.

(** [v[j] = x] *)
Definition write_at (v : list Z) (j x : Z) : outcome (list Z) :=
  if bool_decide (Z.to_nat j < length v)%nat then Ok (<[Z.to_nat j := x]> v) else Undef.

(** The loops [for (size_t j = start; j < second; j++)]: [n] iterations from
    [j] on. *)
Definition iterations (r : Range.t) : nat := Z.to_nat (Range.second r - Range.start r).

(** Fail with [e j] unless each entry is [1]. *)
Fixpoint require_active (e : Z -> string) (n : nat) (j : Z) (v : list Z) : outcome unit :=
  match n with
  | O => Ok tt
  | S n =>
      let! x := read_at v j in
      if negb (x =? 1) then arbitrary_error (e j)
      else require_active e n (j + 1) v
  end.

(** Fail with [e j] on an entry that is [1], otherwise set it to [1]. *)
Fixpoint mark_each (e : Z -> string) (n : nat) (j : Z) (v : list Z) : outcome (list Z) :=
  match n with
  | O => Ok v
  | S n =>
      let! x := read_at v j in
      if x =? 1 then arbitrary_error (e j)
      else
        let! v := write_at v j 1 in
        mark_each e n (j + 1) v
  end.

(** Fail with [e j] on an entry that is not [1], otherwise reset it. *)
Fixpoint clear_each (e : Z -> string) (n : nat) (j : Z) (v : list Z) : outcome (list Z) :=
  match n with
  | O => Ok v
  | S n =>
      let! x := read_at v j in
      if negb (x =? 1) then arbitrary_error (e j)
      else
        let! v := write_at v j 0 in
        clear_each e n (j + 1) v
  end.

Section Interpreter.
Context `{System} `{HashOrder} (global_options : Resolver.options) (hardware_concurrency : Z).

(** ** Defaults *)

Definition set_script_defaults (script : DSLData.t) : DSLData.t :=
  let settings := DSLData.settings script in
  let settings :=
    if Settings.shards settings =? 0 then
      let hw_conc := if hardware_concurrency <=? 0 then 1 else hardware_concurrency in
      Settings.set_shards settings hw_conc
    else settings in
  let settings :=
    if String.eqb (Settings.handler_value settings) EmptyString
    then Settings.set_handler_value settings "NOP" else settings in
  let settings :=
    if Settings.packet_sample_rate settings =? 0
    then Settings.set_packet_sample_rate settings DEFAULT_PACKET_SAMPLE_RATE
    else settings in
  DSLData.set_settings script settings.

(** ** The settings *)

Definition verify_protocol (settings : Settings.t) : outcome unit :=
  check! negb (String.eqb (Settings.identifier settings) EmptyString)
    else arbitrary_error (bad_field "SETTINGS" +:+ " block had empty identifier") in
  check! str_mem (Settings.session_protocol settings) VALID_PROTOCOLS
    else arbitrary_error
      (keyword "SETTINGS" +:+ " block had invalid " +:+ bad_field "SESSION" +:+ " "
       +:+ bad_value (Settings.session_protocol settings)
       +:+ " (expected one of " +:+ expected "TCP" +:+ ")") in
  if (String.eqb (Settings.session_protocol settings) "TCP"
      || String.eqb (Settings.session_protocol settings) "UDP")
     && (Settings.port settings =? 0)
  then arbitrary_error
    (keyword "SETTINGS" +:+ " block had invalid " +:+ bad_field "PORT" +:+ " "
     +:+ bad_value (to_string (Settings.port settings))
     +:+ " (value must be between " +:+ limits "1" +:+ " and " +:+ limits "65535" +:+ ")")
  else Ok tt.

Definition verify_sizes (settings : Settings.t) : outcome unit :=
  check! negb ((Settings.header_size settings =? 0) && Settings.read settings)
    else arbitrary_error
      (keyword "SETTINGS" +:+ " block had " +:+ bad_field "HEADERSIZE" +:+ " "
       +:+ bad_value "0" +:+ " with reading enabled") in
  check! negb ((Settings.body_max settings =? 0) && Settings.read settings)
    else arbitrary_error
      (keyword "SETTINGS" +:+ " block had " +:+ bad_field "BODYMAX" +:+ " set to "
       +:+ bad_value "0" +:+ " with reading enabled") in
  check! negb (Settings.shards settings =? 0)
    else arbitrary_error
      (keyword "SETTINGS" +:+ " block has " +:+ bad_field "SHARD" +:+ " set to "
       +:+ bad_value "0") in
  match Settings.endpoints settings with
  | [] => arbitrary_error (bad_field "SETTINGS" +:+ " block has no endpoints")
  | _ => Ok tt
  end.

Definition is_send (a : Action.t) : bool := bool_decide (Action.type a = ActionType.SEND).

Definition verify_packets_defined (script : DSLData.t) : outcome unit :=
  if bool_decide (Settings.packet_identifiers (DSLData.settings script) = ∅)
     && existsb is_send (Orchestrator_block.actions (DSLData.orchestrator script))
  then arbitrary_error (bad_field "SETTINGS" +:+ " block has no packets defined")
  else Ok tt.

(** The loop over the packets, in the order of the hash table. *)
Fixpoint verify_packets (packets : list (string * string)) : outcome unit :=
  match packets with
  | [] => Ok tt
  | (id, file) :: packets =>
      let '(path, error_string) := Resolver.resolve_file global_options file in
      if String.eqb path EmptyString then
        arbitrary_error
          ("The " +:+ keyword "SETTINGS" +:+ " " +:+ bad_field "PACKETS"
           +:+ " block has unresolvable packet " +:+ bad_value id
           +:+ " with identifier " +:+ reference file
           +:+ " (got error: " +:+ error error_string +:+ ")")
      else verify_packets packets
  end.

Definition verify_handler (settings : Settings.t) : outcome unit :=
  if Settings.read settings
     && negb (str_mem (Settings.handler_value settings) VALID_MESSAGE_HANDLERS)
  then
    if ends_with (Settings.handler_value settings) ".wasm" then
      let '(path, error_string) :=
        Resolver.resolve_file global_options (Settings.handler_value settings) in
      if String.eqb path EmptyString then
        arbitrary_error
          (keyword "SETTINGS" +:+ " block has message " +:+ bad_field "HANDLER"
           +:+ " (" +:+ bad_value (Settings.handler_value settings)
           +:+ ") that cannot be resolved (got error: " +:+ error error_string +:+ ")")
      else Ok tt
    else
      arbitrary_error
        (keyword "SETTINGS" +:+ " block has no valid message " +:+ bad_field "HANDLER"
         +:+ " for " +:+ keyword "READ" +:+ " to use for reading (expected "
         +:+ expected (quoted "NOP") +:+ " or a file path ending in "
         +:+ expected ".wasm" +:+ ")")
  else Ok tt.

Definition verify_orchestrator_block (script : DSLData.t) : outcome unit :=
  let settings := DSLData.settings script in
  let orchestrator := DSLData.orchestrator script in
  check! negb (String.eqb (Orchestrator_block.settings_identifier orchestrator) EmptyString)
    else arbitrary_error
      (bad_field "ORCHESTRATOR" +:+ " is undefined or has no " +:+ keyword "SETTINGS"
       +:+ " identifier. Expected: " +:+ expected "ORCHESRTATOR <settings_id> { ... }") in
  check! String.eqb (Orchestrator_block.settings_identifier orchestrator)
           (Settings.identifier settings)
    else arbitrary_error
      ("No matching " +:+ keyword "SETTINGS" +:+ " block for " +:+ bad_field "ORCHESTRATOR"
       +:+ " requesting identifier "
       +:+ reference (Orchestrator_block.settings_identifier orchestrator)) in
  match Orchestrator_block.actions orchestrator with
  | [] => arbitrary_error (bad_field "ORCHESTRATOR" +:+ " has no actions defined")
  | _ => Ok tt
  end.

(** ** The actions *)

Definition subject (name : string) (i : Z) : string := bad_field name +:+ " " +:+ action_ref i.

(** The message for a range past the pool; [tail] differs between actions. *)
Definition out_of_pool (name tail : string) (i : Z) (action : Action.t) (st : sessions)
  : string :=
  subject name i +:+ " was scheduled for session "
  +:+ bad_value (to_string (Range.second (Action.range action)))
  +:+ " (pool only holds " +:+ limits (to_string (pool_size st)) +:+ tail.

Definition not_connected (name : string) (i j : Z) : string :=
  subject name i +:+ " was scheduled for session " +:+ bad_value (to_string j)
  +:+ " despite not being connected.".

Definition verify_create (settings : Settings.t) (i : Z) (action : Action.t) (st : sessions)
  : outcome sessions :=
  check! pool_size st =? 0
    else arbitrary_error
      (subject "CREATE" i +:+ " was called twice in " +:+ keyword "ORCHESTRATOR"
       +:+ " block") in
  check! negb (Action.count action <? Settings.shards settings)
    else arbitrary_error
      (subject "CREATE" i +:+ " has count " +:+ bad_value (to_string (Action.count action))
       +:+ " less than " +:+ keyword "SHARD" +:+ " value "
       +:+ limits (to_string (Settings.shards settings))) in
  let pool_size := Action.count action in
  Ok (mk_sessions pool_size (resize (session_active st) pool_size)
        (resize (session_disconnect_called st) pool_size)).

Definition verify_connect (i : Z) (action : Action.t) (st : sessions) : outcome sessions :=
  check! negb (pool_size st =? 0)
    else arbitrary_error
      (subject "CONNECT" i +:+ " called before " +:+ keyword "CREATE") in
  check! negb (Range.second (Action.range action) >? pool_size st)
    else arbitrary_error (out_of_pool "CONNECT" " sessions)" i action st) in
  let! session_active :=
    mark_each
      (fun j => subject "CONNECT" i +:+ " was scheduled for session "
                +:+ bad_value (to_string j) +:+ " while already scheduled")
      (iterations (Action.range action)) (Range.start (Action.range action))
      (session_active st) in
  Ok (set_active st session_active).

Definition time_format_error {A} (i : Z) (format_name : string) : outcome A :=
  arbitrary_error
    (keyword "SEND" +:+ " " +:+ action_ref i +:+ " has invalid " +:+ bad_field "TIMESTAMP"
     +:+ " format " +:+ bad_value format_name +:+ " (expected one of: "
     +:+ expected "seconds" +:+ ", " +:+ expected "milliseconds" +:+ ", "
     +:+ expected "microseconds" +:+ ", " +:+ expected "nanoseconds" +:+ ")").

Definition mod_size_error {A} (name : string) (i size : Z) : outcome A :=
  arbitrary_error
    (keyword "SEND" +:+ " " +:+ action_ref i +:+ " has " +:+ bad_field name +:+ " of size "
     +:+ bad_value (to_string size) +:+ " (should be at most " +:+ limits "8" +:+ ")").

Definition mod_end_error {A} (name : string) (i : Z) (r : Range.t) (packet : string)
    (packet_size : Z) : outcome A :=
  arbitrary_error
    (keyword "SEND" +:+ " " +:+ action_ref i +:+ " has " +:+ bad_field name
     +:+ " ending at index " +:+ bad_value (to_string (Range.end_from_length r))
     +:+ " exceeding end of packet " +:+ reference packet +:+ " which has maximum index "
     +:+ limits (to_string (packet_size - 1))).

Fixpoint verify_timestamps (i : Z) (action : Action.t) (packet_size : Z)
    (mods : list TimestampModification.t) (mod_ranges : range_map) : outcome range_map :=
  match mods with
  | [] => Ok mod_ranges
  | time_mod :: mods =>
      let bytes := TimestampModification.timestamp_bytes time_mod in
      let! mod_ranges := insert_mod_range mod_ranges bytes i in
      check! str_mem (TimestampModification.format_name time_mod) VALID_TIME_FORMATS
        else time_format_error i (TimestampModification.format_name time_mod) in
      check! negb (Range.second bytes >? 8)
        else mod_size_error "TIMESTAMP" i (Range.second bytes) in
      check! negb (Range.end_from_length bytes >=? packet_size)
        else mod_end_error "TIMESTAMP" i bytes (Action.packet_identifier action)
               packet_size in
      verify_timestamps i action packet_size mods mod_ranges
  end.

Fixpoint verify_counters (i : Z) (action : Action.t) (packet_size : Z)
    (mods : list CounterModification.t) (mod_ranges : range_map) : outcome range_map :=
  match mods with
  | [] => Ok mod_ranges
  | counter_mod :: mods =>
      let bytes := CounterModification.counter_bytes counter_mod in
      let! mod_ranges := insert_mod_range mod_ranges bytes i in
      check! negb (CounterModification.counter_step counter_mod =? 0)
        else arbitrary_error
          (keyword "SEND" +:+ " " +:+ action_ref i +:+ " has " +:+ bad_field "COUNTER"
           +:+ " step set to " +:+ bad_value "0") in
      check! negb (Range.second bytes >? 8)
        else mod_size_error "COUNTER" i (Range.second bytes) in
      check! negb (Range.end_from_length bytes >=? packet_size)
        else mod_end_error "COUNTER" i bytes (Action.packet_identifier action)
               packet_size in
      verify_counters i action packet_size mods mod_ranges
  end.

Definition verify_send_count (i : Z) (action : Action.t) (st : sessions) : outcome unit :=
  check! negb (Action.count action =? 0)
    else arbitrary_error
      (subject "SEND" i +:+ " is trying to send " +:+ bad_value (to_string (Action.count action))
       +:+ " copies") in
  check! negb (Range.second (Action.range action) >? pool_size st)
    else arbitrary_error (out_of_pool "SEND" ")" i action st) in
  Ok tt.

Definition verify_mods_accounted (i : Z) (action : Action.t) : outcome unit :=
  let n_mods :=
    (length (Action.timestamp_mods action) + length (Action.counter_mods action))%nat in
  check! Nat.eqb (length (Action.mod_order action)) n_mods
    else arbitrary_error
      (subject "SEND" i +:+ " has " +:+ bad_value (to_string (Z.of_nat n_mods))
       +:+ " modifications but only "
       +:+ limits (to_string (Z.of_nat (length (Action.mod_order action))))
       +:+ " were accounted for") in
  Ok tt.

(** The packet a SEND names, up to its size; the second lookup of the code,
    which repeats the first, cannot fail. *)
Definition verify_send_packet (settings : Settings.t) (i : Z) (action : Action.t)
  : outcome Z :=
  match Settings.packet_identifiers settings !! Action.packet_identifier action with
  | None =>
      arbitrary_error
        (subject "SEND" i +:+ " has undefined packet identifier ("
         +:+ bad_value (Action.packet_identifier action) +:+ ")")
  | Some file =>
      let! _ := verify_mods_accounted i action in
      let '(packet_path, error_string) := Resolver.resolve_file global_options file in
      if String.eqb packet_path EmptyString then
        arbitrary_error
          (subject "SEND" i +:+ " has unresolvable packet file " +:+ bad_value file
           +:+ " corresponding to identity " +:+ context (Action.packet_identifier action)
           +:+ " (got error: " +:+ error error_string +:+ ")")
      else
        let packet_size := Resolver.get_file_size packet_path in
        if packet_size =? 0 then
          arbitrary_error
            (subject "SEND" i +:+ " has packet resolving to path " +:+ context packet_path
             +:+ " with " +:+ bad_value "0" +:+ " bytes of data")
        else Ok packet_size
  end.

Definition verify_send (settings : Settings.t) (i : Z) (action : Action.t) (st : sessions)
  : outcome sessions :=
  let! _ := verify_send_count i action st in
  let! packet_size := verify_send_packet settings i action in
  let! mod_ranges :=
    verify_timestamps i action packet_size (Action.timestamp_mods action) [] in
  let! _ := verify_counters i action packet_size (Action.counter_mods action) mod_ranges in
  let! _ :=
    require_active (not_connected "SEND" i) (iterations (Action.range action))
      (Range.start (Action.range action)) (session_active st) in
  Ok st.

Definition verify_flood (i : Z) (action : Action.t) (st : sessions) : outcome sessions :=
  check! negb (Range.second (Action.range action) >? pool_size st)
    else arbitrary_error (out_of_pool "FLOOD" ")" i action st) in
  let! _ :=
    require_active (not_connected "FLOOD" i) (iterations (Action.range action))
      (Range.start (Action.range action)) (session_active st) in
  Ok st.

Definition verify_drain (i : Z) (action : Action.t) (st : sessions) : outcome sessions :=
  check! negb (Range.second (Action.range action) >? pool_size st)
    else arbitrary_error (out_of_pool "DRAIN" ")" i action st) in
  let! session_active :=
    clear_each (not_connected "DRAIN" i) (iterations (Action.range action))
      (Range.start (Action.range action)) (session_active st) in
  Ok (set_active st session_active).

Definition out_of_pool_disconnect (i : Z) (action : Action.t) (st : sessions) : string :=
  subject "DISCONNECT" i +:+ " was scheduled for session "
  +:+ bad_value (to_string (Range.second (Action.range action)))
  +:+ " sessions (pool only holds " +:+ limits (to_string (pool_size st)) +:+ ")".

Definition verify_disconnect (i : Z) (action : Action.t) (st : sessions)
  : outcome sessions :=
  check! negb (Range.second (Action.range action) >? pool_size st)
    else arbitrary_error (out_of_pool_disconnect i action st) in
  let! called :=
    mark_each
      (fun j => subject "DISCONNECT" i +:+ " was scheduled for session "
                +:+ bad_value (to_string j) +:+ " despite already being called.")
      (iterations (Action.range action)) (Range.start (Action.range action))
      (session_disconnect_called st) in
  Ok (set_disconnect_called st called).

Definition verify_action (settings : Settings.t) (i : Z) (action : Action.t)
    (st : sessions) : outcome sessions :=
  match Action.type action with
  | ActionType.CREATE => verify_create settings i action st
  | ActionType.CONNECT => verify_connect i action st
  | ActionType.SEND => verify_send settings i action st
  | ActionType.FLOOD => verify_flood i action st
  | ActionType.DRAIN => verify_drain i action st
  | ActionType.DISCONNECT => verify_disconnect i action st
  end.

Fixpoint verify_actions (settings : Settings.t) (i : Z) (actions : list Action.t)
    (st : sessions) : outcome sessions :=
  match actions with
  | [] => Ok st
  | action :: actions =>
      let! st := verify_action settings i action st in
      verify_actions settings (i + 1) actions st
  end.

Definition verify_script (script : DSLData.t) : outcome unit :=
  let settings := DSLData.settings script in
  let! _ := verify_protocol settings in
  let! _ := verify_sizes settings in
  let! _ := verify_packets_defined script in
  let! _ := verify_packets (hash_order (Settings.packet_identifiers settings)) in
  let! _ := verify_handler settings in
  let! _ := verify_orchestrator_block script in
  let! _ :=
    verify_actions settings 0 (Orchestrator_block.actions (DSLData.orchestrator script))
      no_sessions in
  Ok tt.

(** ** The whole interpreter *)

(** An error passed on with the name of the stage in front. *)
Definition tagged {A} (stage : string) (m : outcome A) : outcome A :=
  match m with
  | Err reason => Err (error stage +:+ reason)
  | m => m
  end.

Definition read_script (script_name : string) : outcome string :=
  let '(script_path, error_string) := Resolver.resolve_file global_options script_name in
  if String.eqb script_path EmptyString then
    arbitrary_error
      (error "[Error]: " +:+ "Failed to resolve file " +:+ bad_value script_name
       +:+ " (got error: " +:+ error error_string +:+ ")")
  else
    match open_file script_path with
    | None =>
        arbitrary_error
          (error "[Error]: " +:+ "Failed to open file " +:+ bad_value script_name
           +:+ " which resolved to path " +:+ reference script_path)
    | Some contents =>
        let filesize := Resolver.get_file_size script_path in
        if filesize =? 0 then
          arbitrary_error
            (error "[Error]: " +:+ "File size for " +:+ reference script_path +:+ " was "
             +:+ bad_value "0")
        else
          match read_bytes contents filesize with
          | Some script_raw => Ok script_raw
          | None =>
              arbitrary_error
                (error "[Error]: " +:+ "Failed to read all " +:+ context (to_string filesize)
                 +:+ " bytes from " +:+ reference script_path)
          end
    end.

(** The script the interpreter keeps when it succeeds; [garbage],
    [garbage_header] and [garbage_body] are the uninitialised members. *)
Definition parse_script (garbage garbage_header garbage_body : Z) (script_name : string)
  : outcome DSLData.t :=
  let! script_raw := read_script script_name in
  let! tokens_ := tagged "[Lexer Error]: " (Lexer.tokenize script_raw) in
  check! negb (Nat.eqb (length tokens_) 0)
    else Err (error "[Lexer Error]: "
              +:+ "Lexer returned zero tokens! Your script might be empty?") in
  let! unvalidated_script :=
    tagged "[Parser Error]: "
      (Parser.parse garbage (Parser.init tokens_)
         (DSLData.fresh garbage_header garbage_body)) in
  let script_ := set_script_defaults unvalidated_script in
  let! _ := tagged "[Validator Error]: " (verify_script script_) in
  Ok script_.

End Interpreter.
End Interpreter.
