(* ===== verification/InterpreterFacts.v ===== *)
(** * Facts about the validator

    The sorted map of modification ranges, the loops over the session vectors
    as operations on sets of sessions, and the abstract plan of a script that
    the validator implements. *)

From Stdlib Require Import Sorting.Sorted.
From S2P Require Import Prelude Diagnostics Script Resolver Interpreter.
From S2P Require Import ParserProps.

(** ** The map of modification ranges *)

Definition sorted (m : Interpreter.range_map) : Prop := StronglySorted Z.lt (map fst m).

Definition contents (m : Interpreter.range_map) : gmap Z Z := list_to_map m.

(** [r] fits among the ranges [e]: no range starts in it, and the last range
    that starts before it ends before it; the second component of a range is
    taken for its end. *)
Definition fits (e : gmap Z Z) (r : Range.t) : Prop :=
  (forall k v, e !! k = Some v -> ~ (Range.start r <= k <= Range.second r)) /\
  (forall k v, e !! k = Some v -> k < Range.start r ->
     (forall k' v', e !! k' = Some v' -> k' < Range.start r -> k' <= k) ->
     v < Range.start r).

Lemma sorted_nodup m : sorted m -> NoDup (m.*1).
Proof.
  unfold sorted. intros H. induction m as [|[k v] m IH]; [constructor|].
  simpl in *. apply StronglySorted_inv in H as [H1 H2]. constructor; [|by apply IH].
  rewrite List.Forall_forall in H2. intros Hin. apply list_elem_of_In in Hin.
  specialize (H2 k Hin). lia.
Qed.

Lemma contents_In m k v : sorted m -> contents m !! k = Some v <-> In (k, v) m.
Proof.
  intros H. rewrite <- list_elem_of_In. unfold contents. symmetry.
  apply elem_of_list_to_map. by apply sorted_nodup.
Qed.

Lemma sorted_app_inv m1 m2 :
  sorted (m1 ++ m2) ->
  sorted m1 /\ sorted m2 /\ (forall k v k' v', In (k, v) m1 -> In (k', v') m2 -> k < k').
Proof.
  unfold sorted. rewrite map_app. induction m1 as [|[k v] m1 IH]; simpl.
  - intros H. split; [constructor|]. split; [done|]. done.
  - intros H. apply StronglySorted_inv in H as [H1 H2].
    destruct (IH H1) as (Hs1 & Hs2 & Hlt). rewrite List.Forall_forall in H2.
    split; [|split; [done|]].
    + constructor; [done|]. apply List.Forall_forall. intros x Hx. apply H2.
      apply in_or_app. by left.
    + intros k1 v1 k2 v2 [[= <- <-]|Hin] Hin2; [|by eapply Hlt].
      apply H2, in_or_app. right. apply in_map_iff. by exists (k2, v2).
Qed.

Lemma lower_bound_spec key m :
  sorted m ->
  m = (Interpreter.lower_bound key m).1 ++ (Interpreter.lower_bound key m).2 /\
  (forall k v, In (k, v) (Interpreter.lower_bound key m).1 -> k < key) /\
  (forall k v, In (k, v) (Interpreter.lower_bound key m).2 -> key <= k).
Proof.
  unfold sorted. induction m as [|[k v] m IH]; intros H; [done|].
  apply StronglySorted_inv in H as [H1 H2]. specialize (IH H1). simpl.
  rewrite List.Forall_forall in H2.
  destruct (k <? key) eqn:E; bool_to_Z.
  - destruct (Interpreter.lower_bound key m) as [b a]. simpl in *.
    destruct IH as (-> & Hb & Ha). split; [done|]. split; [|done].
    intros k' v' [[= <- <-]|Hin]; [done | by eapply Hb].
  - simpl. split; [done|]. split; [done|]. intros k' v' [[= <- <-]|Hin]; [done|].
    enough (k < k') by lia. apply H2, in_map_iff. by exists (k', v').
Qed.

Lemma sorted_insert m1 key value m2 :
  sorted m1 -> sorted m2 -> (forall k v, In (k, v) m1 -> k < key) ->
  (forall k v, In (k, v) m2 -> key < k) -> sorted (m1 ++ (key, value) :: m2).
Proof.
  intros H1 H2 Hb Ha. unfold sorted in *. rewrite map_app. simpl.
  induction m1 as [|[k v] m1 IH]; simpl.
  - constructor; [done|]. apply List.Forall_forall. intros x (p & <- & Hx)%in_map_iff.
    destruct p. by eapply Ha.
  - simpl in H1. apply StronglySorted_inv in H1 as [H1 H1'].
    constructor; [apply IH; [done|]; intros; eapply Hb; by right|].
    rewrite List.Forall_forall in *. intros x [Hx|[<-|Hx]]%in_app_or; [by apply H1'| |].
    + eapply Hb. by left.
    + apply in_map_iff in Hx as ([k' v'] & <- & Hin). simpl.
      specialize (Hb k v (or_introl eq_refl)). specialize (Ha k' v' Hin). lia.
Qed.

Lemma map_store_spec key value m :
  sorted m ->
  sorted (Interpreter.map_store key value m) /\
  contents (Interpreter.map_store key value m) = <[key := value]> (contents m).
Proof.
  intros H. pose proof (lower_bound_spec key m H) as (Hm & Hb & Ha).
  unfold Interpreter.map_store. destruct (Interpreter.lower_bound key m) as [b a].
  simpl in *. assert (H' := H). rewrite Hm in H'. apply sorted_app_inv in H' as (Sb & Sa & _).
  assert (Hnb : contents b !! key = None).
  { apply eq_None_not_Some. intros [v Hv]. apply contents_In in Hv; [|done].
    specialize (Hb _ _ Hv). lia. }
  unfold contents in *.
  destruct a as [|[k v] a].
  - split; [by apply sorted_insert|]. subst m. rewrite app_nil_r, list_to_map_app.
    simpl. rewrite <- insert_union_r by done. by rewrite map_union_empty.
  - destruct (k =? key) eqn:E; bool_to_Z.
    + subst k. apply (sorted_app_inv [(key, v)] a) in Sa as (_ & Sa & Hlt). split.
      { apply sorted_insert; try done. intros k' v' Hin. eapply Hlt; [by left | done]. }
      subst m. rewrite !list_to_map_app. simpl. rewrite <- !insert_union_r by done.
      by rewrite insert_insert_eq.
    + split.
      { apply sorted_insert; try done. intros k' v' Hin.
        apply (sorted_app_inv [(k, v)] a) in Sa as (_ & Sa & Hlt).
        specialize (Ha k v (or_introl eq_refl)).
        destruct Hin as [[= <- <-]|Hin]; [lia|].
        specialize (Hlt k v k' v' (or_introl eq_refl) Hin). lia. }
      subst m. rewrite !list_to_map_app. simpl. by rewrite <- !insert_union_r by done.
Qed.

Lemma last_before key m pk pv b :
  sorted b -> (forall k v, In (k, v) b -> k < key) -> list.last b = Some (pk, pv) ->
  m = b -> In (pk, pv) m /\ (forall k v, In (k, v) m -> k <= pk).
Proof.
  intros Hs Hb Hl ->. apply last_Some in Hl as [b' ->]. split.
  - apply in_or_app. right. by left.
  - apply sorted_app_inv in Hs as (_ & _ & Hlt). intros k v Hin.
    apply in_app_or in Hin as [Hin|[[= <- <-]|[]]]; [|lia].
    specialize (Hlt k v pk pv Hin (or_introl eq_refl)). lia.
Qed.

Section Insert.
Variables (m : Interpreter.range_map) (r : Range.t) (i : Z).
Hypothesis Hm : sorted m.

Let before := (Interpreter.lower_bound (Range.start r) m).1.
Let after := (Interpreter.lower_bound (Range.start r) m).2.

Lemma in_contents k v :
  contents m !! k = Some v <-> In (k, v) before \/ In (k, v) after.
Proof.
  rewrite contents_In by done. destruct (lower_bound_spec (Range.start r) m Hm) as (E & _).
  rewrite E at 1. apply in_app_iff.
Qed.

(** The first condition of [fits] is the test on [lower_bound]. *)
Lemma after_fits :
  (forall k v, contents m !! k = Some v -> ~ (Range.start r <= k <= Range.second r)) <->
  match after with (k, v) :: _ => Range.second r < k | [] => True end.
Proof.
  destruct (lower_bound_spec (Range.start r) m Hm) as (E & Hb & Ha).
  fold before after in E, Hb, Ha. setoid_rewrite in_contents.
  assert (Hs := Hm). rewrite E in Hs. apply sorted_app_inv in Hs as (_ & Hs & _).
  destruct after as [|[k v] a].
  - split; [done|]. intros _ k v [Hin|[]]. specialize (Hb _ _ Hin). lia.
  - split.
    + intros H. specialize (H k v (or_intror (or_introl eq_refl))).
      specialize (Ha k v (or_introl eq_refl)). lia.
    + intros H k' v' [Hin|[[= <- <-]|Hin]]; [specialize (Hb _ _ Hin); lia | lia |].
      apply (sorted_app_inv [(k, v)] a) in Hs as (_ & _ & Hlt).
      specialize (Hlt k v k' v' (or_introl eq_refl) Hin). lia.
Qed.

(** The second one is the test on the entry before it. *)
Lemma before_fits :
  (forall k v, contents m !! k = Some v -> k < Range.start r ->
     (forall k' v', contents m !! k' = Some v' -> k' < Range.start r -> k' <= k) ->
     v < Range.start r) <->
  match list.last before with Some (_, pv) => pv < Range.start r | None => True end.
Proof.
  destruct (lower_bound_spec (Range.start r) m Hm) as (E & Hb & Ha).
  fold before after in E, Hb, Ha. setoid_rewrite in_contents.
  assert (Hs := Hm). rewrite E in Hs. apply sorted_app_inv in Hs as (Hs & _ & _).
  destruct (list.last before) as [[pk pv]|] eqn:El.
  - destruct (last_before _ _ _ _ _ Hs Hb El eq_refl) as [Hin Hmax]. split.
    + intros H. apply (H pk pv); [by left | by eapply Hb |].
      intros k' v' [Hin'|Hin'] Hlt; [by eapply Hmax | specialize (Ha _ _ Hin'); lia].
    + intros H k v [Hk|Hk] Hlt Hup; [|specialize (Ha _ _ Hk); lia].
      assert (k = pk) as ->.
      { specialize (Hup pk pv (or_introl Hin) (Hb _ _ Hin)). specialize (Hmax _ _ Hk). lia. }
      assert (E' : (contents before) !! pk = Some v) by by apply contents_In.
      apply contents_In in Hin; [|done]. congruence.
  - apply last_None in El. rewrite El. split; [done|].
    intros _ k v [[]|Hk] Hlt. specialize (Ha _ _ Hk). lia.
Qed.

Lemma insert_spec :
  match Interpreter.insert_mod_range m r i with
  | Ok m' => fits (contents m) r /\ sorted m' /\
             contents m' = <[Range.start r := Range.second r]> (contents m)
  | Err _ => ~ fits (contents m) r
  | _ => False
  end.
Proof.
  pose proof (map_store_spec (Range.start r) (Range.second r) m Hm) as Hst.
  assert (Hfit : fits (contents m) r <->
    match after with (k, v) :: _ => Range.second r < k | [] => True end /\
    match list.last before with Some (_, pv) => pv < Range.start r | None => True end).
  { unfold fits. by rewrite after_fits, before_fits. }
  unfold Interpreter.insert_mod_range. subst before after.
  destruct (Interpreter.lower_bound (Range.start r) m) as [b a]. cbn [fst snd] in Hfit.
  cbv zeta. destruct a as [|[k v] a]; [|destruct (k <=? Range.second r) eqn:E; bool_to_Z].
  2: { simpl. intros H%Hfit. lia. }
  all: destruct (list.last b) as [[pk pv]|];
    [destruct (pv >=? Range.start r) eqn:E'; bool_to_Z; [simpl; intros H%Hfit; lia|]|];
    (split; [apply Hfit; split; try done; lia | exact Hst]).
Qed.

End Insert.

(** ** Session vectors as sets of sessions *)

Definition bit (b : bool) : Z := if b then 1 else 0.

(** The vector of [n] bytes with a [1] at the members of [s]. *)
Definition bits (n : Z) (s : gset Z) : list Z :=
  map (fun j => bit (bool_decide (j ∈ s))) (seqZ 0 n).

(** The sessions from [j] on, [n] of them. *)
Definition run (n : nat) (j : Z) : gset Z := list_to_set (seqZ j (Z.of_nat n)).

Definition sessions_of (r : Range.t) : gset Z :=
  run (Interpreter.iterations r) (Range.start r).

Lemma elem_of_run n j k : k ∈ run n j <-> j <= k < j + Z.of_nat n.
Proof. unfold run. rewrite elem_of_list_to_set, elem_of_seqZ. lia. Qed.

Lemma elem_of_sessions r k : k ∈ sessions_of r <-> Range.start r <= k < Range.second r.
Proof. unfold sessions_of, Interpreter.iterations. rewrite elem_of_run. lia. Qed.

Lemma run_S n j : run (S n) j = {[j]} ∪ run n (j + 1).
Proof. apply set_eq. intros k. rewrite elem_of_union, elem_of_singleton, !elem_of_run. lia. Qed.

Lemma length_bits n s : length (bits n s) = Z.to_nat n.
Proof. unfold bits. by rewrite length_map, length_seqZ. Qed.

Lemma bits_0 s : bits 0 s = [].
Proof. done. Qed.

Lemma lookup_bits n s j :
  0 <= j < n -> bits n s !! Z.to_nat j = Some (bit (bool_decide (j ∈ s))).
Proof.
  intros Hj. unfold bits. rewrite list_lookup_fmap, lookup_seqZ_lt by lia.
  simpl. by rewrite Z2Nat.id by lia.
Qed.

Lemma read_bits n s j :
  0 <= j < n -> Interpreter.read_at (bits n s) j = Ok (bit (bool_decide (j ∈ s))).
Proof. intros Hj. unfold Interpreter.read_at. by rewrite lookup_bits. Qed.

Lemma write_bits n s j (b : bool) :
  0 <= j < n ->
  Interpreter.write_at (bits n s) j (bit b) =
  Ok (bits n (if b then {[j]} ∪ s else s ∖ {[j]})).
Proof.
  intros Hj. unfold Interpreter.write_at.
  rewrite bool_decide_true by (rewrite length_bits; lia). f_equal.
  apply list_eq. intros i. destruct (decide (i = Z.to_nat j)) as [->|Hi].
  - rewrite list_lookup_insert_eq by (rewrite length_bits; lia).
    rewrite lookup_bits by done. f_equal. unfold bit. destruct b.
    + by rewrite bool_decide_true by set_solver.
    + by rewrite bool_decide_false by set_solver.
  - rewrite list_lookup_insert_ne by done.
    destruct (decide (i < Z.to_nat n)%nat).
    + rewrite <- (Nat2Z.id i), !lookup_bits by lia. f_equal. f_equal.
      apply bool_decide_ext. destruct b; set_solver by lia.
    + rewrite !lookup_ge_None_2; [done|rewrite length_bits; lia..].
Qed.

Lemma resize_bits n : Interpreter.resize (bits 0 ∅) n = bits n ∅.
Proof.
  unfold Interpreter.resize. rewrite bits_0. simpl.
  rewrite take_nil, Nat.sub_0_r. simpl. unfold bits.
  apply list_eq. intros i. destruct (decide (i < Z.to_nat n)%nat) as [Hi|Hi].
  - rewrite lookup_replicate_2 by done. rewrite list_lookup_fmap, lookup_seqZ_lt by lia. done.
  - rewrite !lookup_ge_None_2; [done|rewrite ?length_map, ?length_seqZ, ?length_replicate; lia..].
Qed.

Section Loops.
Variable e : Z -> string.

Lemma require_active_spec n j N s :
  0 <= j -> (n = O \/ j + Z.of_nat n <= N) ->
  if decide (run n j ⊆ s)
  then Interpreter.require_active e n j (bits N s) = Ok tt
  else is_err (Interpreter.require_active e n j (bits N s)) = true.
Proof.
  revert j. induction n as [|n IH]; intros j Hj HN.
  - rewrite decide_True; [done|]. unfold run. set_solver.
  - cbn [Interpreter.require_active]. rewrite read_bits by lia. cbn [obind].
    specialize (IH (j + 1) ltac:(lia) ltac:(lia)). rewrite run_S.
    destruct (decide (j ∈ s)) as [Hs|Hs].
    + rewrite bool_decide_true by done. simpl.
      destruct (decide (run n (j + 1) ⊆ s)); [rewrite decide_True | rewrite decide_False];
        [done | set_solver | done | set_solver].
    + rewrite bool_decide_false by done. simpl. rewrite decide_False; [done | set_solver].
Qed.

Lemma mark_each_spec n j N s :
  0 <= j -> (n = O \/ j + Z.of_nat n <= N) ->
  if decide (run n j ## s)
  then Interpreter.mark_each e n j (bits N s) = Ok (bits N (run n j ∪ s))
  else is_err (Interpreter.mark_each e n j (bits N s)) = true.
Proof.
  revert j s. induction n as [|n IH]; intros j s Hj HN.
  - rewrite decide_True by (unfold run; set_solver). simpl. f_equal. f_equal.
    unfold run. set_solver.
  - cbn [Interpreter.mark_each]. rewrite read_bits by lia. cbn [obind].
    rewrite run_S. destruct (decide (j ∈ s)) as [Hs|Hs].
    + rewrite bool_decide_true by done. simpl. rewrite decide_False; [done | set_solver].
    + rewrite bool_decide_false by done. change (bit false =? 1) with false. cbv iota.
      rewrite (write_bits _ _ _ true) by lia. cbn [obind].
      specialize (IH (j + 1) ({[j]} ∪ s) ltac:(lia) ltac:(lia)).
      assert (Hj' : j ∉ run n (j + 1)) by (rewrite elem_of_run; lia).
      destruct (decide (run n (j + 1) ## {[j]} ∪ s));
        [rewrite decide_True | rewrite decide_False]; [|set_solver|done|set_solver].
      rewrite IH. f_equal. f_equal. set_solver.
Qed.

Lemma clear_each_spec n j N s :
  0 <= j -> (n = O \/ j + Z.of_nat n <= N) ->
  if decide (run n j ⊆ s)
  then Interpreter.clear_each e n j (bits N s) = Ok (bits N (s ∖ run n j))
  else is_err (Interpreter.clear_each e n j (bits N s)) = true.
Proof.
  revert j s. induction n as [|n IH]; intros j s Hj HN.
  - rewrite decide_True by (unfold run; set_solver). simpl. f_equal. f_equal.
    unfold run. set_solver.
  - cbn [Interpreter.clear_each]. rewrite read_bits by lia. cbn [obind].
    rewrite run_S. destruct (decide (j ∈ s)) as [Hs|Hs].
    + rewrite bool_decide_true by done. change (negb (bit true =? 1)) with false. cbv iota.
      rewrite (write_bits _ _ _ false) by lia. cbn [obind].
      specialize (IH (j + 1) (s ∖ {[j]}) ltac:(lia) ltac:(lia)).
      assert (Hj' : j ∉ run n (j + 1)) by (rewrite elem_of_run; lia).
      destruct (decide (run n (j + 1) ⊆ s ∖ {[j]}));
        [rewrite decide_True | rewrite decide_False]; [|set_solver|done|set_solver].
      rewrite IH. f_equal. f_equal. set_solver.
    + rewrite bool_decide_false by done. simpl. rewrite decide_False; [done | set_solver].
Qed.

End Loops.

(** ** The abstract plan of a script *)

(** How many sessions exist, which are connected (and not draining), and which
    have been told to disconnect. *)
Record plan : Type := mk_plan {
  pool : Z;
  connected : gset Z;
  disconnected : gset Z
}.

Definition no_plan : plan := mk_plan 0 ∅ ∅.

Section Plan.
Context {sys : System} (global_options : Resolver.options).
Variable settings : Settings.t.

(** The packet of a SEND: defined, resolvable, not empty. *)
Definition packet_ok (a : Action.t) (size : Z) : Prop :=
  size <> 0 /\
  exists file path,
    Settings.packet_identifiers settings !! Action.packet_identifier a = Some file /\
    (Resolver.resolve_file global_options file).1 = path /\ path <> EmptyString /\
    Resolver.get_file_size path = size.

(** A modification writes at most eight bytes, which end before the last byte
    of the packet. *)
Definition bytes_ok (size : Z) (r : Range.t) : Prop :=
  Range.second r <= 8 /\ Range.end_from_length r < size.

Definition timestamp_ok (size : Z) (m : TimestampModification.t) : Prop :=
  In (TimestampModification.format_name m) VALID_TIME_FORMATS /\
  bytes_ok size (TimestampModification.timestamp_bytes m).

Definition counter_ok (size : Z) (m : CounterModification.t) : Prop :=
  CounterModification.counter_step m <> 0 /\
  bytes_ok size (CounterModification.counter_bytes m).

(** The ranges, taken one after the other, each fit among those before. *)
Fixpoint all_fit (e : gmap Z Z) (l : list Range.t) : Prop :=
  match l with
  | [] => True
  | r :: l => fits e r /\ all_fit (<[Range.start r := Range.second r]> e) l
  end.

Definition mod_ranges (a : Action.t) : list Range.t :=
  map TimestampModification.timestamp_bytes (Action.timestamp_mods a) ++
  map CounterModification.counter_bytes (Action.counter_mods a).

Definition payload_ok (a : Action.t) : Prop :=
  exists size,
    packet_ok a size /\
    length (Action.mod_order a)
    = (length (Action.timestamp_mods a) + length (Action.counter_mods a))%nat /\
    Forall (timestamp_ok size) (Action.timestamp_mods a) /\
    Forall (counter_ok size) (Action.counter_mods a) /\ all_fit ∅ (mod_ranges a).

Abbreviation rng a := (sessions_of (Action.range a)).

(** What each action requires of the plan and does to it. *)
Inductive plan_step : plan -> Action.t -> plan -> Prop :=
| step_create p a :
    Action.type a = ActionType.CREATE -> pool p = 0 ->
    Settings.shards settings <= Action.count a ->
    plan_step p a (mk_plan (Action.count a) ∅ ∅)
| step_connect p a :
    Action.type a = ActionType.CONNECT -> pool p <> 0 ->
    Range.second (Action.range a) <= pool p -> rng a ## connected p ->
    plan_step p a (mk_plan (pool p) (rng a ∪ connected p) (disconnected p))
| step_send p a :
    Action.type a = ActionType.SEND -> Action.count a <> 0 ->
    Range.second (Action.range a) <= pool p -> payload_ok a -> rng a ⊆ connected p ->
    plan_step p a p
| step_flood p a :
    Action.type a = ActionType.FLOOD -> Range.second (Action.range a) <= pool p ->
    rng a ⊆ connected p ->
    plan_step p a p
| step_drain p a :
    Action.type a = ActionType.DRAIN -> Range.second (Action.range a) <= pool p ->
    rng a ⊆ connected p ->
    plan_step p a (mk_plan (pool p) (connected p ∖ rng a) (disconnected p))
| step_disconnect p a :
    Action.type a = ActionType.DISCONNECT -> Range.second (Action.range a) <= pool p ->
    rng a ## disconnected p ->
    plan_step p a (mk_plan (pool p) (connected p) (rng a ∪ disconnected p)).

Inductive plan_run : plan -> list Action.t -> plan -> Prop :=
| run_nil p : plan_run p [] p
| run_cons p q s a l : plan_step p a q -> plan_run q l s -> plan_run p (a :: l) s.

Lemma plan_step_det p a q q' : plan_step p a q -> plan_step p a q' -> q = q'.
Proof. intros H H'. inversion H; subst; inversion H'; subst; congruence. Qed.

(** The state of the validator that represents a plan. *)
Definition represent (p : plan) : Interpreter.sessions :=
  Interpreter.mk_sessions (pool p) (bits (pool p) (connected p))
    (bits (pool p) (disconnected p)).

(** [m] succeeds exactly when [P] holds, with the result [v], and fails with a
    message otherwise. *)
Definition decides {A} (m : outcome A) (P : Prop) (v : A) : Prop :=
  (P /\ m = Ok v) \/ (~ P /\ is_err m = true).

Lemma decides_ok {A} (m : outcome A) P v v' : decides m P v -> m = Ok v' <-> P /\ v' = v.
Proof.
  intros [[HP ->]|[HP He]]; split; naive_solver.
Qed.

Lemma decides_bind {A B} (m : outcome A) (k : A -> outcome B) P Q v w :
  decides m P v -> (P -> decides (k v) Q w) -> decides (obind m k) (P /\ Q) w.
Proof.
  intros [[HP ->]|[HP He]] Hk; unfold decides in *; simpl.
  - specialize (Hk HP). tauto.
  - right. split; [tauto|]. by destruct m.
Qed.

Lemma decides_check {A} (b : bool) (m : outcome A) e P Q v :
  (b = true <-> P) -> (P -> decides m Q v) ->
  decides (if b then m else Interpreter.arbitrary_error e) (P /\ Q) v.
Proof.
  intros Hb Hm. unfold decides in *. destruct b; simpl.
  - assert (HP : P) by (by apply Hb). specialize (Hm HP). tauto.
  - right. split; [|done]. intros [HP _]. by apply Hb in HP.
Qed.

Lemma decides_iff {A} (m : outcome A) P Q v : decides m P v -> (P <-> Q) -> decides m Q v.
Proof. unfold decides. tauto. Qed.

Lemma decides_Ok {A} (v : A) : decides (Ok v) True v.
Proof. by left. Qed.

Lemma decides_dec {A} P `{Decision P} (m : outcome A) v :
  (if decide P then m = Ok v else is_err m = true) -> decides m P v.
Proof. unfold decides. destruct (decide P); tauto. Qed.

(** *** Modifications *)

Definition fill (e : gmap Z Z) (l : list Range.t) : gmap Z Z :=
  fold_left (fun e r => <[Range.start r := Range.second r]> e) l e.

Lemma all_fit_app e l1 l2 :
  all_fit e (l1 ++ l2) <-> all_fit e l1 /\ all_fit (fill e l1) l2.
Proof.
  revert e. induction l1 as [|r l1 IH]; intros e; simpl; [tauto|]. rewrite IH. tauto.
Qed.

(** The outcome of a walk over modifications from the map [m]: their ranges
    [l] fit and each of them satisfies [P], or an error. *)
Definition walk (m : Interpreter.range_map) (l : list Range.t) (P : Prop)
    (o : outcome Interpreter.range_map) : Prop :=
  match o with
  | Ok m' => P /\ all_fit (contents m) l /\ sorted m' /\ contents m' = fill (contents m) l
  | Err _ => ~ (P /\ all_fit (contents m) l)
  | _ => False
  end.

Lemma walk_iff m l P Q o : (Q <-> P) -> walk m l P o -> walk m l Q o.
Proof. unfold walk. destruct o; tauto. Qed.

Lemma walk_step m r l i P Q k :
  sorted m ->
  (forall m', sorted m' -> contents m' = <[Range.start r := Range.second r]> (contents m) ->
     fits (contents m) r -> (exists e, k m' = Err e /\ ~ P) \/ (P /\ walk m' l Q (k m'))) ->
  walk m (r :: l) (P /\ Q) (obind (Interpreter.insert_mod_range m r i) k).
Proof.
  intros Hm Hk. pose proof (insert_spec m r i Hm) as Hi.
  destruct (Interpreter.insert_mod_range m r i) as [m'|e| |]; simpl in *; try tauto.
  destruct Hi as (Hf & Hs & Hc). destruct (Hk m' Hs Hc Hf) as [(e & -> & HP)|[HP Hw]].
  - simpl. tauto.
  - unfold walk in *. rewrite Hc in Hw. simpl. destruct (k m'); tauto.
Qed.

Ltac mod_checks :=
  repeat match goal with
  | |- context [if negb ?b then _ else _] =>
      let E := fresh "E" in destruct b eqn:E; cbn [negb]; bool_to_Z;
      [left; eexists; split; [reflexivity | unfold bytes_ok; lia]|]
  end.

Lemma timestamps_walk i a size mods m :
  sorted m ->
  walk m (map TimestampModification.timestamp_bytes mods) (Forall (timestamp_ok size) mods)
    (Interpreter.verify_timestamps i a size mods m).
Proof.
  revert m. induction mods as [|t mods IH]; intros m Hm; [by simpl|].
  cbn [Interpreter.verify_timestamps map]. cbv zeta.
  eapply walk_iff; [apply List.Forall_cons_iff|]. apply walk_step; [done|].
  intros m' Hs Hc _. unfold timestamp_ok, bytes_ok.
  destruct (str_mem _ VALID_TIME_FORMATS) eqn:Ef.
  - apply str_mem_In in Ef. mod_checks. right. split; [|by apply IH]. split; [done | lia].
  - left. eexists. split; [reflexivity|]. intros [Hin _]. apply str_mem_In in Hin. congruence.
Qed.

Lemma counters_walk i a size mods m :
  sorted m ->
  walk m (map CounterModification.counter_bytes mods) (Forall (counter_ok size) mods)
    (Interpreter.verify_counters i a size mods m).
Proof.
  revert m. induction mods as [|t mods IH]; intros m Hm; [by simpl|].
  cbn [Interpreter.verify_counters map]. cbv zeta.
  eapply walk_iff; [apply List.Forall_cons_iff|]. apply walk_step; [done|].
  intros m' Hs Hc _. unfold counter_ok, bytes_ok. mod_checks.
  right. split; [split; [done | lia]|]. by apply IH.
Qed.

(** *** Actions *)

Lemma pool_check p a :
  negb (Range.second (Action.range a) >? pool p) = true <->
  Range.second (Action.range a) <= pool p.
Proof. rewrite negb_true_iff, Z.gtb_ltb. apply Z.ltb_ge. Qed.

Lemma in_pool p a :
  Range.second (Action.range a) <= pool p ->
  Interpreter.iterations (Action.range a) = O \/
  Range.start (Action.range a) + Z.of_nat (Interpreter.iterations (Action.range a)) <= pool p.
Proof. unfold Interpreter.iterations. lia. Qed.

Lemma create_spec i a p :
  decides (Interpreter.verify_create settings i a (represent p))
    (pool p = 0 /\ Settings.shards settings <= Action.count a /\ True)
    (represent (mk_plan (Action.count a) ∅ ∅)).
Proof.
  unfold Interpreter.verify_create. apply decides_check; [apply Z.eqb_eq|]. intros Hp.
  apply decides_check; [rewrite negb_true_iff; apply Z.ltb_ge|]. intros _.
  cbv zeta. unfold represent. simpl. rewrite Hp.
  change (bits 0 (connected p)) with (bits 0 ∅). change (bits 0 (disconnected p)) with (bits 0 ∅).
  rewrite resize_bits. apply decides_Ok.
Qed.

Lemma connect_spec i a p :
  0 <= Range.start (Action.range a) ->
  decides (Interpreter.verify_connect i a (represent p))
    (pool p <> 0 /\ Range.second (Action.range a) <= pool p /\ rng a ## connected p /\ True)
    (represent (mk_plan (pool p) (rng a ∪ connected p) (disconnected p))).
Proof.
  intros H0. unfold Interpreter.verify_connect.
  apply decides_check; [rewrite negb_true_iff; apply Z.eqb_neq|]. intros _.
  apply decides_check; [apply pool_check|]. intros Hp. eapply decides_bind.
  - apply (decides_dec (rng a ## connected p)).
    apply mark_each_spec; [done | by apply in_pool].
  - intros _. apply decides_Ok.
Qed.

Lemma flood_spec i a p :
  0 <= Range.start (Action.range a) ->
  decides (Interpreter.verify_flood i a (represent p))
    (Range.second (Action.range a) <= pool p /\ rng a ⊆ connected p /\ True) (represent p).
Proof.
  intros H0. unfold Interpreter.verify_flood.
  apply decides_check; [apply pool_check|]. intros Hp. eapply decides_bind.
  - apply (decides_dec (rng a ⊆ connected p)).
    apply require_active_spec; [done | by apply in_pool].
  - intros _. apply decides_Ok.
Qed.

Lemma drain_spec i a p :
  0 <= Range.start (Action.range a) ->
  decides (Interpreter.verify_drain i a (represent p))
    (Range.second (Action.range a) <= pool p /\ rng a ⊆ connected p /\ True)
    (represent (mk_plan (pool p) (connected p ∖ rng a) (disconnected p))).
Proof.
  intros H0. unfold Interpreter.verify_drain.
  apply decides_check; [apply pool_check|]. intros Hp. eapply decides_bind.
  - apply (decides_dec (rng a ⊆ connected p)).
    apply clear_each_spec; [done | by apply in_pool].
  - intros _. apply decides_Ok.
Qed.

Lemma disconnect_spec i a p :
  0 <= Range.start (Action.range a) ->
  decides (Interpreter.verify_disconnect i a (represent p))
    (Range.second (Action.range a) <= pool p /\ rng a ## disconnected p /\ True)
    (represent (mk_plan (pool p) (connected p) (rng a ∪ disconnected p))).
Proof.
  intros H0. unfold Interpreter.verify_disconnect.
  apply decides_check; [apply pool_check|]. intros Hp. eapply decides_bind.
  - apply (decides_dec (rng a ## disconnected p)).
    apply mark_each_spec; [done | by apply in_pool].
  - intros _. apply decides_Ok.
Qed.

(** The packet check: the size, or an error when no size will do. *)
Lemma send_packet_spec i a :
  match Interpreter.verify_send_packet global_options settings i a with
  | Ok size => packet_ok a size /\ length (Action.mod_order a)
      = (length (Action.timestamp_mods a) + length (Action.counter_mods a))%nat
  | Err _ => forall size, packet_ok a size -> length (Action.mod_order a)
      <> (length (Action.timestamp_mods a) + length (Action.counter_mods a))%nat
  | _ => False
  end.
Proof.
  unfold Interpreter.verify_send_packet.
  destruct (Settings.packet_identifiers settings !! _) as [file|] eqn:El;
    [|simpl; unfold packet_ok; naive_solver].
  unfold Interpreter.verify_mods_accounted.
  destruct (Nat.eqb_spec (length (Action.mod_order a))
    (length (Action.timestamp_mods a) + length (Action.counter_mods a))%nat) as [He|He];
    simpl; [|naive_solver].
  destruct (Resolver.resolve_file global_options file) as [path e] eqn:Er.
  assert (Hpk : forall size, packet_ok a size ->
    size <> 0 /\ path <> EmptyString /\ Resolver.get_file_size path = size).
  { intros size (Hz & f & path' & Hf & Hr & Hn & Hs). rewrite El in Hf. injection Hf as <-.
    rewrite Er in Hr. simpl in Hr. by subst path'. }
  destruct (String.eqb_spec path EmptyString); [simpl; naive_solver|].
  destruct (Resolver.get_file_size path =? 0) eqn:Ez; bool_to_Z; simpl; [naive_solver|].
  split; [|done]. split; [done|]. exists file, path. rewrite Er. done.
Qed.

Lemma packet_ok_unique a size size' : packet_ok a size -> packet_ok a size' -> size = size'.
Proof. unfold packet_ok. naive_solver. Qed.

Lemma send_count_spec i a p :
  decides (Interpreter.verify_send_count i a (represent p))
    (Action.count a <> 0 /\ Range.second (Action.range a) <= pool p /\ True) tt.
Proof.
  unfold Interpreter.verify_send_count.
  apply decides_check; [rewrite negb_true_iff; apply Z.eqb_neq|]. intros _.
  apply decides_check; [apply pool_check|]. intros _. apply decides_Ok.
Qed.

(** The checks of a SEND between its count and its sessions. *)
Lemma send_payload_spec {B} i a (k : outcome B) Q v :
  (payload_ok a -> decides k Q v) ->
  decides
    (let! packet_size := Interpreter.verify_send_packet global_options settings i a in
     let! mod_ranges :=
       Interpreter.verify_timestamps i a packet_size (Action.timestamp_mods a) [] in
     let! _ := Interpreter.verify_counters i a packet_size (Action.counter_mods a)
                 mod_ranges in
     k) (payload_ok a /\ Q) v.
Proof.
  intros Hk. pose proof (send_packet_spec i a) as Hp.
  destruct (Interpreter.verify_send_packet global_options settings i a) as [size|e| |];
    simpl; try done.
  2: { right. split; [|done]. intros [(size & Hs & Ha & _) _]. by apply (Hp size). }
  destruct Hp as [Hp Ha].
  assert (Hiff : payload_ok a <->
    Forall (timestamp_ok size) (Action.timestamp_mods a) /\
    Forall (counter_ok size) (Action.counter_mods a) /\ all_fit ∅ (mod_ranges a)).
  { split; [|by exists size]. intros (size' & Hs & _ & H).
    by rewrite (packet_ok_unique _ _ _ Hp Hs). }
  unfold mod_ranges in Hiff. rewrite all_fit_app in Hiff.
  pose proof (timestamps_walk i a size (Action.timestamp_mods a) [] ltac:(constructor)) as Ht.
  destruct (Interpreter.verify_timestamps i a size _ []) as [m|e| |]; simpl in Ht |- *; try done.
  2: { right. split; [|done]. intros [H%Hiff _]. apply Ht. split; apply H. }
  destruct Ht as (Ht & Hf & Hs & Hc).
  pose proof (counters_walk i a size (Action.counter_mods a) m Hs) as Hw.
  destruct (Interpreter.verify_counters i a size _ m) as [m'|e| |]; simpl in Hw |- *; try done.
  2: { right. split; [|done]. intros [H%Hiff _]. apply Hw. rewrite Hc.
       split; [apply H|]. apply H. }
  rewrite Hc in Hw. assert (Hpay : payload_ok a) by (apply Hiff; tauto).
  specialize (Hk Hpay). unfold decides in *. tauto.
Qed.

Lemma send_spec i a p :
  0 <= Range.start (Action.range a) ->
  decides (Interpreter.verify_send global_options settings i a (represent p))
    ((Action.count a <> 0 /\ Range.second (Action.range a) <= pool p /\ True) /\
     payload_ok a /\ rng a ⊆ connected p /\ True) (represent p).
Proof.
  intros H0. unfold Interpreter.verify_send.
  eapply decides_bind; [apply send_count_spec|]. intros (_ & Hp & _).
  apply send_payload_spec. intros _. eapply decides_bind.
  - apply (decides_dec (rng a ⊆ connected p)).
    apply require_active_spec; [done | by apply in_pool].
  - intros _. apply decides_Ok.
Qed.

(** The validator takes exactly the steps of the plan. *)
Lemma verify_action_spec i a p :
  0 <= Range.start (Action.range a) ->
  match Interpreter.verify_action global_options settings i a (represent p) with
  | Ok st => exists q, plan_step p a q /\ st = represent q
  | Err _ => forall q, ~ plan_step p a q
  | _ => False
  end.
Proof.
  intros H0. unfold Interpreter.verify_action.
  destruct (Action.type a) eqn:Et;
    [ destruct (create_spec i a p) as [[H ->]|[H He]]
    | destruct (connect_spec i a p H0) as [[H ->]|[H He]]
    | destruct (send_spec i a p H0) as [[H ->]|[H He]]
    | destruct (flood_spec i a p H0) as [[H ->]|[H He]]
    | destruct (drain_spec i a p H0) as [[H ->]|[H He]]
    | destruct (disconnect_spec i a p H0) as [[H ->]|[H He]] ].
  all: try (eexists; split; [|reflexivity]; constructor; tauto).
  all: match type of He with is_err ?m = true => destruct m end; try done;
    intros q Hq; inversion Hq; subst; (congruence || tauto).
Qed.

Lemma verify_actions_spec i l p :
  Forall (fun a => 0 <= Range.start (Action.range a)) l ->
  match Interpreter.verify_actions global_options settings i l (represent p) with
  | Ok st => exists q, plan_run p l q /\ st = represent q
  | Err _ => forall q, ~ plan_run p l q
  | _ => False
  end.
Proof.
  intros Hl. revert i p. induction Hl as [|a l Ha Hl IH]; intros i p.
  - exists p. split; [constructor | done].
  - cbn [Interpreter.verify_actions]. pose proof (verify_action_spec i a p Ha) as Hs.
    destruct (Interpreter.verify_action _ _ _ _ _) as [st|e| |]; simpl; try done.
    + destruct Hs as (q & Hq & ->). specialize (IH (i + 1) q).
      destruct (Interpreter.verify_actions _ _ _ _ _) as [st|e| |]; try done.
      * destruct IH as (s & Hr & ->). exists s. split; [by econstructor | done].
      * intros s Hr. inversion Hr; subst. 
        assert (Hd : q = q0) by (by eapply plan_step_det). subst. by eapply IH.
    + intros s Hr. inversion Hr; subst. by eapply Hs.
Qed.

Lemma plan_run_det p l q q' : plan_run p l q -> plan_run p l q' -> q = q'.
Proof.
  intros H. revert q'. induction H as [|p q s a l Hs Hr IH]; intros q' H'; inversion H'; subst;
    [done|]. apply IH. match goal with H : plan_step p a ?x |- _ =>
      first [by rewrite (plan_step_det _ _ _ _ Hs H) | fail 1] end.
Qed.

Lemma run_payload p l q a :
  plan_run p l q -> In a l -> Action.type a = ActionType.SEND -> payload_ok a.
Proof.
  intros H Hin Ht. induction H as [|p q s b l Hs Hr IH]; [done|].
  destruct Hin as [->|Hin]; [|by apply IH]. inversion Hs; subst; congruence.
Qed.

End Plan.
