(* ===== verification/InterpreterProps.v ===== *)
(** * Properties of the interpreter

    What the validator accepts, exactly; that it never leaves its vectors; and
    what an accepted script guarantees to the rest of the program. *)

From S2P Require Import Prelude Diagnostics Script Lexer LexerFacts LexerProps Parser ParserFacts ParserProps ParserPrint.
From S2P Require Import Resolver Interpreter InterpreterFacts.

Section Valid.
Context {sys : System} {ord : HashOrder}.
Variable global_options : Resolver.options.

Definition resolves (file : string) : Prop :=
  (Resolver.resolve_file global_options file).1 <> EmptyString.

(** ** A valid script *)

Definition handler_valid (s : Settings.t) : Prop :=
  Settings.read s = true ->
  In (Settings.handler_value s) VALID_MESSAGE_HANDLERS \/
  (ends_with (Settings.handler_value s) ".wasm" = true /\ resolves (Settings.handler_value s)).

Definition settings_valid (s : Settings.t) : Prop :=
  Settings.identifier s <> EmptyString /\
  In (Settings.session_protocol s) VALID_PROTOCOLS /\
  Settings.port s <> 0 /\
  (Settings.read s = true -> Settings.header_size s <> 0 /\ Settings.body_max s <> 0) /\
  Settings.shards s <> 0 /\
  Settings.endpoints s <> [] /\
  (forall id file, Settings.packet_identifiers s !! id = Some file -> resolves file) /\
  handler_valid s.

Definition script_valid (d : DSLData.t) : Prop :=
  let s := DSLData.settings d in
  let o := DSLData.orchestrator d in
  settings_valid s /\
  (Settings.packet_identifiers s = ∅ ->
   Forall (fun a => Action.type a <> ActionType.SEND) (Orchestrator_block.actions o)) /\
  Orchestrator_block.settings_identifier o = Settings.identifier s /\
  Orchestrator_block.actions o <> [] /\
  exists q, plan_run global_options s no_plan (Orchestrator_block.actions o) q.

(** ** The checks of the settings *)

Lemma not_empty_check s : negb (String.eqb s EmptyString) = true <-> s <> EmptyString.
Proof. rewrite negb_true_iff. apply String.eqb_neq. Qed.

Lemma protocol_spec s :
  decides (Interpreter.verify_protocol s)
    (Settings.identifier s <> EmptyString /\
     In (Settings.session_protocol s) VALID_PROTOCOLS /\ Settings.port s <> 0) tt.
Proof.
  unfold Interpreter.verify_protocol. apply decides_check; [apply not_empty_check|]. intros _.
  apply decides_check; [apply str_mem_In|]. intros Hin.
  assert ((String.eqb (Settings.session_protocol s) "TCP"
           || String.eqb (Settings.session_protocol s) "UDP") = true) as ->.
  { destruct Hin as [<-|[<-|[]]]; done. }
  unfold decides. destruct (Settings.port s =? 0) eqn:E; bool_to_Z; simpl; tauto.
Qed.

Lemma zero_read_check z b : negb ((z =? 0) && b) = true <-> ~ (z = 0 /\ b = true).
Proof. rewrite negb_true_iff, andb_false_iff, Z.eqb_neq. destruct b; intuition congruence. Qed.

Lemma sizes_spec s :
  decides (Interpreter.verify_sizes s)
    ((Settings.read s = true -> Settings.header_size s <> 0 /\ Settings.body_max s <> 0) /\
     Settings.shards s <> 0 /\ Settings.endpoints s <> []) tt.
Proof.
  eapply decides_iff.
  - unfold Interpreter.verify_sizes.
    apply (decides_check _ _ _ (~ (Settings.header_size s = 0 /\ Settings.read s = true)));
      [apply zero_read_check|]. intros _.
    apply (decides_check _ _ _ (~ (Settings.body_max s = 0 /\ Settings.read s = true)));
      [apply zero_read_check|]. intros _.
    apply decides_check; [rewrite negb_true_iff; apply Z.eqb_neq|]. intros _.
    instantiate (1 := Settings.endpoints s <> []).
    destruct (Settings.endpoints s); [right; split; [by intros []|done] | by left].
  - destruct (Settings.read s); intuition congruence.
Qed.

Lemma packets_defined_spec d :
  decides (Interpreter.verify_packets_defined d)
    (Settings.packet_identifiers (DSLData.settings d) = ∅ ->
     Forall (fun a => Action.type a <> ActionType.SEND)
       (Orchestrator_block.actions (DSLData.orchestrator d))) tt.
Proof.
  unfold Interpreter.verify_packets_defined, decides.
  destruct (bool_decide_reflect (Settings.packet_identifiers (DSLData.settings d) = ∅));
    simpl; [|naive_solver].
  assert (Hs : forall l, existsb Interpreter.is_send l = false <->
                         Forall (fun a => Action.type a <> ActionType.SEND) l).
  { induction l as [|a l IH]; simpl; [split; [constructor|done]|].
    rewrite List.Forall_cons_iff, orb_false_iff, IH. unfold Interpreter.is_send.
    by rewrite bool_decide_eq_false. }
  destruct (existsb _ _) eqn:E; simpl; [|apply Hs in E; tauto].
  right. split; [|done]. intros H. specialize (H e). apply Hs in H. congruence.
Qed.

Lemma packets_loop_spec l :
  decides (Interpreter.verify_packets global_options l)
    (Forall (fun pk => resolves pk.2) l) tt.
Proof.
  induction l as [|[id file] l IH]; [by left|]. unfold decides in *. simpl.
  rewrite List.Forall_cons_iff. unfold resolves at 1 3. simpl.
  destruct (Resolver.resolve_file global_options file) as [path e]. simpl.
  destruct (String.eqb_spec path EmptyString); simpl; tauto.
Qed.

Lemma packets_spec s :
  decides (Interpreter.verify_packets global_options (hash_order (Settings.packet_identifiers s)))
    (forall id file, Settings.packet_identifiers s !! id = Some file -> resolves file) tt.
Proof.
  eapply decides_iff; [apply packets_loop_spec|].
  rewrite hash_order_perm, List.Forall_forall. split.
  - intros H id file Hl. apply (H (id, file)), list_elem_of_In. by apply elem_of_map_to_list.
  - intros H [id file] Hin. apply list_elem_of_In, elem_of_map_to_list in Hin. by eapply H.
Qed.

Lemma handler_spec s :
  decides (Interpreter.verify_handler global_options s) (handler_valid s) tt.
Proof.
  unfold Interpreter.verify_handler, handler_valid, decides, resolves.
  destruct (Settings.read s); cbn [andb]; [|by left].
  destruct (str_mem (Settings.handler_value s) VALID_MESSAGE_HANDLERS) eqn:Em; cbn [negb].
  { apply str_mem_In in Em. left. tauto. }
  assert (~ In (Settings.handler_value s) VALID_MESSAGE_HANDLERS).
  { intros H. apply str_mem_In in H. congruence. }
  destruct (ends_with (Settings.handler_value s) ".wasm").
  2: { right. split; [|done]. intros Hv. destruct (Hv eq_refl) as [?|[? _]]; done. }
  destruct (Resolver.resolve_file _ _) as [path e]. cbn [fst].
  destruct (String.eqb_spec path EmptyString); [right; split; [|done]|left; tauto].
  intros Hv. destruct (Hv eq_refl) as [?|[_ ?]]; done.
Qed.

Lemma orchestrator_block_spec d :
  Settings.identifier (DSLData.settings d) <> EmptyString ->
  decides (Interpreter.verify_orchestrator_block d)
    (Orchestrator_block.settings_identifier (DSLData.orchestrator d)
     = Settings.identifier (DSLData.settings d) /\
     Orchestrator_block.actions (DSLData.orchestrator d) <> []) tt.
Proof.
  intros Hi. unfold Interpreter.verify_orchestrator_block, decides. cbv zeta.
  destruct (String.eqb_spec (Orchestrator_block.settings_identifier (DSLData.orchestrator d))
              EmptyString); simpl; [right; split; [|done]; intros [? _]; congruence|].
  destruct (String.eqb_spec (Orchestrator_block.settings_identifier (DSLData.orchestrator d))
              (Settings.identifier (DSLData.settings d))); simpl; [|tauto].
  destruct (Orchestrator_block.actions _); simpl; [right; tauto|left; done].
Qed.

Lemma wf_starts l : Forall action_wf l -> Forall (fun a => 0 <= Range.start (Action.range a)) l.
Proof. apply Forall_impl. intros a (([H _] & _) & _). apply H. Qed.

Lemma script_spec d :
  script_wf d -> decides (Interpreter.verify_script global_options d) (script_valid d) tt.
Proof.
  intros [_ Hwf].
  eapply decides_iff.
  - unfold Interpreter.verify_script. cbv zeta.
    eapply decides_bind; [apply protocol_spec|]. intros (Hid & _).
    eapply decides_bind; [apply sizes_spec|]. intros _.
    eapply decides_bind; [apply packets_defined_spec|]. intros _.
    eapply decides_bind; [apply packets_spec|]. intros _.
    eapply decides_bind; [apply handler_spec|]. intros _.
    eapply decides_bind; [by apply orchestrator_block_spec|]. intros _.
    pose proof (verify_actions_spec global_options (DSLData.settings d) 0 _ no_plan (wf_starts _ Hwf)) as Ha.
    change (represent no_plan) with Interpreter.no_sessions in Ha.
    instantiate (1 := exists q, plan_run global_options (DSLData.settings d) no_plan
      (Orchestrator_block.actions (DSLData.orchestrator d)) q).
    unfold decides.
    destruct (Interpreter.verify_actions _ _ _ _ _); simpl; naive_solver.
  - unfold script_valid, settings_valid. cbv zeta. tauto.
Qed.

(** ** The whole interpreter *)

Variable hardware_concurrency : Z.
Hypothesis hardware_int : hardware_concurrency <= INT_MAX.

Lemma defaults_wf d :
  script_wf d -> script_wf (Interpreter.set_script_defaults hardware_concurrency d).
Proof.
  intros [(Hp & Hs & Hr) Ha]. unfold Interpreter.set_script_defaults. cbv zeta.
  split; [|exact Ha].
  unfold settings_wf, is_int, INT_MAX, Interpreter.DEFAULT_PACKET_SAMPLE_RATE in *.
  destruct (Settings.shards _ =? 0), (String.eqb _ EmptyString), (Settings.packet_sample_rate _ =? 0);
    simpl; repeat split; try lia; destruct (hardware_concurrency <=? 0) eqn:E; bool_to_Z; lia.
Qed.

Lemma parse_wf_fresh g gh gb tokens d :
  Parser.parse g (Parser.init tokens) (DSLData.fresh gh gb) = Ok d -> script_wf d.
Proof.
  intros H. eapply parse_loop_wf; [apply H|]. split; [|constructor].
  unfold settings_wf, is_int, INT_MAX. simpl. lia.
Qed.

Lemma tagged_Ok {A} stage (m : outcome A) a :
  Interpreter.tagged stage m = Ok a -> m = Ok a.
Proof. by destruct m. Qed.

Lemma returns_tagged {A} stage (m : outcome A) : returns m -> returns (Interpreter.tagged stage m).
Proof. by destruct m. Qed.

Lemma returns_read_script name : returns (Interpreter.read_script global_options name).
Proof.
  unfold Interpreter.read_script. destruct (Resolver.resolve_file _ _) as [path e].
  destruct (String.eqb _ _); [done|]. destruct (open_file path); [|done].
  cbv zeta. destruct (_ =? 0); [done|]. by destruct (read_bytes _ _).
Qed.

Lemma decides_returns {A} (m : outcome A) P v : decides m P v -> returns m.
Proof. intros [[_ ->]|[_ H]]; [done|]. by destruct m. Qed.

Section Claims.
Variables garbage gh gb : Z.

(** C4: The walk of the validator over the actions implements the plan of the
    sessions: it accepts exactly the action sequences that have a run from the
    empty plan, its vectors then hold the sets of the last plan, and on every
    other sequence it returns an error without leaving its vectors. *)
Theorem validator_refines_plan s l st :
  Forall action_wf l ->
  returns (Interpreter.verify_actions global_options s 0 l Interpreter.no_sessions) /\
  (Interpreter.verify_actions global_options s 0 l Interpreter.no_sessions = Ok st <->
   exists q, plan_run global_options s no_plan l q /\ st = represent q).
Proof.
  intros Hwf. pose proof (verify_actions_spec global_options s 0 l no_plan (wf_starts _ Hwf)) as Ha.
  change (represent no_plan) with Interpreter.no_sessions in Ha.
  destruct (Interpreter.verify_actions _ _ _ _ _) as [st'|e| |]; simpl; try done.
  - split; [done|]. split; [by intros [= <-]|]. intros (q & Hq & ->). f_equal.
    destruct Ha as (q' & Hq' & ->). by rewrite (plan_run_det _ _ _ _ _ _ Hq Hq').
  - split; [done|]. split; [done|]. intros (q & Hq & _). by destruct (Ha q).
Qed.

(** C10: The validator accepts a script exactly when it is valid: its settings
    complete and consistent, its packets and handler resolvable, and its
    actions a run of the plan; otherwise it returns an error.  Validity is that of
    the code: unlike docs/syntax.md it asks for a header size whenever messages
    are read, over UDP too, and for no CREATE or CONNECT. *)
Theorem verify_script_spec d :
  script_wf d ->
  (Interpreter.verify_script global_options d = Ok tt <-> script_valid d) /\
  returns (Interpreter.verify_script global_options d).
Proof.
  intros Hwf. pose proof (script_spec d Hwf) as Hd. split.
  - rewrite (decides_ok _ _ _ _ Hd). naive_solver.
  - by eapply decides_returns.
Qed.

(** What holds of the interpreter on every file. *)
Lemma parse_script_spec name :
  returns (Interpreter.parse_script global_options hardware_concurrency garbage gh gb name) /\
  forall d, Interpreter.parse_script global_options hardware_concurrency garbage gh gb name = Ok d ->
    script_wf d /\ script_valid d.
Proof.
  split.
  - unfold Interpreter.parse_script. apply returns_obind; [apply returns_read_script|].
    intros raw _. apply returns_obind; [apply returns_tagged, returns_tokenize|].
    intros tokens _. destruct (negb _); [|done].
    apply returns_obind.
    { apply returns_tagged, returns_parse_loop; [apply init_valid | apply left_fuel, init_valid]. }
    intros d Hd%tagged_Ok%parse_wf_fresh. cbv zeta. apply returns_obind; [|done].
    apply returns_tagged. eapply decides_returns, script_spec. by apply defaults_wf.
  - intros d. unfold Interpreter.parse_script. intros H. inv_ok. subst d.
    apply tagged_Ok, parse_wf_fresh, defaults_wf in Hm1. split; [done|].
    apply tagged_Ok, (decides_ok _ _ _ _ (script_spec _ Hm1)) in Hm2. apply Hm2.
Qed.

(** The interpreter returns on every script file, whatever it holds and
    whatever the uninitialised members are: with a script or an error message,
    without undefined behaviour. *)
Theorem parse_script_returns name :
  returns (Interpreter.parse_script global_options hardware_concurrency garbage gh gb name).
Proof. apply parse_script_spec. Qed.

(** C15: A script the interpreter returns is well-formed and valid, so the rest
    of the program may rely on both. *)
Theorem parse_script_sound name d :
  Interpreter.parse_script global_options hardware_concurrency garbage gh gb name = Ok d ->
  script_wf d /\ script_valid d.
Proof. apply parse_script_spec. Qed.

(** C32: In an accepted script every modification of a SEND writes at most
    eight bytes, and they lie inside the packet, before its last byte. *)
Theorem modifications_in_packet d a r :
  script_wf d -> Interpreter.verify_script global_options d = Ok tt ->
  In a (Orchestrator_block.actions (DSLData.orchestrator d)) ->
  Action.type a = ActionType.SEND -> In r (mod_ranges a) ->
  exists size, packet_ok global_options (DSLData.settings d) a size /\
    0 <= Range.start r /\ 0 <= Range.second r <= 8 /\ Range.start r + Range.second r < size.
Proof.
  intros Hwf Hok Hin Ht Hr.
  apply (decides_ok _ _ _ _ (script_spec _ Hwf)) in Hok as [(_ & _ & _ & _ & q & Hq) _].
  destruct (run_payload _ _ _ _ _ _ Hq Hin Ht) as (size & Hp & _ & Hts & Hcs & _).
  exists size. split; [done|]. destruct Hwf as [_ Hwf].
  rewrite List.Forall_forall in Hwf. destruct (Hwf _ Hin) as (_ & _ & (Hmt & Hmc & _) & _).
  assert (range_wf r /\ bytes_ok size r) as [[H1 H2] [H3 H4]].
  { rewrite List.Forall_forall in *. unfold mod_ranges in Hr.
    apply in_app_or in Hr as [Hr|Hr]; apply in_map_iff in Hr as (m & <- & Hm).
    - split; [by apply Hmt | by apply Hts].
    - split; [by apply Hmc | by apply Hcs]. }
  unfold Range.end_from_length, is_int, INT_MAX in *. rewrite u32_small in H4 by lia. lia.
Qed.

End Claims.
End Valid.

(** Inserting a range is a lookup in a sorted map: it fails exactly when
    the range does not fit among those of the map, and otherwise adds it and
    keeps the map sorted. *)
Theorem insert_mod_range_spec m r i :
  sorted m ->
  match Interpreter.insert_mod_range m r i with
  | Ok m' => fits (contents m) r /\ sorted m' /\
             contents m' = <[Range.start r := Range.second r]> (contents m)
  | Err _ => ~ fits (contents m) r
  | Undef | NoFuel => False
  end.
Proof. apply insert_spec. Qed.

(** Of two modifications at offsets [a < b] the second is accepted exactly
    when the length of the first is less than [b]: the length is compared as if
    it were the end, so ranges that overlap are accepted ([10:4] and [12:4])
    and adjacent ones are rejected ([0:4] and [4:4]). *)
Theorem insert_two_mods a la b lb i :
  a < b ->
  (is_ok (let! m := Interpreter.insert_mod_range [] (Range.mk a la) i in
          Interpreter.insert_mod_range m (Range.mk b lb) i) = true <-> la < b) /\
  is_ok (let! m := Interpreter.insert_mod_range [] (Range.mk 10 4) i in
         Interpreter.insert_mod_range m (Range.mk 12 4) i) = true /\
  is_ok (let! m := Interpreter.insert_mod_range [] (Range.mk 0 4) i in
         Interpreter.insert_mod_range m (Range.mk 4 4) i) = false.
Proof.
  intros Hab. split; [|done].
  unfold Interpreter.insert_mod_range. simpl.
  destruct (a <? b) eqn:E; bool_to_Z; [|lia]. simpl.
  destruct (la >=? b) eqn:E'; bool_to_Z; simpl; split; (done || lia).
Qed.

(** ** Witnesses *)

(** A system with three files, every path its own canonical path. *)
Definition sample_files : list (string * string) :=
  [ ("script.ls", script_text (sample_data 7));
    ("a$b.bin", "0123456789abcdef0123456789abcdef") ]%string.

Definition lookup_file (path : string) : option string :=
  snd <$> List.find (fun f => String.eqb f.1 path) sample_files.

Definition sample_system : System := {|
  getenv name := if String.eqb name "HOME" then Some "/home/u"%string else None;
  canonical path := match lookup_file path with
                    | Some _ => inl path
                    | None => inr "No such file or directory"%string
                    end;
  file_size path := (fun c => Z.of_nat (String.length c)) <$> lookup_file path;
  open_file := lookup_file
|}.

Definition sample_order : HashOrder :=
  {| hash_order := map_to_list; hash_order_perm := fun _ => Permutation_refl _ |}.

Definition sample_options : Resolver.options := Resolver.mk_options false.

Lemma sample_wf garbage : script_wf (sample_data garbage).
Proof. apply sample_printable. Qed.

Lemma validator_refines_plan_witness :
  exists q, @plan_run sample_system sample_options (DSLData.settings (sample_data 7)) no_plan
              (sample_actions 7) q.
Proof.
  pose (st := Interpreter.mk_sessions 100 (replicate 100 0) (replicate 100 0)).
  destruct (@validator_refines_plan sample_system sample_options
    (DSLData.settings (sample_data 7)) (sample_actions 7) st) as [_ [H _]].
  - apply (sample_wf 7).
  - destruct H as (q & Hq & _); [vm_compute; reflexivity | by exists q].
Defined.

Lemma verify_script_spec_witness :
  @script_valid sample_system sample_options (sample_data 7).
Proof.
  destruct (@verify_script_spec sample_system sample_order sample_options (sample_data 7)
              (sample_wf 7)) as [[H _] _].
  apply H. vm_compute. reflexivity.
Defined.

Lemma sample_hardware : 4 <= INT_MAX.
Proof. by vm_compute. Qed.

Lemma parse_script_returns_witness :
  returns (@Interpreter.parse_script sample_system sample_order sample_options 4 7 1 2
             "missing.ls").
Proof.
  apply (@parse_script_returns sample_system sample_order sample_options 4 sample_hardware).
Defined.

Lemma parse_script_sound_witness :
  script_wf (sample_data 7) /\ @script_valid sample_system sample_options (sample_data 7).
Proof.
  apply (@parse_script_sound sample_system sample_order sample_options 4 sample_hardware
           7 1 2 "script.ls").
  vm_compute. reflexivity.
Defined.

Lemma modifications_in_packet_witness :
  exists size, @packet_ok sample_system sample_options (DSLData.settings (sample_data 7))
                 (List.nth 2 (sample_actions 7) (Action.fresh 0)) size /\
    0 <= 12 /\ 0 <= 8 <= 8 /\ 12 + 8 < size.
Proof.
  apply (@modifications_in_packet sample_system sample_order sample_options (sample_data 7)
           (List.nth 2 (sample_actions 7) (Action.fresh 0)) (Range.mk 12 8)).
  - apply (sample_wf 7).
  - vm_compute. reflexivity.
  - right. right. left. reflexivity.
  - reflexivity.
  - left. reflexivity.
Defined.

Lemma insert_mod_range_spec_witness :
  fits (contents [(0, 4); (20, 24)]) (Range.mk 8 12).
Proof.
  pose proof (insert_mod_range_spec [(0, 4); (20, 24)] (Range.mk 8 12) 0) as H.
  apply H. repeat constructor.
Defined.

Lemma insert_two_mods_witness :
  is_ok (let! m := Interpreter.insert_mod_range [] (Range.mk 10 4) 0 in
         Interpreter.insert_mod_range m (Range.mk 12 4) 0) = true.
Proof. apply (insert_two_mods 10 4 12 4 0); lia. Defined.
