(* ===== verification/Payload.v ===== *)
(** * Payloads (src/packets/payload-structs.h, payload-manager.{h,cpp})

    A payload descriptor is a packet with the operations to apply to it; the
    manager prepares the buffers to send for it.  A prepared payload holds
    slices that point into the packet or into its own vector [temps]; a
    reallocation of [temps] invalidates the latter, which the model keeps as a
    generation number.  Packets are never modified, so a descriptor holds the
    bytes of the packet itself. *)

From S2P Require Import Prelude.

(** [enum class PacketOperationType] *)
Module PacketOperationType.
Inductive t : Type := IDENTITY | COUNTER | TIMESTAMP.

#[global] Instance eq_dec : EqDecision t.
Proof. solve_decision. Defined.
End PacketOperationType.

(** [enum class TimestampFormat] *)
Module TimestampFormat.
Inductive t : Type := Seconds | Milliseconds | Microseconds | Nanoseconds.

#[global] Instance eq_dec : EqDecision t.
Proof. solve_decision. Defined.
End TimestampFormat.

(** [struct PacketOperation]; the arguments of its makers are [uint32_t]. *)
Module PacketOperation.
Record t : Type := mk {
  type : PacketOperationType.t;
  length : Z;
  little_endian : bool;
  time_format : TimestampFormat.t
}.

Definition make_identity (len : Z) : t :=
  mk PacketOperationType.IDENTITY (u32 len) false TimestampFormat.Seconds.

Definition make_counter (len : Z) (little_end : bool) : t :=
  mk PacketOperationType.COUNTER (u32 len) little_end TimestampFormat.Seconds.

Definition make_timestamp (len : Z) (little_end : bool) (format : TimestampFormat.t) : t :=
  mk PacketOperationType.TIMESTAMP (u32 len) little_end format.
End PacketOperation.

Module PayloadDescriptor.
Record t : Type := mk {
  packet_data : list Z;
  ops : list PacketOperation.t
}.
End PayloadDescriptor.

(** [struct PayloadCounter]: a 64-bit counter and its 16-bit step. *)
Module PayloadCounter.
Record t : Type := mk { counter : Z; step : Z }.

Definition init : t := mk 0 0.

Definition set_step (c : t) (v : Z) : t := mk (counter c) v.

(** [counter.fetch_add(step)]: the old value and the counter after it. *)
Definition fetch_add (c : t) : Z * t := (counter c, mk (u64 (counter c + step c)) (step c)).
End PayloadCounter.

(** [struct PreparedPayload] *)
Module PreparedPayload.

(** Where the bytes of an [asio::const_buffer] are. *)
Inductive slice : Type :=
| Static (offset length : Z)
| Temp (generation : nat) (offset length : Z).

Record t : Type := mk {
  temps : list Z;
  capacity : Z;
  generation : nat;
  packet_slices : list slice
}.

(** A default-constructed payload. *)
Definition init : t := mk [] 0 0 [].

Definition clear (p : t) : t := mk [] (capacity p) (generation p) [].

(** [temps.reserve(n)] *)
Definition reserve (p : t) (n : Z) : t :=
  if n >? capacity p then mk (temps p) n (S (generation p)) (packet_slices p) else p.

(** [temps.resize(n)] to a size not below the current one. *)
Definition resize (p : t) (n : Z) : t :=
  let temps' := temps p ++ replicate (Z.to_nat n - length (temps p)) 0 in
  if n >? capacity p then mk temps' n (S (generation p)) (packet_slices p)
  else mk temps' (capacity p) (generation p) (packet_slices p).

Definition push_slice (p : t) (s : slice) : t :=
  mk (temps p) (capacity p) (generation p) (packet_slices p ++ [s]).

(** Write [bytes] from [offset] on. *)
Definition store (p : t) (offset : Z) (bytes : list Z) : outcome t :=
  if (0 <=? offset) && (offset + Z.of_nat (length bytes) <=? Z.of_nat (length (temps p)))
  then Ok (mk (list_inserts (Z.to_nat offset) bytes (temps p)) (capacity p) (generation p)
             (packet_slices p))
  else Undef.

(** The bytes a slice designates when it is sent. *)
Definition read_slice (packet : list Z) (p : t) (s : slice) : outcome (list Z) :=
  let read data offset len :=
    if (0 <=? offset) && (0 <=? len) && (offset + len <=? Z.of_nat (length data))
    then Ok (take (Z.to_nat len) (drop (Z.to_nat offset) data)) else Undef in
  match s with
  | Static offset len => read packet offset len
  | Temp g offset len =>
      if Nat.eqb g (generation p) then read (temps p) offset len else Undef
  end.

Fixpoint read_slices (packet : list Z) (p : t) (l : list slice) : outcome (list Z) :=
  match l with
  | [] => Ok []
  | s :: l =>
      let! b := read_slice packet p s in
      let! rest := read_slices packet p l in
      Ok (b ++ rest)
  end.

(** What a gathering write of the payload sends. *)
Definition sent_bytes (packet : list Z) (p : t) : outcome (list Z) :=
  read_slices packet p (packet_slices p).
End PreparedPayload.

Module PayloadManager.

Record t : Type := mk {
  payloads_ : list PayloadDescriptor.t;
  counters_ : list (list PayloadCounter.t)
}.

(** ** Numbers *)

(** The bytes of [v], from the least significant one on: its memory on a
    little-endian host. *)
Definition le_bytes (n : nat) (v : Z) : list Z :=
  map (fun i => u8 (Z.shiftr v (8 * Z.of_nat i))) (seq 0 n).

Fixpoint le_value (bytes : list Z) : Z :=
  match bytes with
  | [] => 0
  | b :: bytes => b + 256 * le_value bytes
  end.

(** [__builtin_bswap64] ([n = 8]) and [__builtin_bswap32] ([n = 4]). *)
Definition bswap (n : nat) (v : Z) : Z := le_value (rev (le_bytes n v)).

(** The loop of [write_numeric] from [i] on: shifting a 64-bit number by 64 or
    more is undefined. *)
Fixpoint write_loop (k : nat) (i raw_numeric length : Z) (little_endian : bool)
  : outcome (list Z) :=
  match k with
  | O => Ok []
  | S k =>
      let shift := i32 (u32 ((if little_endian then i else u32 (length - 1 - i)) * 8)) in
      if (0 <=? shift) && (shift <? 64) then
        let! rest := write_loop k (i + 1) raw_numeric length little_endian in
        Ok (u8 (Z.land (Z.shiftr raw_numeric shift) 255) :: rest)
      else Undef
  end.

(** The bytes [write_numeric] writes from [start] on. *)
Definition write_numeric (raw_numeric length : Z) (little_endian : bool)
  : outcome (list Z) :=
  if length =? 8 then
    let val_64_bit := raw_numeric in
    let val_64_bit := if negb little_endian then bswap 8 val_64_bit else val_64_bit in
    Ok (le_bytes 8 val_64_bit)
  else if length =? 4 then
    let val_32_bit := u32 raw_numeric in
    let val_32_bit := if negb little_endian then bswap 4 val_32_bit else val_32_bit in
    Ok (le_bytes 4 val_32_bit)
  else write_loop (Z.to_nat length) 0 raw_numeric length little_endian.

(** ** Construction *)

(** [steps.resize(payloads_.size())], for a list not longer than that. *)
Definition pad_steps (n : nat) (steps : list (list Z)) : list (list Z) :=
  steps ++ replicate (n - length steps) [].

Definition make_counters (step_list : list Z) : list PayloadCounter.t :=
  map (PayloadCounter.set_step PayloadCounter.init) step_list.

(** The constructor; the loop runs over the payloads, steps without one are
    ignored. *)
Definition init (payloads : list PayloadDescriptor.t) (steps : list (list Z)) : t :=
  let steps :=
    if Nat.ltb (length steps) (length payloads) then pad_steps (length payloads) steps
    else steps in
  mk payloads (map make_counters (take (length payloads) steps)).

(** ** Preparing a payload *)

(** The value of [std::chrono::system_clock::now()] in a format, from the
    nanoseconds since the epoch. *)
Definition timestamp_value (now : Z) (format : TimestampFormat.t) : Z :=
  u64 (match format with
       | TimestampFormat.Seconds => Z.quot now 1000000000
       | TimestampFormat.Milliseconds => Z.quot now 1000000
       | TimestampFormat.Microseconds => Z.quot now 1000
       | TimestampFormat.Nanoseconds => now
       end).

Definition is_identity (op : PacketOperation.t) : bool :=
  bool_decide (PacketOperation.type op = PacketOperationType.IDENTITY).

Definition total_temp_bytes (ops : list PacketOperation.t) : Z :=
  fold_left (fun total op =>
               if negb (is_identity op) then u64 (total + PacketOperation.length op)
               else total) ops 0.

(** Append a number to [temps] and its slice to the slices. *)
Definition insert_numeric (payload : PreparedPayload.t) (op : PacketOperation.t) (val : Z)
  : outcome PreparedPayload.t :=
  let write_index := Z.of_nat (length (PreparedPayload.temps payload)) in
  let payload := PreparedPayload.resize payload (write_index + PacketOperation.length op) in
  let! bytes := write_numeric val (PacketOperation.length op)
                  (PacketOperation.little_endian op) in
  let! payload := PreparedPayload.store payload write_index bytes in
  Ok (PreparedPayload.push_slice payload
        (PreparedPayload.Temp (PreparedPayload.generation payload) write_index
           (PacketOperation.length op))).

(** The loop over the operations: the counters of the payload, the payload, the
    offset in the packet and the index of the next counter are its state; the
    clock reads [now k] at the operation [k]. *)
Fixpoint fill_ops (now : nat -> Z) (k : nat) (ops : list PacketOperation.t)
    (counters : list PayloadCounter.t) (payload : PreparedPayload.t)
    (current_offset : Z) (current_counter_idx : nat)
  : outcome (list PayloadCounter.t * PreparedPayload.t) :=
  match ops with
  | [] => Ok (counters, payload)
  | op :: ops =>
      match PacketOperation.type op with
      | PacketOperationType.IDENTITY =>
          fill_ops now (S k) ops counters
            (PreparedPayload.push_slice payload
               (PreparedPayload.Static current_offset (PacketOperation.length op)))
            (u64 (current_offset + PacketOperation.length op)) current_counter_idx
      | PacketOperationType.COUNTER =>
          match counters !! current_counter_idx with
          | None => Undef
          | Some curr_counter =>
              let '(val, curr_counter) := PayloadCounter.fetch_add curr_counter in
              let! payload := insert_numeric payload op val in
              fill_ops now (S k) ops (<[current_counter_idx := curr_counter]> counters)
                payload (u64 (current_offset + PacketOperation.length op))
                (S current_counter_idx)
          end
      | PacketOperationType.TIMESTAMP =>
          let ts_value := timestamp_value (now k) (PacketOperation.time_format op) in
          let! payload := insert_numeric payload op ts_value in
          fill_ops now (S k) ops counters payload
            (u64 (current_offset + PacketOperation.length op)) current_counter_idx
      end
  end.

(** Only a COUNTER looks at the counters of the payload, and finds none where
    the manager has no list for it. *)
Definition fill_payload (now : nat -> Z) (m : t) (index : nat) (payload : PreparedPayload.t)
  : outcome (bool * PreparedPayload.t * t) :=
  match payloads_ m !! index with
  | None => Ok (false, payload, m)
  | Some descriptor =>
      let ops := PayloadDescriptor.ops descriptor in
      let payload := PreparedPayload.clear payload in
      let payload := PreparedPayload.reserve payload (total_temp_bytes ops) in
      let payload_counter := default [] (counters_ m !! index) in
      let! (payload_counter, payload) :=
        fill_ops now 0 ops payload_counter payload 0 0 in
      Ok (true, payload, mk (payloads_ m) (<[index := payload_counter]> (counters_ m)))
  end.

End PayloadManager.
