(* ===== verification/PayloadFacts.v ===== *)
(** * Facts about payloads

    Numbers as bytes, and the buffers of a prepared payload: what is appended
    within the reserved capacity keeps every earlier slice valid. *)

From S2P Require Import Prelude Payload.
Import PayloadManager.

(** ** Numbers as bytes *)

(** The [n] low bytes of [v] in the byte order asked for. *)
Definition numeric_bytes (n : nat) (v : Z) (little_endian : bool) : list Z :=
  if little_endian then le_bytes n v else rev (le_bytes n v).

Lemma length_le_bytes n v : length (le_bytes n v) = n.
Proof. unfold le_bytes. by rewrite length_map, length_seq. Qed.

Lemma length_numeric_bytes n v e : length (numeric_bytes n v e) = n.
Proof. unfold numeric_bytes. destruct e; by rewrite ?length_rev, length_le_bytes. Qed.

Lemma le_bytes_S n v : le_bytes (S n) v = u8 v :: le_bytes n (v / 256).
Proof.
  unfold le_bytes. simpl. f_equal. rewrite <- seq_shift, map_map. apply map_ext. intros i.
  unfold u8. rewrite !Z.shiftr_div_pow2 by lia. rewrite Z.div_div by lia.
  change 256 with (2 ^ 8). rewrite <- Z.pow_add_r by lia. do 2 f_equal. f_equal. lia.
Qed.

Lemma le_bytes_value bytes :
  Forall (fun b => 0 <= b < 256) bytes -> le_bytes (length bytes) (le_value bytes) = bytes.
Proof.
  induction 1 as [|b bytes Hb _ IH]; [done|]. simpl length. rewrite le_bytes_S. simpl le_value.
  f_equal.
  - unfold u8. rewrite <- (Z.mod_small b (2 ^ 8)) at 2 by lia.
    rewrite Z.mul_comm, Z.mod_add by lia. done.
  - rewrite Z.mul_comm, Z.div_add, Z.div_small by lia. simpl. done.
Qed.

Lemma le_value_bytes n v : le_value (le_bytes n v) = v mod 2 ^ (8 * Z.of_nat n).
Proof.
  revert v. induction n as [|n IH]; intros v.
  - simpl. by rewrite Z.mod_1_r.
  - rewrite le_bytes_S. simpl le_value. rewrite IH. unfold u8.
    replace (8 * Z.of_nat (S n)) with (8 + 8 * Z.of_nat n) by lia.
    rewrite Z.pow_add_r by lia. rewrite Z.rem_mul_r by lia. done.
Qed.

Lemma le_bytes_range n v : Forall (fun b => 0 <= b < 256) (le_bytes n v).
Proof.
  apply List.Forall_forall. intros b (i & <- & _)%in_map_iff. apply u8_range.
Qed.

Lemma le_bytes_mod n v k :
  8 * Z.of_nat n <= k -> le_bytes n (v mod 2 ^ k) = le_bytes n v.
Proof.
  intros Hk. apply map_ext_in. intros i Hi%in_seq. unfold u8.
  rewrite !Z.shiftr_div_pow2 by lia.
  apply Z.bits_inj'. intros j Hj.
  destruct (Z.lt_ge_cases j 8) as [Hlt|Hge].
  - rewrite !Z.mod_pow2_bits_low by lia. rewrite !Z.div_pow2_bits by lia.
    by rewrite Z.mod_pow2_bits_low by lia.
  - by rewrite !Z.mod_pow2_bits_high by lia.
Qed.

Lemma bswap_bytes n v : le_bytes n (bswap n v) = rev (le_bytes n v).
Proof.
  unfold bswap. rewrite <- (length_le_bytes n v) at 1. rewrite <- length_rev.
  apply le_bytes_value, List.Forall_rev, le_bytes_range.
Qed.

Lemma shifted_byte v s : u8 (Z.land (Z.shiftr v s) 255) = u8 (Z.shiftr v s).
Proof.
  change 255 with (Z.ones 8). rewrite Z.land_ones by lia. unfold u8. by rewrite Z.mod_mod by lia.
Qed.

Lemma write_numeric_bytes v len e :
  0 <= len <= 8 -> write_numeric v len e = Ok (numeric_bytes (Z.to_nat len) v e).
Proof.
  intros Hlen. unfold write_numeric, numeric_bytes.
  destruct (len =? 8) eqn:E8; bool_to_Z.
  { subst len. destruct e; simpl negb; cbv iota; f_equal. apply (bswap_bytes 8). }
  destruct (len =? 4) eqn:E4; bool_to_Z.
  { subst len. assert (H : le_bytes 4 (u32 v) = le_bytes 4 v) by (apply le_bytes_mod; done).
    destruct e; simpl negb; cbv iota; f_equal; [exact H|].
    rewrite bswap_bytes. by rewrite H. }
  assert (Hc : len = 0 \/ len = 1 \/ len = 2 \/ len = 3 \/ len = 5 \/ len = 6 \/ len = 7) by lia.
  repeat destruct Hc as [->|Hc]; try subst len; destruct e;
    cbv -[u8 Z.land Z.shiftr]; by rewrite ?shifted_byte.
Qed.

(** ** Appending to a prepared payload *)

(** [q] is [p] after [data] has been appended to [temps] within the capacity
    and [slices] to the slices. *)
Definition appended (p : PreparedPayload.t) (data : list Z)
    (slices : list PreparedPayload.slice) : PreparedPayload.t :=
  PreparedPayload.mk (PreparedPayload.temps p ++ data) (PreparedPayload.capacity p)
    (PreparedPayload.generation p) (PreparedPayload.packet_slices p ++ slices).

Lemma appended_nil p : appended p [] [] = p.
Proof. unfold appended. rewrite !app_nil_r. by destruct p. Qed.

Lemma appended_appended p d1 s1 d2 s2 :
  appended (appended p d1 s1) d2 s2 = appended p (d1 ++ d2) (s1 ++ s2).
Proof. unfold appended. simpl. by rewrite !app_assoc. Qed.

Lemma insert_numeric_spec p op v :
  0 <= PacketOperation.length op <= 8 ->
  Z.of_nat (length (PreparedPayload.temps p)) + PacketOperation.length op
  <= PreparedPayload.capacity p ->
  let n := Z.to_nat (PacketOperation.length op) in
  insert_numeric p op v =
  Ok (appended p (numeric_bytes n v (PacketOperation.little_endian op))
        [PreparedPayload.Temp (PreparedPayload.generation p)
           (Z.of_nat (length (PreparedPayload.temps p))) (PacketOperation.length op)]).
Proof.
  intros Hlen Hcap n. unfold insert_numeric. cbv zeta. rewrite write_numeric_bytes by done.
  fold n. cbn [obind]. set (b := numeric_bytes n v _).
  assert (Hb : length b = n) by apply length_numeric_bytes.
  unfold PreparedPayload.resize.
  destruct (_ >? PreparedPayload.capacity p) eqn:E; bool_to_Z; [lia|].
  unfold PreparedPayload.store. cbn [PreparedPayload.temps PreparedPayload.capacity
    PreparedPayload.generation PreparedPayload.packet_slices].
  rewrite length_app, length_replicate, Hb.
  replace (_ && _) with true.
  2: { symmetry. apply andb_true_iff. split; apply Z.leb_le; lia. }
  cbn [obind]. unfold appended, PreparedPayload.push_slice. cbn. do 2 f_equal.
  rewrite Nat2Z.id. rewrite <- (Nat.add_0_r (length (PreparedPayload.temps p))) at 1.
  rewrite list_inserts_app_r. f_equal.
  rewrite <- (app_nil_r (replicate _ _)), list_inserts_0_r by (rewrite length_replicate; lia).
  apply app_nil_r.
Qed.

(** Slices already there read the same bytes after an append. *)
Lemma read_slice_appended packet p d s sl b :
  PreparedPayload.read_slice packet p sl = Ok b ->
  PreparedPayload.read_slice packet (appended p d s) sl = Ok b.
Proof.
  unfold PreparedPayload.read_slice. destruct sl as [off len|g off len]; [done|].
  cbn [appended PreparedPayload.generation PreparedPayload.temps].
  destruct (Nat.eqb g (PreparedPayload.generation p)); [|done].
  rewrite length_app. intros H.
  match type of H with (if ?c then _ else _) = _ => destruct c eqn:E; [|done] end.
  bool_to_Z. replace (_ && _) with true.
  2: { symmetry. repeat (apply andb_true_iff; split); apply Z.leb_le; lia. }
  rewrite <- H. f_equal. rewrite drop_app_le by lia.
  rewrite take_app_le; [done|]. rewrite length_drop. lia.
Qed.

Lemma read_slices_appended packet p d s l b :
  PreparedPayload.read_slices packet p l = Ok b ->
  PreparedPayload.read_slices packet (appended p d s) l = Ok b.
Proof.
  revert b. induction l as [|sl l IH]; intros b H; [done|].
  cbn [PreparedPayload.read_slices] in *. inv_ok. subst b.
  rewrite (read_slice_appended _ _ _ _ _ _ Hm). cbn [obind]. by rewrite (IH _ Hm0).
Qed.

Lemma read_slices_app packet p l1 l2 b1 b2 :
  PreparedPayload.read_slices packet p l1 = Ok b1 ->
  PreparedPayload.read_slices packet p l2 = Ok b2 ->
  PreparedPayload.read_slices packet p (l1 ++ l2) = Ok (b1 ++ b2).
Proof.
  revert b1. induction l1 as [|s l1 IH]; intros b1 H1 H2.
  - by injection H1 as <-.
  - cbn [app PreparedPayload.read_slices] in *. inv_ok. subst b1. rewrite Hm. cbn [obind].
    rewrite (IH _ Hm0 H2). cbn [obind]. by rewrite app_assoc.
Qed.

(** One more slice: the bytes sent grow by its bytes. *)
Lemma sent_appended packet p d sl b b' :
  PreparedPayload.sent_bytes packet p = Ok b ->
  PreparedPayload.read_slice packet (appended p d [sl]) sl = Ok b' ->
  PreparedPayload.sent_bytes packet (appended p d [sl]) = Ok (b ++ b').
Proof.
  intros Hb Hs. unfold PreparedPayload.sent_bytes in *. cbn [appended PreparedPayload.packet_slices].
  apply read_slices_app; [by apply read_slices_appended|].
  cbn [PreparedPayload.read_slices]. rewrite Hs. cbn [obind]. by rewrite app_nil_r.
Qed.

Lemma read_new_temp packet p d len :
  len = Z.of_nat (length d) ->
  PreparedPayload.read_slice packet
    (appended p d [PreparedPayload.Temp (PreparedPayload.generation p)
                     (Z.of_nat (length (PreparedPayload.temps p))) len])
    (PreparedPayload.Temp (PreparedPayload.generation p)
       (Z.of_nat (length (PreparedPayload.temps p))) len) = Ok d.
Proof.
  intros ->. unfold PreparedPayload.read_slice. cbn. rewrite Nat.eqb_refl, length_app.
  replace (_ && _) with true.
  2: { symmetry. repeat (apply andb_true_iff; split); apply Z.leb_le; lia. }
  rewrite !Nat2Z.id, drop_app_length, take_ge; done.
Qed.
