(* ===== verification/PayloadProps.v ===== *)
(** * Properties of payloads

    The bytes a prepared payload sends, the counters after it, and the encoding
    of numbers. *)

From S2P Require Import Prelude Payload PayloadFacts.
Import PayloadManager.

(** ** What a payload is meant to send *)

Definition op_len (op : PacketOperation.t) : nat := Z.to_nat (PacketOperation.length op).

(** The bytes of the operations [ops], from the offset [off] of the packet on;
    [vals] are the values of the counters in their order. *)
Fixpoint ops_bytes (now : nat -> Z) (packet : list Z) (k : nat) (off : nat)
    (ops : list PacketOperation.t) (vals : list Z) : list Z :=
  match ops with
  | [] => []
  | op :: ops =>
      match PacketOperation.type op with
      | PacketOperationType.IDENTITY =>
          take (op_len op) (drop off packet)
          ++ ops_bytes now packet (S k) (off + op_len op) ops vals
      | PacketOperationType.COUNTER =>
          numeric_bytes (op_len op) (default 0 (head vals)) (PacketOperation.little_endian op)
          ++ ops_bytes now packet (S k) (off + op_len op) ops (tail vals)
      | PacketOperationType.TIMESTAMP =>
          numeric_bytes (op_len op) (timestamp_value (now k) (PacketOperation.time_format op))
            (PacketOperation.little_endian op)
          ++ ops_bytes now packet (S k) (off + op_len op) ops vals
      end
  end.

Definition is_counter (op : PacketOperation.t) : bool :=
  bool_decide (PacketOperation.type op = PacketOperationType.COUNTER).

Definition n_counters (ops : list PacketOperation.t) : nat :=
  length (List.filter is_counter ops).

Definition total_len (ops : list PacketOperation.t) : Z :=
  fold_right (fun op n => PacketOperation.length op + n) 0 ops.

Definition dynamic_len (ops : list PacketOperation.t) : Z :=
  fold_right (fun op n => (if is_identity op then 0 else PacketOperation.length op) + n) 0 ops.

(** Operations that stay inside a packet, with numbers of at most eight bytes. *)
Definition op_ok (op : PacketOperation.t) : Prop :=
  0 <= PacketOperation.length op < 2 ^ 32 /\
  (is_identity op = false -> PacketOperation.length op <= 8).

Definition descriptor_ok (d : PayloadDescriptor.t) : Prop :=
  Forall op_ok (PayloadDescriptor.ops d) /\
  total_len (PayloadDescriptor.ops d) <= Z.of_nat (length (PayloadDescriptor.packet_data d)) /\
  Z.of_nat (length (PayloadDescriptor.packet_data d)) < 2 ^ 64.

Definition advance (c : PayloadCounter.t) : PayloadCounter.t := (PayloadCounter.fetch_add c).2.

(** The counters after the ones from [i] on have been used [n] times in all. *)
Definition advance_from (i n : nat) (cs : list PayloadCounter.t) : list PayloadCounter.t :=
  take i cs ++ map advance (take n (drop i cs)) ++ drop (i + n) cs.

Lemma op_ok_total ops : Forall op_ok ops -> 0 <= dynamic_len ops <= total_len ops.
Proof.
  induction 1 as [|op ops [Ho _] _ IH]; simpl; [lia|]. destruct (is_identity op); lia.
Qed.

Lemma total_temp_spec ops :
  Forall op_ok ops -> total_len ops < 2 ^ 64 -> total_temp_bytes ops = dynamic_len ops.
Proof.
  intros Hok Hlt. unfold total_temp_bytes.
  enough (forall acc, 0 <= acc -> acc + total_len ops < 2 ^ 64 ->
    fold_left (fun total op => if negb (is_identity op)
                 then u64 (total + PacketOperation.length op) else total) ops acc
    = acc + dynamic_len ops) as H by (rewrite H; lia).
  clear Hlt. induction Hok as [|op ops [Ho _] Hok IH]; intros acc Ha Hlt; simpl in *; [lia|].
  pose proof (op_ok_total _ Hok). destruct (is_identity op); simpl; rewrite IH; try lia;
    rewrite u64_small; lia.
Qed.

Lemma advance_from_S i n cs c :
  cs !! i = Some c ->
  advance_from (S i) n (<[i := advance c]> cs) = advance_from i (S n) cs.
Proof.
  intros Hc. unfold advance_from.
  assert (Hi : (i < length cs)%nat) by (by eapply lookup_lt_Some).
  rewrite (take_S_r _ _ (advance c)) by (by apply list_lookup_insert_eq).
  rewrite take_insert_ge, !drop_insert_lt by lia.
  rewrite <- app_assoc. f_equal. rewrite (drop_S cs c i) by done. simpl.
  by rewrite Nat.add_succ_r.
Qed.

Lemma advance_from_0 cs i : (i <= length cs)%nat -> advance_from i 0 cs = cs.
Proof. intros Hi. unfold advance_from. simpl. by rewrite Nat.add_0_r, take_drop. Qed.

Section Fill.
Variables (now : nat -> Z) (packet : list Z).

(** How each kind of operation extends what is sent. *)
Definition extends (p q : PreparedPayload.t) (n : Z) (b bytes : list Z) : Prop :=
  PreparedPayload.sent_bytes packet q = Ok (b ++ bytes) /\
  PreparedPayload.capacity q = PreparedPayload.capacity p /\
  Z.of_nat (length (PreparedPayload.temps q)) = Z.of_nat (length (PreparedPayload.temps p)) + n.

Lemma static_extends p op off b :
  PreparedPayload.sent_bytes packet p = Ok b -> 0 <= PacketOperation.length op ->
  Z.of_nat off + PacketOperation.length op <= Z.of_nat (length packet) ->
  extends p
    (PreparedPayload.push_slice p
       (PreparedPayload.Static (Z.of_nat off) (PacketOperation.length op)))
    0 b (take (op_len op) (drop off packet)).
Proof.
  intros Hb Hl Hoff.
  assert (E : PreparedPayload.push_slice p
    (PreparedPayload.Static (Z.of_nat off) (PacketOperation.length op))
    = appended p [] [PreparedPayload.Static (Z.of_nat off) (PacketOperation.length op)]).
  { unfold appended. rewrite app_nil_r. done. }
  rewrite E. split; [|split; [done|cbn; rewrite app_nil_r; lia]].
  apply sent_appended; [done|]. unfold PreparedPayload.read_slice.
  replace (_ && _) with true.
  2: { symmetry. repeat (apply andb_true_iff; split); apply Z.leb_le; lia. }
  unfold op_len. by rewrite Nat2Z.id.
Qed.

Lemma numeric_extends p op v b :
  PreparedPayload.sent_bytes packet p = Ok b -> 0 <= PacketOperation.length op <= 8 ->
  Z.of_nat (length (PreparedPayload.temps p)) + PacketOperation.length op
  <= PreparedPayload.capacity p ->
  exists q, insert_numeric p op v = Ok q /\
    extends p q (PacketOperation.length op) b
      (numeric_bytes (op_len op) v (PacketOperation.little_endian op)).
Proof.
  intros Hb Hl Hcap. eexists. split; [by apply insert_numeric_spec|].
  split; [|split; [done|]].
  - apply sent_appended; [done|]. apply read_new_temp. rewrite length_numeric_bytes. unfold op_len. lia.
  - cbn. rewrite length_app, length_numeric_bytes. unfold op_len. lia.
Qed.

Lemma fill_ops_spec ops : forall k cs p off i b,
  Forall op_ok ops ->
  (i + n_counters ops <= length cs)%nat ->
  Z.of_nat off + total_len ops <= Z.of_nat (length packet) < 2 ^ 64 ->
  Z.of_nat (length (PreparedPayload.temps p)) + dynamic_len ops <= PreparedPayload.capacity p ->
  PreparedPayload.sent_bytes packet p = Ok b ->
  exists p',
    fill_ops now k ops cs p (Z.of_nat off) i
    = Ok (advance_from i (n_counters ops) cs, p') /\
    PreparedPayload.sent_bytes packet p'
    = Ok (b ++ ops_bytes now packet k off ops (map PayloadCounter.counter (drop i cs))).
Proof.
  induction ops as [|op ops IH]; intros k cs p off i b Hok Hi Hoff Hcap Hb.
  { exists p. unfold n_counters in *. simpl in *. rewrite advance_from_0 by lia.
    by rewrite app_nil_r. }
  apply List.Forall_cons_iff in Hok as [[Hlen H8] Hok].
  pose proof (op_ok_total _ Hok) as Htot.
  cbn [total_len dynamic_len fold_right] in Hoff, Hcap.
  fold (total_len ops) in Hoff. fold (dynamic_len ops) in Hcap.
  assert (Hn : u64 (Z.of_nat off + PacketOperation.length op) = Z.of_nat (off + op_len op)).
  { unfold op_len. rewrite u64_small; lia. }
  assert (Hoff' : Z.of_nat (off + op_len op) + total_len ops <= Z.of_nat (length packet) < 2 ^ 64)
    by (unfold op_len; lia).
  cbn [fill_ops ops_bytes]. rewrite Hn. unfold n_counters, is_identity in *.
  cbn [List.filter] in Hi |- *.
  change (is_counter op)
    with (bool_decide (PacketOperation.type op = PacketOperationType.COUNTER)) in *.
  destruct (PacketOperation.type op) eqn:Et; cbn [bool_decide decide] in *;
    simpl in H8, Hcap, Hi |- *.
  - destruct (static_extends p op off b Hb) as (Hs & Hc & Hl); [lia..|].
    remember (PreparedPayload.push_slice p _) as q eqn:Eq in *.
    destruct (IH (S k) cs q (off + op_len op)%nat i _ Hok ltac:(lia) Hoff' ltac:(lia) Hs)
      as (p' & Hp' & Hs').
    exists p'. split; [exact Hp'|]. by rewrite <- app_assoc in Hs'.
  - destruct (lookup_lt_is_Some_2 cs i ltac:(lia)) as [c Hc]. rewrite Hc.
    unfold PayloadCounter.fetch_add. cbv beta iota.
    destruct (numeric_extends p op (PayloadCounter.counter c) b Hb) as (q & -> & Hs & Hq & Hl);
      [specialize (H8 eq_refl); lia | lia |].
    cbn [obind]. rewrite (drop_S cs c i Hc). cbn [map head tail default].
    destruct (IH (S k) (<[i := advance c]> cs) q (off + op_len op)%nat (S i) _ Hok
      ltac:(rewrite length_insert; lia) Hoff' ltac:(lia) Hs) as (p' & Hp' & Hs').
    exists p'. rewrite advance_from_S in Hp' by done. split; [exact Hp'|].
    rewrite drop_insert_lt in Hs' by lia. by rewrite <- app_assoc in Hs'.
  - destruct (numeric_extends p op (timestamp_value (now k) (PacketOperation.time_format op)) b Hb)
      as (q & -> & Hs & Hq & Hl); [specialize (H8 eq_refl); lia | lia |].
    cbn [obind]. destruct (IH (S k) cs q (off + op_len op)%nat i _ Hok
      ltac:(lia) Hoff' ltac:(lia) Hs) as (p' & Hp' & Hs').
    exists p'. split; [exact Hp'|]. by rewrite <- app_assoc in Hs'.
Qed.

Lemma reserve_spec p n :
  n <= PreparedPayload.capacity (PreparedPayload.reserve (PreparedPayload.clear p) n) /\
  PreparedPayload.temps (PreparedPayload.reserve (PreparedPayload.clear p) n) = [] /\
  PreparedPayload.sent_bytes packet (PreparedPayload.reserve (PreparedPayload.clear p) n) = Ok [].
Proof.
  unfold PreparedPayload.reserve, PreparedPayload.clear. cbn [PreparedPayload.capacity].
  destruct (n >? PreparedPayload.capacity p) eqn:E; bool_to_Z; cbn; split; (done || lia).
Qed.

Lemma fill_payload_spec m index p d cs :
  payloads_ m !! index = Some d -> PayloadDescriptor.packet_data d = packet ->
  counters_ m !! index = Some cs ->
  descriptor_ok d -> (n_counters (PayloadDescriptor.ops d) <= length cs)%nat ->
  exists p',
    fill_payload now m index p
    = Ok (true, p', mk (payloads_ m)
            (<[index := advance_from 0 (n_counters (PayloadDescriptor.ops d)) cs]> (counters_ m))) /\
    PreparedPayload.sent_bytes packet p'
    = Ok (ops_bytes now packet 0 0 (PayloadDescriptor.ops d) (map PayloadCounter.counter cs)).
Proof.
  intros Hd Hpk Hcs (Hok & Htot & Hmax) Hn. rewrite Hpk in *.
  unfold fill_payload. rewrite Hd, Hcs. cbv zeta. change (default [] (Some cs)) with cs.
  rewrite total_temp_spec by (done || lia).
  destruct (reserve_spec p (dynamic_len (PayloadDescriptor.ops d))) as (Hc & Ht & Hs).
  destruct (fill_ops_spec (PayloadDescriptor.ops d) 0 cs _ 0 0 [] Hok ltac:(lia)
    ltac:(lia) ltac:(rewrite Ht; simpl; lia) Hs) as (p' & Hp' & Hs').
  change (Z.of_nat 0) with 0 in Hp'. rewrite Hp'. cbn [obind]. by exists p'.
Qed.

End Fill.

(** ** The properties *)

(** C11: Filling a payload sends exactly the bytes its operations describe, the
    packet's own bytes and the current counters and times in between, whatever
    the buffers held before; no slice is left dangling, because the temporary
    bytes are reserved first; and each counter of the payload is used and
    stepped once, those of other payloads are not touched. *)
Theorem fill_payload_bytes now m index p d cs :
  payloads_ m !! index = Some d -> counters_ m !! index = Some cs ->
  descriptor_ok d -> (n_counters (PayloadDescriptor.ops d) <= length cs)%nat ->
  exists p' m',
    fill_payload now m index p = Ok (true, p', m') /\
    PreparedPayload.sent_bytes (PayloadDescriptor.packet_data d) p'
    = Ok (ops_bytes now (PayloadDescriptor.packet_data d) 0 0 (PayloadDescriptor.ops d)
            (map PayloadCounter.counter cs)) /\
    payloads_ m' = payloads_ m /\
    counters_ m' !! index = Some (advance_from 0 (n_counters (PayloadDescriptor.ops d)) cs) /\
    (forall j, j <> index -> counters_ m' !! j = counters_ m !! j).
Proof.
  intros Hd Hcs Hok Hn.
  destruct (fill_payload_spec now _ m index p d cs Hd eq_refl Hcs Hok Hn) as (p' & Hf & Hs).
  eexists p', _. split; [exact Hf|]. split; [exact Hs|]. split; [done|]. cbn. split.
  - apply list_lookup_insert_eq. by eapply lookup_lt_Some.
  - intros j Hj. by apply list_lookup_insert_ne.
Qed.

(** A number of up to eight bytes is written in the byte order asked for,
    whichever of the three paths of the code is taken, and reading the bytes
    back in that order gives the number modulo the width. *)
Theorem write_numeric_roundtrip v len little_endian :
  0 <= len <= 8 ->
  exists bytes,
    write_numeric v len little_endian = Ok bytes /\
    bytes = numeric_bytes (Z.to_nat len) v little_endian /\
    le_value (if little_endian then bytes else rev bytes) = v mod 2 ^ (8 * len).
Proof.
  intros Hl. eexists. split; [by apply write_numeric_bytes|]. split; [done|].
  replace (8 * len) with (8 * Z.of_nat (Z.to_nat len)) by lia. rewrite <- le_value_bytes.
  unfold numeric_bytes. destruct little_endian; by rewrite ?rev_involutive.
Qed.

(** ** The values of the counters over time *)

(** One fill of the same payload after the other, each at its own times. *)
Fixpoint fill_many (nows : list (nat -> Z)) (m : t) (index : nat) (p : PreparedPayload.t)
  : outcome (PreparedPayload.t * t) :=
  match nows with
  | [] => Ok (p, m)
  | now :: nows =>
      let! (_, p, m) := fill_payload now m index p in
      fill_many nows m index p
  end.

(** A counter with a step after [n] uses. *)
Definition counter_after (n : nat) (s : Z) : PayloadCounter.t :=
  PayloadCounter.mk (u64 (Z.of_nat n * s)) s.

Lemma advance_after n s : advance (counter_after n s) = counter_after (S n) s.
Proof.
  unfold advance, counter_after, PayloadCounter.fetch_add. cbn. f_equal.
  unfold u64. rewrite Zplus_mod_idemp_l. f_equal. lia.
Qed.

Lemma advance_all n ss :
  advance_from 0 (length ss) (map (counter_after n) ss) = map (counter_after (S n)) ss.
Proof.
  unfold advance_from. rewrite take_0, drop_0. cbn [app Nat.add].
  rewrite take_ge, drop_ge by (rewrite length_map; lia). rewrite app_nil_r, map_map.
  apply map_ext. apply advance_after.
Qed.

Lemma init_counters payloads steps index ss :
  (index < length payloads)%nat -> steps !! index = Some ss ->
  counters_ (init payloads steps) !! index = Some (map (counter_after 0) ss).
Proof.
  intros Hi Hs. unfold init. cbn [counters_].
  assert (Hl : forall l : list (list Z), l !! index = Some ss ->
    map make_counters (take (length payloads) l) !! index = Some (map (counter_after 0) ss)).
  { intros l Hl. rewrite list_lookup_fmap, lookup_take_lt, Hl by done. done. }
  destruct (Nat.ltb _ _); apply Hl; [|done].
  unfold pad_steps. rewrite lookup_app_l; [done|]. by eapply lookup_lt_Some.
Qed.

Lemma fill_many_spec nows : forall n m index p d ss,
  payloads_ m !! index = Some d -> descriptor_ok d ->
  counters_ m !! index = Some (map (counter_after n) ss) ->
  n_counters (PayloadDescriptor.ops d) = length ss ->
  exists p' m', fill_many nows m index p = Ok (p', m') /\ payloads_ m' = payloads_ m /\
    counters_ m' !! index = Some (map (counter_after (length nows + n)) ss).
Proof.
  induction nows as [|now nows IH]; intros n m index p d ss Hd Hok Hcs Hn; [by exists p, m|].
  destruct (fill_payload_spec now _ m index p d _ Hd eq_refl Hcs Hok) as (p1 & Hf & _).
  { rewrite Hn, length_map. done. }
  cbn [fill_many]. rewrite Hf. cbn [obind]. rewrite Hn, advance_all.
  set (m1 := mk _ _). destruct (IH (S n) m1 index p1 d ss) as (p' & m' & Hr & Hp & Hc); try done.
  { apply list_lookup_insert_eq. by eapply lookup_lt_Some. }
  exists p', m'. split; [exact Hr|]. split; [done|]. simpl.
  by rewrite Nat.add_succ_r in Hc.
Qed.

Lemma fill_after_uses payloads steps index d ss nows now p :
  payloads !! index = Some d -> steps !! index = Some ss -> descriptor_ok d ->
  n_counters (PayloadDescriptor.ops d) = length ss ->
  exists p1 m1 p2 m2,
    fill_many nows (init payloads steps) index p = Ok (p1, m1) /\
    fill_payload now m1 index p1 = Ok (true, p2, m2) /\
    PreparedPayload.sent_bytes (PayloadDescriptor.packet_data d) p2
    = Ok (ops_bytes now (PayloadDescriptor.packet_data d) 0 0 (PayloadDescriptor.ops d)
            (map (fun s => u64 (Z.of_nat (length nows) * s)) ss)).
Proof.
  intros Hd Hs Hok Hn.
  assert (Hi : (index < length payloads)%nat) by (by eapply lookup_lt_Some).
  destruct (fill_many_spec nows 0 (init payloads steps) index p d ss) as (p1 & m1 & H1 & Hp & Hc);
    [done | done | by apply init_counters | done |].
  rewrite Nat.add_0_r in Hc.
  destruct (fill_payload_spec now _ m1 index p1 d _ ltac:(by rewrite Hp) eq_refl Hc Hok)
    as (p2 & H2 & Hs2). { rewrite Hn, length_map. done. }
  rewrite map_map in Hs2. eexists p1, m1, p2, _. done.
Qed.

(** The counters of a payload count its uses: after it has been filled [n]
    times, at whatever times and with whatever buffers, the next fill sends
    [n] times its step for each of them, modulo 2^64, and the bytes of the
    packet around them. *)
Theorem counter_sequence payloads steps index d ss nows now p :
  payloads !! index = Some d -> steps !! index = Some ss -> descriptor_ok d ->
  n_counters (PayloadDescriptor.ops d) = length ss ->
  exists p1 m1 p2 m2,
    fill_many nows (init payloads steps) index p = Ok (p1, m1) /\
    fill_payload now m1 index p1 = Ok (true, p2, m2) /\
    PreparedPayload.sent_bytes (PayloadDescriptor.packet_data d) p2
    = Ok (ops_bytes now (PayloadDescriptor.packet_data d) 0 0 (PayloadDescriptor.ops d)
            (map (fun s => u64 (Z.of_nat (length nows) * s)) ss)).
Proof. apply fill_after_uses. Qed.

(** ** Witnesses *)

Definition sample_descriptor : PayloadDescriptor.t :=
  PayloadDescriptor.mk [10; 11; 12; 13; 14; 15; 16; 17]
    [ PacketOperation.make_identity 1; PacketOperation.make_counter 2 false;
      PacketOperation.make_identity 1;
      PacketOperation.make_timestamp 3 true TimestampFormat.Seconds;
      PacketOperation.make_identity 1 ].

Lemma sample_descriptor_ok : descriptor_ok sample_descriptor.
Proof.
  split; [|closed_Z]. repeat apply List.Forall_cons; try apply List.Forall_nil;
    (split; [closed_Z|]); (intros [=]; fail) || (intros _; closed_Z).
Qed.

Definition sample_now (k : nat) : Z := 1700000000123456789.

Lemma fill_payload_bytes_witness :
  exists p' m',
    fill_payload sample_now (init [sample_descriptor] [[300]]) 0 PreparedPayload.init
    = Ok (true, p', m') /\
    PreparedPayload.sent_bytes (PayloadDescriptor.packet_data sample_descriptor) p'
    = Ok [10; 0; 0; 13; 0; 241; 83; 17].
Proof.
  destruct (fill_payload_bytes sample_now (init [sample_descriptor] [[300]]) 0
    PreparedPayload.init sample_descriptor [PayloadCounter.mk 0 300])
    as (p' & m' & Hf & Hs & _).
  - reflexivity.
  - reflexivity.
  - apply sample_descriptor_ok.
  - vm_compute. lia.
  - exists p', m'. split; [exact Hf|]. rewrite Hs. vm_compute. reflexivity.
Defined.

Lemma write_numeric_roundtrip_witness :
  exists bytes, write_numeric 258 3 false = Ok bytes /\ bytes = [0; 1; 2].
Proof.
  destruct (write_numeric_roundtrip 258 3 false) as (b & Hb & Hn & _); [lia|].
  exists b. split; [exact Hb|]. rewrite Hn. vm_compute. reflexivity.
Defined.

Lemma counter_sequence_witness :
  exists p1 m1 p2 m2,
    fill_many [sample_now; sample_now; sample_now] (init [sample_descriptor] [[300]]) 0
      PreparedPayload.init = Ok (p1, m1) /\
    fill_payload sample_now m1 0 p1 = Ok (true, p2, m2) /\
    PreparedPayload.sent_bytes (PayloadDescriptor.packet_data sample_descriptor) p2
    = Ok [10; 3; 132; 13; 0; 241; 83; 17].
Proof.
  destruct (counter_sequence [sample_descriptor] [[300]] 0 sample_descriptor [300]
    [sample_now; sample_now; sample_now] sample_now PreparedPayload.init)
    as (p1 & m1 & p2 & m2 & H1 & H2 & H3).
  - reflexivity.
  - reflexivity.
  - apply sample_descriptor_ok.
  - reflexivity.
  - exists p1, m1, p2, m2. split; [exact H1|]. split; [exact H2|].
    rewrite H3. vm_compute. reflexivity.
Defined.
