(* ===== verification/ExecutionPlan.v ===== *)
(** * The execution plan (src/cli/execution-plan.{h,cpp}, action-descriptor.h)

    From a validated script to what the orchestrator runs: the packets are read
    into memory, every SEND becomes payload descriptors with their counter
    steps, every action an [ActionDescriptor] at its time.

    Parameters, for code not under src/: the system and the hash table order,
    whether an allocation succeeds, the compiler of WASM modules and the name
    resolver of boost. *)

From S2P Require Import Prelude Script Resolver Interpreter Payload.

(** [struct ActionDescriptor] *)
Module ActionDescriptor.
Record t : Type := mk {
  type : ActionType.t;
  sessions_start : Z;
  sessions_end : Z;
  count : Z;
  offset : Z
}.

(** [ActionDescriptor desc;]: [garbage] is what the members hold. *)
Definition fresh (garbage : Z) : t := mk ActionType.CREATE garbage garbage garbage 0.

Definition make_create (start end_ offset_ms : Z) : t :=
  mk ActionType.CREATE start end_ (u32 (end_ - start)) offset_ms.
Definition make_connect (d : t) (start end_ offset_ms : Z) : t :=
  mk ActionType.CONNECT start end_ (count d) offset_ms.
Definition make_send (start end_ send_count offset_ms : Z) : t :=
  mk ActionType.SEND start end_ send_count offset_ms.
Definition make_flood (d : t) (start end_ offset_ms : Z) : t :=
  mk ActionType.FLOOD start end_ (count d) offset_ms.
Definition make_drain (start end_ timeout offset_ms : Z) : t :=
  mk ActionType.DRAIN start end_ timeout offset_ms.
Definition make_disconnect (d : t) (start end_ offset_ms : Z) : t :=
  mk ActionType.DISCONNECT start end_ (count d) offset_ms.

Definition type_to_string (d : t) : string :=
  match type d with
  | ActionType.CREATE => "CREATE"
  | ActionType.CONNECT => "CONNECT"
  | ActionType.SEND => "SEND"
  | ActionType.FLOOD => "FLOOD"
  | ActionType.DRAIN => "DRAIN"
  | ActionType.DISCONNECT => "DISCONNECT"
  end.
End ActionDescriptor.

(** [struct SessionConfig]; the sizes are [size_t], the rate [uint32_t]. *)
Module SessionConfig.
Record t : Type := mk {
  header_size : Z;
  payload_size_limit : Z;
  read_messages : bool;
  loop_payloads : bool;
  packet_sample_rate : Z
}.
End SessionConfig.

(** An endpoint as asio shows it. *)
Module Endpoint.
Record t : Type := mk { address : string; port : Z }.

#[global] Instance eq_dec : EqDecision t.
Proof. solve_decision. Defined.
End Endpoint.

Module ExecutionPlan.

(** [ts_format_lookup] *)
Definition ts_format_lookup (name : string) : option TimestampFormat.t :=
  if String.eqb name "seconds" then Some TimestampFormat.Seconds
  else if String.eqb name "milliseconds" then Some TimestampFormat.Milliseconds
  else if String.eqb name "microseconds" then Some TimestampFormat.Microseconds
  else if String.eqb name "nanoseconds" then Some TimestampFormat.Nanoseconds
  else None.

(** The message handler factories, by what they were built from; [NoFactory] is
    the empty [std::function] left when no case applies. *)
Inductive factory (wasm_module : Type) : Type :=
| NoFactory
| NOPFactory
| WASMFactory (m : wasm_module).

Arguments NoFactory {wasm_module}.
Arguments NOPFactory {wasm_module}.
Arguments WASMFactory {wasm_module} m.

(** [OrchestratorConfig] with the endpoints of its [HostInfo]: a list for TCP,
    one endpoint for UDP. *)
Record config (endpoints wasm_module : Type) : Type := mk_config {
  session_config : SessionConfig.t;
  host_info : endpoints;
  handler_factory_ : factory wasm_module;
  shard_count : Z
}.

Arguments mk_config {endpoints wasm_module}.
Arguments session_config {endpoints wasm_module}.
Arguments host_info {endpoints wasm_module}.
Arguments handler_factory_ {endpoints wasm_module}.
Arguments shard_count {endpoints wasm_module}.

(** What [generate_plan_common] accumulates of the plan. *)
Record work : Type := mk_work {
  actions : list ActionDescriptor.t;
  payloads : list PayloadDescriptor.t;
  counter_steps : list (list Z);
  packet_data : list (list Z)
}.

(** The maps of the packet loop: identifier to index, and the paths read. *)
Record packet_maps : Type := mk_maps {
  identity_map : gmap string nat;
  all_packets : list string
}.

(** The operations of one payload while they are built. *)
Record building : Type := mk_building {
  ops : list PacketOperation.t;
  counter_list : list Z;
  c_idx : nat;
  ts_idx : nat;
  data_index : Z
}.

Definition building_init : building := mk_building [] [] 0 0 0.

(** The static bytes up to [start]: the difference is taken in [size_t]. *)
Definition push_gap (b : building) (start : Z) : building :=
  let prev_bytes := u64 (start - data_index b) in
  if prev_bytes >? 0 then
    mk_building (ops b ++ [PacketOperation.make_identity prev_bytes]) (counter_list b)
      (c_idx b) (ts_idx b) (u64 (data_index b + prev_bytes))
  else b.

Definition push_counter_op (b : building) (c_mod : CounterModification.t) : building :=
  let bytes := CounterModification.counter_bytes c_mod in
  let b := push_gap b (Range.start bytes) in
  mk_building
    (ops b ++ [PacketOperation.make_counter (Range.second bytes)
                 (CounterModification.little_endian c_mod)])
    (counter_list b ++ [u16 (CounterModification.counter_step c_mod)])
    (S (c_idx b)) (ts_idx b) (u64 (data_index b + Range.second bytes)).

Definition push_timestamp_op (b : building) (ts_mod : TimestampModification.t)
  : outcome building :=
  let bytes := TimestampModification.timestamp_bytes ts_mod in
  let b := push_gap b (Range.start bytes) in
  match ts_format_lookup (TimestampModification.format_name ts_mod) with
  | None =>
      Err ("Failed to resolve timestamp format for value "
           +:+ TimestampModification.format_name ts_mod
           +:+ " (this should have been caught by the DSL validator)")
  | Some ts_format =>
      Ok (mk_building
            (ops b ++ [PacketOperation.make_timestamp (Range.second bytes)
                         (TimestampModification.little_endian ts_mod) ts_format])
            (counter_list b) (c_idx b) (S (ts_idx b))
            (u64 (data_index b + Range.second bytes)))
  end.

(** The loop over [mod_order]. *)
Fixpoint build_mods (action : Action.t) (order : list ModificationType.t) (b : building)
  : outcome building :=
  match order with
  | [] => Ok b
  | ModificationType.Counter :: order =>
      match Action.counter_mods action !! c_idx b with
      | None => Undef
      | Some c_mod => build_mods action order (push_counter_op b c_mod)
      end
  | ModificationType.Timestamp :: order =>
      match Action.timestamp_mods action !! ts_idx b with
      | None => Undef
      | Some ts_mod =>
          let! b := push_timestamp_op b ts_mod in
          build_mods action order b
      end
  end.

(** The operations of the payload of an action over the packet [buf], and its
    counter steps. *)
Definition build_payload (action : Action.t) (buf : list Z)
  : outcome (PayloadDescriptor.t * list Z) :=
  let size := Z.of_nat (length buf) in
  match Action.mod_order action with
  | [] => Ok (PayloadDescriptor.mk buf [PacketOperation.make_identity size], [])
  | order =>
      let! b := build_mods action order building_init in
      let ops :=
        if data_index b <? size
        then ops b ++ [PacketOperation.make_identity (size - data_index b)] else ops b in
      Ok (PayloadDescriptor.mk buf ops, counter_list b)
  end.

Section Plan.
Context `{System} `{HashOrder} (global_options : Resolver.options).
Variable can_allocate : Z -> bool.

(** One iteration of the loop over the packets of the settings. *)
Definition read_packet (identifier filename : string) (maps : packet_maps)
    (packets : list (list Z)) : outcome (packet_maps * list (list Z)) :=
  let '(path, error_str) := Resolver.resolve_file global_options filename in
  if negb (String.eqb error_str EmptyString) then
    Err ("Failed to resolve " +:+ filename +:+ " (got error: " +:+ error_str +:+ ")")
  else if str_mem path (all_packets maps) then
    match identity_map maps !! filename with
    | None =>
        Err ("Application identified a packet as a duplicate but no memory "
             +:+ "was allocated. This is an error with the application code.")
    | Some dupe =>
        Ok (mk_maps (<[identifier := dupe]> (identity_map maps)) (all_packets maps), packets)
    end
  else
    let all_packets := path :: all_packets maps in
    let this_index := length packets in
    let file_size := Resolver.get_file_size path in
    if file_size =? 0 then Err ("File " +:+ path +:+ " has zero bytes to read!")
    else if file_size >? Resolver.SIZE_MAX then
      Err ("File " +:+ path
           +:+ " is too large for your platform's memory (exceeds size_t)")
    else if negb (can_allocate file_size) then
      Err ("Failed to allocate memory (" +:+ to_string file_size
           +:+ " bytes) for packet file " +:+ path)
    else
      match Resolver.read_bytes_to_contiguous path file_size with
      | inr error_msg =>
          Err ("Failed to read data for packet " +:+ path +:+ " (got error: "
               +:+ error_msg +:+ ")")
      | inl buf =>
          Ok (mk_maps (<[identifier := this_index]> (identity_map maps)) all_packets,
              packets ++ [buf])
      end.

Fixpoint read_packets (l : list (string * string)) (maps : packet_maps)
    (packets : list (list Z)) : outcome (packet_maps * list (list Z)) :=
  match l with
  | [] => Ok (maps, packets)
  | (identifier, filename) :: l =>
      let! (maps, packets) := read_packet identifier filename maps packets in
      read_packets l maps packets
  end.

(** The SEND case: [action.count] copies of its payload and steps. *)
Definition plan_send (maps : packet_maps) (action : Action.t) (curr_offset : Z) (w : work)
  : outcome (ActionDescriptor.t * work) :=
  let range := Action.range action in
  let desc :=
    ActionDescriptor.make_send (Range.start range) (Range.second range)
      (Action.count action) (u32 curr_offset) in
  match identity_map maps !! Action.packet_identifier action with
  | None =>
      Err ("Failed to map packet identity " +:+ Action.packet_identifier action
           +:+ " to a read packet. This could be an error with the application.")
  | Some p_index =>
      match packet_data w !! p_index with
      | None => Undef
      | Some buf =>
          let! (payload, counters) := build_payload action buf in
          let copies := Z.to_nat (Action.count action) in
          Ok (desc, mk_work (actions w) (payloads w ++ replicate copies payload)
                      (counter_steps w ++ replicate copies counters) (packet_data w))
      end
  end.

Definition plan_action (garbage : Z) (maps : packet_maps) (action : Action.t)
    (curr_offset : Z) (w : work) : outcome (ActionDescriptor.t * work) :=
  let desc := ActionDescriptor.fresh garbage in
  let start := Range.start (Action.range action) in
  let second := Range.second (Action.range action) in
  let at_ := u32 curr_offset in
  match Action.type action with
  | ActionType.CREATE => Ok (ActionDescriptor.make_create 0 second at_, w)
  | ActionType.CONNECT => Ok (ActionDescriptor.make_connect desc start second at_, w)
  | ActionType.SEND => plan_send maps action curr_offset w
  | ActionType.FLOOD => Ok (ActionDescriptor.make_flood desc start second at_, w)
  | ActionType.DRAIN =>
      Ok (ActionDescriptor.make_drain start second (Action.count action) at_, w)
  | ActionType.DISCONNECT => Ok (ActionDescriptor.make_disconnect desc start second at_, w)
  end.

Fixpoint plan_actions (garbage : Z) (maps : packet_maps) (l : list Action.t)
    (curr_offset : Z) (w : work) : outcome work :=
  match l with
  | [] => Ok w
  | action :: l =>
      let curr_offset := u64 (curr_offset + Action.offset_ms action) in
      let! (desc, w) := plan_action garbage maps action curr_offset w in
      plan_actions garbage maps l curr_offset
        (mk_work (actions w ++ [desc]) (payloads w) (counter_steps w) (packet_data w))
  end.

(** The packets and the actions of [generate_plan_common]; its configuration
    is [plan_config]. *)
Definition generate_plan_common (garbage : Z) (script : DSLData.t) : outcome work :=
  let settings := DSLData.settings script in
  let! (maps, packets) :=
    read_packets (hash_order (Settings.packet_identifiers settings)) (mk_maps ∅ []) [] in
  plan_actions garbage maps (Orchestrator_block.actions (DSLData.orchestrator script)) 0
    (mk_work [] [] [] packets).

(** ** Configuration *)

Context {wasm_module : Type} (compile : list Z -> option wasm_module).

Definition plan_config {endpoints : Type} (settings : Settings.t) (hosts : endpoints)
    (f : factory wasm_module) : config endpoints wasm_module :=
  mk_config
    (SessionConfig.mk (Settings.header_size settings) (Settings.body_max settings)
       (Settings.read settings) (Settings.repeat settings)
       (u32 (Settings.packet_sample_rate settings)))
    hosts f (Settings.shards settings).

Definition make_factory (settings : Settings.t) : outcome (factory wasm_module) :=
  if negb (Settings.read settings) || String.eqb (Settings.handler_value settings) "NOP"
  then Ok NOPFactory
  else if ends_with (Settings.handler_value settings) ".wasm" then
    let '(path, error_msg) :=
      Resolver.resolve_file global_options (Settings.handler_value settings) in
    if negb (String.eqb error_msg EmptyString) then Err error_msg
    else
      let '(wasm_bytes, error_msg) := Resolver.read_binary_file path in
      if negb (String.eqb error_msg EmptyString) then Err error_msg
      else
        match compile wasm_bytes with
        | None => Err ("Failed to compile WASM module for file " +:+ path)
        | Some m => Ok (WASMFactory m)
        end
  else Ok NoFactory.

(** The resolver of asio: the entries found, none on an error. *)
Variable resolve_host : string -> string -> list Endpoint.t.

(** Append the entries that are not there yet. *)
Fixpoint add_endpoints (entries found : list Endpoint.t) : list Endpoint.t :=
  match entries with
  | [] => found
  | entry :: entries =>
      if bool_decide (entry ∈ found) then add_endpoints entries found
      else add_endpoints entries (found ++ [entry])
  end.

Definition tcp_endpoints (settings : Settings.t) : list Endpoint.t :=
  fold_left
    (fun found endpoint =>
       add_endpoints (resolve_host endpoint (to_string (Settings.port settings))) found)
    (Settings.endpoints settings) [].

(** [generate_execution_plan<TCPSession>] *)
Definition generate_tcp_plan (garbage : Z) (script : DSLData.t)
  : outcome (work * config (list Endpoint.t) wasm_module) :=
  let settings := DSLData.settings script in
  let! f := make_factory settings in
  match tcp_endpoints settings with
  | [] => Err "No endpoints could be resolved!"
  | endpoints =>
      let! w := generate_plan_common garbage script in
      Ok (w, plan_config settings endpoints f)
  end.

(** [udp::endpoint()] *)
Definition any_endpoint : Endpoint.t := Endpoint.mk "0.0.0.0" 0.

(** Every entry overwrites the one before. *)
Definition udp_endpoint (settings : Settings.t) : Endpoint.t :=
  fold_left
    (fun found endpoint =>
       fold_left (fun _ entry => entry)
         (resolve_host endpoint (to_string (Settings.port settings))) found)
    (Settings.endpoints settings) any_endpoint.

Definition MAX_DATAGRAM_SIZE : Z := 65535 - 8.

(** [generate_execution_plan<UDPSession>]; the warning about large payloads
    changes nothing. *)
Definition generate_udp_plan (garbage : Z) (script : DSLData.t)
  : outcome (work * config Endpoint.t wasm_module) :=
  let settings := DSLData.settings script in
  let! f := make_factory settings in
  let endpoint := udp_endpoint settings in
  if bool_decide (endpoint = any_endpoint) then Err "No endpoints could be resolved!"
  else
    let! w := generate_plan_common garbage script in
    if existsb (fun payload =>
                  Z.of_nat (length (PayloadDescriptor.packet_data payload))
                  >? MAX_DATAGRAM_SIZE) (payloads w)
    then Err ("Payload detected with size greater than the UDP maximum! ("
              +:+ to_string MAX_DATAGRAM_SIZE +:+ " bytes)")
    else Ok (w, plan_config settings endpoint f).

End Plan.

(** [dump_endpoint_list] *)
Definition dump_endpoint (ep : Endpoint.t) : string :=
  "  - " +:+ Endpoint.address ep +:+ ":" +:+ to_string (Endpoint.port ep)
  +:+ char_string NEWLINE.

Definition dump_tcp_endpoint_list (endpoints : list Endpoint.t) : string :=
  fold_left (fun endpoint_list ep => endpoint_list +:+ dump_endpoint ep) endpoints
    EmptyString.

Definition dump_udp_endpoint_list (ep : Endpoint.t) : string := dump_endpoint ep.

End ExecutionPlan.
