(* ===== verification/ExecutionPlanFacts.v ===== *)
(** * Facts about the execution plan

    The operations built for a SEND whose modifications come in increasing
    order, and what they send: the packet with the modifications written over
    it.  For modifications in any order, the operations that copy more than the
    packet has. *)

From S2P Require Import Prelude Script ParserProps Payload PayloadFacts PayloadProps.
From S2P Require Import Resolver Interpreter ExecutionPlan.
Import ExecutionPlan.

(** ** Modifications in their order *)

Inductive modification : Type :=
| CounterMod (c : CounterModification.t)
| TimestampMod (m : TimestampModification.t).

Definition mod_range (m : modification) : Range.t :=
  match m with
  | CounterMod c => CounterModification.counter_bytes c
  | TimestampMod t => TimestampModification.timestamp_bytes t
  end.

Definition mod_start (m : modification) : Z := Range.start (mod_range m).
Definition mod_len (m : modification) : Z := Range.second (mod_range m).

Definition is_counter_mod (m : modification) : bool :=
  match m with CounterMod _ => true | TimestampMod _ => false end.

Definition format_of (t : TimestampModification.t) : TimestampFormat.t :=
  default TimestampFormat.Seconds (ts_format_lookup (TimestampModification.format_name t)).

(** The operation of a modification. *)
Definition mod_op (m : modification) : PacketOperation.t :=
  match m with
  | CounterMod c =>
      PacketOperation.make_counter (mod_len m) (CounterModification.little_endian c)
  | TimestampMod t =>
      PacketOperation.make_timestamp (mod_len m) (TimestampModification.little_endian t)
        (format_of t)
  end.

Fixpoint in_order (order : list ModificationType.t) (cs : list CounterModification.t)
    (ts : list TimestampModification.t) : list modification :=
  match order, cs, ts with
  | ModificationType.Counter :: order, c :: cs, ts => CounterMod c :: in_order order cs ts
  | ModificationType.Timestamp :: order, cs, t :: ts => TimestampMod t :: in_order order cs ts
  | _, _, _ => []
  end.

Definition action_mods (a : Action.t) : list modification :=
  in_order (Action.mod_order a) (Action.counter_mods a) (Action.timestamp_mods a).

(** Modifications that come one after the other from the offset [from] on. *)
Fixpoint increasing (from : Z) (l : list modification) (size : Z) : Prop :=
  match l with
  | [] => from <= size
  | m :: l => from <= mod_start m /\ 0 <= mod_len m <= 8 /\
              increasing (mod_start m + mod_len m) l size
  end.

Definition formats_known (l : list modification) : Prop :=
  Forall (fun m => match m with
                   | TimestampMod t => ts_format_lookup (TimestampModification.format_name t) <> None
                   | CounterMod _ => True
                   end) l.

(** ** The operations *)

Definition gap (from start : Z) : list PacketOperation.t :=
  if start - from >? 0 then [PacketOperation.make_identity (start - from)] else [].

(** The operations of the modifications [l] from the offset [from] on. *)
Fixpoint layout_ops (from : Z) (l : list modification) (size : Z) : list PacketOperation.t :=
  match l with
  | [] => gap from size
  | m :: l =>
      gap from (mod_start m) ++ [mod_op m] ++ layout_ops (mod_start m + mod_len m) l size
  end.

Definition steps_of (l : list modification) : list Z :=
  flat_map (fun m => match m with
                     | CounterMod c => [u16 (CounterModification.counter_step c)]
                     | TimestampMod _ => []
                     end) l.

Lemma increasing_le from l size : increasing from l size -> from <= size.
Proof.
  revert from. induction l as [|m l IH]; intros from; simpl; [done|].
  intros (H1 & H2 & H3%IH). lia.
Qed.

Lemma push_gap_spec b start :
  0 <= data_index b <= start -> start < 2 ^ 64 ->
  push_gap b start
  = mk_building (ops b ++ gap (data_index b) start) (counter_list b) (c_idx b) (ts_idx b) start.
Proof.
  intros Hb Hs. unfold push_gap, gap. cbv zeta. rewrite (u64_small (start - _)) by lia.
  destruct (start - data_index b >? 0) eqn:E; bool_to_Z.
  - f_equal. rewrite u64_small; lia.
  - rewrite app_nil_r. destruct b as [o cl c t d]. simpl in *. f_equal. lia.
Qed.

(** The builder after the modification [m] from the offset [start] on. *)
Definition pushed (b : building) (m : modification) : building :=
  mk_building (ops b ++ gap (data_index b) (mod_start m) ++ [mod_op m])
    (counter_list b ++ steps_of [m])
    (if is_counter_mod m then S (c_idx b) else c_idx b)
    (if is_counter_mod m then ts_idx b else S (ts_idx b))
    (mod_start m + mod_len m).

Lemma push_counter_spec b c size :
  0 <= data_index b -> data_index b <= mod_start (CounterMod c) ->
  0 <= mod_len (CounterMod c) ->
  mod_start (CounterMod c) + mod_len (CounterMod c) <= size < 2 ^ 64 ->
  push_counter_op b c = pushed b (CounterMod c).
Proof.
  intros H0 H1 H2 H3. unfold push_counter_op. cbv zeta.
  change (Range.start (CounterModification.counter_bytes c)) with (mod_start (CounterMod c)).
  change (Range.second (CounterModification.counter_bytes c)) with (mod_len (CounterMod c)).
  rewrite push_gap_spec by lia. cbn [ops counter_list c_idx ts_idx data_index].
  rewrite u64_small by lia. unfold pushed. cbn [is_counter_mod steps_of flat_map app].
  by rewrite app_assoc.
Qed.

Lemma push_timestamp_spec b t size :
  0 <= data_index b -> data_index b <= mod_start (TimestampMod t) ->
  0 <= mod_len (TimestampMod t) ->
  mod_start (TimestampMod t) + mod_len (TimestampMod t) <= size < 2 ^ 64 ->
  ts_format_lookup (TimestampModification.format_name t) <> None ->
  push_timestamp_op b t = Ok (pushed b (TimestampMod t)).
Proof.
  intros H0 H1 H2 H3 Hf. unfold push_timestamp_op. cbv zeta.
  change (Range.start (TimestampModification.timestamp_bytes t)) with (mod_start (TimestampMod t)).
  change (Range.second (TimestampModification.timestamp_bytes t)) with (mod_len (TimestampMod t)).
  rewrite push_gap_spec by lia. cbn [ops counter_list c_idx ts_idx data_index].
  unfold pushed, mod_op, format_of. cbn [is_counter_mod steps_of flat_map].
  destruct (ts_format_lookup _) as [f|]; [|done].
  rewrite u64_small by lia. by rewrite app_nil_r, app_assoc.
Qed.

Lemma drop_cons {A} (l : list A) n x l' : drop n l = x :: l' -> l !! n = Some x /\ drop (S n) l = l'.
Proof.
  intros H. assert (Hx : l !! n = Some x).
  { rewrite <- (Nat.add_0_r n), <- lookup_drop, H. done. }
  split; [done|]. rewrite (drop_S _ _ _ Hx) in H. by injection H.
Qed.

Lemma build_mods_step a size k order b l :
  size < 2 ^ 64 -> 0 <= data_index b ->
  l = in_order (k :: order) (drop (c_idx b) (Action.counter_mods a))
        (drop (ts_idx b) (Action.timestamp_mods a)) ->
  l <> [] -> increasing (data_index b) l size -> formats_known l ->
  exists m l', l = m :: l' /\
    l' = in_order order (drop (c_idx (pushed b m)) (Action.counter_mods a))
           (drop (ts_idx (pushed b m)) (Action.timestamp_mods a)) /\
    build_mods a (k :: order) b = build_mods a order (pushed b m).
Proof.
  intros Hsz H0 Hl Hn Hi Hf. destruct k; cbn [build_mods in_order] in Hl |- *.
  - destruct (drop (c_idx b) (Action.counter_mods a)) as [|c cs] eqn:Ec; [done|].
    apply drop_cons in Ec as [Hc Hd]. eexists (CounterMod c), _. split; [exact Hl|].
    split; [by rewrite <- Hd|]. subst l. rewrite Hc. destruct Hi as (H1 & H2 & H3).
    pose proof (increasing_le _ _ _ H3). by rewrite (push_counter_spec b c size) by lia.
  - assert (exists t ts, drop (ts_idx b) (Action.timestamp_mods a) = t :: ts /\
      l = TimestampMod t :: in_order order (drop (c_idx b) (Action.counter_mods a)) ts)
      as (t & ts & Et & Hl').
    { destruct (drop (ts_idx b) _) as [|t ts]; [by destruct (drop (c_idx b) _)|].
      exists t, ts. split; [done|]. by destruct (drop (c_idx b) _). }
    apply drop_cons in Et as [Ht Hd]. eexists (TimestampMod t), _. split; [exact Hl'|].
    split; [by rewrite <- Hd|]. clear Hl. subst l. rewrite Ht. destruct Hi as (H1 & H2 & H3).
    apply List.Forall_cons_iff in Hf as [Hk _]. pose proof (increasing_le _ _ _ H3).
    by rewrite (push_timestamp_spec b t size) by (done || lia).
Qed.

Lemma build_mods_spec a size : size < 2 ^ 64 -> forall order b l,
  l = in_order order (drop (c_idx b) (Action.counter_mods a))
        (drop (ts_idx b) (Action.timestamp_mods a)) ->
  length l = length order -> formats_known l ->
  increasing (data_index b) l size -> 0 <= data_index b ->
  exists b', build_mods a order b = Ok b' /\
    (if data_index b' <? size
     then ops b' ++ [PacketOperation.make_identity (size - data_index b')] else ops b')
    = ops b ++ layout_ops (data_index b) l size /\
    counter_list b' = counter_list b ++ steps_of l.
Proof.
  intros Hsz. induction order as [|k order IH]; intros b l Hl Hlen Hf Hi H0.
  { simpl in Hl. subst l. exists b. split; [done|]. simpl. rewrite app_nil_r. split; [|done].
    unfold gap. destruct (data_index b <? size) eqn:E, (size - data_index b >? 0) eqn:E';
      bool_to_Z; rewrite ?app_nil_r; (done || lia). }
  destruct (build_mods_step a size k order b l Hsz H0 Hl ltac:(by destruct l) Hi Hf)
    as (m & l' & -> & Hl' & ->).
  apply List.Forall_cons_iff in Hf as [_ Hf]. destruct Hi as (H1 & H2 & H3).
  destruct (IH (pushed b m) l' Hl' ltac:(simpl in Hlen; lia) Hf H3 ltac:(cbn; lia))
    as (b' & Hb' & Ho & Hs).
  exists b'. split; [exact Hb'|]. rewrite Ho, Hs. cbn [pushed ops counter_list layout_ops data_index].
  split; [by rewrite <- !app_assoc|]. unfold steps_of. cbn [flat_map].
  by rewrite app_nil_r, <- app_assoc.
Qed.

(** ** What the operations send *)

Section Sent.
Variable time : Z.

(** The bytes a modification writes; [val] is the value of its counter. *)
Definition mod_bytes (m : modification) (val : Z) : list Z :=
  match m with
  | CounterMod c =>
      numeric_bytes (Z.to_nat (mod_len m)) val (CounterModification.little_endian c)
  | TimestampMod t =>
      numeric_bytes (Z.to_nat (mod_len m)) (PayloadManager.timestamp_value time (format_of t))
        (TimestampModification.little_endian t)
  end.

Definition next_vals (m : modification) (vals : list Z) : list Z :=
  if is_counter_mod m then tail vals else vals.

(** The packet with the modifications written over it, one after the other;
    the counters take the values [vals] in their order. *)
Fixpoint patch (packet : list Z) (l : list modification) (vals : list Z) : list Z :=
  match l with
  | [] => packet
  | m :: l =>
      patch (list_inserts (Z.to_nat (mod_start m)) (mod_bytes m (default 0 (head vals))) packet)
        l (next_vals m vals)
  end.

Lemma length_mod_bytes m v : length (mod_bytes m v) = Z.to_nat (mod_len m).
Proof. destruct m; apply length_numeric_bytes. Qed.

Lemma length_patch packet l vals : length (patch packet l vals) = length packet.
Proof.
  revert packet vals. induction l as [|m l IH]; intros packet vals; [done|]. simpl.
  by rewrite IH, length_inserts.
Qed.

(** Modifications from [from] on leave the bytes before it alone. *)
Lemma patch_below packet l vals from size i :
  increasing from l size -> 0 <= from -> Z.of_nat i < from ->
  patch packet l vals !! i = packet !! i.
Proof.
  revert packet vals from. induction l as [|m l IH]; intros packet vals from Hi H0 Hlt; [done|].
  destruct Hi as (H1 & H2 & H3). cbn [patch].
  rewrite (IH _ _ _ H3) by lia. apply list_lookup_inserts_lt. lia.
Qed.

(** Inside the first modification its bytes are the ones that stay. *)
Lemma patch_first packet m l vals from size i :
  increasing from (m :: l) size -> 0 <= from -> size <= Z.of_nat (length packet) ->
  mod_start m <= Z.of_nat i < mod_start m + mod_len m ->
  patch packet (m :: l) vals !! i
  = mod_bytes m (default 0 (head vals)) !! (i - Z.to_nat (mod_start m))%nat.
Proof.
  intros (H1 & H2 & H3) H0 Hsz Hin. pose proof (increasing_le _ _ _ H3). cbn [patch].
  rewrite (patch_below _ _ _ _ _ _ H3) by lia.
  apply list_lookup_inserts; [rewrite length_mod_bytes|]; lia.
Qed.

Lemma patch_drop l : forall packet packet' vals from size,
  increasing from l size -> 0 <= from ->
  drop (Z.to_nat from) packet = drop (Z.to_nat from) packet' ->
  drop (Z.to_nat from) (patch packet l vals) = drop (Z.to_nat from) (patch packet' l vals).
Proof.
  assert (Hd : forall (a b : list Z) n, drop n a = drop n b <->
    forall i, (n <= i)%nat -> a !! i = b !! i).
  { intros a b n. split.
    - intros H i Hi. replace i with (n + (i - n))%nat by lia. by rewrite <- !lookup_drop, H.
    - intros H. apply list_eq. intros i. rewrite !lookup_drop. apply H. lia. }
  induction l as [|m l IH]; intros packet packet' vals from size Hi H0 Heq; [done|].
  destruct Hi as (H1 & H2 & H3). pose proof (increasing_le _ _ _ H3) as Hle.
  rewrite Hd in Heq. cbn [patch]. set (bs := mod_bytes m _).
  assert (Hlen : length bs = Z.to_nat (mod_len m)) by apply length_mod_bytes.
  assert (Hins : forall i, (Z.to_nat from <= i)%nat ->
    list_inserts (Z.to_nat (mod_start m)) bs packet !! i
    = list_inserts (Z.to_nat (mod_start m)) bs packet' !! i).
  { intros i Hi. apply option_eq. intros x. rewrite !list_lookup_inserts_Some, Heq by done.
    assert ((i < length packet)%nat <-> (i < length packet')%nat) as ->.
    { rewrite <- !lookup_lt_is_Some. by rewrite Heq. }
    done. }
  apply Hd. intros i Hi. destruct (Z.lt_ge_cases (Z.of_nat i) (mod_start m + mod_len m)).
  - rewrite !(patch_below _ _ _ _ _ _ H3) by lia. by apply Hins.
  - specialize (IH (list_inserts (Z.to_nat (mod_start m)) bs packet)
      (list_inserts (Z.to_nat (mod_start m)) bs packet') (next_vals m vals) _ _ H3 ltac:(lia)).
    rewrite !Hd in IH. apply IH; [|lia]. intros j Hj. apply Hins. lia.
Qed.

(** A list from [n1] on, cut at [n2] and [n3]. *)
Lemma drop_cut {A} (p : list A) n1 n2 n3 :
  (n1 <= n2 <= n3)%nat ->
  drop n1 p = take (n2 - n1) (drop n1 p) ++ take (n3 - n2) (drop n2 p) ++ drop n3 p.
Proof.
  intros H. rewrite <- (take_drop (n2 - n1) (drop n1 p)) at 1. f_equal. rewrite drop_drop.
  replace (n1 + (n2 - n1))%nat with n2 by lia.
  rewrite <- (take_drop (n3 - n2) (drop n2 p)) at 1. f_equal. rewrite drop_drop.
  f_equal. lia.
Qed.

Lemma patch_cons packet m l vals from size :
  increasing from (m :: l) size -> 0 <= from -> size = Z.of_nat (length packet) ->
  drop (Z.to_nat from) (patch packet (m :: l) vals)
  = take (Z.to_nat (mod_start m) - Z.to_nat from) (drop (Z.to_nat from) packet)
    ++ mod_bytes m (default 0 (head vals))
    ++ drop (Z.to_nat (mod_start m + mod_len m)) (patch packet l (next_vals m vals)).
Proof.
  intros Hi H0 Hsz. pose proof Hi as (H1 & H2 & H3). pose proof (increasing_le _ _ _ H3) as Hle.
  rewrite (drop_cut (patch packet (m :: l) vals) (Z.to_nat from) (Z.to_nat (mod_start m))
    (Z.to_nat (mod_start m + mod_len m))) by lia.
  f_equal; [|f_equal].
  - apply list_eq. intros i.
    destruct (decide (i < Z.to_nat (mod_start m) - Z.to_nat from)%nat) as [Hlt|Hge].
    + rewrite !lookup_take_lt, !lookup_drop by done.
      apply (patch_below packet (m :: l) vals (mod_start m) size); [|lia..].
      split; [lia | done].
    + rewrite !lookup_ge_None_2; [done|rewrite length_take; lia..].
  - apply list_eq. intros i. destruct (decide (i < Z.to_nat (mod_len m))%nat) as [Hlt|Hge].
    + rewrite lookup_take_lt, lookup_drop by lia.
      rewrite (patch_first _ _ _ _ _ _ _ Hi) by lia. f_equal. lia.
    + rewrite !lookup_ge_None_2; [done|rewrite ?length_mod_bytes, ?length_take; lia..].
  - cbn [patch]. apply (patch_drop _ _ _ _ _ _ H3); [lia|].
    apply list_eq. intros i. rewrite !lookup_drop. apply list_lookup_inserts_ge.
    rewrite length_mod_bytes. lia.
Qed.

Abbreviation sends packet k off ops vals := (ops_bytes (fun _ => time) packet k off ops vals).

Lemma sends_gap packet k from start rest vals :
  0 <= from <= start -> start < 2 ^ 32 ->
  exists k', sends packet k (Z.to_nat from) (gap from start ++ rest) vals
  = take (Z.to_nat start - Z.to_nat from) (drop (Z.to_nat from) packet)
    ++ sends packet k' (Z.to_nat start) rest vals.
Proof.
  intros Hf Hs. unfold gap. destruct (start - from >? 0) eqn:E; bool_to_Z.
  - exists (S k). cbn. unfold op_len. cbn. rewrite u32_small by lia.
    replace (Z.to_nat (start - from)) with (Z.to_nat start - Z.to_nat from)%nat by lia.
    f_equal. f_equal. lia.
  - assert (start = from) as -> by lia. exists k. by rewrite Nat.sub_diag.
Qed.

Lemma sends_mod packet k m rest vals off :
  0 <= mod_len m <= 8 ->
  sends packet k off (mod_op m :: rest) vals
  = mod_bytes m (default 0 (head vals))
    ++ sends packet (S k) (off + Z.to_nat (mod_len m)) rest (next_vals m vals).
Proof.
  intros Hl. assert (Hu : u32 (mod_len m) = mod_len m) by (apply u32_small; lia).
  destruct m; cbn; unfold op_len; cbn; by rewrite Hu.
Qed.

(** The operations of increasing modifications send the patched packet. *)
Lemma layout_sends packet l : forall k from vals size,
  increasing from l size -> 0 <= from -> size = Z.of_nat (length packet) -> size < 2 ^ 32 ->
  sends packet k (Z.to_nat from) (layout_ops from l size) vals
  = drop (Z.to_nat from) (patch packet l vals).
Proof.
  induction l as [|m l IH]; intros k from vals size Hi H0 Hsz Hlt; cbn [layout_ops].
  - simpl in Hi. rewrite <- (app_nil_r (gap from size)).
    destruct (sends_gap packet k from size [] vals) as [k' ->]; [lia..|].
    simpl. rewrite app_nil_r. apply take_ge. rewrite length_drop. lia.
  - rewrite (patch_cons _ _ _ _ _ _ Hi H0 Hsz). destruct Hi as (H1 & H2 & H3).
    pose proof (increasing_le _ _ _ H3).
    destruct (sends_gap packet k from (mod_start m)
      ([mod_op m] ++ layout_ops (mod_start m + mod_len m) l size) vals) as [k' ->]; [lia..|].
    f_equal. cbn [app]. rewrite sends_mod by lia. f_equal.
    replace (Z.to_nat (mod_start m) + Z.to_nat (mod_len m))%nat
      with (Z.to_nat (mod_start m + mod_len m)) by lia.
    apply IH; [done | lia | done | done].
Qed.

End Sent.

(** ** The operations are safe to fill *)

Lemma gap_ok from start :
  start < 2 ^ 32 -> 0 <= from -> Forall op_ok (gap from start).
Proof.
  intros Hs Hf. unfold gap. destruct (_ >? 0) eqn:E; bool_to_Z; [|constructor].
  apply Forall_singleton. split; [apply u32_range | done].
Qed.

Lemma gap_total from start :
  0 <= from <= start -> start < 2 ^ 32 -> total_len (gap from start) = start - from.
Proof.
  intros Hf Hs. unfold gap. destruct (_ >? 0) eqn:E; bool_to_Z; cbn; [|lia].
  rewrite u32_small; lia.
Qed.

Lemma total_len_app l1 l2 : total_len (l1 ++ l2) = total_len l1 + total_len l2.
Proof. induction l1 as [|o l1 IH]; simpl; [done|]. rewrite IH. lia. Qed.

Lemma n_counters_app l1 l2 : n_counters (l1 ++ l2) = (n_counters l1 + n_counters l2)%nat.
Proof. unfold n_counters. by rewrite List.filter_app, length_app. Qed.

Lemma gap_counters from start : n_counters (gap from start) = 0%nat.
Proof. unfold gap. by destruct (_ >? 0). Qed.

Lemma layout_ok l : forall from size,
  increasing from l size -> 0 <= from -> size < 2 ^ 32 ->
  Forall op_ok (layout_ops from l size) /\
  total_len (layout_ops from l size) = size - from /\
  n_counters (layout_ops from l size) = length (steps_of l).
Proof.
  induction l as [|m l IH]; intros from size Hi H0 Hsz; cbn [layout_ops].
  - simpl in Hi. split; [by apply gap_ok|]. split; [apply gap_total; lia | apply gap_counters].
  - destruct Hi as (H1 & H2 & H3). pose proof (increasing_le _ _ _ H3).
    destruct (IH _ _ H3 ltac:(lia) Hsz) as (Hok & Ht & Hn).
    assert (Hm : PacketOperation.length (mod_op m) = mod_len m)
      by (destruct m; cbn; apply u32_small; lia).
    split; [|split].
    + apply Forall_app. split; [apply gap_ok; lia|]. constructor; [|done].
      split; rewrite Hm; [lia|]. intros _. lia.
    + rewrite !total_len_app, gap_total, Ht by lia. cbn. rewrite Hm. lia.
    + rewrite !n_counters_app, gap_counters, Hn. unfold steps_of. cbn [flat_map].
      rewrite length_app. by destruct m.
Qed.

(** ** Modifications out of order *)

(** A modification inside the packet. *)
Definition fits (size : Z) (m : modification) : Prop :=
  0 <= mod_start m /\ 0 <= mod_len m <= 8 /\ mod_start m + mod_len m <= size.

(** The static bytes up to [start], whatever the order: back from [from] the
    distance wraps around. *)
Definition wrapped_gap (from start : Z) : list PacketOperation.t :=
  if u64 (start - from) >? 0 then [PacketOperation.make_identity (u64 (start - from))] else [].

Fixpoint wrapped_ops (from : Z) (l : list modification) : list PacketOperation.t :=
  match l with
  | [] => []
  | m :: l => wrapped_gap from (mod_start m) ++ [mod_op m] ++ wrapped_ops (mod_start m + mod_len m) l
  end.

Definition wrapped_end (from : Z) (l : list modification) : Z :=
  fold_left (fun _ m => mod_start m + mod_len m) l from.

Lemma push_gap_wrapped b start :
  0 <= data_index b < 2 ^ 64 -> 0 <= start < 2 ^ 64 ->
  push_gap b start
  = mk_building (ops b ++ wrapped_gap (data_index b) start) (counter_list b) (c_idx b) (ts_idx b)
      start.
Proof.
  intros Hb Hs. unfold push_gap, wrapped_gap. cbv zeta.
  pose proof (u64_range (start - data_index b)).
  destruct (u64 (start - data_index b) >? 0) eqn:E; bool_to_Z.
  - f_equal. unfold u64. rewrite Zplus_mod_idemp_r, Z.mod_small; lia.
  - assert (Hz : (start - data_index b) mod 2 ^ 64 = 0) by (unfold u64 in *; lia).
    apply Z.mod_divide in Hz as [z Hz]; [|lia]. rewrite app_nil_r.
    destruct b as [o cl c t d]. cbn [ops counter_list c_idx ts_idx data_index] in *. f_equal. nia.
Qed.

(** The builder after the modification [m], whatever its place. *)
Definition pushed_wrapped (b : building) (m : modification) : building :=
  mk_building (ops b ++ wrapped_gap (data_index b) (mod_start m) ++ [mod_op m])
    (counter_list b ++ steps_of [m])
    (if is_counter_mod m then S (c_idx b) else c_idx b)
    (if is_counter_mod m then ts_idx b else S (ts_idx b))
    (mod_start m + mod_len m).

Lemma push_counter_wrapped b c size :
  0 <= data_index b <= size -> size < 2 ^ 64 -> fits size (CounterMod c) ->
  push_counter_op b c = pushed_wrapped b (CounterMod c).
Proof.
  intros Hb Hsz (H1 & H2 & H3). unfold push_counter_op. cbv zeta.
  change (Range.start (CounterModification.counter_bytes c)) with (mod_start (CounterMod c)).
  change (Range.second (CounterModification.counter_bytes c)) with (mod_len (CounterMod c)).
  rewrite push_gap_wrapped by lia. cbn [ops counter_list c_idx ts_idx data_index].
  rewrite u64_small by lia. unfold pushed_wrapped. cbn [is_counter_mod steps_of flat_map app].
  by rewrite app_assoc.
Qed.

Lemma push_timestamp_wrapped b t size :
  0 <= data_index b <= size -> size < 2 ^ 64 -> fits size (TimestampMod t) ->
  ts_format_lookup (TimestampModification.format_name t) <> None ->
  push_timestamp_op b t = Ok (pushed_wrapped b (TimestampMod t)).
Proof.
  intros Hb Hsz (H1 & H2 & H3) Hf. unfold push_timestamp_op. cbv zeta.
  change (Range.start (TimestampModification.timestamp_bytes t)) with (mod_start (TimestampMod t)).
  change (Range.second (TimestampModification.timestamp_bytes t)) with (mod_len (TimestampMod t)).
  rewrite push_gap_wrapped by lia. cbn [ops counter_list c_idx ts_idx data_index].
  unfold pushed_wrapped, mod_op, format_of. cbn [is_counter_mod steps_of flat_map].
  destruct (ts_format_lookup _) as [f|]; [|done].
  rewrite u64_small by lia. by rewrite app_nil_r, app_assoc.
Qed.

Lemma build_mods_wrapped_step a size k order b l :
  size < 2 ^ 64 -> 0 <= data_index b <= size ->
  l = in_order (k :: order) (drop (c_idx b) (Action.counter_mods a))
        (drop (ts_idx b) (Action.timestamp_mods a)) ->
  l <> [] -> Forall (fits size) l -> formats_known l ->
  exists m l', l = m :: l' /\
    l' = in_order order (drop (c_idx (pushed_wrapped b m)) (Action.counter_mods a))
           (drop (ts_idx (pushed_wrapped b m)) (Action.timestamp_mods a)) /\
    build_mods a (k :: order) b = build_mods a order (pushed_wrapped b m).
Proof.
  intros Hsz H0 Hl Hn Hi Hf. destruct k; cbn [build_mods in_order] in Hl |- *.
  - destruct (drop (c_idx b) (Action.counter_mods a)) as [|c cs] eqn:Ec; [done|].
    apply drop_cons in Ec as [Hc Hd]. eexists (CounterMod c), _. split; [exact Hl|].
    split; [by rewrite <- Hd|]. subst l. rewrite Hc. apply List.Forall_cons_iff in Hi as [Hi _].
    by rewrite (push_counter_wrapped b c size).
  - assert (exists t ts, drop (ts_idx b) (Action.timestamp_mods a) = t :: ts /\
      l = TimestampMod t :: in_order order (drop (c_idx b) (Action.counter_mods a)) ts)
      as (t & ts & Et & Hl').
    { destruct (drop (ts_idx b) _) as [|t ts]; [by destruct (drop (c_idx b) _)|].
      exists t, ts. split; [done|]. by destruct (drop (c_idx b) _). }
    apply drop_cons in Et as [Ht Hd]. eexists (TimestampMod t), _. split; [exact Hl'|].
    split; [by rewrite <- Hd|]. clear Hl. subst l. rewrite Ht.
    apply List.Forall_cons_iff in Hi as [Hi _]. apply List.Forall_cons_iff in Hf as [Hk _].
    by rewrite (push_timestamp_wrapped b t size).
Qed.

Lemma build_mods_wrapped a size : size < 2 ^ 64 -> forall order b l,
  l = in_order order (drop (c_idx b) (Action.counter_mods a))
        (drop (ts_idx b) (Action.timestamp_mods a)) ->
  length l = length order -> Forall (fits size) l -> formats_known l ->
  0 <= data_index b <= size ->
  exists b', build_mods a order b = Ok b' /\
    ops b' = ops b ++ wrapped_ops (data_index b) l /\
    counter_list b' = counter_list b ++ steps_of l /\
    data_index b' = wrapped_end (data_index b) l.
Proof.
  intros Hsz. induction order as [|k order IH]; intros b l Hl Hlen Hi Hf H0.
  { simpl in Hl. subst l. exists b. cbn. by rewrite !app_nil_r. }
  destruct (build_mods_wrapped_step a size k order b l Hsz H0 Hl ltac:(by destruct l) Hi Hf)
    as (m & l' & -> & Hl' & ->).
  apply List.Forall_cons_iff in Hi as [(H1 & H2 & H3) Hi]. apply List.Forall_cons_iff in Hf as [_ Hf].
  destruct (IH (pushed_wrapped b m) l' Hl' ltac:(simpl in Hlen; lia) Hi Hf ltac:(cbn; lia))
    as (b' & Hb' & Ho & Hs & Hd).
  exists b'. split; [exact Hb'|]. rewrite Ho, Hs, Hd.
  cbn [pushed_wrapped ops counter_list wrapped_ops data_index wrapped_end fold_left].
  split; [by rewrite <- !app_assoc|]. split; [|done]. unfold steps_of. cbn [flat_map].
  by rewrite app_nil_r, <- app_assoc.
Qed.

(** An operation that copies more bytes than the packet has. *)
Definition overlong (size : Z) (op : PacketOperation.t) : Prop :=
  PacketOperation.type op = PacketOperationType.IDENTITY /\ size < PacketOperation.length op.

Lemma wrapped_gap_overlong from start size :
  0 <= start < from -> from <= size < 2 ^ 31 ->
  exists op, wrapped_gap from start = [op] /\ overlong size op.
Proof.
  intros H1 H2. unfold wrapped_gap.
  assert (Hw : u64 (start - from) = 2 ^ 64 - (from - start)).
  { unfold u64. rewrite <- (Z.mod_add _ 1) by lia. rewrite Z.mod_small; lia. }
  rewrite Hw. destruct (_ >? 0) eqn:E; bool_to_Z; [|lia]. eexists. split; [done|]. split; [done|].
  unfold PacketOperation.make_identity. cbn [PacketOperation.length]. unfold u32.
  replace (2 ^ 64 - (from - start))
    with (2 ^ 32 - (from - start) + (2 ^ 32 - 1) * 2 ^ 32) by lia.
  rewrite Z.mod_add, Z.mod_small; lia.
Qed.

Lemma wrapped_ops_overlong size l : forall from,
  0 <= from <= size -> size < 2 ^ 31 -> Forall (fits size) l -> ~ increasing from l size ->
  Exists (overlong size) (wrapped_ops from l).
Proof.
  induction l as [|m l IH]; intros from Hf Hsz Hl Hn; cbn [increasing wrapped_ops] in *; [lia|].
  apply List.Forall_cons_iff in Hl as [(H1 & H2 & H3) Hl].
  destruct (Z.lt_ge_cases (mod_start m) from) as [Hlt|Hge].
  - destruct (wrapped_gap_overlong from (mod_start m) size) as (op & -> & Ho); [lia | lia |].
    by apply Exists_cons_hd.
  - rewrite !Exists_app. right. right. apply IH; [lia | done | done |]. intros Hi. apply Hn. split_and!; done || lia.
Qed.

(** ** Filling operations of any layout *)

(** Operations whose numbers can be written. *)
Definition numbers_small (ops : list PacketOperation.t) : Prop :=
  Forall (fun op => PacketOperation.type op <> PacketOperationType.IDENTITY ->
                    0 <= PacketOperation.length op <= 8) ops.

Lemma insert_numeric_pushes p op v :
  0 <= PacketOperation.length op <= 8 ->
  exists p' s, PayloadManager.insert_numeric p op v = Ok p' /\
    PreparedPayload.packet_slices p' = PreparedPayload.packet_slices p ++ [s].
Proof.
  intros Hlen. unfold PayloadManager.insert_numeric. cbv zeta.
  rewrite write_numeric_bytes by done. cbn [obind]. set (n := PacketOperation.length op) in *.
  set (p1 := PreparedPayload.resize p _).
  assert (Hp1 : PreparedPayload.packet_slices p1 = PreparedPayload.packet_slices p /\
                Z.of_nat (length (PreparedPayload.temps p1))
                = Z.of_nat (length (PreparedPayload.temps p)) + n).
  { subst p1. unfold PreparedPayload.resize. cbv zeta.
    destruct (_ >? _); cbn [PreparedPayload.packet_slices PreparedPayload.temps];
      rewrite length_app, length_replicate; (split; [done | lia]). }
  destruct Hp1 as [Hs Hl]. unfold PreparedPayload.store. rewrite length_numeric_bytes, Hl.
  destruct (_ && _) eqn:E; [|apply andb_false_iff in E as [E|E]; bool_to_Z; lia]. cbn [obind].
  eexists _, _. split; [done|]. cbn. by rewrite Hs.
Qed.

(** Filling succeeds, and every IDENTITY becomes a slice of its length. *)
Lemma fill_ops_slices now l : forall k counters p off idx,
  numbers_small l -> (idx + n_counters l <= length counters)%nat -> 0 <= off ->
  exists counters' p' slices,
    PayloadManager.fill_ops now k l counters p off idx = Ok (counters', p') /\
    PreparedPayload.packet_slices p' = PreparedPayload.packet_slices p ++ slices /\
    (forall op, In op l -> PacketOperation.type op = PacketOperationType.IDENTITY ->
       exists o, 0 <= o /\ In (PreparedPayload.Static o (PacketOperation.length op)) slices).
Proof.
  induction l as [|op l IH]; intros k counters p off idx Hn Hc Ho; cbn [PayloadManager.fill_ops].
  { exists counters, p, []. rewrite app_nil_r. split_and!; done. }
  apply List.Forall_cons_iff in Hn as [Hop Hn].
  change (op :: l) with ([op] ++ l) in Hc. rewrite n_counters_app in Hc.
  pose proof (u64_range (off + PacketOperation.length op)) as Hoff.
  destruct (PacketOperation.type op) eqn:Et.
  - destruct (IH (S k) counters
      (PreparedPayload.push_slice p (PreparedPayload.Static off (PacketOperation.length op)))
      (u64 (off + PacketOperation.length op)) idx Hn ltac:(lia) ltac:(lia))
      as (c' & p' & sl & -> & Hp' & Hin).
    eexists c', p', (_ :: sl). split; [done|].
    split; [rewrite Hp'; cbn; by rewrite <- app_assoc|].
    intros op' [<-|Hop'] Hid; [by exists off; split; [|left]|].
    destruct (Hin op' Hop' Hid) as (o & ? & ?). exists o. split; [done | by right].
  - assert (Hone : n_counters [op] = 1%nat) by (unfold n_counters, is_counter; cbn [List.filter]; by rewrite Et).
    destruct (lookup_lt_is_Some_2 counters idx ltac:(lia)) as [c ->]. cbn [PayloadCounter.fetch_add].
    destruct (insert_numeric_pushes p op (PayloadCounter.counter c) (Hop ltac:(done)))
      as (p1 & s & -> & Hs). cbn [obind].
    edestruct (IH (S k)) as (c' & p' & sl & -> & Hp' & Hin); [done | | |].
    3: { eexists c', p', (s :: sl). split; [done|].
         split; [rewrite Hp', Hs; by rewrite <- app_assoc|].
         intros op' [<-|Hop'] Hid; [congruence|].
         destruct (Hin op' Hop' Hid) as (o & ? & ?). exists o. split; [done | by right]. }
    + rewrite length_insert. lia.
    + lia.
  - destruct (insert_numeric_pushes p op
      (PayloadManager.timestamp_value (now k) (PacketOperation.time_format op)) (Hop ltac:(done)))
      as (p1 & s & -> & Hs). cbn [obind].
    destruct (IH (S k) counters p1 (u64 (off + PacketOperation.length op)) idx Hn ltac:(lia) ltac:(lia))
      as (c' & p' & sl & -> & Hp' & Hin).
    eexists c', p', (s :: sl). split; [done|].
    split; [rewrite Hp', Hs; by rewrite <- app_assoc|].
    intros op' [<-|Hop'] Hid; [congruence|].
    destruct (Hin op' Hop' Hid) as (o & ? & ?). exists o. split; [done | by right].
Qed.

(** A slice longer than the packet cannot be read. *)
Lemma read_slices_undef packet p l off len :
  In (PreparedPayload.Static off len) l -> 0 <= off -> Z.of_nat (length packet) < len ->
  PreparedPayload.read_slices packet p l = Undef.
Proof.
  intros Hin Ho Hl. induction l as [|s l IH]; [done|]. cbn [PreparedPayload.read_slices].
  destruct Hin as [->|Hin].
  - cbn [PreparedPayload.read_slice]. destruct (_ && _) eqn:E; bool_to_Z; [lia | done].
  - rewrite (IH Hin). cbn [obind]. unfold PreparedPayload.read_slice.
    destruct s as [o n|g o n].
    + by destruct (_ && _).
    + destruct (Nat.eqb _ _); [|done]. by destruct (_ && _).
Qed.
