(* ===== verification/ExecutionPlanProps.v ===== *)
(** * Properties of the execution plan

    Planning never leaves its vectors; payloads and counters match; a SEND
    sends its packet with the modifications written over it; actions keep their
    order and add up their offsets; and where the plan goes wrong. *)

From S2P Require Import Prelude Diagnostics Script ParserProps Payload PayloadFacts PayloadProps.
From S2P Require Import Resolver Interpreter InterpreterFacts InterpreterProps.
From S2P Require Import ParserPrint ExecutionPlan ExecutionPlanFacts.
Import ExecutionPlan.

(** ** The payload of a SEND *)

Lemma in_order_length order cs ts :
  count_mods ModificationType.Counter order = length cs ->
  count_mods ModificationType.Timestamp order = length ts ->
  length (in_order order cs ts) = length order.
Proof.
  revert cs ts. induction order as [|k order IH]; intros cs ts Hc Ht; [done|].
  destruct k; unfold count_mods in Hc, Ht; simpl in Hc, Ht.
  - destruct cs as [|c cs]; [done|]. simpl. f_equal. apply IH; [by injection Hc | done].
  - destruct ts as [|t ts]; [done|]. destruct cs; simpl; f_equal; apply IH; try done; by injection Ht.
Qed.

Lemma formats_lookup name : In name VALID_TIME_FORMATS -> ts_format_lookup name <> None.
Proof. intros H. repeat destruct H as [<-|H]; done. Qed.

Lemma in_order_formats order cs ts :
  Forall timestamp_wf ts -> formats_known (in_order order cs ts).
Proof.
  revert cs ts. induction order as [|k order IH]; intros cs ts Ht; [constructor|].
  destruct k; simpl.
  - destruct cs; [constructor|]. constructor; [done | by apply IH].
  - destruct ts as [|t ts]; [destruct cs; constructor|].
    apply List.Forall_cons_iff in Ht as [[_ Ht] Hts].
    destruct cs; (constructor; [by apply formats_lookup | by apply IH]).
Qed.

Lemma build_payload_spec a buf :
  mods_wf a -> 0 < Z.of_nat (length buf) < 2 ^ 32 ->
  increasing 0 (action_mods a) (Z.of_nat (length buf)) ->
  build_payload a buf
  = Ok (PayloadDescriptor.mk buf (layout_ops 0 (action_mods a) (Z.of_nat (length buf))),
        steps_of (action_mods a)).
Proof.
  intros (Ht & Hc & Hnt & Hnc) Hsz Hi. unfold build_payload. cbv zeta.
  destruct (Action.mod_order a) as [|k order] eqn:Eo.
  - unfold action_mods in *. rewrite Eo in *. cbn. unfold gap.
    destruct (_ >? 0) eqn:E; bool_to_Z; [|lia]. by rewrite Z.sub_0_r.
  - destruct (build_mods_spec a (Z.of_nat (length buf)) ltac:(lia) (Action.mod_order a)
      building_init (action_mods a)) as (b' & Hb & Ho & Hs); try done.
    + rewrite <- Eo in Hnt, Hnc. by apply in_order_length.
    + by apply in_order_formats.
    + rewrite <- Eo, Hb. cbn [obind]. rewrite Ho, Hs. done.
Qed.

(** ** Planning is safe *)

Lemma build_mods_safe a order b :
  (c_idx b + count_mods ModificationType.Counter order <= length (Action.counter_mods a))%nat ->
  (ts_idx b + count_mods ModificationType.Timestamp order <= length (Action.timestamp_mods a))%nat ->
  returns (build_mods a order b).
Proof.
  revert b. induction order as [|k order IH]; intros b Hc Ht; [done|].
  unfold count_mods in Hc, Ht. destruct k; simpl in Hc, Ht; cbn [build_mods].
  - destruct (lookup_lt_is_Some_2 (Action.counter_mods a) (c_idx b) ltac:(lia)) as [c ->].
    apply IH; unfold count_mods, push_counter_op, push_gap; cbv zeta;
      destruct (_ >? 0); cbn; lia.
  - destruct (lookup_lt_is_Some_2 (Action.timestamp_mods a) (ts_idx b) ltac:(lia)) as [t ->].
    apply returns_obind; unfold push_timestamp_op; cbv zeta;
      destruct (ts_format_lookup _); try done.
    intros b' [= <-]. apply IH; unfold count_mods, push_gap; cbv zeta;
      destruct (_ >? 0); cbn; lia.
Qed.

Lemma build_payload_returns a buf : mods_wf a -> returns (build_payload a buf).
Proof.
  intros (_ & _ & Ht & Hc). unfold build_payload. cbv zeta.
  destruct (Action.mod_order a) as [|k order] eqn:E; [done|].
  apply returns_obind; [|done]. apply build_mods_safe; cbn [c_idx ts_idx building_init]; lia.
Qed.

(** Building keeps one step per COUNTER operation. *)
Definition steps_match (b : building) : Prop := n_counters (ops b) = length (counter_list b).

Lemma push_gap_match b start : steps_match b -> steps_match (push_gap b start).
Proof.
  unfold steps_match, push_gap. intros H. cbv zeta. destruct (_ >? 0); [|done]. cbn [ops counter_list].
  rewrite n_counters_app. change (n_counters [_]) with 0%nat. lia.
Qed.

Lemma build_mods_match a order b b' :
  build_mods a order b = Ok b' -> steps_match b -> steps_match b'.
Proof.
  revert b. induction order as [|k order IH]; intros b H Hm; [by injection H as <-|].
  destruct k; cbn [build_mods] in H.
  - destruct (Action.counter_mods a !! _) as [c|]; [|done]. apply (IH _ H).
    unfold push_counter_op. cbv zeta.
    pose proof (push_gap_match b (Range.start (CounterModification.counter_bytes c)) Hm) as Hg.
    unfold steps_match in *. cbn [ops counter_list]. rewrite n_counters_app, length_app, Hg. done.
  - destruct (Action.timestamp_mods a !! _) as [t|]; [|done]. inv_ok. apply (IH _ H).
    unfold push_timestamp_op in Hm0. cbv zeta in Hm0.
    pose proof (push_gap_match b (Range.start (TimestampModification.timestamp_bytes t)) Hm) as Hg.
    destruct (ts_format_lookup _); [|done]. injection Hm0 as <-.
    unfold steps_match in *. cbn [ops counter_list]. rewrite n_counters_app, Hg.
    change (n_counters [_]) with 0%nat. lia.
Qed.

Definition payload_matches (d : PayloadDescriptor.t) (ss : list Z) : Prop :=
  n_counters (PayloadDescriptor.ops d) = length ss.

Lemma build_payload_match a buf d ss :
  build_payload a buf = Ok (d, ss) -> payload_matches d ss.
Proof.
  unfold build_payload, payload_matches. cbv zeta.
  destruct (Action.mod_order a) as [|k order]; [by intros [= <- <-]|].
  intros H. inv_ok. injection H as <- <-. apply build_mods_match in Hm; [|done].
  unfold steps_match in Hm. cbn [PayloadDescriptor.ops]. destruct (_ <? _); [|done].
  rewrite n_counters_app, Hm. change (n_counters [_]) with 0%nat. lia.
Qed.

Section Plan.
Context {sys : System} {ord : HashOrder}.
Variables (global_options : Resolver.options) (can_allocate : Z -> bool) (garbage : Z).

Definition maps_ok (maps : packet_maps) (packets : list (list Z)) : Prop :=
  forall id i, identity_map maps !! id = Some i -> (i < length packets)%nat.

Lemma read_packet_ok id file maps packets maps' packets' :
  read_packet global_options can_allocate id file maps packets = Ok (maps', packets') ->
  maps_ok maps packets -> maps_ok maps' packets'.
Proof.
  unfold read_packet. intros H Hm. destruct (Resolver.resolve_file _ _) as [path e].
  inv_ok. 
  - destruct (identity_map maps !! file) as [dupe|] eqn:Ed; [|done].
    injection H as <- <-. intros id' i. cbn. rewrite lookup_insert_Some.
    intros [[_ <-]|[_ Hi]]; [by eapply Hm | by eapply Hm].
  - destruct (Resolver.read_bytes_to_contiguous _ _) as [buf|]; [|done].
    injection H as <- <-. intros id' i. cbn. rewrite lookup_insert_Some, length_app. cbn.
    intros [[_ <-]|[_ Hi]]; [lia | specialize (Hm _ _ Hi); lia].
Qed.

Lemma read_packet_returns id file maps packets :
  returns (read_packet global_options can_allocate id file maps packets).
Proof.
  unfold read_packet. destruct (Resolver.resolve_file _ _) as [path e].
  destruct (negb _); [done|]. destruct (str_mem _ _); [by destruct (_ !! file)|]. cbv zeta.
  destruct (_ =? 0); [done|]. destruct (_ >? _); [done|]. destruct (negb _); [done|].
  by destruct (Resolver.read_bytes_to_contiguous _ _).
Qed.

Lemma read_packets_ok l maps packets :
  maps_ok maps packets ->
  returns (read_packets global_options can_allocate l maps packets) /\
  forall maps' packets',
    read_packets global_options can_allocate l maps packets = Ok (maps', packets') ->
    maps_ok maps' packets'.
Proof.
  revert maps packets. induction l as [|[id file] l IH]; intros maps packets Hm.
  - split; [done|]. by intros ? ? [= <- <-].
  - cbn [read_packets]. pose proof (read_packet_returns id file maps packets) as Hr.
    destruct (read_packet _ _ id file maps packets) as [[maps1 packets1]|e| |] eqn:E; try done.
    cbn [obind]. apply IH. by eapply read_packet_ok.
Qed.

(** What holds of the plan while its actions are added. *)
Definition work_ok (maps : packet_maps) (w : work) : Prop :=
  maps_ok maps (packet_data w) /\ Forall2 payload_matches (payloads w) (counter_steps w).

(** The descriptor has the kind and the sessions of the action, and the copies
    of a SEND; a CREATE starts at session 0 and counts its sessions. *)
Definition describes (a : Action.t) (d : ActionDescriptor.t) : Prop :=
  ActionDescriptor.type d = Action.type a /\
  ActionDescriptor.sessions_start d
  = match Action.type a with ActionType.CREATE => 0 | _ => Range.start (Action.range a) end /\
  ActionDescriptor.sessions_end d = Range.second (Action.range a) /\
  (Action.type a = ActionType.SEND -> ActionDescriptor.count d = Action.count a) /\
  (Action.type a = ActionType.CREATE ->
   ActionDescriptor.count d = u32 (Range.second (Action.range a))).

Lemma plan_action_ok maps a o w :
  work_ok maps w -> mods_wf a ->
  returns (plan_action garbage maps a o w) /\
  forall d w', plan_action garbage maps a o w = Ok (d, w') ->
    work_ok maps w' /\ actions w' = actions w /\
    describes a d /\ ActionDescriptor.offset d = u32 o.
Proof.
  intros [Hmaps Hf] Hw. unfold plan_action. cbv zeta. destruct (Action.type a) eqn:Et;
    try (split; [done|]; intros ? ? [= <- <-]; split; [done|]; split; [done|];
         unfold describes; rewrite Et; cbn; rewrite ?Z.sub_0_r; done).
  unfold plan_send. cbv zeta.
  destruct (identity_map maps !! _) as [i|] eqn:Ei; [|done].
  destruct (lookup_lt_is_Some_2 (packet_data w) i (Hmaps _ _ Ei)) as [buf ->].
  pose proof (build_payload_returns a buf Hw) as Hr.
  destruct (build_payload a buf) as [[d ss]|e| |] eqn:Eb; try done. cbn [obind].
  split; [done|]. intros d' w' [= <- <-]. split; [|split; [done|]; split; [|done]].
  2: { unfold describes. rewrite Et. done. }
  split; [done|]. apply Forall2_app; [done|].
  apply Forall2_replicate. by eapply build_payload_match.
Qed.

(** The descriptors of the actions [l] from the time [o] on. *)
Inductive descriptors : Z -> list Action.t -> list ActionDescriptor.t -> Prop :=
| descriptors_nil o : descriptors o [] []
| descriptors_cons o a l d ds :
    describes a d -> ActionDescriptor.offset d = u32 (u64 (o + Action.offset_ms a)) ->
    descriptors (u64 (o + Action.offset_ms a)) l ds ->
    descriptors o (a :: l) (d :: ds).

Lemma plan_actions_ok maps l : forall o w,
  work_ok maps w -> Forall mods_wf l ->
  returns (plan_actions garbage maps l o w) /\
  forall w', plan_actions garbage maps l o w = Ok w' ->
    work_ok maps w' /\
    exists ds, actions w' = actions w ++ ds /\ descriptors o l ds.
Proof.
  induction l as [|a l IH]; intros o w Hok Hwf.
  - split; [done|]. intros w' [= <-]. split; [done|]. exists [].
    split; [by rewrite app_nil_r | constructor].
  - apply List.Forall_cons_iff in Hwf as [Ha Hwf]. cbn [plan_actions]. cbv zeta.
    set (o' := u64 (o + Action.offset_ms a)).
    destruct (plan_action_ok maps a o' w Hok Ha) as [Hr Hs].
    destruct (plan_action garbage maps a o' w) as [[d w1]|e| |] eqn:E; try done. cbn [obind].
    destruct (Hs d w1 eq_refl) as (Hok1 & Hact & Hdesc & Hoff).
    destruct (IH o' (mk_work (actions w1 ++ [d]) (payloads w1) (counter_steps w1)
      (packet_data w1)) Hok1 Hwf) as [Hr' Hs'].
    split; [done|]. intros w' Hw'. destruct (Hs' w' Hw') as (Hok' & ds & Hds & Hd).
    split; [done|]. exists (d :: ds). split.
    + rewrite Hds. cbn. by rewrite Hact, <- app_assoc.
    + by constructor.
Qed.

Lemma plan_common_ok script :
  script_wf script ->
  returns (generate_plan_common global_options can_allocate garbage script) /\
  forall w, generate_plan_common global_options can_allocate garbage script = Ok w ->
    Forall2 payload_matches (payloads w) (counter_steps w) /\
    descriptors 0 (Orchestrator_block.actions (DSLData.orchestrator script)) (actions w).
Proof.
  intros [_ Hwf]. unfold generate_plan_common. cbv zeta.
  destruct (read_packets_ok (hash_order (Settings.packet_identifiers (DSLData.settings script)))
    (mk_maps ∅ []) []) as [Hr Hok]; [done|].
  destruct (read_packets _ _ _ _ _) as [[maps packets]|e| |]; try done. cbn [obind].
  assert (Hm : Forall mods_wf (Orchestrator_block.actions (DSLData.orchestrator script))).
  { eapply Forall_impl; [|exact Hwf]. by intros a (_ & _ & Ha & _). }
  destruct (plan_actions_ok maps _ 0 (mk_work [] [] [] packets)
    ltac:(by split; [apply Hok|]) Hm) as [Hr' Hs].
  split; [done|]. intros w Hw. destruct (Hs w Hw) as ([_ Hf] & ds & -> & Hd). done.
Qed.

(** Every payload of a plan is that of a SEND and of a packet of the plan. *)
Definition planned (packets : list (list Z)) (l : list Action.t) (d : PayloadDescriptor.t) : Prop :=
  exists a buf ss, In a l /\ Action.type a = ActionType.SEND /\ In buf packets /\
    build_payload a buf = Ok (d, ss).

Lemma plan_action_origin maps a o w d w' :
  plan_action garbage maps a o w = Ok (d, w') ->
  packet_data w' = packet_data w /\
  forall p, In p (payloads w') -> In p (payloads w) \/ planned (packet_data w) [a] p.
Proof.
  unfold plan_action. cbv zeta.
  destruct (Action.type a) eqn:Et; try by (intros [= _ <-]; split; [done | by left]).
  unfold plan_send. cbv zeta. destruct (identity_map maps !! _) as [i|]; [|done].
  destruct (packet_data w !! i) as [buf|] eqn:Eb; [|done]. intros Hp.
  apply obind_Ok in Hp as ([d' ss] & Hb & [= _ <-]). split; [done|]. cbn.
  intros p [Hin|Hin]%in_app_iff; [by left|]. right.
  apply list_elem_of_In, list_elem_of_lookup_1 in Hin as (j & Hj).
  apply lookup_replicate in Hj as [-> _]. exists a, buf, ss. split_and!; try done.
  - by left.
  - apply list_elem_of_In. by eapply list_elem_of_lookup_2.
Qed.

Lemma plan_actions_origin maps l : forall o w w',
  plan_actions garbage maps l o w = Ok w' ->
  packet_data w' = packet_data w /\
  forall p, In p (payloads w') -> In p (payloads w) \/ planned (packet_data w) l p.
Proof.
  induction l as [|a l IH]; intros o w w' Hp; cbn [plan_actions] in Hp.
  { injection Hp as <-. split; [done | by left]. }
  cbv zeta in Hp. apply obind_Ok in Hp as ([d w1] & Ha & Hp).
  apply plan_action_origin in Ha as [E1 H1]. apply IH in Hp as [E2 H2]. cbn in E2, H2.
  split; [congruence|]. intros p Hin. rewrite E1 in H2.
  destruct (H2 p Hin) as [Hin'|(b & buf & ss & Hb & Hrest)].
  - destruct (H1 p Hin') as [|(b & buf & ss & [->|[]] & Hrest)]; [by left|].
    right. exists b, buf, ss. split; [by left | done].
  - right. exists b, buf, ss. split; [by right | done].
Qed.

(** The payloads stay inside their packets when modifications are in order. *)
Definition mods_in_order (script : DSLData.t) (w : work) : Prop :=
  forall a buf, In a (Orchestrator_block.actions (DSLData.orchestrator script)) ->
    Action.type a = ActionType.SEND -> In buf (packet_data w) ->
    0 < Z.of_nat (length buf) < 2 ^ 32 /\
    increasing 0 (action_mods a) (Z.of_nat (length buf)).

Lemma plan_payloads_ok script w :
  script_wf script -> generate_plan_common global_options can_allocate garbage script = Ok w ->
  mods_in_order script w -> Forall descriptor_ok (payloads w).
Proof.
  intros [_ Hwf] Hg Hm. unfold generate_plan_common in Hg. cbv zeta in Hg.
  apply obind_Ok in Hg as ([maps packets] & _ & Hg).
  apply plan_actions_origin in Hg as [E Ho]. cbn in E, Ho.
  apply List.Forall_forall. intros d Hd.
  destruct (Ho d Hd) as [[]|(a & buf & ss & Ha & Ht & Hb & Hbuild)].
  rewrite <- E in Hb. destruct (Hm a buf Ha Ht Hb) as [Hsz Hi].
  rewrite List.Forall_forall in Hwf. destruct (Hwf a Ha) as (_ & _ & Hmods & _).
  rewrite build_payload_spec in Hbuild by done. injection Hbuild as <- _.
  destruct (layout_ok (action_mods a) 0 _ Hi ltac:(lia) ltac:(lia)) as (Hok & Htot & _).
  split; [exact Hok|]. cbn [PayloadDescriptor.ops PayloadDescriptor.packet_data].
  rewrite Htot. lia.
Qed.

End Plan.

(** ** The properties *)

(** C14: Planning a well-formed script never leaves a vector: it returns a plan
    or an error.  In a plan every payload has exactly one counter step per
    COUNTER operation, and the actions are described in their order, each at
    the sum of the offsets up to it. *)
Theorem plan_consistent {sys : System} {ord : HashOrder} options can_allocate garbage script :
  script_wf script ->
  returns (generate_plan_common options can_allocate garbage script) /\
  forall w, generate_plan_common options can_allocate garbage script = Ok w ->
    Forall2 payload_matches (payloads w) (counter_steps w) /\
    descriptors 0 (Orchestrator_block.actions (DSLData.orchestrator script)) (actions w).
Proof. apply plan_common_ok. Qed.

(** C7: From the script to the wire: the payload planned for a SEND whose
    modifications come in increasing order sends its packet with each
    modification written over its bytes and every other byte unchanged; the
    [n]-th use of the payload carries [n] times the step in each counter. *)
Theorem send_patches_packet a buf nows time p payloads steps j :
  mods_wf a -> 0 < Z.of_nat (length buf) < 2 ^ 32 ->
  increasing 0 (action_mods a) (Z.of_nat (length buf)) ->
  exists d ss,
    build_payload a buf = Ok (d, ss) /\
    (payloads !! j = Some d -> steps !! j = Some ss ->
     exists p1 m1 p2 m2,
       fill_many nows (PayloadManager.init payloads steps) j p = Ok (p1, m1) /\
       PayloadManager.fill_payload (fun _ => time) m1 j p1 = Ok (true, p2, m2) /\
       PreparedPayload.sent_bytes buf p2
       = Ok (patch time buf (action_mods a)
               (map (fun s => u64 (Z.of_nat (length nows) * s)) ss))).
Proof.
  intros Hw Hsz Hi. eexists _, _. split; [by apply build_payload_spec|]. intros Hd Hs.
  destruct (layout_ok (action_mods a) 0 _ Hi ltac:(lia) ltac:(lia)) as (Hok & Ht & Hn).
  destruct (fill_after_uses payloads steps j _ _ nows (fun _ => time) p Hd Hs)
    as (p1 & m1 & p2 & m2 & H1 & H2 & H3).
  - split; [exact Hok|]. cbn [PayloadDescriptor.ops PayloadDescriptor.packet_data].
    rewrite Ht. lia.
  - exact Hn.
  - exists p1, m1, p2, m2. split; [exact H1|]. split; [exact H2|].
    cbn [PayloadDescriptor.packet_data PayloadDescriptor.ops] in H3. rewrite H3.
    f_equal. apply (layout_sends time buf (action_mods a) 0 0); (done || lia).
Qed.

(** A second identifier for a packet file that was read already is refused:
    the duplicate is looked up by the file name among the identifiers, where it
    is only found if some identifier is spelled like the file. *)
Theorem second_identifier_refused {sys : System} options can_allocate id file path maps packets :
  Resolver.resolve_file options file = (path, EmptyString) ->
  In path (all_packets maps) ->
  (identity_map maps !! file = None ->
   is_err (read_packet options can_allocate id file maps packets) = true) /\
  (forall i, identity_map maps !! file = Some i ->
   exists maps', read_packet options can_allocate id file maps packets = Ok (maps', packets) /\
                 identity_map maps' !! id = Some i).
Proof.
  intros Hr Hin. apply str_mem_In in Hin. unfold read_packet. rewrite Hr, Hin.
  change (negb (String.eqb EmptyString EmptyString)) with false. cbv iota. split.
  - by intros ->.
  - intros i ->. eexists. split; [reflexivity|]. apply lookup_insert_eq.
Qed.

Lemma add_endpoints_spec entries found :
  NoDup found ->
  NoDup (add_endpoints entries found) /\
  (forall e, e ∈ add_endpoints entries found <-> e ∈ found \/ e ∈ entries).
Proof.
  revert found. induction entries as [|x entries IH]; intros found Hn; cbn [add_endpoints].
  - split; [done|]. intros e. rewrite elem_of_nil. tauto.
  - case_bool_decide as Hx.
    + destruct (IH found Hn) as [H1 H2]. split; [done|]. intros e. rewrite H2, elem_of_cons.
      naive_solver.
    + destruct (IH (found ++ [x])) as [H1 H2].
      { apply list.NoDup_app. split; [done|]. split; [|apply NoDup_singleton].
        intros e He [= ->]%list_elem_of_singleton. done. }
      split; [done|]. intros e. rewrite H2, elem_of_app, list_elem_of_singleton, elem_of_cons.
      tauto.
Qed.

Lemma add_hosts_spec (resolve : string -> list Endpoint.t) hosts : forall found,
  NoDup found ->
  let r := fold_left (fun found host => add_endpoints (resolve host) found) hosts found in
  NoDup r /\
  forall e, e ∈ r <-> e ∈ found \/ exists host, In host hosts /\ e ∈ resolve host.
Proof.
  induction hosts as [|h hosts IH]; intros found Hn; cbn [fold_left]; cbv zeta.
  - split; [done|]. naive_solver.
  - destruct (add_endpoints_spec (resolve h) found Hn) as [H1 H2].
    destruct (IH _ H1) as [H3 H4]. split; [exact H3|]. intros e. rewrite H4, H2. 
    cbn [In]. naive_solver.
Qed.

(** A TCP plan connects to every endpoint that some host of the script
    resolves to, each of them once, and there is at least one. *)
Theorem tcp_plan_endpoints {sys : System} {ord : HashOrder} options can_allocate
    {wasm_module : Type} (compile : list Z -> option wasm_module) resolve_host garbage script w c :
  generate_tcp_plan options can_allocate compile resolve_host garbage script = Ok (w, c) ->
  host_info c <> [] /\ NoDup (host_info c) /\
  forall e, e ∈ host_info c <->
    exists host, In host (Settings.endpoints (DSLData.settings script)) /\
      e ∈ resolve_host host (to_string (Settings.port (DSLData.settings script))).
Proof.
  unfold generate_tcp_plan. cbv zeta. intros H. inv_ok.
  destruct (add_hosts_spec
    (fun host => resolve_host host (to_string (Settings.port (DSLData.settings script))))
    (Settings.endpoints (DSLData.settings script)) []) as [H1 H2]; [constructor|].
  change (fold_left _ _ _) with (tcp_endpoints resolve_host (DSLData.settings script)) in H1, H2.
  destruct (tcp_endpoints resolve_host (DSLData.settings script)) as [|ep eps]; [done|].
  inv_ok. injection H as <- <-. cbn [host_info plan_config]. split; [done|]. split; [done|].
  intros e. rewrite H2, elem_of_nil. naive_solver.
Qed.

(** ** Modifications out of order *)

Lemma mod_op_small m : 0 <= mod_len m <= 8 -> PacketOperation.length (mod_op m) = mod_len m.
Proof. intros Hm. destruct m; cbn; by rewrite u32_small by lia. Qed.

Lemma numbers_small_gap from start : numbers_small (wrapped_gap from start).
Proof. unfold wrapped_gap. destruct (_ >? 0); constructor; [by intros []|constructor]. Qed.

Lemma numbers_small_wrapped size l : forall from,
  Forall (fits size) l -> numbers_small (wrapped_ops from l).
Proof.
  induction l as [|m l IH]; intros from Hl; [constructor|]. cbn [wrapped_ops].
  apply List.Forall_cons_iff in Hl as [(_ & Hm & _) Hl]. apply Forall_app.
  split; [apply numbers_small_gap|]. constructor; [|by apply IH].
  intros _. by rewrite mod_op_small.
Qed.

(** The payload of a SEND whose modifications lie in the packet in any order. *)
Lemma build_payload_wrapped a buf :
  let size := Z.of_nat (length buf) in
  mods_wf a -> size < 2 ^ 31 -> Forall (fits size) (action_mods a) ->
  ~ increasing 0 (action_mods a) size ->
  exists d ss, build_payload a buf = Ok (d, ss) /\ numbers_small (PayloadDescriptor.ops d) /\
    Exists (overlong size) (PayloadDescriptor.ops d).
Proof.
  cbv zeta. intros (Ht & Hc & Hnt & Hnc) Hsz Hf Hi. unfold build_payload. cbv zeta.
  destruct (Action.mod_order a) as [|k order] eqn:Eo.
  { exfalso. apply Hi. unfold action_mods. rewrite Eo. cbn. lia. }
  rewrite <- Eo in *.
  destruct (build_mods_wrapped a (Z.of_nat (length buf)) ltac:(lia) (Action.mod_order a)
    building_init (action_mods a)) as (b' & -> & Ho & _); try done.
  - by apply in_order_length.
  - by apply in_order_formats.
  - cbn. lia.
  - cbn [obind]. cbn [ops building_init data_index app] in Ho. eexists _, _. split; [done|].
    pose proof (numbers_small_wrapped _ _ 0 Hf) as Hn.
    pose proof (wrapped_ops_overlong (Z.of_nat (length buf)) _ 0 ltac:(lia) Hsz Hf Hi) as Hx.
    cbn [PayloadDescriptor.ops]. rewrite Ho. destruct (_ <? _); [|done]. split.
    + apply Forall_app. split; [done|]. constructor; [by intros [] | constructor].
    + apply Exists_app. by left.
Qed.

(** C34: Modifications written in another order than their offsets, or that
    overlap, are planned, but the payload then reads outside the packet: the
    distance back to a modification wraps around to almost 2^32 bytes, which the
    operations copy from the packet.  Whatever the state of the counters, the
    payload is prepared, and sending what was prepared is undefined. *)
Theorem out_of_order_overread a buf :
  let size := Z.of_nat (length buf) in
  mods_wf a -> size < 2 ^ 31 -> Forall (fits size) (action_mods a) ->
  ~ increasing 0 (action_mods a) size ->
  exists d ss,
    build_payload a buf = Ok (d, ss) /\ Exists (overlong size) (PayloadDescriptor.ops d) /\
    forall now m j cs p,
      PayloadManager.payloads_ m !! j = Some d ->
      PayloadManager.counters_ m !! j = Some cs -> length cs = length ss ->
      exists p1 m1,
        PayloadManager.fill_payload now m j p = Ok (true, p1, m1) /\
        PreparedPayload.sent_bytes buf p1 = Undef.
Proof.
  cbv zeta. intros Hw Hsz Hf Hi.
  destruct (build_payload_wrapped a buf Hw Hsz Hf Hi) as (d & ss & Hb & Hn & Hx).
  exists d, ss. split; [done|]. split; [done|]. intros now m j cs p Hd Hcs Hl.
  pose proof (build_payload_match _ _ _ _ Hb) as Hm. unfold payload_matches in Hm.
  unfold PayloadManager.fill_payload. rewrite Hd, Hcs. cbv zeta. change (default [] (Some cs)) with cs.
  set (p0 := PreparedPayload.reserve _ _).
  destruct (fill_ops_slices now (PayloadDescriptor.ops d) 0 cs p0 0 0 Hn) as (c' & p' & sl & -> & Hs & Hin);
    [lia | lia |].
  cbn [obind]. eexists _, _. split; [done|].
  apply Exists_exists in Hx as (op & Hop & Hid & Hlong).
  destruct (Hin op Hop Hid) as (o & Ho & Hsl). unfold PreparedPayload.sent_bytes. rewrite Hs.
  apply read_slices_undef with o (PacketOperation.length op); [|done|done].
  apply in_or_app. by right.
Qed.

(** ** Witnesses *)

Definition any_size (n : Z) : bool := true.

Lemma plan_consistent_witness :
  returns (@generate_plan_common sample_system sample_order sample_options any_size 7
             (sample_data 7)).
Proof.
  apply (@plan_consistent sample_system sample_order sample_options any_size 7 (sample_data 7)).
  apply (sample_wf 7).
Defined.

Definition sample_buf : list Z := bytes_of "0123456789abcdef0123456789abcdef".

Definition sample_send : Action.t := List.nth 2 (sample_actions 7) (Action.fresh 0).

Lemma sample_increasing : increasing 0 (action_mods sample_send) (Z.of_nat (length sample_buf)).
Proof. cbn. lia. Qed.

Lemma send_patches_packet_witness :
  exists d ss, build_payload sample_send sample_buf = Ok (d, ss) /\
    exists p1 m1 p2 m2,
      fill_many [] (PayloadManager.init [d] [ss]) 0 PreparedPayload.init = Ok (p1, m1) /\
      PayloadManager.fill_payload (fun _ => 5) m1 0 p1 = Ok (true, p2, m2).
Proof.
  assert (Hd : exists d ss, build_payload sample_send sample_buf = Ok (d, ss))
    by (eexists _, _; vm_compute; reflexivity).
  destruct Hd as (d0 & ss0 & E).
  destruct (send_patches_packet sample_send sample_buf [] 5 PreparedPayload.init [d0] [ss0] 0)
    as (d & ss & Hb & Hs).
  - destruct (sample_wf 7) as [_ H]. rewrite List.Forall_forall in H.
    apply (H sample_send). right. right. left. reflexivity.
  - closed_Z.
  - apply sample_increasing.
  - exists d, ss. split; [exact Hb|].
    assert (Heq : (d0, ss0) = (d, ss)) by congruence. injection Heq as -> ->.
    destruct (Hs eq_refl eq_refl) as (p1 & m1 & p2 & m2 & H1 & H2 & _).
    exists p1, m1, p2, m2. split; [exact H1 | exact H2].
Defined.

(** A SEND whose first modification lies behind its second one. *)
Definition swapped_send : Action.t :=
  Action.mk ActionType.SEND 1 (Range.mk 0 2) 0 "packet"
    [TimestampModification.mk (Range.mk 0 4) true "seconds"]
    [CounterModification.mk (Range.mk 8 2) 1 true]
    [ModificationType.Counter; ModificationType.Timestamp].

Definition swapped_script : DSLData.t :=
  DSLData.mk (DSLData.settings (sample_data 7))
    (Orchestrator_block.mk "s"
       [ Action.mk ActionType.CREATE 2 (Range.mk 0 2) 0 EmptyString [] [] [];
         Action.mk ActionType.CONNECT 7 (Range.mk 0 2) 0 EmptyString [] [] [];
         swapped_send ]).

Definition result {A} (d : A) (m : outcome A) : A := match m with Ok a => a | _ => d end.

Definition swapped_plan : work :=
  result (mk_work [] [] [] [])
    (@generate_plan_common sample_system sample_order sample_options any_size 7 swapped_script).

(** The validator accepts the script, it is planned, and its payload cannot be sent. *)
Lemma out_of_order_overread_witness :
  @Interpreter.verify_script sample_system sample_order sample_options swapped_script = Ok tt /\
  exists d ss, payloads swapped_plan = [d] /\ counter_steps swapped_plan = [ss] /\
  exists p1 m1,
    PayloadManager.fill_payload (fun _ => 0)
      (PayloadManager.init (payloads swapped_plan) (counter_steps swapped_plan)) 0
      PreparedPayload.init = Ok (true, p1, m1) /\
    PreparedPayload.sent_bytes sample_buf p1 = Undef.
Proof.
  split; [vm_compute; reflexivity|].
  destruct (out_of_order_overread swapped_send sample_buf) as (d & ss & Hb & _ & Hsend).
  - repeat split; cbn; repeat constructor; try closed_Z; by vm_compute; left.
  - closed_Z.
  - repeat constructor; closed_Z.
  - cbn. lia.
  - vm_compute in Hb. injection Hb as <- <-. eexists _, _.
    split; [vm_compute; reflexivity|]. split; [vm_compute; reflexivity|].
    eapply Hsend; vm_compute; reflexivity.
Defined.

Lemma second_identifier_refused_witness :
  is_err (@read_packet sample_system sample_options any_size "again" "a$b.bin"
            (mk_maps {[ "packet"%string := 0%nat ]} ["a$b.bin"%string]) [sample_buf]) = true.
Proof.
  apply (@second_identifier_refused sample_system sample_options any_size "again" "a$b.bin"
           "a$b.bin").
  - vm_compute. reflexivity.
  - left. reflexivity.
  - vm_compute. reflexivity.
Defined.

Definition sample_resolve (host port : string) : list Endpoint.t :=
  if String.eqb host "127.0.0.1" then [Endpoint.mk "127.0.0.1" 12345]
  else if String.eqb host "::1"
  then [Endpoint.mk "::1" 12345; Endpoint.mk "127.0.0.1" 12345] else [].

Lemma tcp_plan_endpoints_witness :
  exists c : config (list Endpoint.t) unit,
    host_info c = [Endpoint.mk "127.0.0.1" 12345; Endpoint.mk "::1" 12345] /\
    NoDup (host_info c).
Proof.
  pose (r := @generate_tcp_plan sample_system sample_order sample_options any_size unit
    (fun _ => None) sample_resolve 7 (sample_data 7)).
  pose (w := (result (mk_work [] [] [] [],
    mk_config (SessionConfig.mk 0 0 false false 0) [] NoFactory 0) r).1).
  pose (c := (result (mk_work [] [] [] [],
    mk_config (SessionConfig.mk 0 0 false false 0) [] NoFactory 0) r).2).
  assert (H : r = Ok (w, c)) by (vm_compute; reflexivity).
  exists c. split; [vm_compute; reflexivity|].
  apply (@tcp_plan_endpoints sample_system sample_order sample_options any_size unit
           (fun _ => None) sample_resolve 7 (sample_data 7) w c H).
Defined.
