(* ===== verification/Metrics.v ===== *)
(** * Metrics (src/metrics/{metrics-snapshot,shard-metrics,orchestrator-metrics}.h)

    The counters a shard keeps, their snapshots, and the totals and changes the
    orchestrator computes from the snapshots of its shards.  Counters are
    [uint64_t], changes [int64_t]; the overflow of a signed subtraction is
    undefined. *)

From S2P Require Import Prelude.

Definition NUM_BUCKETS : nat := 16.

(** [std::array<uint64_t, NUM_BUCKETS>{}] *)
Definition empty_buckets : list Z := replicate NUM_BUCKETS 0.

(** [struct MetricsSnapshot] *)
Module MetricsSnapshot.
Record t : Type := mk {
  bytes_sent : Z;
  bytes_read : Z;
  connection_attempts : Z;
  failed_connections : Z;
  finished_connections : Z;
  connected_sessions : Z;
  connection_latency_buckets : list Z;
  send_latency_buckets : list Z;
  read_latency_buckets : list Z
}.

Definition init : t := mk 0 0 0 0 0 0 empty_buckets empty_buckets empty_buckets.

Definition plus64 (a b : Z) : Z := u64 (a + b).

(** [operator+=] *)
Definition add (s rhs : t) : t :=
  mk (plus64 (bytes_sent s) (bytes_sent rhs))
    (plus64 (bytes_read s) (bytes_read rhs))
    (plus64 (connection_attempts s) (connection_attempts rhs))
    (plus64 (failed_connections s) (failed_connections rhs))
    (plus64 (finished_connections s) (finished_connections rhs))
    (plus64 (connected_sessions s) (connected_sessions rhs))
    (zip_with plus64 (connection_latency_buckets s) (connection_latency_buckets rhs))
    (zip_with plus64 (send_latency_buckets s) (send_latency_buckets rhs))
    (zip_with plus64 (read_latency_buckets s) (read_latency_buckets rhs)).

Definition set_connected_sessions (s : t) (v : Z) : t :=
  mk (bytes_sent s) (bytes_read s) (connection_attempts s) (failed_connections s)
    (finished_connections s) v (connection_latency_buckets s) (send_latency_buckets s)
    (read_latency_buckets s).
End MetricsSnapshot.

(** [struct MetricsDelta] *)
Module MetricsDelta.
Record t : Type := mk {
  bytes_sent : Z;
  bytes_read : Z;
  connection_attempts : Z;
  failed_connections : Z;
  finished_connections : Z;
  connected_sessions : Z;
  connection_latency_buckets : list Z;
  send_latency_buckets : list Z;
  read_latency_buckets : list Z
}.

(** The difference of two [int64_t] casts. *)
Definition minus64 (current previous : Z) : outcome Z :=
  let d := i64 current - i64 previous in
  if (- 2 ^ 63 <=? d) && (d <? 2 ^ 63) then Ok d else Undef.

Fixpoint minus_buckets (current previous : list Z) : outcome (list Z) :=
  match current, previous with
  | c :: current, p :: previous =>
      let! d := minus64 c p in
      let! rest := minus_buckets current previous in
      Ok (d :: rest)
  | _, _ => Ok []
  end.

Definition compute_difference (current previous : MetricsSnapshot.t) : outcome t :=
  let! sent := minus64 (MetricsSnapshot.bytes_sent current)
                 (MetricsSnapshot.bytes_sent previous) in
  let! read := minus64 (MetricsSnapshot.bytes_read current)
                 (MetricsSnapshot.bytes_read previous) in
  let! attempts := minus64 (MetricsSnapshot.connection_attempts current)
                     (MetricsSnapshot.connection_attempts previous) in
  let! failed := minus64 (MetricsSnapshot.failed_connections current)
                   (MetricsSnapshot.failed_connections previous) in
  let! finished := minus64 (MetricsSnapshot.finished_connections current)
                     (MetricsSnapshot.finished_connections previous) in
  let! connected := minus64 (MetricsSnapshot.connected_sessions current)
                      (MetricsSnapshot.connected_sessions previous) in
  let! connection := minus_buckets (MetricsSnapshot.connection_latency_buckets current)
                       (MetricsSnapshot.connection_latency_buckets previous) in
  let! send := minus_buckets (MetricsSnapshot.send_latency_buckets current)
                 (MetricsSnapshot.send_latency_buckets previous) in
  let! read_b := minus_buckets (MetricsSnapshot.read_latency_buckets current)
                   (MetricsSnapshot.read_latency_buckets previous) in
  Ok (mk sent read attempts failed finished connected connection send read_b).
End MetricsDelta.

(** [struct ShardMetrics] *)
Module ShardMetrics.
Record t : Type := mk {
  bytes_sent : Z;
  bytes_read : Z;
  connection_attempts : Z;
  failed_connections : Z;
  finished_connections : Z;
  connection_latency_buckets : list Z;
  send_latency_buckets : list Z;
  read_latency_buckets : list Z
}.

Definition init : t := mk 0 0 0 0 0 empty_buckets empty_buckets empty_buckets.

(** [std::bit_width] of an unsigned number. *)
Definition bit_width (x : Z) : Z := if x =? 0 then 0 else Z.log2 x + 1.

(** The [index] of the three [record_*_latency], for a latency of 64us or more. *)
Definition bucket_index (latency_us : Z) : Z :=
  let bucket := bit_width latency_us in
  let index := bucket - 6 in
  if index >=? 15 then 15 else index.

(** [buckets[index] += 1] *)
Definition bump (buckets : list Z) (index : Z) : outcome (list Z) :=
  match buckets !! Z.to_nat index with
  | Some n => if 0 <=? index then Ok (<[Z.to_nat index := u64 (n + 1)]> buckets) else Undef
  | None => Undef
  end.

(** The body of the three [record_*_latency], on their array. *)
Definition record_latency (buckets : list Z) (latency_us : Z) : outcome (list Z) :=
  if latency_us <? 64 then bump buckets 0 else bump buckets (bucket_index latency_us).

Definition record_connection_latency (m : t) (latency_us : Z) : outcome t :=
  let! b := record_latency (connection_latency_buckets m) latency_us in
  Ok (mk (bytes_sent m) (bytes_read m) (connection_attempts m) (failed_connections m)
        (finished_connections m) b (send_latency_buckets m) (read_latency_buckets m)).

Definition record_send_latency (m : t) (latency_us : Z) : outcome t :=
  let! b := record_latency (send_latency_buckets m) latency_us in
  Ok (mk (bytes_sent m) (bytes_read m) (connection_attempts m) (failed_connections m)
        (finished_connections m) (connection_latency_buckets m) b (read_latency_buckets m)).

Definition record_read_latency (m : t) (latency_us : Z) : outcome t :=
  let! b := record_latency (read_latency_buckets m) latency_us in
  Ok (mk (bytes_sent m) (bytes_read m) (connection_attempts m) (failed_connections m)
        (finished_connections m) (connection_latency_buckets m) (send_latency_buckets m) b).

Definition record_bytes_sent (m : t) (count : Z) : t :=
  mk (u64 (bytes_sent m + count)) (bytes_read m) (connection_attempts m)
    (failed_connections m) (finished_connections m) (connection_latency_buckets m)
    (send_latency_buckets m) (read_latency_buckets m).

Definition record_bytes_read (m : t) (count : Z) : t :=
  mk (bytes_sent m) (u64 (bytes_read m + count)) (connection_attempts m)
    (failed_connections m) (finished_connections m) (connection_latency_buckets m)
    (send_latency_buckets m) (read_latency_buckets m).

Definition record_connection_attempt (m : t) : t :=
  mk (bytes_sent m) (bytes_read m) (u64 (connection_attempts m + 1))
    (failed_connections m) (finished_connections m) (connection_latency_buckets m)
    (send_latency_buckets m) (read_latency_buckets m).

Definition record_connection_fail (m : t) : t :=
  mk (bytes_sent m) (bytes_read m) (connection_attempts m)
    (u64 (failed_connections m + 1)) (finished_connections m)
    (connection_latency_buckets m) (send_latency_buckets m) (read_latency_buckets m).

Definition record_connection_success (m : t) : t :=
  mk (bytes_sent m) (bytes_read m) (connection_attempts m) (failed_connections m)
    (u64 (finished_connections m + 1)) (connection_latency_buckets m)
    (send_latency_buckets m) (read_latency_buckets m).

Definition fetch_snapshot (m : t) : MetricsSnapshot.t :=
  MetricsSnapshot.mk (bytes_sent m) (bytes_read m) (connection_attempts m)
    (failed_connections m) (finished_connections m) 0 (connection_latency_buckets m)
    (send_latency_buckets m) (read_latency_buckets m).
End ShardMetrics.

(** [struct OrchestratorMetrics]: a list of snapshots per shard. *)
Module OrchestratorMetrics.

(** One iteration of [get_aggregate_delta] over the lists of the shards. *)
Definition accumulate (acc : MetricsSnapshot.t * MetricsSnapshot.t)
    (snapshots : list MetricsSnapshot.t) : MetricsSnapshot.t * MetricsSnapshot.t :=
  let '(current, prev) := acc in
  let n := length snapshots in
  match snapshots !! (n - 1)%nat with
  | None => (current, prev)
  | Some latest_ss =>
      let current := MetricsSnapshot.add current latest_ss in
      let prev :=
        if Nat.leb 2 n then
          match snapshots !! (n - 2)%nat with
          | Some prev_ss => MetricsSnapshot.add prev prev_ss
          | None => prev
          end
        else prev in
      (current, prev)
  end.

(** The aggregate without its time, which the orchestrator adds. *)
Definition get_aggregate_delta (m : list (list MetricsSnapshot.t))
  : outcome (MetricsSnapshot.t * MetricsDelta.t) :=
  let '(current, prev) :=
    fold_left accumulate m (MetricsSnapshot.init, MetricsSnapshot.init) in
  let! change := MetricsDelta.compute_difference current prev in
  Ok (current, change).

(** [shard_history.push_back(snapshot)] on the list of the shard [i]. *)
Definition push_snapshot (m : list (list MetricsSnapshot.t)) (i : nat)
    (snapshot : MetricsSnapshot.t) : list (list MetricsSnapshot.t) :=
  match m !! i with
  | Some snapshots => <[i := snapshots ++ [snapshot]]> m
  | None => m
  end.
End OrchestratorMetrics.
