(* ===== verification/MetricsProps.v ===== *)
(** * Theorems on the metrics

    The latency histograms, and the totals and changes the orchestrator
    reports. *)

From S2P Require Import Prelude Metrics.

(** ** Histograms *)

Import ShardMetrics.

(** The latencies of the bucket [i]: below 64us, from [2^(i+5)] us to twice as
    much, or any longer one. *)
Definition in_bucket (i : nat) (l : Z) : bool :=
  match i with
  | O => l <? 64
  | 15%nat => 2 ^ 20 <=? l
  | _ => (2 ^ (Z.of_nat i + 5) <=? l) && (l <? 2 ^ (Z.of_nat i + 6))
  end.

Definition count_in (i : nat) (ls : list Z) : Z :=
  Z.of_nat (length (List.filter (in_bucket i) ls)).

Definition histogram (ls : list Z) : list Z :=
  map (fun i => count_in i ls) (seq 0 NUM_BUCKETS).

(** The bucket of a latency. *)
Definition bucket_of (l : Z) : nat := if l <? 64 then O else Z.to_nat (bucket_index l).

Lemma bucket_index_range l : 64 <= l -> 1 <= bucket_index l <= 15.
Proof.
  intros Hl. unfold bucket_index, bit_width. destruct (l =? 0) eqn:E; bool_to_Z; [lia|].
  assert (6 <= Z.log2 l) by (apply Z.log2_le_pow2; lia).
  cbv zeta. destruct (_ >=? 15) eqn:E'; bool_to_Z; lia.
Qed.

Lemma bucket_of_range l : (bucket_of l < NUM_BUCKETS)%nat.
Proof.
  unfold bucket_of, NUM_BUCKETS. destruct (l <? 64) eqn:E; bool_to_Z; [lia|].
  pose proof (bucket_index_range l ltac:(lia)). lia.
Qed.

Lemma in_bucket_of i l : (i < NUM_BUCKETS)%nat -> in_bucket i l = Nat.eqb i (bucket_of l).
Proof.
  intros Hi. apply eq_true_iff_eq. rewrite Nat.eqb_eq. unfold bucket_of.
  destruct (l <? 64) eqn:E; bool_to_Z.
  - destruct i as [|i]; [split; [done | intros _; by apply Z.ltb_lt]|]. split; [|done].
    assert (64 <= 2 ^ (Z.of_nat (S i) + 5)).
    { change 64 with (2 ^ 6). apply Z.pow_le_mono_r; lia. }
    unfold in_bucket. do 14 (destruct i as [|i]; [intros ?; bool_to_Z; lia|]).
    destruct i; intros ?; bool_to_Z; lia.
  - pose proof (bucket_index_range l ltac:(lia)) as Hr. unfold bucket_index, bit_width in *.
    destruct (l =? 0) eqn:E0; bool_to_Z; [lia|]. cbv zeta in *.
    pose proof (fun b => Z.log2_lt_pow2 l b ltac:(lia)) as Hlt.
    pose proof (fun b => Z.log2_le_pow2 l b ltac:(lia)) as Hle.
    destruct (_ >=? 15) eqn:E'; bool_to_Z; unfold in_bucket, NUM_BUCKETS in *.
    all: destruct i as [|i]; [rewrite Z.ltb_lt; lia|].
    all: do 14 (destruct i as [|i]; [rewrite andb_true_iff, Z.ltb_lt, Z.leb_le, Hlt, Hle; lia|]).
    all: destruct i; [rewrite Z.leb_le, Hle; lia | lia].
Qed.

Lemma length_histogram ls : length (histogram ls) = NUM_BUCKETS.
Proof. unfold histogram. by rewrite length_map, length_seq. Qed.

Lemma histogram_lookup ls i :
  (i < NUM_BUCKETS)%nat -> histogram ls !! i = Some (count_in i ls).
Proof.
  intros Hi. unfold histogram.
  rewrite list_lookup_fmap, lookup_seq_lt by done. done.
Qed.

Lemma count_in_app i ls l :
  count_in i (ls ++ [l]) = count_in i ls + (if in_bucket i l then 1 else 0).
Proof.
  unfold count_in. rewrite List.filter_app, length_app. cbn. destruct (in_bucket i l); cbn; lia.
Qed.

Lemma count_in_le i ls : 0 <= count_in i ls <= Z.of_nat (length ls).
Proof. unfold count_in. pose proof (List.filter_length_le (in_bucket i) ls). lia. Qed.

Lemma record_latency_bump b l :
  record_latency b l = bump b (Z.of_nat (bucket_of l)).
Proof.
  unfold record_latency, bucket_of. destruct (l <? 64) eqn:E; [done|]. bool_to_Z.
  pose proof (bucket_index_range l ltac:(lia)). by rewrite Z2Nat.id by lia.
Qed.

Lemma record_latency_histogram ls l :
  Z.of_nat (length ls) < 2 ^ 64 - 1 ->
  record_latency (histogram ls) l = Ok (histogram (ls ++ [l])).
Proof.
  intros Hn. rewrite record_latency_bump. pose proof (bucket_of_range l) as Hr. unfold bump.
  rewrite Nat2Z.id, histogram_lookup by done.
  replace (0 <=? _) with true by (symmetry; apply Z.leb_le; lia). f_equal.
  pose proof (count_in_le (bucket_of l) ls).
  apply list_eq. intros i. destruct (decide (i < NUM_BUCKETS)%nat) as [Hi|Hi].
  - rewrite (histogram_lookup (ls ++ [l])), count_in_app, in_bucket_of by done.
    destruct (Nat.eqb_spec i (bucket_of l)) as [->|Hne].
    + rewrite list_lookup_insert_eq by (by rewrite length_histogram).
      rewrite u64_small by lia. done.
    + rewrite list_lookup_insert_ne by done. rewrite histogram_lookup, Z.add_0_r by done. done.
  - rewrite !lookup_ge_None_2; rewrite ?length_insert, ?length_histogram; [done | lia | lia].
Qed.

(** ** A sequence of measurements *)

Inductive sample : Type :=
| Connection (latency_us : Z)
| Sent (latency_us : Z)
| Read (latency_us : Z).

Definition record (m : t) (s : sample) : outcome t :=
  match s with
  | Connection l => record_connection_latency m l
  | Sent l => record_send_latency m l
  | Read l => record_read_latency m l
  end.

Fixpoint record_all (m : t) (ss : list sample) : outcome t :=
  match ss with
  | [] => Ok m
  | s :: ss => let! m := record m s in record_all m ss
  end.

Definition connections (ss : list sample) : list Z :=
  flat_map (fun s => match s with Connection l => [l] | _ => [] end) ss.
Definition sents (ss : list sample) : list Z :=
  flat_map (fun s => match s with Sent l => [l] | _ => [] end) ss.
Definition reads (ss : list sample) : list Z :=
  flat_map (fun s => match s with Read l => [l] | _ => [] end) ss.

Definition with_histograms (m : t) (c s r : list Z) : t :=
  mk (bytes_sent m) (bytes_read m) (connection_attempts m) (failed_connections m)
    (finished_connections m) (histogram c) (histogram s) (histogram r).

Lemma record_all_spec ss : forall m c s r,
  Z.of_nat (length c + length s + length r + length ss) < 2 ^ 64 ->
  record_all (with_histograms m c s r) ss
  = Ok (with_histograms m (c ++ connections ss) (s ++ sents ss) (r ++ reads ss)).
Proof.
  induction ss as [|x ss IH]; intros m c s r Hn; cbn [length] in Hn.
  - cbn. by rewrite !app_nil_r.
  - cbn [record_all]. destruct x as [l|l|l]; cbn [record].
    + unfold record_connection_latency.
      change (connection_latency_buckets (with_histograms m c s r)) with (histogram c).
      rewrite record_latency_histogram by lia. cbn [obind].
      change (mk _ _ _ _ _ _ _ _) with (with_histograms m (c ++ [l]) s r).
      rewrite IH by (rewrite length_app; cbn; lia). cbn. by rewrite <- !app_assoc.
    + unfold record_send_latency.
      change (send_latency_buckets (with_histograms m c s r)) with (histogram s).
      rewrite record_latency_histogram by lia. cbn [obind].
      change (mk _ _ _ _ _ _ _ _) with (with_histograms m c (s ++ [l]) r).
      rewrite IH by (rewrite length_app; cbn; lia). cbn. by rewrite <- !app_assoc.
    + unfold record_read_latency.
      change (read_latency_buckets (with_histograms m c s r)) with (histogram r).
      rewrite record_latency_histogram by lia. cbn [obind].
      change (mk _ _ _ _ _ _ _ _) with (with_histograms m c s (r ++ [l])).
      rewrite IH by (rewrite length_app; cbn; lia). cbn. by rewrite <- !app_assoc.
Qed.

(** C29: Fewer than [2^64] measurements recorded in fresh metrics never leave
    their arrays, and each of the three arrays counts the latencies of its own
    kind by the logarithm of their size: below 64us, [2^(i+5)] us to [2^(i+6)]
    us for the bucket [i] from 1 to 14, and everything from [2^20] us on in the
    last one. *)
Theorem latency_histograms ss :
  Z.of_nat (length ss) < 2 ^ 64 ->
  exists m, record_all init ss = Ok m /\
    forall i, (i < NUM_BUCKETS)%nat ->
      connection_latency_buckets m !! i = Some (count_in i (connections ss)) /\
      send_latency_buckets m !! i = Some (count_in i (sents ss)) /\
      read_latency_buckets m !! i = Some (count_in i (reads ss)).
Proof.
  intros Hn. exists (with_histograms init (connections ss) (sents ss) (reads ss)). split.
  - change init with (with_histograms init [] [] []) at 1. by rewrite record_all_spec.
  - intros i Hi. repeat split; by apply histogram_lookup.
Qed.

Lemma latency_histograms_witness :
  exists m,
    record_all init [Connection 70; Sent 63; Read 5000000; Sent 64; Connection 127] = Ok m /\
    forall i, (i < NUM_BUCKETS)%nat ->
      connection_latency_buckets m !! i = Some (count_in i [70; 127]) /\
      send_latency_buckets m !! i = Some (count_in i [63; 64]) /\
      read_latency_buckets m !! i = Some (count_in i [5000000]).
Proof.
  apply (latency_histograms [Connection 70; Sent 63; Read 5000000; Sent 64; Connection 127]).
  vm_compute. reflexivity.
Defined.

(** ** Totals and changes

    A snapshot as the list of all its numbers, and a change likewise. *)

Definition values (s : MetricsSnapshot.t) : list Z :=
  [MetricsSnapshot.bytes_sent s; MetricsSnapshot.bytes_read s;
   MetricsSnapshot.connection_attempts s; MetricsSnapshot.failed_connections s;
   MetricsSnapshot.finished_connections s; MetricsSnapshot.connected_sessions s]
  ++ MetricsSnapshot.connection_latency_buckets s ++ MetricsSnapshot.send_latency_buckets s
  ++ MetricsSnapshot.read_latency_buckets s.

Definition changes (d : MetricsDelta.t) : list Z :=
  [MetricsDelta.bytes_sent d; MetricsDelta.bytes_read d;
   MetricsDelta.connection_attempts d; MetricsDelta.failed_connections d;
   MetricsDelta.finished_connections d; MetricsDelta.connected_sessions d]
  ++ MetricsDelta.connection_latency_buckets d ++ MetricsDelta.send_latency_buckets d
  ++ MetricsDelta.read_latency_buckets d.

Definition value (i : nat) (s : MetricsSnapshot.t) : Z := nth i (values s) 0.
Definition change (i : nat) (d : MetricsDelta.t) : Z := nth i (changes d) 0.

Definition sum (l : list Z) : Z := fold_right Z.add 0 l.

(** The total of the number [i] over the snapshots of a round. *)
Definition total (i : nat) (round : list MetricsSnapshot.t) : Z := sum (map (value i) round).

Definition snapshot_wf (s : MetricsSnapshot.t) : Prop :=
  length (MetricsSnapshot.connection_latency_buckets s) = NUM_BUCKETS /\
  length (MetricsSnapshot.send_latency_buckets s) = NUM_BUCKETS /\
  length (MetricsSnapshot.read_latency_buckets s) = NUM_BUCKETS.

Lemma add_values a b :
  snapshot_wf a -> snapshot_wf b ->
  values (MetricsSnapshot.add a b)
  = zip_with MetricsSnapshot.plus64 (values a) (values b).
Proof.
  intros (H1 & H2 & H3) (K1 & K2 & K3). unfold values, MetricsSnapshot.add. cbn.
  do 6 f_equal. by rewrite !zip_with_app by congruence.
Qed.

Lemma add_wf a b : snapshot_wf a -> snapshot_wf b -> snapshot_wf (MetricsSnapshot.add a b).
Proof.
  intros (H1 & H2 & H3) (K1 & K2 & K3). unfold snapshot_wf. cbn.
  rewrite !length_zip_with, H1, H2, H3, K1, K2, K3. done.
Qed.

Lemma nth_zip_with (f : Z -> Z -> Z) l k i :
  length l = length k -> f 0 0 = 0 -> nth i (zip_with f l k) 0 = f (nth i l 0) (nth i k 0).
Proof.
  revert k i. induction l as [|x l IH]; intros [|y k] i; cbn; try done.
  - intros _ H0. by destruct i.
  - intros [= Hl] H0. destruct i; [done | by apply IH].
Qed.

Lemma length_values a : snapshot_wf a -> length (values a) = 54%nat.
Proof. intros (H1 & H2 & H3). unfold values. cbn. by rewrite !length_app, H1, H2, H3. Qed.

Lemma value_add i a b :
  snapshot_wf a -> snapshot_wf b ->
  value i (MetricsSnapshot.add a b) = u64 (value i a + value i b).
Proof.
  intros Ha Hb. unfold value. rewrite add_values by done.
  apply nth_zip_with; [by rewrite !length_values | done].
Qed.

Lemma total_cons i r round : total i (r :: round) = value i r + total i round.
Proof. done. Qed.

Lemma total_nonneg i round : Forall (fun r => 0 <= value i r) round -> 0 <= total i round.
Proof. induction 1; [done|]. rewrite total_cons. lia. Qed.

(** The sum of the snapshots of a round, when no number overflows. *)
Lemma fold_add round : forall s,
  snapshot_wf s -> Forall snapshot_wf round ->
  (forall i, Forall (fun r => 0 <= value i r) round) -> (forall i, 0 <= value i s) ->
  (forall i, value i s + total i round < 2 ^ 64) ->
  snapshot_wf (fold_left MetricsSnapshot.add round s) /\
  forall i, value i (fold_left MetricsSnapshot.add round s) = value i s + total i round.
Proof.
  induction round as [|r round IH]; intros s Hs Hr Hv H0 Hlt.
  - split; [done|]. intros i. unfold total. cbn. lia.
  - apply List.Forall_cons_iff in Hr as [Hr Hround].
    assert (Hpos : forall i, 0 <= value i r /\ Forall (fun r => 0 <= value i r) round).
    { intros i. specialize (Hv i). by apply List.Forall_cons_iff in Hv. }
    assert (Hadd : forall i, value i (MetricsSnapshot.add s r) = value i s + value i r).
    { intros i. rewrite value_add by done. destruct (Hpos i) as [? Hp].
      apply total_nonneg in Hp. specialize (Hlt i). specialize (H0 i).
      rewrite total_cons in Hlt. apply u64_small. lia. }
    cbn [fold_left].
    destruct (IH (MetricsSnapshot.add s r)) as [Hw Hi].
    + by apply add_wf.
    + done.
    + intros i. apply Hpos.
    + intros i. rewrite Hadd. specialize (H0 i). destruct (Hpos i). lia.
    + intros i. rewrite Hadd. specialize (Hlt i). rewrite total_cons in Hlt. lia.
    + split; [done|]. intros i. rewrite Hi, Hadd, total_cons. lia.
Qed.

Definition small (v : Z) : Prop := 0 <= v < 2 ^ 63.

Lemma minus64_small c p : small c -> small p -> MetricsDelta.minus64 c p = Ok (c - p).
Proof.
  unfold small, MetricsDelta.minus64. intros Hc Hp. rewrite !i64_small by lia.
  replace (_ && _) with true; [done|]. symmetry. apply andb_true_iff. split; lia.
Qed.

Lemma minus_buckets_small c p :
  Forall small c -> Forall small p ->
  MetricsDelta.minus_buckets c p = Ok (zip_with Z.sub c p).
Proof.
  intros Hc. revert p. induction Hc as [|x c Hx Hc IH]; intros [|y p] Hp; try done.
  apply List.Forall_cons_iff in Hp as [Hy Hp]. cbn.
  rewrite minus64_small by done. cbn. by rewrite IH.
Qed.

Lemma compute_difference_small c p :
  snapshot_wf c -> snapshot_wf p -> Forall small (values c) -> Forall small (values p) ->
  exists d, MetricsDelta.compute_difference c p = Ok d /\
    forall i, change i d = value i c - value i p.
Proof.
  intros Hc Hp Sc Sp. eexists. split.
  - unfold values in Sc, Sp. rewrite !Forall_app in Sc, Sp.
    destruct Sc as (Sc & Sc1 & Sc2 & Sc3), Sp as (Sp & Sp1 & Sp2 & Sp3).
    repeat match goal with H : Forall _ (_ :: _) |- _ => apply List.Forall_cons_iff in H as [? H] end.
    unfold MetricsDelta.compute_difference.
    rewrite !minus64_small, !minus_buckets_small by done. cbn [obind]. reflexivity.
  - intros i. unfold change, value.
    rewrite <- (nth_zip_with Z.sub) by (done || by rewrite !length_values).
    f_equal. destruct Hc as (H1 & H2 & H3), Hp as (K1 & K2 & K3). unfold values, changes. cbn.
    do 6 f_equal. by rewrite !zip_with_app by congruence.
Qed.

(** ** Rounds

    In a round every shard pushes a snapshot to its own list. *)

Definition push_round (m : list (list MetricsSnapshot.t)) (round : list MetricsSnapshot.t)
  : list (list MetricsSnapshot.t) :=
  fold_left (fun m p => OrchestratorMetrics.push_snapshot m p.1 p.2)
    (zip (seq 0 (length round)) round) m.

(** The lists of [k] shards after some rounds. *)
Definition histories (k : nat) (rounds : list (list MetricsSnapshot.t)) : list (list MetricsSnapshot.t) :=
  fold_left push_round rounds (replicate k []).

Definition snoc {A} (l : list A) (x : A) : list A := l ++ [x].

Lemma push_round_from round : forall pre m,
  length m = length round ->
  fold_left (fun m p => OrchestratorMetrics.push_snapshot m p.1 p.2)
    (zip (seq (length pre) (length round)) round) (pre ++ m)
  = pre ++ zip_with snoc m round.
Proof.
  induction round as [|r round IH]; intros pre [|l m] Hl; try done.
  injection Hl as Hl. cbn [length seq zip zip_with fold_left fst snd].
  assert (OrchestratorMetrics.push_snapshot (pre ++ l :: m) (length pre) r
          = pre ++ snoc l r :: m) as ->.
  { unfold OrchestratorMetrics.push_snapshot.
    rewrite list_lookup_middle by done. by rewrite insert_app_r_alt, Nat.sub_diag by done. }
  specialize (IH (pre ++ [snoc l r]) m Hl). rewrite length_app, Nat.add_1_r in IH.
  rewrite cons_middle, app_assoc.
  rewrite IH, <- app_assoc. done.
Qed.

Lemma push_round_spec m round :
  length m = length round -> push_round m round = zip_with snoc m round.
Proof. apply (push_round_from round []). Qed.

Lemma length_histories k rounds :
  Forall (fun round => length round = k) rounds -> length (histories k rounds) = k.
Proof.
  unfold histories. intros H. assert (Hm : length (replicate k (@nil MetricsSnapshot.t)) = k) by apply length_replicate.
  revert Hm. generalize (replicate k (@nil MetricsSnapshot.t)).
  induction H as [|r rounds Hr _ IH]; intros m Hm; [done|].
  cbn [fold_left]. apply IH. rewrite push_round_spec, length_zip_with by congruence. lia.
Qed.

Lemma accumulate_snoc2 c p l s1 s2 :
  OrchestratorMetrics.accumulate (c, p) (snoc (snoc l s1) s2)
  = (MetricsSnapshot.add c s2, MetricsSnapshot.add p s1).
Proof.
  unfold OrchestratorMetrics.accumulate, snoc. rewrite !length_app. cbn [length].
  replace (length l + 1 + 1 - 1)%nat with (length (l ++ [s1]))%nat by (rewrite length_app; cbn; lia).
  rewrite list_lookup_middle by done.
  replace (Nat.leb 2 (length l + 1 + 1)) with true by (symmetry; apply Nat.leb_le; lia).
  rewrite <- app_assoc. cbn [app].
  replace (length l + 1 + 1 - 2)%nat with (length l) by lia.
  by rewrite list_lookup_middle.
Qed.

Lemma accumulate_round2 m : forall r1 r2 c p,
  length m = length r1 -> length r1 = length r2 ->
  fold_left OrchestratorMetrics.accumulate (zip_with snoc (zip_with snoc m r1) r2) (c, p)
  = (fold_left MetricsSnapshot.add r2 c, fold_left MetricsSnapshot.add r1 p).
Proof.
  induction m as [|l m IH]; intros [|s1 r1] [|s2 r2] c p H1 H2; try done.
  injection H1 as H1. injection H2 as H2. cbn [zip_with fold_left].
  rewrite accumulate_snoc2. by apply IH.
Qed.

Lemma accumulate_round1 r : forall c p,
  fold_left OrchestratorMetrics.accumulate (zip_with snoc (replicate (length r) []) r) (c, p)
  = (fold_left MetricsSnapshot.add r c, p).
Proof. induction r as [|s r IH]; intros c p; [done|]. apply IH. Qed.

(** A round whose totals fit. *)
Definition round_ok (k : nat) (round : list MetricsSnapshot.t) : Prop :=
  length round = k /\ Forall snapshot_wf round /\
  (forall i, Forall (fun s => 0 <= value i s) round) /\
  (forall i, total i round < 2 ^ 63).

Lemma init_value i : value i MetricsSnapshot.init = 0.
Proof. unfold value. do 54 (destruct i as [|i]; [done|]). by destruct i. Qed.

Lemma init_small : Forall small (values MetricsSnapshot.init).
Proof. change (values _) with (replicate 54 0). apply Forall_replicate. unfold small. lia. Qed.

Lemma fold_round k round :
  round_ok k round ->
  let s := fold_left MetricsSnapshot.add round MetricsSnapshot.init in
  snapshot_wf s /\ (forall i, value i s = total i round) /\ Forall small (values s).
Proof.
  intros (_ & Hw & Hv & Ht).
  destruct (fold_add round MetricsSnapshot.init) as [Hs Hi]; try done.
  - intros i. rewrite init_value. lia.
  - intros i. rewrite init_value. specialize (Ht i). lia.
  - split; [done|].
    assert (Hval : forall i, value i (fold_left MetricsSnapshot.add round MetricsSnapshot.init)
                             = total i round) by (intros i; by rewrite Hi, init_value).
    split; [done|]. apply List.Forall_forall. intros x Hx.
    apply (In_nth _ _ 0) in Hx as (i & _ & <-). fold (value i (fold_left MetricsSnapshot.add round MetricsSnapshot.init)).
    rewrite Hval. split; [by apply total_nonneg | done].
Qed.

Lemma aggregate_round k pre r :
  Forall (round_ok k) pre -> round_ok k r ->
  exists c d,
    OrchestratorMetrics.get_aggregate_delta (histories k (pre ++ [r])) = Ok (c, d) /\
    forall i, value i c = total i r /\
              change i d = total i r - total i (default [] (list.last pre)).
Proof.
  intros Hpre Hr. pose proof (fold_round k r Hr) as (Hc & Hci & Hcs).
  assert (Hlen : length r = k) by apply Hr.
  set (c := fold_left MetricsSnapshot.add r MetricsSnapshot.init) in *.
  assert (exists p, snapshot_wf p /\ Forall small (values p) /\
            (forall i, value i p = total i (default [] (list.last pre))) /\
            fold_left OrchestratorMetrics.accumulate (histories k (pre ++ [r]))
              (MetricsSnapshot.init, MetricsSnapshot.init) = (c, p))
    as (p & Hp & Hps & Hpi & Heq).
  { unfold histories. rewrite fold_left_app. cbn [fold_left].
    destruct pre as [|q pre _] using rev_ind.
    - exists MetricsSnapshot.init. split_and!; [done | apply init_small | apply init_value |].
      subst k. cbn [fold_left]. rewrite push_round_spec by apply length_replicate. apply accumulate_round1.
    - apply Forall_app in Hpre as [Hpre Hq]. apply List.Forall_cons_iff in Hq as [Hq _].
      destruct (fold_round k q Hq) as (Hp & Hpi & Hps). rewrite last_snoc.
      eexists. split_and!; [exact Hp | exact Hps | exact Hpi |].
      rewrite fold_left_app. cbn [fold_left].
      assert (Hql : length q = k) by apply Hq.
      assert (Hh : length (histories k pre) = k).
      { apply length_histories. eapply Forall_impl; [|exact Hpre]. intros x Hx. apply Hx. }
      fold (histories k pre). rewrite !push_round_spec.
      + apply accumulate_round2; congruence.
      + congruence.
      + rewrite push_round_spec, length_zip_with by congruence. lia. }
  destruct (compute_difference_small c p) as (d & Hd & Hdi); try done.
  exists c, d. unfold OrchestratorMetrics.get_aggregate_delta. rewrite Heq, Hd. split; [done|].
  intros i. rewrite Hdi, Hpi, Hci. done.
Qed.

(** C28: While no total reaches [2^63], every round of snapshots is reported with
    its totals over the shards, and the changes reported since the start add
    up to the totals of the last round: no number of any shard is lost or
    counted twice. *)
Theorem reported_changes k rounds :
  Forall (round_ok k) rounds ->
  exists reports,
    Forall2 (fun n report =>
               OrchestratorMetrics.get_aggregate_delta (histories k (take (S n) rounds))
               = Ok report) (seq 0 (length rounds)) reports /\
    Forall2 (fun round report => forall i, value i report.1 = total i round) rounds reports /\
    forall i, sum (map (fun report => change i report.2) reports)
              = total i (default [] (list.last rounds)).
Proof.
  induction rounds as [|r rounds IH] using rev_ind; intros H.
  - exists []. repeat constructor.
  - apply Forall_app in H as [H Hr]. apply List.Forall_cons_iff in Hr as [Hr _].
    destruct (IH H) as (reports & H1 & H2 & H3).
    destruct (aggregate_round k rounds r H Hr) as (c & d & Hag & Hi).
    exists (reports ++ [(c, d)]). split_and!.
    + rewrite length_app, seq_app. apply Forall2_app.
      * apply Forall2_same_length_lookup in H1 as [Hl H1].
        apply Forall2_same_length_lookup. split; [done|]. intros n x y Hx Hy.
        rewrite take_app_le; [by eapply H1|].
        apply lookup_seq in Hx as [? ?]. lia.
      * constructor; [|constructor]. rewrite take_ge; [done|]. rewrite length_app. cbn. lia.
    + apply Forall2_app; [done|]. constructor; [|constructor]. intros i. apply Hi.
    + intros i. rewrite last_snoc, map_app. unfold sum in *. rewrite fold_right_app. cbn [map fold_right default snd].
      destruct (Hi i) as [_ ->].
      assert (Hf : forall l a, fold_right Z.add a l = fold_right Z.add 0 l + a).
      { clear. induction l as [|x l IHl]; intros a; cbn; [lia|]. rewrite IHl. lia. }
      rewrite Hf, H3. unfold id. lia.
Qed.

(** ** Witness: two shards, two rounds *)

Definition sample_snapshot (sent attempts : Z) : MetricsSnapshot.t :=
  MetricsSnapshot.mk sent 7 attempts 0 attempts attempts empty_buckets
    (attempts :: replicate 15 0) empty_buckets.

Definition sample_rounds : list (list MetricsSnapshot.t) :=
  [[sample_snapshot 100 2; sample_snapshot 50 1]; [sample_snapshot 300 3; sample_snapshot 50 1]].

Lemma sample_rounds_ok : Forall (round_ok 2) sample_rounds.
Proof.
  repeat (apply List.Forall_cons_iff; split); try apply Forall_nil_2.
  all: split; [done|]; split; [by repeat constructor|]; split; intros i.
  all: do 54 (destruct i as [|i]; [repeat constructor; vm_compute; congruence|]).
  all: destruct i; repeat constructor; vm_compute; congruence.
Qed.

Lemma reported_changes_witness :
  exists reports,
    Forall2 (fun n report =>
               OrchestratorMetrics.get_aggregate_delta (histories 2 (take (S n) sample_rounds))
               = Ok report) (seq 0 2) reports /\
    sum (map (fun report => change 0 report.2) reports) = 350.
Proof.
  destruct (reported_changes 2 sample_rounds sample_rounds_ok) as (reports & H1 & _ & H3).
  exists reports. split; [exact H1 | exact (H3 O)].
Defined.
