(* ===== verification/MessageHandler.v ===== *)
(** * Message handlers (src/packets/*-message-handler.{h,cpp})

    What a session does with the messages it reads is decided by a handler: the
    interface [MessageHandler], the handler that answers nothing, and the one
    that runs a WASM module.  The WASM runtime is a parameter: a store, its
    linear memory and the calls of the functions a module exports. *)

From S2P Require Import Prelude.

(** [struct HeaderResult] *)
Module HeaderResult.
Inductive Status : Type := OK | ERROR | TIMEOUT.

Record t : Type := mk { length : Z; status : Status }.
End HeaderResult.

(** [struct MessageHandler]: the packets its callback is called with, in order,
    and the state of the handler afterwards. *)
Class MessageHandler (H : Type) : Type := {
  parse_message : H -> list Z -> list Z -> outcome (list (list Z) * H);
  parse_header : H -> list Z -> outcome (HeaderResult.t * H)
}.

Module NOPMessageHandler.
Record t : Type := mk {}.

Definition parse_message (h : t) (header body : list Z) : outcome (list (list Z) * t) :=
  Ok ([[]], h).

Definition parse_header (h : t) (buffer : list Z) : outcome (HeaderResult.t * t) :=
  Ok (HeaderResult.mk 0 HeaderResult.OK, h).

#[global] Instance handler : MessageHandler t := {|
  MessageHandler.parse_message := parse_message;
  MessageHandler.parse_header := parse_header
|}.
End NOPMessageHandler.

(** ** The WASM runtime *)

Inductive val : Type :=
| I32 (v : Z)
| I64 (v : Z)
| OtherVal.

(** A call returns values, or throws when its result is unwrapped. *)
Inductive call_result (S : Type) : Type :=
| Returned (s : S) (results : list val)
| Thrown (s : S).

Arguments Returned {S} s results.
Arguments Thrown {S} s.

Inductive extern (F : Type) : Type :=
| ExternMemory
| ExternFunc (f : F)
| ExternOther.

Arguments ExternMemory {F}.
Arguments ExternFunc {F} f.
Arguments ExternOther {F}.

(** [wasmtime::Store] with an instance in it: its exports, the bytes of its
    memory, and the calls of its functions on [int32_t] arguments. *)
Class Runtime (M S F : Type) : Type := {
  instantiate : M -> option S;
  export : S -> string -> option (extern F);
  data : S -> list Z;
  set_data : S -> list Z -> S;
  call : S -> F -> list Z -> call_result S
}.

Module WASMMessageHandler.
Section Handler.
Context {M S F : Type} `{Runtime M S F}.

(** The functions of the module; [parse_header_func] is set exactly when
    [handle_header_] is. *)
Record t : Type := mk {
  store_ : S;
  alloc_ : F;
  dealloc_ : F;
  handle_body_ : F;
  handle_header_ : option F
}.

Definition with_store (h : t) (s : S) : t :=
  mk s (alloc_ h) (dealloc_ h) (handle_body_ h) (handle_header_ h).

Definition get_func (s : S) (name : string) : option F :=
  match export s name with
  | Some (ExternFunc f) => Some f
  | _ => None
  end.

(** The constructor; an exception is an error. *)
Definition init (m : M) : outcome t :=
  match instantiate m with
  | None => Err "WASM instance could not be created! Aborting!"
  | Some s =>
      match export s "memory" with
      | Some ExternMemory =>
          match get_func s "alloc" with
          | None => Err "WASM module does not export working alloc! Aborting!"
          | Some alloc_ =>
              match get_func s "dealloc" with
              | None => Err "WASM module does not export working dealloc! Aborting!"
              | Some dealloc_ =>
                  match get_func s "handle_body" with
                  | None =>
                      Err "WASM module does not export working handle_body! Aborting!"
                  | Some handle_body_ =>
                      Ok (mk s alloc_ dealloc_ handle_body_ (get_func s "handle_header"))
                  end
              end
          end
      | _ => Err "WASM memory could not be created! Aborting!"
      end
  end.

(** [f->call(store_, args).unwrap()] inside a [try] with its [catch]. *)
Definition try_call {A : Type} (s : S) (f : F) (args : list Z) (catch : S -> outcome A)
    (k : S -> list val -> outcome A) : outcome A :=
  match call s f args with
  | Returned s results => k s results
  | Thrown s => catch s
  end.

(** [res[0].i32()] and [res[0].i64()], for a function with such a result; the
    runtime aborts on a value of another kind. *)
Definition first_i32 (results : list val) : outcome Z :=
  match results with I32 v :: _ => Ok v | _ => Undef end.

Definition first_i64 (results : list val) : outcome Z :=
  match results with I64 v :: _ => Ok v | _ => Undef end.

(** [memcpy] into and out of the memory of the guest. *)
Definition copy_in (s : S) (index : Z) (bytes : list Z) : outcome S :=
  let mem := data s in
  if (0 <=? index) && (index + Z.of_nat (length bytes) <=? Z.of_nat (length mem))
  then Ok (set_data s (list_inserts (Z.to_nat index) bytes mem)) else Undef.

Definition copy_out (s : S) (index len : Z) : outcome (list Z) :=
  let mem := data s in
  if (0 <=? index) && (index + len <=? Z.of_nat (length mem))
  then Ok (take (Z.to_nat len) (drop (Z.to_nat index) mem)) else Undef.

Definition out_of_bounds (s : S) (index len : Z) : bool :=
  index + len >? Z.of_nat (length (data s)).

(** Every path calls back once; the warnings are not modelled. *)
Definition parse_message (h : t) (header body : list Z) : outcome (list (list Z) * t) :=
  let respond (packet : list Z) (s : S) := Ok ([packet], with_store h s) in
  let catch := respond [] in
  let input_length := u32 (Z.of_nat (length header) + Z.of_nat (length body)) in
  try_call (store_ h) (alloc_ h) [i32 input_length] catch (fun s alloc_res =>
  let! v := first_i32 alloc_res in
  let input_index := u32 v in
  let dealloc_input s packet :=
    try_call s (dealloc_ h) [i32 input_index; i32 input_length] catch
      (fun s _ => respond packet s) in
  if input_index =? 0 then respond [] s
  else if out_of_bounds s input_index input_length then dealloc_input s []
  else
    let! s := copy_in s input_index header in
    let! s := copy_in s (input_index + Z.of_nat (length header)) body in
    try_call s (handle_body_ h) [i32 input_index; i32 input_length] catch (fun s body_res =>
    let! v := first_i64 body_res in
    let packed := u64 v in
    let out_index := Z.land packed (Z.ones 32) in
    let out_length := Z.land (Z.shiftr packed 32) (Z.ones 32) in
    if out_length >? 0 then
      if out_of_bounds s out_index out_length then
        try_call s (dealloc_ h) [i32 out_index; i32 out_length] catch
          (fun s _ => dealloc_input s [])
      else
        let! vec := copy_out s out_index out_length in
        try_call s (dealloc_ h) [i32 out_index; i32 out_length] catch
          (fun s _ => dealloc_input s vec)
    else dealloc_input s [])).

Definition header_error (h : t) (s : S) : outcome (HeaderResult.t * t) :=
  Ok (HeaderResult.mk 0 HeaderResult.ERROR, with_store h s).

(** [parse_header_func], set by the constructor. *)
Definition parse_header_func (h : t) (handle_header_ : F) (buffer : list Z)
  : outcome (HeaderResult.t * t) :=
  let catch := header_error h in
  let input_length := u32 (Z.of_nat (length buffer)) in
  try_call (store_ h) (alloc_ h) [i32 (Z.of_nat (length buffer))] catch (fun s alloc_res =>
  let! v := first_i32 alloc_res in
  let input_index := u32 v in
  let dealloc_input s result :=
    try_call s (dealloc_ h) [i32 input_index; i32 input_length] catch
      (fun s _ => Ok (result, with_store h s)) in
  let failed := HeaderResult.mk 0 HeaderResult.ERROR in
  if input_index =? 0 then dealloc_input s failed
  else if out_of_bounds s input_index input_length then dealloc_input s failed
  else
    let! s := copy_in s input_index buffer in
    try_call s handle_header_ [i32 input_index; i32 input_length] catch (fun s header_res =>
    let! signed_size := first_i32 header_res in
    if signed_size <? 0 then dealloc_input s failed
    else dealloc_input s (HeaderResult.mk (u32 signed_size) HeaderResult.OK))).

Definition parse_header (h : t) (buffer : list Z) : outcome (HeaderResult.t * t) :=
  match handle_header_ h with
  | Some f => parse_header_func h f buffer
  | None => header_error h (store_ h)
  end.

#[global] Instance handler : MessageHandler t := {|
  MessageHandler.parse_message := parse_message;
  MessageHandler.parse_header := parse_header
|}.
End Handler.

#[global] Arguments t S F : clear implicits.
End WASMMessageHandler.
