(* ===== verification/MessageHandlerProps.v ===== *)
(** * Theorems on the message handlers

    The laws of the interface that the sessions rely on, and that both handlers
    obey them: a message is answered exactly once.  For the WASM handler, what
    the guest gets to see and where the answer comes from. *)

From S2P Require Import Prelude MessageHandler.

(** What a session relies on: no header or body is as long as 4 GiB. *)
Class HandlerLaws (H : Type) `{MessageHandler H} : Type := {
  handler_inv : H -> Prop;
  message_answered h header body :
    handler_inv h -> Z.of_nat (length header) + Z.of_nat (length body) < 2 ^ 32 ->
    exists packet h', parse_message h header body = Ok ([packet], h') /\ handler_inv h';
  header_parsed h buffer :
    handler_inv h -> Z.of_nat (length buffer) < 2 ^ 32 ->
    exists r h', parse_header h buffer = Ok (r, h') /\ handler_inv h' /\
                 0 <= HeaderResult.length r < 2 ^ 32
}.

#[export] Instance nop_laws : HandlerLaws NOPMessageHandler.t.
Proof.
  refine {| handler_inv := fun _ => True |}.
  - intros h header body _ _. by exists [], h.
  - intros h buffer _ _. exists (HeaderResult.mk 0 HeaderResult.OK), h.
    split; [done|]. split; [done|]. cbn. lia.
Defined.

Section Wasm.
Import WASMMessageHandler.
Context {M S F : Type} `{Runtime M S F}.

(** Writing the memory of the guest. *)
Hypothesis data_set : forall (s : S) d, data (set_data s d) = d.

(** The functions of the module return the values the documentation of the
    modules asks for, unless they trap. *)
Definition returns_i32 (f : F) : Prop :=
  forall s args s' results,
    call s f args = Returned s' results -> exists v rest, results = I32 v :: rest.

Definition returns_i64 (f : F) : Prop :=
  forall s args s' results,
    call s f args = Returned s' results -> exists v rest, results = I64 v :: rest.

Definition well_typed (h : t S F) : Prop :=
  returns_i32 (alloc_ h) /\ returns_i64 (handle_body_ h) /\
  (forall f, handle_header_ h = Some f -> returns_i32 f).

Lemma well_typed_store h s : well_typed h -> well_typed (with_store h s).
Proof. done. Qed.

(** Memory with [bytes] written from [index] on. *)
Definition splice (index : nat) (bytes mem : list Z) : list Z :=
  take index mem ++ bytes ++ drop (index + length bytes) mem.

Lemma inserts_splice index bytes mem :
  (index + length bytes <= length mem)%nat ->
  list_inserts index bytes mem = splice index bytes mem.
Proof.
  intros Hl. unfold splice. rewrite <- (take_drop index mem) at 1.
  assert (length (take index mem) = index) as Hi by (rewrite length_take; lia).
  rewrite <- Hi at 1. rewrite <- (Nat.add_0_r (length _)), list_inserts_app_r. f_equal.
  rewrite <- (take_drop (length bytes) (drop index mem)), list_inserts_0_r, drop_drop; [done|].
  rewrite length_take, length_drop. lia.
Qed.

(** The store in which [handle_body] is called: the header and the body written
    to the memory one after the other. *)
Definition given (s : S) (index : Z) (header body : list Z) : S :=
  let s' := set_data s (splice (Z.to_nat index) header (data s)) in
  set_data s' (splice (Z.to_nat (index + Z.of_nat (length header))) body (data s')).

Lemma copy_in_splice (s : S) index bytes :
  0 <= index -> index + Z.of_nat (length bytes) <= Z.of_nat (length (data s)) ->
  copy_in s index bytes = Ok (set_data s (splice (Z.to_nat index) bytes (data s))).
Proof.
  intros H1 H2. unfold copy_in.
  replace (_ && _) with true by (symmetry; apply andb_true_iff; split; lia).
  rewrite inserts_splice; [done | lia].
Qed.

Lemma length_splice index bytes mem :
  (index + length bytes <= length mem)%nat -> length (splice index bytes mem) = length mem.
Proof.
  intros Hl. unfold splice. rewrite !length_app, length_take, length_drop. lia.
Qed.

Lemma copy_in_given (s : S) index header body :
  0 <= index ->
  index + Z.of_nat (length header) + Z.of_nat (length body) <= Z.of_nat (length (data s)) ->
  (let! s' := copy_in s index header in copy_in s' (index + Z.of_nat (length header)) body)
  = Ok (given s index header body).
Proof.
  intros H1 H2. rewrite copy_in_splice by lia. cbn [obind].
  rewrite copy_in_splice; [done | lia |]. rewrite data_set, length_splice; lia.
Qed.

Lemma data_given (s : S) index header body :
  0 <= index ->
  index + Z.of_nat (length header) + Z.of_nat (length body) <= Z.of_nat (length (data s)) ->
  data (given s index header body) = splice (Z.to_nat index) (header ++ body) (data s).
Proof.
  intros H1 H2. unfold given. rewrite !data_set, Z2Nat.inj_add, Nat2Z.id by lia.
  rewrite <- (inserts_splice _ body) by (rewrite length_splice; lia).
  rewrite <- (inserts_splice _ header), <- (inserts_splice _ (header ++ body))
    by (rewrite ?length_app; lia).
  rewrite Nat.add_comm. symmetry. apply list_inserts_app_l.
Qed.

(** The one conversation with the guest that ends with an answer: [alloc] returns
    a pointer with room for the message, [handle_body] is called with the header
    and the body there and nothing else changed, it returns a region of its
    memory that is not empty, and both regions are freed.  The answer is the
    region as [handle_body] left it. *)
Definition answer_of (h : t S F) (header body packet : list Z) (s : S) : Prop :=
  let n := Z.of_nat (length header) + Z.of_nat (length body) in
  exists s1 v1 r1 s2 s3 v3 r3 s4 r4 r5 (out_index out_length : Z),
    call (store_ h) (alloc_ h) [i32 n] = Returned s1 (I32 v1 :: r1) /\
    u32 v1 <> 0 /\ u32 v1 + n <= Z.of_nat (length (data s1)) /\
    s2 = given s1 (u32 v1) header body /\
    data s2 = splice (Z.to_nat (u32 v1)) (header ++ body) (data s1) /\
    call s2 (handle_body_ h) [i32 (u32 v1); i32 n] = Returned s3 (I64 v3 :: r3) /\
    u64 v3 = out_length * 2 ^ 32 + out_index /\ 0 <= out_index < 2 ^ 32 /\ 0 < out_length /\
    out_index + out_length <= Z.of_nat (length (data s3)) /\
    call s3 (dealloc_ h) [i32 out_index; i32 out_length] = Returned s4 r4 /\
    call s4 (dealloc_ h) [i32 (u32 v1); i32 n] = Returned s r5 /\
    packet = take (Z.to_nat out_length) (drop (Z.to_nat out_index) (data s3)).

Definition answered (h : t S F) (header body : list Z)
    (r : outcome (list (list Z) * t S F)) : Prop :=
  exists packet s, r = Ok ([packet], with_store h s) /\
    (packet = [] \/ answer_of h header body packet s).

Lemma answered_nothing h header body s : answered h header body (Ok ([[]], with_store h s)).
Proof. exists [], s. auto. Qed.

Lemma answered_dealloc h header body s args packet :
  (packet = [] \/
   forall s' r, call s (dealloc_ h) args = Returned s' r -> answer_of h header body packet s') ->
  answered h header body
    (try_call s (dealloc_ h) args (fun s => Ok ([[]], with_store h s))
       (fun s _ => Ok ([packet], with_store h s))).
Proof.
  intros Hp. unfold try_call. destruct (call s (dealloc_ h) args) as [s' r|s'] eqn:E.
  - exists packet, s'. split; [done|]. destruct Hp; eauto.
  - apply answered_nothing.
Qed.

Lemma packed_parts v :
  u64 v = Z.land (Z.shiftr (u64 v) 32) (Z.ones 32) * 2 ^ 32 + Z.land (u64 v) (Z.ones 32).
Proof.
  pose proof (u64_range v). rewrite !Z.land_ones, Z.shiftr_div_pow2 by lia.
  rewrite (Z.mod_small (_ / _)).
  - pose proof (Z.div_mod (u64 v) (2 ^ 32) ltac:(lia)). lia.
  - split; [apply Z.div_pos; lia|]. apply Z.div_lt_upper_bound; lia.
Qed.

(** The two halves of what [handle_body] returns are the only ones. *)
Lemma packed_unique v index len :
  u64 v = len * 2 ^ 32 + index -> 0 <= index < 2 ^ 32 -> 0 < len ->
  Z.land (u64 v) (Z.ones 32) = index /\ Z.land (Z.shiftr (u64 v) 32) (Z.ones 32) = len.
Proof.
  intros Hp Hi Hl. pose proof (packed_parts v) as Hq. pose proof (u64_range v).
  assert (0 <= Z.land (u64 v) (Z.ones 32) < 2 ^ 32)
    by (rewrite Z.land_ones by lia; apply Z.mod_pos_bound; lia).
  split; nia.
Qed.

Lemma parse_message_answered h header body :
  well_typed h -> Z.of_nat (length header) + Z.of_nat (length body) < 2 ^ 32 ->
  answered h header body (parse_message h header body).
Proof.
  intros (Ha & Hb & _) Hn. unfold parse_message. rewrite u32_small by lia.
  set (n := Z.of_nat (length header) + Z.of_nat (length body)) in *.
  unfold try_call at 1. destruct (call (store_ h) (alloc_ h) [i32 n]) as [s1 r1|s1] eqn:E1;
    [|apply answered_nothing].
  destruct (Ha _ _ _ _ E1) as (v1 & q1 & ->). cbn [first_i32 obind].
  destruct (u32 v1 =? 0) eqn:E0; [apply answered_nothing|]. bool_to_Z.
  destruct (out_of_bounds s1 (u32 v1) n) eqn:Eb; [apply answered_dealloc; auto|].
  unfold out_of_bounds in Eb. bool_to_Z. pose proof (u32_range v1).
  rewrite <- obind_assoc, (copy_in_given s1) by lia. cbn [obind].
  unfold try_call at 1. destruct (call (given _ _ _ _) (handle_body_ h) _) as [s3 r3|s3] eqn:E3;
    [|apply answered_nothing].
  destruct (Hb _ _ _ _ E3) as (v3 & q3 & ->). cbn [first_i64 obind].
  pose proof (packed_parts v3) as Hp.
  set (out_length := Z.land (Z.shiftr _ 32) _) in *. set (out_index := Z.land (u64 v3) _) in *.
  assert (0 <= out_index < 2 ^ 32).
  { subst out_index. rewrite Z.land_ones by lia. apply Z.mod_pos_bound. lia. }
  destruct (out_length >? 0) eqn:El; [|apply answered_dealloc; auto]. bool_to_Z.
  destruct (out_of_bounds s3 out_index out_length) eqn:Eo.
  - unfold try_call at 1.
    destruct (call s3 (dealloc_ h) _); [apply answered_dealloc; auto | apply answered_nothing].
  - unfold out_of_bounds in Eo. bool_to_Z. unfold copy_out.
    replace (_ && _) with true by (symmetry; apply andb_true_iff; split; lia). cbn [obind].
    unfold try_call at 1.
    destruct (call s3 (dealloc_ h) _) as [s4 r4|] eqn:E4; [|apply answered_nothing].
    apply answered_dealloc. right. intros s5 r5 E5.
    eexists s1, v1, q1, _, s3, v3, q3, s4, r4, r5, out_index, out_length.
    split_and!; try done; try lia. apply data_given; lia.
Qed.

(** The conversation with an answer is the one the handler has. *)
Lemma answer_of_parsed h header body packet s :
  Z.of_nat (length header) + Z.of_nat (length body) < 2 ^ 32 ->
  answer_of h header body packet s ->
  parse_message h header body = Ok ([packet], with_store h s) /\ packet <> [].
Proof.
  intros Hn (s1 & v1 & r1 & s2 & s3 & v3 & r3 & s4 & r4 & r5 & index & len & E1 & H0 & Hr & ->
    & _ & E3 & Hp & Hi & Hl & Hb & E4 & E5 & ->).
  unfold parse_message. rewrite u32_small by lia.
  set (n := Z.of_nat (length header) + Z.of_nat (length body)) in *. pose proof (u32_range v1).
  unfold try_call at 1. rewrite E1. cbn [first_i32 obind].
  rewrite (proj2 (Z.eqb_neq _ _) H0). unfold out_of_bounds at 1.
  rewrite Z.gtb_ltb, (proj2 (Z.ltb_ge _ _)) by lia.
  rewrite <- obind_assoc, (copy_in_given s1) by lia. cbn [obind].
  unfold try_call at 1. rewrite E3. cbn [first_i64 obind].
  destruct (packed_unique v3 index len) as (-> & ->); [done..|].
  rewrite Z.gtb_ltb, (proj2 (Z.ltb_lt _ _)) by lia. unfold out_of_bounds.
  rewrite Z.gtb_ltb, (proj2 (Z.ltb_ge _ _)) by lia. unfold copy_out.
  replace (_ && _) with true by (symmetry; apply andb_true_iff; split; lia). cbn [obind].
  unfold try_call. rewrite E4, E5. split; [done|].
  intros Hnil%(f_equal length). rewrite length_take, length_drop in Hnil. cbn in Hnil. lia.
Qed.

Lemma header_dealloc h s args result :
  0 <= HeaderResult.length result < 2 ^ 32 ->
  exists r s', try_call s (dealloc_ h) args (header_error h)
                 (fun s _ => Ok (result, with_store h s)) = Ok (r, with_store h s') /\
               0 <= HeaderResult.length r < 2 ^ 32.
Proof.
  intros Hr. unfold try_call. destruct (call s (dealloc_ h) args) as [s' r|s'].
  - by exists result, s'.
  - by exists (HeaderResult.mk 0 HeaderResult.ERROR), s'.
Qed.

Lemma parse_header_ok h buffer :
  well_typed h -> Z.of_nat (length buffer) < 2 ^ 32 ->
  exists r s, parse_header h buffer = Ok (r, with_store h s) /\
              0 <= HeaderResult.length r < 2 ^ 32.
Proof.
  intros (Ha & _ & Hh) Hn. unfold parse_header.
  assert (Herr : forall s, exists r s', header_error h s = Ok (r, with_store h s') /\
                                0 <= HeaderResult.length r < 2 ^ 32).
  { intros s. by exists (HeaderResult.mk 0 HeaderResult.ERROR), s. }
  destruct (handle_header_ h) as [f|]; [|apply Herr]. unfold parse_header_func.
  rewrite u32_small by lia.
  unfold try_call at 1. destruct (call (store_ h) (alloc_ h) _) as [s1 r1|s1] eqn:E1; [|apply Herr].
  destruct (Ha _ _ _ _ E1) as (v1 & q1 & ->). cbn [first_i32 obind].
  destruct (u32 v1 =? 0) eqn:E0; [by apply header_dealloc|].
  destruct (out_of_bounds s1 (u32 v1) _) eqn:Eb; [by apply header_dealloc|].
  unfold out_of_bounds in Eb. bool_to_Z. pose proof (u32_range v1).
  rewrite copy_in_splice by lia. cbn [obind]. unfold try_call at 1.
  destruct (call _ f _) as [s3 r3|s3] eqn:E3; [|apply Herr].
  destruct (Hh f eq_refl _ _ _ _ E3) as (v3 & q3 & ->). cbn [first_i32 obind].
  destruct (v3 <? 0); [by apply header_dealloc|]. apply header_dealloc. cbn. apply u32_range.
Qed.

Definition wasm_laws : HandlerLaws (t S F).
Proof.
  refine {| handler_inv := well_typed |}.
  - intros h header body Hh Hn. destruct (parse_message_answered h header body Hh Hn) as (p & s & Hp & _).
    by exists p, (with_store h s).
  - intros h buffer Hh Hn. destruct (parse_header_ok h buffer Hh Hn) as (r & s & Hr & Hl).
    by exists r, (with_store h s).
Defined.

End Wasm.

(** C20: A WASM module whose exports have the documented result types can trap,
    return any pointer or length, and change its memory: the handler still
    stays inside the memory of the guest and answers every message exactly
    once.  It answers with a packet that is not empty exactly when the guest
    allocates room for the message, returns a non-empty region of its memory
    from [handle_body], called with the header followed by the body in its
    memory and nothing else changed, and frees both regions; the packet is then
    that region.  In every other case the one answer is the empty packet. *)
Theorem wasm_message_contract {M S F : Type} `{Runtime M S F}
    (data_set : forall (s : S) d, data (set_data s d) = d)
    (h : WASMMessageHandler.t S F) header body :
  well_typed h -> Z.of_nat (length header) + Z.of_nat (length body) < 2 ^ 32 ->
  (exists packet s,
     WASMMessageHandler.parse_message h header body
     = Ok ([packet], WASMMessageHandler.with_store h s)) /\
  (forall packet s, packet <> [] ->
     WASMMessageHandler.parse_message h header body
     = Ok ([packet], WASMMessageHandler.with_store h s) <->
     answer_of h header body packet s).
Proof.
  intros Hh Hn. destruct (parse_message_answered data_set h header body Hh Hn) as (q & s' & Hq & Ha).
  split; [by exists q, s'|]. intros packet s Hne. rewrite Hq. split.
  - intros [= -> ->]. by destruct Ha.
  - intros Hp. destruct (answer_of_parsed data_set h header body packet s Hn Hp) as (He & _).
    by rewrite <- He, Hq.
Qed.

(** ** Witness: a module that sends every message back *)

Definition echo_call (mem : list Z) (f : nat) (args : list Z) : call_result (list Z) :=
  match f, args with
  | 0%nat, _ => Returned mem [I32 16]
  | 2%nat, [index; len] => Returned mem [I64 (len * 2 ^ 32 + index)]
  | 3%nat, _ => Returned mem [I32 4]
  | 2%nat, _ => Thrown mem
  | _, _ => Returned mem []
  end.

Definition echo_export (mem : list Z) (name : string) : option (extern nat) :=
  if String.eqb name "memory" then Some ExternMemory
  else if String.eqb name "alloc" then Some (ExternFunc 0%nat)
  else if String.eqb name "dealloc" then Some (ExternFunc 1%nat)
  else if String.eqb name "handle_body" then Some (ExternFunc 2%nat)
  else None.

Definition echo_runtime : Runtime unit (list Z) nat := {|
  instantiate := fun _ => Some (replicate 64 0);
  export := echo_export;
  data := fun mem => mem;
  set_data := fun _ d => d;
  call := echo_call
|}.

Definition echo_handler : WASMMessageHandler.t (list Z) nat :=
  WASMMessageHandler.mk (replicate 64 0) 0%nat 1%nat 2%nat None.

Lemma echo_well_typed : @well_typed unit (list Z) nat echo_runtime echo_handler.
Proof.
  split; [|split]; [| |done].
  - intros s args s' results [= <- <-]. by exists 16, [].
  - intros s [|i [|n [|]]] s' results; try done. intros [= <- <-]. by exists (n * 2 ^ 32 + i), [].
Qed.

Lemma wasm_message_contract_witness :
  @WASMMessageHandler.init unit (list Z) nat echo_runtime tt = Ok echo_handler /\
  exists s, @answer_of unit (list Z) nat echo_runtime echo_handler [1; 2] [3] [1; 2; 3] s.
Proof.
  split; [vm_compute; reflexivity|]. eexists.
  apply (@wasm_message_contract unit (list Z) nat echo_runtime (fun _ _ => eq_refl)).
  - apply echo_well_typed.
  - vm_compute. reflexivity.
  - discriminate.
  - vm_compute. reflexivity.
Defined.
