(* ===== verification/Session.v ===== *)
(** * Sessions: what TCP and UDP sessions share (src/transports/)

    The two session classes keep the same control flags, output queue and
    sampling counters, and their write paths are the same code; it is modelled
    once here, over what differs: the state [X] of the read path and its pending
    operations [O].

    A session runs on a strand: one handler after the other.  A handler is a
    function on [world], which holds the members of the session, the objects it
    shares with others and its pending operations: handlers posted to the strand
    and operations started in asio, which complete in any order. *)

From S2P Require Import Prelude Payload ExecutionPlan Metrics MessageHandler.

Module Session.

(** ** State *)

(** The control flags of both classes. *)
Record control_state : Type := mk_control {
  live_ : bool;
  flood_ : bool;
  draining_ : bool;
  writing_ : bool
}.

(** What there is to send. *)
Record output_state : Type := mk_output {
  responses_ : list (list Z);
  next_payload_index_ : Z;
  current_payload_ : PreparedPayload.t;
  writes_queued_ : Z
}.

Record sampling_state : Type := mk_sampling {
  write_sample_counter_ : Z;
  read_sample_counter_ : Z;
  write_start_time_ : Z;
  read_start_time_ : Z
}.

(** A call of [asio::async_write] (or [async_send]). *)
Inductive write : Type :=
| WroteResponse (packet : list Z)
| WrotePayload (index : Z).

(** The objects a session shares, how often it has read the clocks, how often it
    has called [on_disconnect_], and its writes so far. *)
Record shared_state (H : Type) : Type := mk_shared {
  payload_manager_ : PayloadManager.t;
  metrics_sink_ : ShardMetrics.t;
  message_handler_ : H;
  ticks : nat;
  fills : nat;
  disconnects : nat;
  written : list write
}.

Arguments mk_shared {H}.
Arguments payload_manager_ {H}.
Arguments metrics_sink_ {H}.
Arguments message_handler_ {H}.
Arguments ticks {H}.
Arguments fills {H}.
Arguments disconnects {H}.
Arguments written {H}.

(** Pending operations: the posted handlers, with the response a message handler
    posts, and the completions of writes.  A write of a payload refers to the
    buffers it was given, not to their bytes. *)
Inductive op (O : Type) : Type :=
| StartTask
| FloodTask
| SendTask (n : Z)
| DrainTask
| StopTask
| ResponseTask (packet : list Z)
| ResponseWritten (packet : list Z)
| PayloadWritten (index : Z) (slices : list PreparedPayload.slice)
| Transport (o : O).

Arguments StartTask {O}.
Arguments FloodTask {O}.
Arguments SendTask {O} n.
Arguments DrainTask {O}.
Arguments StopTask {O}.
Arguments ResponseTask {O} packet.
Arguments ResponseWritten {O} packet.
Arguments PayloadWritten {O} index slices.
Arguments Transport {O} o.

(** How an operation ends: with an error code, or with the bytes transferred. *)
Inductive result : Type :=
| Failed
| Success (data : list Z).

Record world (X O H : Type) : Type := mk_world {
  control : control_state;
  output : output_state;
  sampling : sampling_state;
  extra : X;
  shared : shared_state H;
  pending : list (op O)
}.

Arguments mk_world {X O H}.
Arguments control {X O H}.
Arguments output {X O H}.
Arguments sampling {X O H}.
Arguments extra {X O H}.
Arguments shared {X O H}.
Arguments pending {X O H}.

Section Core.
Context {X O H : Type} `{MessageHandler H}.

Abbreviation world := (world X O H).

(** ** Assignments *)

Definition set_control (c : control_state) (w : world) : world :=
  mk_world c (output w) (sampling w) (extra w) (shared w) (pending w).
Definition set_output (o : output_state) (w : world) : world :=
  mk_world (control w) o (sampling w) (extra w) (shared w) (pending w).
Definition set_sampling (s : sampling_state) (w : world) : world :=
  mk_world (control w) (output w) s (extra w) (shared w) (pending w).
Definition set_extra (x : X) (w : world) : world :=
  mk_world (control w) (output w) (sampling w) x (shared w) (pending w).
Definition set_shared (s : shared_state H) (w : world) : world :=
  mk_world (control w) (output w) (sampling w) (extra w) s (pending w).
Definition set_pending (l : list (op O)) (w : world) : world :=
  mk_world (control w) (output w) (sampling w) (extra w) (shared w) l.

Definition live (w : world) : bool := live_ (control w).
Definition flooding (w : world) : bool := flood_ (control w).
Definition draining (w : world) : bool := draining_ (control w).
Definition writing (w : world) : bool := writing_ (control w).
Definition responses (w : world) : list (list Z) := responses_ (output w).
Definition next_payload_index (w : world) : Z := next_payload_index_ (output w).
Definition current_payload (w : world) : PreparedPayload.t := current_payload_ (output w).
Definition writes_queued (w : world) : Z := writes_queued_ (output w).

Definition set_live (b : bool) (w : world) : world :=
  set_control (mk_control b (flooding w) (draining w) (writing w)) w.
Definition set_flood (b : bool) (w : world) : world :=
  set_control (mk_control (live w) b (draining w) (writing w)) w.
Definition set_draining (b : bool) (w : world) : world :=
  set_control (mk_control (live w) (flooding w) b (writing w)) w.
Definition set_writing (b : bool) (w : world) : world :=
  set_control (mk_control (live w) (flooding w) (draining w) b) w.

Definition set_responses (l : list (list Z)) (w : world) : world :=
  set_output (mk_output l (next_payload_index w) (current_payload w) (writes_queued w)) w.
Definition set_next_payload_index (i : Z) (w : world) : world :=
  set_output (mk_output (responses w) i (current_payload w) (writes_queued w)) w.
Definition set_current_payload (p : PreparedPayload.t) (w : world) : world :=
  set_output (mk_output (responses w) (next_payload_index w) p (writes_queued w)) w.
Definition set_writes_queued (n : Z) (w : world) : world :=
  set_output (mk_output (responses w) (next_payload_index w) (current_payload w) n) w.

Definition metrics (w : world) : ShardMetrics.t := metrics_sink_ (shared w).
Definition manager (w : world) : PayloadManager.t := payload_manager_ (shared w).

Definition set_metrics (m : ShardMetrics.t) (w : world) : world :=
  let s := shared w in
  set_shared (mk_shared (payload_manager_ s) m (message_handler_ s) (ticks s) (fills s)
                (disconnects s) (written s)) w.
Definition set_handler (h : H) (w : world) : world :=
  let s := shared w in
  set_shared (mk_shared (payload_manager_ s) (metrics_sink_ s) h (ticks s) (fills s)
                (disconnects s) (written s)) w.
Definition on_disconnect (w : world) : world :=
  let s := shared w in
  set_shared (mk_shared (payload_manager_ s) (metrics_sink_ s) (message_handler_ s) (ticks s)
                (fills s) (S (disconnects s)) (written s)) w.

(** [asio::post(strand_, ...)], or an operation started in asio. *)
Definition post (o : op O) (w : world) : world := set_pending (pending w ++ [o]) w.

(** The clocks: [steady_clock] gives the time of a reading, [system_clock] the
    time at an operation of a filled payload. *)
Variable config : SessionConfig.t.
Variable steady_clock : nat -> Z.
Variable system_clock : nat -> nat -> Z.

Definition tick (w : world) : world :=
  let s := shared w in
  set_shared (mk_shared (payload_manager_ s) (metrics_sink_ s) (message_handler_ s)
                (S (ticks s)) (fills s) (disconnects s) (written s)) w.

(** [steady_clock::now()] *)
Definition now (w : world) : Z * world := (steady_clock (ticks (shared w)), tick w).

(** [static_cast<uint64_t>(duration_cast<microseconds>(end - start).count())] *)
Definition latency_us (start end_ : Z) : Z := u64 (Z.quot (end_ - start) 1000).

(** ** Construction *)

Definition init_control : control_state := mk_control false false false false.
Definition init_output : output_state := mk_output [] 0 PreparedPayload.init 0.
Definition init_sampling : sampling_state :=
  mk_sampling (SessionConfig.packet_sample_rate config)
    (SessionConfig.packet_sample_rate config) 0 0.

Definition init (x : X) (m : PayloadManager.t) (sink : ShardMetrics.t) (h : H) : world :=
  mk_world init_control init_output init_sampling x (mk_shared m sink h 0 0 0 []) [].

(** ** Sampling *)

(** Before a read or a write: count it and take the time of one to sample. *)
Definition sample_write (w : world) : world :=
  let s := sampling w in
  let counter := u32 (write_sample_counter_ s + 1) in
  let w := set_sampling (mk_sampling counter (read_sample_counter_ s) (write_start_time_ s)
                           (read_start_time_ s)) w in
  if counter >=? SessionConfig.packet_sample_rate config then
    let '(time, w) := now w in
    set_sampling (mk_sampling counter (read_sample_counter_ s) time (read_start_time_ s)) w
  else w.

Definition sample_read (w : world) : world :=
  let s := sampling w in
  let counter := u32 (read_sample_counter_ s + 1) in
  let w := set_sampling (mk_sampling (write_sample_counter_ s) counter (write_start_time_ s)
                           (read_start_time_ s)) w in
  if counter >=? SessionConfig.packet_sample_rate config then
    let '(time, w) := now w in
    set_sampling (mk_sampling (write_sample_counter_ s) counter (write_start_time_ s) time) w
  else w.

(** After it: record the latency of a sampled one. *)
Definition record_write_sample (w : world) : outcome world :=
  let s := sampling w in
  if write_sample_counter_ s >? SessionConfig.packet_sample_rate config then
    let '(end_, w) := now w in
    let! m := ShardMetrics.record_send_latency (metrics w)
                (latency_us (write_start_time_ s) end_) in
    Ok (set_sampling (mk_sampling 0 (read_sample_counter_ s) (write_start_time_ s)
                        (read_start_time_ s)) (set_metrics m w))
  else Ok w.

Definition record_read_sample (w : world) : outcome world :=
  let s := sampling w in
  if read_sample_counter_ s >? SessionConfig.packet_sample_rate config then
    let '(end_, w) := now w in
    let! m := ShardMetrics.record_read_latency (metrics w)
                (latency_us (read_start_time_ s) end_) in
    Ok (set_sampling (mk_sampling (write_sample_counter_ s) 0 (write_start_time_ s)
                        (read_start_time_ s)) (set_metrics m w))
  else Ok w.

(** ** Closing *)

Definition close_session (w : world) : world :=
  if negb (live w) then w else on_disconnect (set_live false w).

(** ** Writing *)

(** [payload_manager_.fill_payload(next_payload_index_, current_payload_)] *)
Definition fill_payload (w : world) : outcome (bool * world) :=
  let s := shared w in
  let! (valid, p, m) :=
    PayloadManager.fill_payload (system_clock (fills s)) (manager w)
      (Z.to_nat (next_payload_index w)) (current_payload w) in
  Ok (valid,
      set_current_payload p
        (set_shared (mk_shared m (metrics_sink_ s) (message_handler_ s) (ticks s)
                       (S (fills s)) (disconnects s) (written s)) w)).

Definition async_write (what : write) (o : op O) (w : world) : world :=
  let s := shared w in
  post o (set_shared (mk_shared (payload_manager_ s) (metrics_sink_ s) (message_handler_ s)
                        (ticks s) (fills s) (disconnects s) (written s ++ [what])) w).

(** Nothing more to write for now. *)
Definition stop_writing (w : world) : world :=
  let w := set_writing false w in
  if draining w then close_session w else w.

(** Its two kinds of writes. *)
Definition write_response (packet : list Z) (rest : list (list Z)) (w : world) : world :=
  let w := set_responses rest w in
  let w := set_writing true w in
  let w := sample_write w in
  async_write (WroteResponse packet) (ResponseWritten packet) w.

Definition write_payload (w : world) : world :=
  let w := if negb (flooding w)
           then set_writes_queued (u64 (writes_queued w - 1)) w else w in
  let index := next_payload_index w in
  let w := set_next_payload_index (u64 (index + 1)) w in
  let w := set_writing true w in
  let w := sample_write w in
  async_write (WrotePayload index)
    (PayloadWritten index (PreparedPayload.packet_slices (current_payload w))) w.

(** [do_write]; [fuel] bounds its calls of itself, which go back to the first
    payload. *)
Fixpoint do_write (fuel : nat) (w : world) : outcome world :=
  match fuel with
  | 0%nat => NoFuel
  | S fuel =>
      match responses w with
      | packet :: rest => Ok (write_response packet rest w)
      | [] =>
          if flooding w || (writes_queued w >? 0) then
            let! (valid_payload, w) := fill_payload w in
            if negb valid_payload then
              if SessionConfig.loop_payloads config && negb (draining w)
              then do_write fuel (set_next_payload_index 0 w)
              else Ok (stop_writing w)
            else Ok (write_payload w)
          else Ok (stop_writing w)
      end
  end.

(** Going back to the first payload once is enough when there is one. *)
Definition RESTARTS : nat := 2.

(** The completion of a write, of a response or of a payload. *)
Definition on_written (r : result) (w : world) : outcome world :=
  match r with
  | Failed => Ok (close_session w)
  | Success data =>
      let w := set_metrics (ShardMetrics.record_bytes_sent (metrics w)
                              (Z.of_nat (length data))) w in
      let! w := record_write_sample w in
      do_write RESTARTS w
  end.

Definition nonempty {A} (l : list A) : bool := match l with [] => false | _ => true end.

Definition try_start_write (w : world) : outcome world :=
  if writing w then Ok w
  else if flooding w || (writes_queued w >? 0) || nonempty (responses w)
  then do_write RESTARTS w
  else if draining w then Ok (close_session w)
  else Ok w.

(** ** The handlers posted by the pool *)

(** Whether the session may write: it is live, and connected over TCP. *)
Variable ready : world -> bool.

Definition flood_task (w : world) : outcome world :=
  if flooding w || draining w then Ok w
  else
    let w := set_flood true w in
    if ready w then try_start_write w else Ok w.

Definition send_task (n : Z) (w : world) : outcome world :=
  let w := set_writes_queued (u64 (writes_queued w + n)) w in
  if ready w then try_start_write w else Ok w.

Definition drain_task (w : world) : outcome world :=
  let w := set_draining true w in
  if negb (writing w) && (writes_queued w =? 0) && negb (nonempty (responses w))
  then Ok (close_session w) else Ok w.

Definition stop_task (w : world) : outcome world := Ok (close_session w).

(** ** Reading and answering *)

Variable do_read : world -> world.

Definition on_connect (w : world) : outcome world :=
  let w := if SessionConfig.read_messages config then do_read w else w in
  if writing w then Ok w
  else if flooding w || (writes_queued w >? 0) then do_write RESTARTS w
  else Ok w.

Definition handle_message (header body : list Z) (w : world) : outcome world :=
  let! (packets, h) := parse_message (message_handler_ (shared w)) header body in
  Ok (fold_left (fun w packet => post (ResponseTask packet) w) packets (set_handler h w)).

(** The handler that the callback of the message handler posts. *)
Definition response_task (packet : list Z) (w : world) : outcome world :=
  let! w :=
    if Nat.ltb 0 (length packet)
    then try_start_write (set_responses (responses w ++ [packet]) w) else Ok w in
  Ok (do_read w).

(** ** Running an operation *)

Variable start_task : result -> world -> outcome world.
Variable run_transport : O -> result -> world -> outcome world.

(** Handlers that were posted have no result. *)
Definition run_op (o : op O) (r : result) (w : world) : outcome world :=
  match o with
  | StartTask => start_task r w
  | FloodTask => flood_task w
  | SendTask n => send_task n w
  | DrainTask => drain_task w
  | StopTask => stop_task w
  | ResponseTask packet => response_task packet w
  | ResponseWritten _ => on_written r w
  | PayloadWritten _ _ => on_written r w
  | Transport o => run_transport o r w
  end.

(** What asio may report: an error at any time, and otherwise all the bytes of a
    write, read from its buffers by the time it completes. *)
Variable transport_result : world -> O -> list Z -> Prop.

Definition result_of (w : world) (o : op O) (r : result) : Prop :=
  match r, o with
  | Failed, _ => True
  | Success data, ResponseWritten packet => data = packet
  | Success data, PayloadWritten index slices =>
      exists d,
        PayloadManager.payloads_ (manager w) !! Z.to_nat index = Some d /\
        PreparedPayload.read_slices (PayloadDescriptor.packet_data d) (current_payload w) slices
        = Ok data
  | Success data, Transport o => transport_result w o data
  | Success data, _ => data = []
  end.

(** The operations the pool posts; the argument of [send] is a [size_t]. *)
Definition pool_op (o : op O) : bool :=
  match o with
  | StartTask | FloodTask | SendTask _ | DrainTask | StopTask => true
  | _ => false
  end.

Definition size_ok (o : op O) : Prop :=
  match o with SendTask n => 0 <= n < 2 ^ 64 | _ => True end.

Inductive event : Type :=
| Posted (o : op O)
| Ran (o : op O) (r : result).

Definition posts (tr : list event) : list (op O) :=
  flat_map (fun e => match e with Posted o => [o] | Ran _ _ => [] end) tr.

(** What the other sessions do to the shared objects in the meantime: they use
    the counters, the metrics, the clocks and the message handler, on messages
    below 4 GiB. *)
Definition same_buckets (m m' : ShardMetrics.t) : Prop :=
  length (ShardMetrics.connection_latency_buckets m')
  = length (ShardMetrics.connection_latency_buckets m) /\
  length (ShardMetrics.send_latency_buckets m') = length (ShardMetrics.send_latency_buckets m) /\
  length (ShardMetrics.read_latency_buckets m') = length (ShardMetrics.read_latency_buckets m).

Definition same_shape (m m' : PayloadManager.t) : Prop :=
  PayloadManager.payloads_ m' = PayloadManager.payloads_ m /\
  map length (PayloadManager.counters_ m') = map length (PayloadManager.counters_ m).

Inductive handled : H -> H -> Prop :=
| handled_not h : handled h h
| handled_message h h' h'' header body packets :
    handled h h' -> Z.of_nat (length header) + Z.of_nat (length body) < 2 ^ 32 ->
    parse_message h' header body = Ok (packets, h'') -> handled h h''
| handled_header h h' h'' buffer r :
    handled h h' -> Z.of_nat (length buffer) < 2 ^ 32 ->
    parse_header h' buffer = Ok (r, h'') -> handled h h''.

Definition interferes (s s' : shared_state H) : Prop :=
  same_shape (payload_manager_ s) (payload_manager_ s') /\
  same_buckets (metrics_sink_ s) (metrics_sink_ s') /\
  handled (message_handler_ s) (message_handler_ s') /\
  disconnects s' = disconnects s /\ written s' = written s.

(** The histories of a session: the pool calls [start] first and only once; the
    handlers it posts run in their order, the completions in any. *)
Inductive run (w0 : world) : list event -> world -> Prop :=
| run_init : run w0 [] w0
| run_post tr w o :
    run w0 tr w -> pool_op o = true -> size_ok o -> (posts tr = [] <-> o = StartTask) ->
    run w0 (tr ++ [Posted o]) (post o w)
| run_complete tr w pre o post_ r w' :
    run w0 tr w -> pending w = pre ++ o :: post_ ->
    (pool_op o = true -> Forall (fun o' => pool_op o' = false) pre) ->
    result_of w o r -> run_op o r (set_pending (pre ++ post_) w) = Ok w' ->
    run w0 (tr ++ [Ran o r]) w'
| run_other tr w s :
    run w0 tr w -> interferes (shared w) s -> run w0 tr (set_shared s w).

End Core.

Arguments event : clear implicits.
Arguments Posted {O} o.
Arguments Ran {O} o r.
End Session.
