(* ===== verification/SessionFacts.v ===== *)
(** * Facts on the shared core of the sessions

    The invariant of a session and that the steps of the core preserve it:
    [base] holds at every point of a handler, [settled] between handlers. *)

From S2P Require Import Prelude Payload PayloadProps ExecutionPlan Metrics MessageHandler.
From S2P Require Import MessageHandlerProps Session.
Import Session.

(** ** Counting pending operations *)

Definition count {A} (f : A -> bool) (l : list A) : nat := length (List.filter f l).

Arguments count {A} f l : simpl never.

Lemma count_app {A} (f : A -> bool) l k : count f (l ++ k) = (count f l + count f k)%nat.
Proof. unfold count. by rewrite List.filter_app, length_app. Qed.

Lemma count_cons {A} (f : A -> bool) x l :
  count f (x :: l) = ((if f x then 1 else 0) + count f l)%nat.
Proof. unfold count. cbn. by destruct (f x). Qed.

Lemma count_nil {A} (f : A -> bool) : count f [] = 0%nat.
Proof. done. Qed.

(** Compute the counts of lists with known elements. *)
Ltac counts := rewrite ?count_app, ?count_cons, ?count_nil; cbn.

Lemma count_middle {A} (f : A -> bool) l x k :
  count f (l ++ x :: k) = ((if f x then 1 else 0) + count f (l ++ k))%nat.
Proof. rewrite !count_app, count_cons. lia. Qed.

#[export] Instance count_Proper {A} (f : A -> bool) : Proper (Permutation ==> eq) (count f).
Proof.
  intros l k Hp. induction Hp; rewrite ?count_cons; lia.
Qed.

Lemma count_zero {A} (f : A -> bool) l x : count f l = O -> In x l -> f x = false.
Proof.
  induction l as [|y l IH]; [done|]. rewrite count_cons. intros H [->|Hin].
  - by destruct (f x).
  - apply IH; [lia | done].
Qed.

Lemma count_in {A} (f : A -> bool) l x : In x l -> f x = true -> (1 <= count f l)%nat.
Proof.
  intros Hin Hx. apply in_split in Hin as (l1 & l2 & ->). rewrite count_middle, Hx. lia.
Qed.

Lemma filter_none {A} (f : A -> bool) l :
  Forall (fun x => f x = false) l -> List.filter f l = [].
Proof. induction 1 as [|x l Hx _ IH]; [done|]. cbn. by rewrite Hx. Qed.

(** ** Metrics *)

Definition metrics_ok (m : ShardMetrics.t) : Prop :=
  length (ShardMetrics.connection_latency_buckets m) = NUM_BUCKETS /\
  length (ShardMetrics.send_latency_buckets m) = NUM_BUCKETS /\
  length (ShardMetrics.read_latency_buckets m) = NUM_BUCKETS.

Lemma record_latency_ok b l :
  length b = NUM_BUCKETS -> 
  exists b', ShardMetrics.record_latency b l = Ok b' /\ length b' = NUM_BUCKETS.
Proof.
  intros Hb.
  assert (forall i, 0 <= i <= 15 -> exists b', ShardMetrics.bump b i = Ok b' /\ length b' = NUM_BUCKETS)
    as Hbump.
  { intros i Hi. unfold ShardMetrics.bump.
    destruct (lookup_lt_is_Some_2 b (Z.to_nat i)) as (n & ->); [unfold NUM_BUCKETS in Hb; lia|].
    replace (0 <=? i) with true by (symmetry; apply Z.leb_le; lia).
    eexists. split; [done|]. by rewrite length_insert. }
  unfold ShardMetrics.record_latency. destruct (l <? 64) eqn:E; [apply Hbump; lia|]. bool_to_Z.
  apply Hbump. unfold ShardMetrics.bucket_index, ShardMetrics.bit_width.
  destruct (l =? 0) eqn:E0; bool_to_Z; [lia|].
  assert (6 <= Z.log2 l) by (apply Z.log2_le_pow2; lia).
  cbv zeta. destruct (_ >=? 15) eqn:E'; bool_to_Z; lia.
Qed.

Lemma record_send_ok m l :
  metrics_ok m -> exists m', ShardMetrics.record_send_latency m l = Ok m' /\ metrics_ok m'.
Proof.
  intros (H1 & H2 & H3). destruct (record_latency_ok _ l H2) as (b & Hb & Hl).
  unfold ShardMetrics.record_send_latency. rewrite Hb. cbn. by eexists.
Qed.

Lemma record_read_ok m l :
  metrics_ok m -> exists m', ShardMetrics.record_read_latency m l = Ok m' /\ metrics_ok m'.
Proof.
  intros (H1 & H2 & H3). destruct (record_latency_ok _ l H3) as (b & Hb & Hl).
  unfold ShardMetrics.record_read_latency. rewrite Hb. cbn. by eexists.
Qed.

Lemma record_connection_ok m l :
  metrics_ok m -> exists m', ShardMetrics.record_connection_latency m l = Ok m' /\ metrics_ok m'.
Proof.
  intros (H1 & H2 & H3). destruct (record_latency_ok _ l H1) as (b & Hb & Hl).
  unfold ShardMetrics.record_connection_latency. rewrite Hb. cbn. by eexists.
Qed.

(** ** The order of the payloads

    [position n k] is the next index of a session that has written [k] of [n]
    payloads in turn. *)

Definition position (n k : nat) : nat :=
  match k with 0%nat => 0%nat | S j => S (j mod n) end.

Definition in_turn (n k : nat) : list Z := map (fun j => Z.of_nat (j mod n)) (seq 0 k).

Arguments in_turn : simpl never.

Lemma position_lt n k : (position n k < n)%nat -> position n k = (k mod n)%nat.
Proof.
  intros Hn. destruct k as [|j]; cbn [position] in *.
  - by rewrite Nat.Div0.mod_0_l.
  - replace (S j) with (j + 1)%nat by lia. rewrite <- Nat.Div0.add_mod_idemp_l.
    rewrite (Nat.mod_small (j mod n + 1)); lia.
Qed.

Lemma position_ge n k : n <> O -> (n <= position n k)%nat -> (k mod n)%nat = O.
Proof.
  intros Hn Hk. destruct k as [|j]; cbn [position] in *; [lia|].
  pose proof (Nat.mod_upper_bound j n Hn).
  replace (S j) with (j + 1)%nat by lia. rewrite <- Nat.Div0.add_mod_idemp_l.
  replace (j mod n + 1)%nat with n by lia. apply Nat.Div0.mod_same.
Qed.

Lemma position_bound n k : (position n k <= n \/ n = O)%nat.
Proof.
  destruct k as [|j]; cbn; [lia|]. destruct (decide (n = O)) as [->|Hn]; [by right|].
  pose proof (Nat.mod_upper_bound j n Hn). lia.
Qed.

Lemma in_turn_S n k : in_turn n (S k) = in_turn n k ++ [Z.of_nat (k mod n)].
Proof. unfold in_turn. by rewrite seq_S, map_app. Qed.

Definition payload_indices (l : list write) : list Z :=
  flat_map (fun a => match a with WrotePayload i => [i] | WroteResponse _ => [] end) l.

Arguments payload_indices : simpl never.

Lemma payload_indices_app l k : payload_indices (l ++ k) = payload_indices l ++ payload_indices k.
Proof. apply flat_map_app. Qed.

(** ** The calls of the pool *)

Section Calls.
Context {O : Type}.

(** How many payloads the tasks of a list ask for. *)
Definition total (l : list (op O)) : Z :=
  fold_right (fun o n => match o with SendTask m => m + n | _ => n end) 0 l.

Lemma posted_cons o l : total (o :: l) = match o with SendTask m => m | _ => 0 end + total l.
Proof. by destruct o. Qed.

Lemma posted_app l k : total (l ++ k) = total l + total k.
Proof. induction l as [|o l IH]; [done|]. cbn [app]. rewrite !posted_cons, IH. lia. Qed.

Lemma posted_nonneg l : Forall size_ok l -> 0 <= total l.
Proof. induction 1 as [|o l Ho _ IH]; [done|]. rewrite posted_cons. destruct o; cbn in Ho; lia. Qed.

Lemma posts_app (l k : list (event O)) : posts (l ++ k) = posts l ++ posts k.
Proof. apply flat_map_app. Qed.

(** [start] comes first. *)
Definition starts_first (l : list (op O)) : Prop :=
  match l with [] => True | o :: l => o = StartTask /\ ~ In StartTask l end.

End Calls.

(** ** The invariant *)

Section Facts.
Context {X O H : Type} `{HL : HandlerLaws H}.

Abbreviation world := (Session.world X O H).

Variable config : SessionConfig.t.
Variable steady_clock : nat -> Z.
Variable system_clock : nat -> nat -> Z.

(** The payloads of the manager; a session that repeats has some. *)
Variable payloads : list PayloadDescriptor.t.
Hypothesis payloads_ok : Forall descriptor_ok payloads.
Hypothesis payloads_bound : Z.of_nat (length payloads) < 2 ^ 64 - 1.
Hypothesis payloads_some : SessionConfig.loop_payloads config = true -> payloads <> [].

(** Which operations of a transport read, when its session reads and writes, and
    what it keeps of its own state and operations. *)
Variable reads : O -> bool.
Variable begun : bool -> X -> bool.
Variable x_inv : bool -> X -> list O -> Prop.

Definition manager_ok (m : PayloadManager.t) : Prop :=
  PayloadManager.payloads_ m = payloads /\
  Forall2 (fun d (cs : list PayloadCounter.t) => (n_counters (PayloadDescriptor.ops d) <= length cs)%nat)
    payloads (PayloadManager.counters_ m).

Definition is_writer (o : op O) : bool :=
  match o with ResponseWritten _ | PayloadWritten _ _ => true | _ => false end.

Definition is_reader (o : op O) : bool :=
  match o with ResponseTask _ => true | Transport o => reads o | _ => false end.

Definition transports (l : list (op O)) : list O :=
  flat_map (fun o => match o with Transport o => [o] | _ => [] end) l.

Definition wants (w : world) : bool := flooding w || (writes_queued w >? 0).

(** No payload is left to write. *)
Definition exhausted (w : world) : Prop :=
  (SessionConfig.loop_payloads config = false \/ draining w = true) /\
  payloads !! Z.to_nat (next_payload_index w) = None.

(** The payloads written so far, and what is left of the [requested] ones. *)
Definition log_ok (requested : Z) (k : nat) (w : world) : Prop :=
  payload_indices (written (shared w)) = in_turn (length payloads) k /\
  (SessionConfig.loop_payloads config = false -> (k <= length payloads)%nat) /\
  (flooding w = false -> writes_queued w = requested - Z.of_nat k).

Record base (started : bool) (requested : Z) (tasks : list (op O)) (w : world) : Prop := {
  b_manager : manager_ok (manager w);
  b_metrics : metrics_ok (metrics w);
  b_handler : handler_inv (message_handler_ (shared w));
  b_queue : 0 <= writes_queued w <= requested;
  b_requested : requested < 2 ^ 64;
  b_log : exists k, log_ok requested k w /\
            next_payload_index w = Z.of_nat (position (length payloads) k);
  b_live : live w = true -> started = true;
  b_disc : disconnects (shared w) = (if started && negb (live w) then 1 else 0)%nat;
  b_begun : begun started (extra w) = false ->
            writing w = false /\ responses w = [] /\ count is_reader (pending w) = 0%nat;
  b_unstarted : started = false -> draining w = false;
  b_readers : (count is_reader (pending w) <= 1)%nat;
  b_tasks : List.filter pool_op (pending w) = tasks;
  b_extra : x_inv started (extra w) (transports (pending w))
}.

(** The buffers given to a write are those of the current payload, and hold. *)
Definition buffers_ok (w : world) : Prop :=
  forall index slices, In (PayloadWritten index slices) (pending w) ->
    slices = PreparedPayload.packet_slices (current_payload w) /\
    exists d b,
      payloads !! Z.to_nat index = Some d /\
      PreparedPayload.sent_bytes (PayloadDescriptor.packet_data d) (current_payload w) = Ok b.

Record settled (started : bool) (w : world) : Prop := {
  s_writers : (count is_writer (pending w) <= 1)%nat;
  s_idle : writing w = false -> count is_writer (pending w) = 0%nat;
  s_busy : live w = true -> writing w = true -> count is_writer (pending w) = 1%nat;
  s_buffers : buffers_ok w;
  s_quiet : begun started (extra w) = true -> live w = true -> writing w = false ->
            responses w = [] /\ (wants w = true -> exhausted w);
  s_drain : live w = true -> writing w = false -> draining w = true -> 0 < writes_queued w
}.

(** Changes of the sampling and of the shared objects that the invariant does
    not see. *)
Definition sync (s : sampling_state) (sh : shared_state H) (w : world) : world :=
  mk_world (control w) (output w) s (extra w) sh (pending w).

Definition benign (s s' : shared_state H) : Prop :=
  manager_ok (payload_manager_ s') /\ metrics_ok (metrics_sink_ s') /\
  handler_inv (message_handler_ s') /\
  disconnects s' = disconnects s /\ written s' = written s.

Lemma base_sync st r T s sh w : base st r T w -> benign (shared w) sh -> base st r T (sync s sh w).
Proof.
  intros [] (Hm & Hme & Hh & Hd & Hw). constructor; try assumption.
  - destruct b_log0 as (k & (L1 & L2) & L3). exists k. split; [|exact L3].
    split; [cbn; congruence | exact L2].
  - cbn. rewrite Hd. assumption.
Qed.

Lemma settled_sync st s sh w : settled st w -> settled st (sync s sh w).
Proof. intros []. constructor; assumption. Qed.

Lemma sample_write_sync w :
  exists s sh, sample_write config steady_clock w = sync s sh w /\
    sh = mk_shared (manager w) (metrics w) (message_handler_ (shared w)) (ticks sh)
           (fills (shared w)) (disconnects (shared w)) (written (shared w)).
Proof.
  unfold sample_write. cbv zeta. destruct (_ >=? _).
  - eexists _, _. split; reflexivity.
  - eexists _, (shared w). split; [reflexivity|]. by destruct w as [? ? ? ? [] ?].
Qed.

Lemma sample_read_sync w :
  exists s sh, sample_read config steady_clock w = sync s sh w /\
    sh = mk_shared (manager w) (metrics w) (message_handler_ (shared w)) (ticks sh)
           (fills (shared w)) (disconnects (shared w)) (written (shared w)).
Proof.
  unfold sample_read. cbv zeta. destruct (_ >=? _).
  - eexists _, _. split; reflexivity.
  - eexists _, (shared w). split; [reflexivity|]. by destruct w as [? ? ? ? [] ?].
Qed.

Lemma record_write_sync w :
  metrics_ok (metrics w) ->
  exists s sh, record_write_sample config steady_clock w = Ok (sync s sh w) /\
    sh = mk_shared (manager w) (metrics_sink_ sh) (message_handler_ (shared w)) (ticks sh)
           (fills (shared w)) (disconnects (shared w)) (written (shared w)) /\
    metrics_ok (metrics_sink_ sh).
Proof.
  intros Hm. unfold record_write_sample. cbv zeta. destruct (_ >? _).
  - cbn [now].
    match goal with |- context [ShardMetrics.record_send_latency ?m ?l] =>
      destruct (record_send_ok m l) as (m' & -> & Hm'); [exact Hm|] end.
    eexists _, _. split; [reflexivity|]. by split.
  - exists (sampling w), (shared w). split; [by destruct w|].
    split; [by destruct w as [? ? ? ? [] ?] | done].
Qed.

Lemma record_read_sync w :
  metrics_ok (metrics w) ->
  exists s sh, record_read_sample config steady_clock w = Ok (sync s sh w) /\
    sh = mk_shared (manager w) (metrics_sink_ sh) (message_handler_ (shared w)) (ticks sh)
           (fills (shared w)) (disconnects (shared w)) (written (shared w)) /\
    metrics_ok (metrics_sink_ sh).
Proof.
  intros Hm. unfold record_read_sample. cbv zeta. destruct (_ >? _).
  - cbn [now].
    match goal with |- context [ShardMetrics.record_read_latency ?m ?l] =>
      destruct (record_read_ok m l) as (m' & -> & Hm'); [exact Hm|] end.
    eexists _, _. split; [reflexivity|]. by split.
  - exists (sampling w), (shared w). split; [by destruct w|].
    split; [by destruct w as [? ? ? ? [] ?] | done].
Qed.

(** ** Closing *)

Lemma base_close st r T w : base st r T w -> base st r T (close_session w).
Proof.
  intros Hb. unfold close_session. destruct (live w) eqn:E; cbn [negb]; [|done].
  destruct Hb. constructor; try assumption.
  - done.
  - cbn. rewrite b_disc0, b_live0, E by done. done.
Qed.

Lemma close_dead (w : world) : live (close_session w) = false.
Proof. unfold close_session. by destruct (live w) eqn:E. Qed.

Lemma close_fields (w : world) :
  writing (close_session w) = writing w /\ pending (close_session w) = pending w /\
  current_payload (close_session w) = current_payload w /\ extra (close_session w) = extra w.
Proof. unfold close_session. by destruct (negb (live w)). Qed.

(** A closed session is settled once no write is unaccounted for. *)
Lemma settled_close st w :
  (count is_writer (pending w) <= 1)%nat ->
  (writing w = false -> count is_writer (pending w) = 0%nat) -> buffers_ok w ->
  settled st (close_session w).
Proof.
  intros H1 H2 H3. destruct (close_fields w) as (E1 & E2 & E3 & E4).
  constructor; rewrite ?E1, ?E2, ?close_dead; try done.
  intros i sl Hin. rewrite E2 in Hin. rewrite E3. by apply H3.
Qed.

Lemma no_buffers (w : world) : count is_writer (pending w) = 0%nat -> buffers_ok w.
Proof. intros Hc i sl Hin. by apply (count_zero _ _ _ Hc) in Hin. Qed.

Lemma stop_writing_ok st r T w :
  base st r T w -> count is_writer (pending w) = 0%nat -> responses w = [] ->
  (wants w = true -> exhausted w) ->
  base st r T (stop_writing w) /\ settled st (stop_writing w).
Proof.
  intros Hb Hc Hr Hx. unfold stop_writing.
  assert (base st r T (set_writing false w)) as Hb'.
  { destruct Hb. constructor; try assumption. intros Hbg. by destruct (b_begun0 Hbg) as (_ & ? & ?). }
  change (draining (set_writing false w)) with (draining w).
  destruct (draining w) eqn:Ed.
  - split; [by apply base_close|]. apply settled_close; cbn; [lia | done | by apply no_buffers].
  - split; [done|]. constructor; cbn; try done; [lia | by apply no_buffers | congruence].
Qed.

(** ** Writing *)

Lemma write_response_ok st r T w packet rest :
  base st r T w -> count is_writer (pending w) = 0%nat -> responses w = packet :: rest ->
  let w' := write_response config steady_clock packet rest w in
  base st r T w' /\ settled st w'.
Proof.
  intros Hb Hc Hr. cbv zeta. unfold write_response.
  destruct (sample_write_sync (set_writing true (set_responses rest w))) as (s & sh & -> & Hsh).
  assert (begun st (extra w) = true) as Hbg.
  { destruct (begun st (extra w)) eqn:E; [done|]. apply (b_begun _ _ _ _ Hb) in E. destruct E as (_ & E & _).
    congruence. }
  split.
  - destruct Hb. rewrite Hsh. constructor; cbn; try assumption.
    + destruct b_log0 as (k & (L1 & L2) & L3). exists k. split; [|exact L3]. split; [|exact L2].
      cbn. rewrite payload_indices_app. cbn. by rewrite app_nil_r.
    + intros E. congruence.
    + counts. lia.
    + rewrite List.filter_app. cbn. by rewrite app_nil_r.
    + unfold transports. rewrite flat_map_app. cbn. by rewrite app_nil_r.
  - constructor; cbn; try done.
    + counts. lia.
    + counts. lia.
    + intros i sl Hin. cbn in Hin. apply in_app_or in Hin as [Hin|[[=]|[]]].
      by apply (count_zero _ _ _ Hc) in Hin.
Qed.

(** The payload [i], filled into [p], is written. *)
Definition refill (p : PreparedPayload.t) (m : PayloadManager.t) (w : world) : world :=
  let s := shared w in
  set_current_payload p
    (set_shared (mk_shared m (metrics_sink_ s) (message_handler_ s) (ticks s)
                   (S (fills s)) (disconnects s) (written s)) w).

Lemma fill_payload_ok (w : world) :
  manager_ok (manager w) ->
  match payloads !! Z.to_nat (next_payload_index w) with
  | None => fill_payload system_clock w = Ok (false, refill (current_payload w) (manager w) w)
  | Some d =>
      exists p m b, fill_payload system_clock w = Ok (true, refill p m w) /\ manager_ok m /\
        PreparedPayload.sent_bytes (PayloadDescriptor.packet_data d) p = Ok b
  end.
Proof.
  intros [Hp Hc]. unfold fill_payload.
  destruct (payloads !! Z.to_nat (next_payload_index w)) as [d|] eqn:Ed.
  - pose proof (Forall2_lookup_l _ _ _ _ _ Hc Ed) as (cs & Hcs & Hn).
    assert (descriptor_ok d) as Hd by (eapply Forall_lookup_1; eauto).
    rewrite <- Hp in Ed.
    destruct (fill_payload_spec (system_clock (fills (shared w))) _ _ _ (current_payload w)
                d cs Ed eq_refl Hcs Hd Hn) as (p & -> & Hs).
    cbn [obind]. eexists p, _, _. split; [reflexivity|]. split; [|exact Hs]. split; [done|].
    cbn. rewrite <- (list_insert_id payloads (Z.to_nat (next_payload_index w)) d)
      by (by rewrite <- Hp).
    apply Forall2_insert; [done|]. unfold advance_from.
    rewrite !length_app, length_map, !length_take, !length_drop. cbn. lia.
  - unfold PayloadManager.fill_payload. rewrite Hp, Ed. reflexivity.
Qed.

Lemma write_payload_ok st r T w k p m d b :
  base st r T w -> begun st (extra w) = true -> count is_writer (pending w) = 0%nat ->
  responses w = [] -> wants w = true -> log_ok r k w ->
  (SessionConfig.loop_payloads config = false -> (k < length payloads)%nat) ->
  let i := (k mod length payloads)%nat in
  payloads !! i = Some d -> manager_ok m ->
  PreparedPayload.sent_bytes (PayloadDescriptor.packet_data d) p = Ok b ->
  let w' := write_payload config steady_clock
              (refill p m (set_next_payload_index (Z.of_nat i) w)) in
  base st r T w' /\ settled st w'.
Proof.
  intros Hb Hbg Hc Hr Hw (L1 & L2 & L3) Hk i Hd Hm Hs. cbv zeta. unfold write_payload.
  set (w0 := refill p m _).
  change (flooding w0) with (flooding w). change (writes_queued w0) with (writes_queued w).
  set (w1 := if negb (flooding w) then _ else w0).
  assert (exists q, w1 = set_writes_queued q w0 /\ 0 <= q <= r /\
            (flooding w = false -> q = writes_queued w - 1)) as (q & -> & Hq & Hqf).
  { subst w1. pose proof (b_queue _ _ _ _ Hb). pose proof (b_requested _ _ _ _ Hb). destruct (flooding w) eqn:Ef; cbn [negb].
    - exists (writes_queued w). split; [done|]. done.
    - unfold wants in Hw. rewrite Ef in Hw. cbn in Hw. bool_to_Z.
      exists (writes_queued w - 1). rewrite u64_small by lia. split; [done|]. split; [lia|done]. }
  assert (i < length payloads)%nat as Hi by (by eapply lookup_lt_Some).
  change (next_payload_index (set_writes_queued q w0)) with (Z.of_nat i).
  rewrite u64_small by lia. replace (Z.of_nat i + 1) with (Z.of_nat (S i)) by lia.
  match goal with |- context [sample_write config steady_clock ?x] =>
    destruct (sample_write_sync x) as (s & sh & -> & Hsh) end.
  split.
  - destruct Hb. rewrite Hsh. constructor; cbn; try assumption.
    + exists (S k). split; [|done]. split; [|split].
      * cbn. rewrite payload_indices_app, L1, in_turn_S. done.
      * intros Hl. specialize (Hk Hl). lia.
      * intros Hf. cbn in Hf |- *. rewrite Hqf by done. specialize (L3 Hf). lia.
    + intros E. congruence.
    + counts. lia.
    + rewrite List.filter_app. cbn. by rewrite app_nil_r.
    + unfold transports. rewrite flat_map_app. cbn. by rewrite app_nil_r.
  - constructor; cbn; try done.
    + counts. lia.
    + counts. lia.
    + intros j sl Hin. cbn in Hin. apply in_app_or in Hin as [Hin|[[= <- <-]|[]]].
      { by apply (count_zero _ _ _ Hc) in Hin. }
      split; [done|]. exists d, b. rewrite Nat2Z.id. by split.
Qed.

(** A step of a handler ends, settled, without having read. *)
Definition framed (w w' : world) : Prop :=
  extra w' = extra w /\ count is_reader (pending w') = count is_reader (pending w).

Definition settles (st : bool) (r : Z) (T : list (op O)) (w : world) (m : outcome world) : Prop :=
  exists w', m = Ok w' /\ base st r T w' /\ settled st w' /\ framed w w'.

(** The state of the writes when a handler may start one. *)
Definition accounted (w : world) : Prop :=
  (count is_writer (pending w) <= 1)%nat /\
  (writing w = false -> count is_writer (pending w) = 0%nat) /\
  (live w = true -> writing w = true -> count is_writer (pending w) = 1%nat) /\
  buffers_ok w.

Lemma settled_accounted st w : settled st w -> accounted w.
Proof. intros []. by split_and!. Qed.

Lemma settles_now st r T w :
  base st r T w -> settled st w -> settles st r T w (Ok w).
Proof. intros H1 H2. exists w. by split_and!. Qed.

Lemma settles_close st r T w :
  base st r T w -> (count is_writer (pending w) <= 1)%nat ->
  (writing w = false -> count is_writer (pending w) = 0%nat) -> buffers_ok w ->
  settles st r T w (Ok (close_session w)).
Proof.
  intros Hb H1 H2 H4. exists (close_session w).
  destruct (close_fields w) as (E1 & E2 & E3 & E4). unfold framed. rewrite E2, E4.
  split_and!; try done; [by apply base_close | by apply settled_close].
Qed.

Lemma write_response_framed packet rest w :
  framed w (write_response config steady_clock packet rest w).
Proof.
  unfold write_response.
  destruct (sample_write_sync (set_writing true (set_responses rest w))) as (s & sh & -> & _).
  split; [done|]. cbn. counts. lia.
Qed.

Lemma write_payload_framed w : framed w (write_payload config steady_clock w).
Proof.
  unfold write_payload.
  match goal with |- context [sample_write config steady_clock ?x] =>
    destruct (sample_write_sync x) as (s & sh & -> & _) end.
  destruct (negb (flooding w)); (split; [done|]); cbn; counts; lia.
Qed.

Lemma stop_writing_framed w : framed w (stop_writing w).
Proof.
  unfold stop_writing. destruct (draining _); [|done].
  destruct (close_fields (set_writing false w)) as (E1 & E2 & E3 & E4).
  split; [by rewrite E4 | by rewrite E2].
Qed.

Lemma do_write_S fuel (w : world) :
  do_write config steady_clock system_clock (S fuel) w
  = match responses w with
    | packet :: rest => Ok (write_response config steady_clock packet rest w)
    | [] =>
        if flooding w || (writes_queued w >? 0) then
          let! (valid_payload, w) := fill_payload system_clock w in
          if negb valid_payload then
            if SessionConfig.loop_payloads config && negb (draining w)
            then do_write config steady_clock system_clock fuel (set_next_payload_index 0 w)
            else Ok (stop_writing w)
          else Ok (write_payload config steady_clock w)
        else Ok (stop_writing w)
    end.
Proof. done. Qed.

(** The payload is found again at the first one, once they are used up. *)
Lemma do_write_again st r T w k :
  base st r T w -> begun st (extra w) = true -> count is_writer (pending w) = 0%nat ->
  responses w = [] -> wants w = true -> log_ok r k w ->
  SessionConfig.loop_payloads config = true -> payloads !! position (length payloads) k = None ->
  settles st r T w (do_write config steady_clock system_clock 1 (set_next_payload_index 0 w)).
Proof.
  intros Hb Hbg Hc Er Ew Hlog Hl Ed. cbn [do_write].
  change (responses (set_next_payload_index 0 w)) with (responses w). rewrite Er.
  change (flooding (set_next_payload_index 0 w) || (writes_queued (set_next_payload_index 0 w) >? 0))
    with (wants w). rewrite Ew.
  pose proof (fill_payload_ok (set_next_payload_index 0 w) (b_manager _ _ _ _ Hb)) as Hf.
  change (next_payload_index (set_next_payload_index 0 w)) with 0 in Hf.
  assert (Hn : (0 < length payloads)%nat).
  { specialize (payloads_some Hl). by destruct payloads; cbn; [|lia]. }
  assert (Hmod : (k mod length payloads)%nat = 0%nat).
  { apply lookup_ge_None in Ed. apply position_ge; lia. }
  destruct (lookup_lt_is_Some_2 payloads 0 Hn) as (d0 & Hd0).
  change (Z.to_nat 0) with 0%nat in Hf. rewrite Hd0 in Hf.
  destruct Hf as (p & m & b & -> & Hm & Hs). cbn [obind negb].
  destruct (write_payload_ok st r T w k p m d0 b Hb Hbg Hc Er Ew Hlog) as [H1 H2]; try done.
  { congruence. }
  { by rewrite Hmod. }
  rewrite Hmod in H1, H2.
  eexists. split; [reflexivity|]. split; [done|]. split; [done|].
  destruct (write_payload_framed (refill p m (set_next_payload_index 0 w))) as [F1 F2]. by split.
Qed.

Lemma do_write_ok st r T w :
  base st r T w -> begun st (extra w) = true -> count is_writer (pending w) = 0%nat ->
  settles st r T w (do_write config steady_clock system_clock RESTARTS w).
Proof.
  intros Hb Hbg Hc. unfold RESTARTS. rewrite do_write_S.
  destruct (responses w) as [|packet rest] eqn:Er.
  2: { eexists. split; [reflexivity|].
       destruct (write_response_ok st r T w packet rest Hb Hc Er). split; [done|]. split; [done|].
       apply write_response_framed. }
  fold (wants w). destruct (wants w) eqn:Ew.
  2: { eexists. split; [reflexivity|].
       destruct (stop_writing_ok st r T w Hb Hc Er) as [H1 H2]; [congruence|].
       split; [done|]. split; [done|]. apply stop_writing_framed. }
  destruct (b_log _ _ _ _ Hb) as (k & Hlog & Hi).
  assert (Hself : set_next_payload_index (next_payload_index w) w = w) by (by destruct w as [? [] ? ? ? ?]).
  pose proof (fill_payload_ok w (b_manager _ _ _ _ Hb)) as Hf.
  rewrite Hi, Nat2Z.id in Hf.
  destruct (payloads !! position (length payloads) k) as [d|] eqn:Ed.
  - destruct Hf as (p & m & b & -> & Hm & Hs). cbn [obind negb].
    pose proof (lookup_lt_Some _ _ _ Ed) as Hlt.
    rewrite (position_lt _ _ Hlt) in Ed, Hi.
    destruct (write_payload_ok st r T w k p m d b Hb Hbg Hc Er Ew Hlog) as [H1 H2]; try done.
    { intros Hl. destruct Hlog as (_ & Hk & _). specialize (Hk Hl).
      destruct (decide (k = length payloads)) as [->|]; [|lia].
      destruct (length payloads) as [|n]; [lia|]. cbn [position] in Hlt.
      rewrite (Nat.mod_small n (S n)) in Hlt; lia. }
    rewrite <- Hi, Hself in H1, H2. eexists. split; [reflexivity|]. split; [done|]. split; [done|].
    destruct (write_payload_framed (refill p m w)) as [F1 F2]. by split.
  - rewrite Hf. cbn [obind negb].
    set (w1 := refill (current_payload w) (manager w) w).
    assert (base st r T w1) as Hb1.
    { destruct Hb. by constructor. }
    change (draining w1) with (draining w).
    destruct (SessionConfig.loop_payloads config && negb (draining w)) eqn:El.
    + bool_to_Z. by apply (do_write_again st r T w1 k).
    + eexists. split; [reflexivity|].
      destruct (stop_writing_ok st r T w1 Hb1 Hc Er) as [H1 H2].
      { intros _. split.
        - change (draining w1) with (draining w). apply andb_false_iff in El as [|El]; [by left|].
          right. by apply negb_false_iff.
        - change (next_payload_index w1) with (next_payload_index w). by rewrite Hi, Nat2Z.id. }
      split; [done|]. split; [done|]. destruct (stop_writing_framed w1) as [F1 F2]. by split.
Qed.

(** ** The handlers of the core *)

Lemma try_start_write_ok st r T w :
  base st r T w -> begun st (extra w) = true -> accounted w ->
  settles st r T w (try_start_write config steady_clock system_clock w).
Proof.
  intros Hb Hbg Ha. pose proof Ha as (H1 & H2 & H3 & H4). unfold try_start_write.
  destruct (writing w) eqn:Ew.
  { apply settles_now; [done|]. constructor; auto; congruence. }
  fold (wants w). destruct (wants w || nonempty (responses w)) eqn:Eo; [apply do_write_ok; auto|].
  apply orb_false_iff in Eo as [Ewa Er].
  destruct (draining w) eqn:Ed; [apply settles_close; auto|].
  apply settles_now; [done|]. constructor; try assumption; auto; try congruence.
  intros _ _ _. split; [by destruct (responses w) | congruence].
Qed.

Variable ready : world -> bool.
Hypothesis ready_begun : forall st w,
  (live w = true -> st = true) -> ready w = live w && begun st (extra w).

(** A handler that changes what there is to write. *)
Lemma offer_ok st r T w :
  base st r T w -> accounted w ->
  (live w = true -> writing w = false -> draining w = true -> 0 < writes_queued w) ->
  settles st r T w
    (if ready w then try_start_write config steady_clock system_clock w else Ok w).
Proof.
  intros Hb Ha Hd. rewrite (ready_begun st) by apply (b_live _ _ _ _ Hb).
  destruct (live w) eqn:El; cbn [andb].
  - destruct (begun st (extra w)) eqn:Eb; [by apply try_start_write_ok|].
    destruct Ha as (H1 & H2 & H3 & H4). apply settles_now; [done|].
    constructor; auto; congruence.
  - destruct Ha as (H1 & H2 & H3 & H4). apply settles_now; [done|].
    constructor; auto; congruence.
Qed.

Lemma flood_task_ok st r T w :
  base st r T w -> settled st w ->
  settles st r T w (flood_task config steady_clock system_clock ready w).
Proof.
  intros Hb Hs. unfold flood_task. destruct (flooding w || draining w) eqn:E;
    [by apply settles_now|]. apply orb_false_iff in E as [Ef Ed].
  assert (base st r T (set_flood true w)) as Hb'.
  { destruct Hb. constructor; try assumption. destruct b_log0 as (k & (L1 & L2 & L3) & L4).
    exists k. by split_and!. }
  destruct (offer_ok st r T (set_flood true w) Hb' (settled_accounted _ _ Hs)) as (w' & H1 & H2 & H3 & H4).
  { cbn. change (draining_ (control w)) with (draining w). congruence. }
  by exists w'.
Qed.

Lemma send_task_ok st r T w n :
  base st r T w -> settled st w -> 0 <= n -> r + n < 2 ^ 64 ->
  settles st (r + n) T w (send_task config steady_clock system_clock ready n w).
Proof.
  intros Hb Hs Hn Hr. unfold send_task. pose proof (b_queue _ _ _ _ Hb) as Hq.
  rewrite u64_small by lia. set (w1 := set_writes_queued _ w).
  assert (base st (r + n) T w1) as Hb'.
  { destruct Hb. constructor; try assumption; cbn; [lia|].
    destruct b_log0 as (k & (L1 & L2 & L3) & L4). exists k. split; [|done]. split; [done|].
    split; [done|]. intros Hf. cbn. rewrite L3 by done. lia. }
  destruct (offer_ok st (r + n) T w1 Hb' (settled_accounted _ _ Hs)) as (w' & H1 & H2 & H3 & H4).
  { intros El Ew Ed. pose proof (s_drain _ _ Hs El Ew Ed). cbn. lia. }
  by exists w'.
Qed.

Lemma stop_task_ok st r T w :
  base st r T w -> settled st w -> settles st r T w (stop_task w).
Proof. intros Hb []. by apply settles_close. Qed.

Lemma drain_task_ok st r T w :
  base st r T w -> settled st w -> st = true -> settles st r T w (drain_task w).
Proof.
  intros Hb Hs ->. unfold drain_task. set (w1 := set_draining true w).
  assert (base true r T w1) as Hb' by (destruct Hb; by constructor).
  destruct (_ && _) eqn:E; [by destruct Hs; apply (settles_close true r T w1)|].
  exists w1. split; [done|]. split; [done|]. split; [|done].
  destruct Hs. constructor; try assumption.
  - intros Hbg Hl Hw. destruct (s_quiet0 Hbg Hl Hw) as [Hr Hx]. split; [done|].
    intros Hwa. destruct (Hx Hwa) as [_ Hn]. split; [by right | done].
  - intros Hl Hw _.
    assert (responses w = []) as Hr.
    { destruct (begun true (extra w)) eqn:Ebg; [by apply s_quiet0|].
      by destruct (b_begun _ _ _ _ Hb Ebg) as (_ & ? & _). }
    change (negb (writing w) && (writes_queued w =? 0) && negb (nonempty (responses w)) = false) in E.
    change (writing w = false) in Hw. rewrite Hw, Hr in E. cbn [negb andb nonempty] in E.
    rewrite andb_true_r in E. bool_to_Z. pose proof (b_queue _ _ _ _ Hb).
    change (0 < writes_queued w). lia.
Qed.

(** A write completed; its operation is no longer pending. *)
Lemma on_written_ok st r T w res :
  base st r T w -> count is_writer (pending w) = 0%nat -> writing w = true ->
  settles st r T w (on_written config steady_clock system_clock res w).
Proof.
  intros Hb Hc Hw. destruct res as [|data]; cbn [on_written].
  - apply settles_close; [done | lia | done | by apply no_buffers].
  - set (w1 := set_metrics _ w).
    assert (base st r T w1) as Hb1 by (destruct Hb; by constructor).
    destruct (record_write_sync w1 (b_metrics _ _ _ _ Hb1)) as (s & sh & -> & Hsh & Hme).
    cbn [obind]. assert (base st r T (sync s sh w1)) as Hb2.
    { apply base_sync; [done|]. rewrite Hsh. destruct Hb. by split_and!. }
    destruct (do_write_ok st r T (sync s sh w1)) as (w' & H1 & H2 & H3 & H4); try done.
    { destruct (begun st (extra w)) eqn:E; [done|]. destruct (b_begun _ _ _ _ Hb E). congruence. }
    by exists w'.
Qed.
(** ** Reading *)

Variable read_op : O.
Hypothesis read_op_reads : reads read_op = true.
Hypothesis x_inv_read : forall st x l, x_inv st x l -> x_inv st x (l ++ [read_op]).

Definition do_read (w : world) : world :=
  post (Transport read_op) (sample_read config steady_clock w).

(** A step of a handler that ends with one read under way, or a message being
    answered. *)
Definition reads_on (st : bool) (r : Z) (T : list (op O)) (m : outcome world) : Prop :=
  exists w', m = Ok w' /\ base st r T w' /\ settled st w'.

Lemma settles_reads st r T w m : settles st r T w m -> reads_on st r T m.
Proof. intros (w' & H1 & H2 & H3 & _). by exists w'. Qed.

(** One more operation that does not write. *)
Lemma settled_post st o w :
  is_writer o = false -> settled st w -> settled st (post o w).
Proof.
  intros Ho []. assert (Hc : count is_writer (pending w ++ [o]) = count is_writer (pending w)).
  { counts. rewrite Ho. lia. }
  constructor; try assumption; cbn; rewrite ?Hc; try assumption.
  intros i sl Hin. cbn in Hin. apply in_app_or in Hin as [Hin|[->|[]]]; [by apply s_buffers0|].
  done.
Qed.

Lemma base_post_reader st r T o w :
  base st r T w -> begun st (extra w) = true -> count is_reader (pending w) = 0%nat ->
  is_reader o = true -> x_inv st (extra w) (transports (pending w ++ [o])) ->
  base st r T (post o w).
Proof.
  intros Hb Hbg Hc Ho Hx. assert (pool_op o = false) as Hp by (by destruct o).
  destruct Hb. constructor; try assumption; cbn.
  - congruence.
  - counts. rewrite Ho. lia.
  - rewrite List.filter_app. cbn. by rewrite Hp, app_nil_r.
Qed.

Lemma transports_app l k : transports (l ++ k) = transports l ++ transports k.
Proof. apply flat_map_app. Qed.

Lemma do_read_ok st r T w :
  base st r T w -> settled st w -> begun st (extra w) = true ->
  count is_reader (pending w) = 0%nat -> base st r T (do_read w) /\ settled st (do_read w).
Proof.
  intros Hb Hs Hbg Hc. unfold do_read.
  destruct (sample_read_sync w) as (s & sh & -> & Hsh). split.
  - apply base_post_reader; try done.
    + apply base_sync; [done|]. rewrite Hsh. destruct Hb. by split_and!.
    + cbn. rewrite transports_app. apply x_inv_read. apply Hb.
  - apply settled_post; [done|]. by apply settled_sync.
Qed.

(** The answer of the message handler arrived; its operation is no longer
    pending. *)
Lemma response_task_ok st r T w packet :
  base st r T w -> settled st w -> begun st (extra w) = true ->
  count is_reader (pending w) = 0%nat ->
  reads_on st r T (response_task config steady_clock system_clock do_read packet w).
Proof.
  intros Hb Hs Hbg Hc. unfold response_task.
  assert (settles st r T w
    (if Nat.ltb 0 (length packet)
     then try_start_write config steady_clock system_clock (set_responses (responses w ++ [packet]) w)
     else Ok w)) as (w' & -> & H1 & H2 & H3 & H4).
  { destruct (Nat.ltb 0 (length packet)); [|by apply settles_now].
    set (w1 := set_responses _ w).
    destruct (try_start_write_ok st r T w1) as (w' & H1 & H2 & H3 & H4); try done.
    - destruct Hb. constructor; try assumption; try done. cbn. congruence.
    - destruct Hs. by split_and!.
    - by exists w'. }
  cbn [obind]. destruct (do_read_ok st r T w' H1 H2); [congruence | congruence |]. by eexists.
Qed.

(** A message was read. *)
Lemma handle_message_ok st r T w header body :
  base st r T w -> settled st w -> begun st (extra w) = true ->
  count is_reader (pending w) = 0%nat ->
  Z.of_nat (length header) + Z.of_nat (length body) < 2 ^ 32 ->
  reads_on st r T (handle_message header body w).
Proof.
  intros Hb Hs Hbg Hc Hn. unfold handle_message.
  destruct (message_answered (message_handler_ (shared w)) header body (b_handler _ _ _ _ Hb) Hn)
    as (packet & h & -> & Hh).
  cbn [obind fold_left]. eexists. split; [reflexivity|]. split.
  - apply base_post_reader; try done.
    + destruct Hb. by constructor.
    + cbn. rewrite transports_app, app_nil_r. apply Hb.
  - apply settled_post; [done|]. destruct Hs. by constructor.
Qed.

(** A session that has just connected starts to read and to write. *)
Lemma on_connect_ok st r T w :
  base st r T w -> begun st (extra w) = true -> writing w = false -> responses w = [] ->
  count is_reader (pending w) = 0%nat -> count is_writer (pending w) = 0%nat ->
  (live w = true -> draining w = true -> 0 < writes_queued w) ->
  reads_on st r T (on_connect config steady_clock system_clock do_read w).
Proof.
  intros Hb Hbg Hw Hr Hcr Hcw Hd. unfold on_connect.
  set (w1 := if SessionConfig.read_messages config then do_read w else w).
  assert (base st r T w1 /\ count is_writer (pending w1) = 0%nat /\
          control w1 = control w /\ output w1 = output w /\ extra w1 = extra w)
    as (Hb1 & Hc1 & E1 & E2 & E3).
  { subst w1. destruct (SessionConfig.read_messages config); [|done].
    unfold do_read. destruct (sample_read_sync w) as (s & sh & -> & Hsh). split.
    - apply base_post_reader; try done.
      + apply base_sync; [done|]. rewrite Hsh. destruct Hb. by split_and!.
      + cbn. rewrite transports_app. apply x_inv_read. apply Hb.
    - split_and!; try done. cbn. counts. lia. }
  clearbody w1. unfold writing, flooding, writes_queued. rewrite E1, E2.
  change (writing_ (control w)) with (writing w). rewrite Hw.
  change (flood_ (control w) || (writes_queued_ (output w) >? 0)) with (wants w).
  destruct (wants w) eqn:Ew.
  - eapply settles_reads, do_write_ok; congruence.
  - exists w1. split; [done|]. split; [done|].
    constructor; unfold writing, live, responses, writes_queued; rewrite ?E1, ?E2; try done.
    + lia.
    + intros _ E. unfold writing in Hw. congruence.
    + by apply no_buffers.
    + intros _ _ _. split; [done|]. unfold wants, flooding, writes_queued. rewrite E1, E2.
      intros Hwa. change (wants w = true) in Hwa. congruence.
    + unfold draining. rewrite E1. intros Hl _ Hdr. by apply Hd.
Qed.

(** Changes of the state of the transport. *)
Lemma base_set_extra st r T x w :
  base st r T w -> begun st x = begun st (extra w) -> x_inv st x (transports (pending w)) ->
  base st r T (set_extra x w).
Proof. intros [] Hx Hi. constructor; try assumption. cbn. by rewrite Hx. Qed.

Lemma settled_set_extra st x w :
  settled st w -> begun st x = begun st (extra w) -> settled st (set_extra x w).
Proof. intros [] Hx. constructor; try assumption. cbn. by rewrite Hx. Qed.

(** ** Operations that complete *)

Hypothesis x_inv_perm : forall st x l l', Permutation l l' -> x_inv st x l -> x_inv st x l'.

Lemma base_pending st r T T' w l :
  base st r T w ->
  (count is_reader l <= count is_reader (pending w))%nat ->
  List.filter pool_op l = T' -> x_inv st (extra w) (transports l) ->
  base st r T' (set_pending l w).
Proof.
  intros [] Hc Hf Hx. constructor; try assumption; cbn; [|lia].
  intros Hbg. destruct (b_begun0 Hbg) as (? & ? & ?). split_and!; [done | done | lia].
Qed.

Lemma settled_pending st w l :
  settled st w -> count is_writer l = count is_writer (pending w) ->
  (forall o, In o l -> In o (pending w)) -> settled st (set_pending l w).
Proof.
  intros [] Hc Hin. constructor; cbn; rewrite ?Hc; try assumption.
  intros i sl Hi. apply s_buffers0. by apply Hin.
Qed.

Lemma in_remove (pre post_ : list (op O)) o x : In x (pre ++ post_) -> In x (pre ++ o :: post_).
Proof. rewrite !in_app_iff. cbn. tauto. Qed.

Lemma transports_middle pre o post_ :
  (forall x, o <> Transport x) -> transports (pre ++ o :: post_) = transports (pre ++ post_).
Proof.
  intros Ho. rewrite !transports_app. f_equal. destruct o; try done. by destruct (Ho o).
Qed.

Lemma remove_task st r T w pre o post_ :
  base st r T w -> settled st w -> pending w = pre ++ o :: post_ -> pool_op o = true ->
  Forall (fun o' => pool_op o' = false) pre ->
  exists T', T = o :: T' /\ base st r T' (set_pending (pre ++ post_) w) /\
             settled st (set_pending (pre ++ post_) w).
Proof.
  intros Hb Hs Hp Ho Hpre.
  assert (is_reader o = false /\ is_writer o = false /\ forall x, o <> Transport x) as (Hr & Hw & Hx)
    by (by destruct o).
  exists (List.filter pool_op post_). split_and!.
  - rewrite <- (b_tasks _ _ _ _ Hb), Hp, List.filter_app, (filter_none _ pre) by done.
    cbn. by rewrite Ho.
  - eapply base_pending; [done | rewrite Hp, count_middle, Hr; lia | |].
    + by rewrite List.filter_app, (filter_none _ pre) by done.
    + rewrite <- (transports_middle pre o) by done. rewrite <- Hp. apply Hb.
  - apply settled_pending; [done | rewrite Hp, count_middle, Hw; lia |].
    intros x. rewrite Hp. apply in_remove.
Qed.

Lemma filter_middle pre o (post_ : list (op O)) :
  pool_op o = false ->
  List.filter pool_op (pre ++ o :: post_) = List.filter pool_op (pre ++ post_).
Proof. intros Ho. rewrite !List.filter_app. cbn. by rewrite Ho. Qed.

Lemma remove_writer st r T w pre o post_ :
  base st r T w -> settled st w -> pending w = pre ++ o :: post_ -> is_writer o = true ->
  base st r T (set_pending (pre ++ post_) w) /\
  count is_writer (pre ++ post_) = 0%nat /\ writing w = true.
Proof.
  intros Hb Hs Hp Ho. pose proof (s_writers _ _ Hs) as Hc. rewrite Hp, count_middle, Ho in Hc.
  assert (is_reader o = false /\ pool_op o = false /\ forall x, o <> Transport x) as (Hr & Hw & Hx)
    by (by destruct o).
  split_and!.
  - eapply base_pending; [done | rewrite Hp, count_middle, Hr; lia | |].
    + rewrite <- (filter_middle _ o) by done. rewrite <- Hp. apply Hb.
    + rewrite <- (transports_middle pre o) by done. rewrite <- Hp. apply Hb.
  - lia.
  - destruct (writing w) eqn:E; [done|]. apply (s_idle _ _ Hs) in E.
    rewrite Hp, count_middle, Ho in E. lia.
Qed.

Lemma remove_response st r T w pre packet post_ :
  base st r T w -> settled st w -> pending w = pre ++ ResponseTask packet :: post_ ->
  base st r T (set_pending (pre ++ post_) w) /\ settled st (set_pending (pre ++ post_) w) /\
  begun st (extra w) = true /\ count is_reader (pre ++ post_) = 0%nat.
Proof.
  intros Hb Hs Hp. pose proof (b_readers _ _ _ _ Hb) as Hc.
  rewrite Hp, count_middle in Hc. cbn in Hc. split_and!.
  - eapply base_pending; [done | rewrite Hp, count_middle; lia | |].
    + rewrite <- (filter_middle _ (ResponseTask packet)) by done. rewrite <- Hp. apply Hb.
    + rewrite <- (transports_middle pre (ResponseTask packet)) by done. rewrite <- Hp. apply Hb.
  - apply settled_pending; [done | rewrite Hp, count_middle; cbn; lia |].
    intros x. rewrite Hp. apply in_remove.
  - destruct (begun st (extra w)) eqn:E; [done|]. apply (b_begun _ _ _ _ Hb) in E.
    destruct E as (_ & _ & E). rewrite Hp, count_middle in E. cbn in E. lia.
  - lia.
Qed.

(** An operation of the transport, moved to the front. *)
Lemma front_transport st r T w pre o post_ :
  base st r T w -> settled st w -> pending w = pre ++ Transport o :: post_ ->
  base st r T (set_pending (Transport o :: pre ++ post_) w) /\
  settled st (set_pending (pre ++ post_) w).
Proof.
  intros Hb Hs Hp. split.
  - eapply base_pending; [done | rewrite Hp, count_middle, count_cons; lia | |].
    + cbn. rewrite <- (filter_middle pre (Transport o)) by done. rewrite <- Hp. apply Hb.
    + eapply x_inv_perm; [|apply Hb]. rewrite Hp, transports_app. cbn. rewrite transports_app.
      symmetry. apply Permutation_middle.
  - apply settled_pending; [done | rewrite Hp, count_middle; cbn; lia |].
    intros x. rewrite Hp. apply in_remove.
Qed.

(** ** Histories *)

Variable start_task : result -> world -> outcome world.
Variable run_transport : O -> result -> world -> outcome world.
Variable transport_result : world -> O -> list Z -> Prop.

Hypothesis start_task_ok : forall r T w res,
  base false r T w -> settled false w -> reads_on true r T (start_task res w).
Hypothesis transport_result_pending : forall w o data l,
  transport_result w o data -> transport_result (set_pending l w) o data.
Hypothesis run_transport_ok : forall st r T w o res,
  base st r T (set_pending (Transport o :: pending w) w) -> settled st w ->
  match res with Failed => True | Success data => transport_result w o data end ->
  reads_on st r T (run_transport o res w).

Definition requested (tr : list (event O)) : Z :=
  fold_right (fun e n => match e with Ran (SendTask m) _ => m + n | _ => n end) 0 tr.

Definition started (tr : list (event O)) : bool :=
  existsb (fun e => match e with Ran StartTask _ => true | _ => false end) tr.

Lemma requested_snoc tr e :
  requested (tr ++ [e]) = requested tr + match e with Ran (SendTask m) _ => m | _ => 0 end.
Proof.
  unfold requested. rewrite fold_right_app. cbn.
  set (a := match e with Ran (SendTask m) _ => m + 0 | _ => 0 end).
  assert (Ha : a = match e with Ran (SendTask m) _ => m | _ => 0 end).
  { subst a. destruct e as [|[] ?]; lia. }
  rewrite <- Ha. clear Ha. induction tr as [|[o|o r] tr IH]; cbn; [lia | done |].
  destruct o; rewrite ?IH; lia.
Qed.

Lemma started_snoc tr e :
  started (tr ++ [e]) = started tr || match e with Ran StartTask _ => true | _ => false end.
Proof. unfold started. rewrite existsb_app. cbn. by rewrite orb_false_r. Qed.

Lemma posts_snoc tr (e : event O) :
  posts (tr ++ [e]) = posts tr ++ match e with Posted o => [o] | Ran _ _ => [] end.
Proof. unfold posts. rewrite flat_map_app. cbn. by rewrite app_nil_r. Qed.

Record inv (tr : list (event O)) (w : world) : Prop := {
  i_tasks : exists ran tasks,
    posts tr = ran ++ tasks /\ (started tr = false <-> ran = []) /\
    requested tr = total ran /\ base (started tr) (requested tr) tasks w;
  i_settled : settled (started tr) w;
  i_sizes : Forall size_ok (posts tr);
  i_first : starts_first (posts tr)
}.

Lemma inv_post tr w o :
  inv tr w -> pool_op o = true -> size_ok o -> (posts tr = [] <-> o = StartTask) ->
  inv (tr ++ [Posted o]) (post o w).
Proof.
  intros [(ran & tasks & H1 & H2 & Hrt & H3) H4 H5 H6] Ho Hs Hf.
  assert (is_reader o = false /\ is_writer o = false) as [Hr Hw] by (by destruct o).
  constructor; rewrite ?posts_snoc, ?started_snoc, ?requested_snoc, ?orb_false_r, ?Z.add_0_r.
  - exists ran, (tasks ++ [o]). rewrite H1, app_assoc. split_and!; [done | done | done |].
    eapply base_pending; [done | counts; rewrite Hr; lia | |].
    + rewrite List.filter_app. cbn. rewrite Ho. by rewrite (b_tasks _ _ _ _ H3).
    + rewrite transports_app. replace (transports [o]) with (@nil O) by (by destruct o).
      rewrite app_nil_r. apply H3.
  - by apply settled_post.
  - apply Forall_app. by split; [|constructor].
  - destruct (posts tr) as [|o' l]; cbn.
    + split; [by apply Hf | tauto].
    + destruct H6 as [-> Hn]. split; [done|]. rewrite in_app_iff. intros [Hin|[->|[]]]; [done|].
      by destruct Hf as [_ Hf]; specialize (Hf eq_refl).
Qed.

(** A completion that is not a task of the pool changes neither. *)
Lemma inv_ran tr w o res w' :
  pool_op o = false -> inv tr w ->
  (forall T, base (started tr) (requested tr) T w ->
             base (started tr) (requested tr) T w' /\ settled (started tr) w') ->
  inv (tr ++ [Ran o res]) w'.
Proof.
  intros Ho [(ran & tasks & H1 & H2 & Hrt & H3) _ H5 H6] Hw.
  destruct (Hw tasks H3) as [Hb Hs].
  constructor; rewrite ?posts_snoc, ?started_snoc, ?requested_snoc, ?app_nil_r;
    destruct o; try done; rewrite ?orb_false_r, ?Z.add_0_r; try done; by exists ran, tasks.
Qed.

(** Neither does one, but it is the next one, of a started session. *)
Lemma inv_ran_task tr w o res ran tasks w' :
  inv tr w -> posts tr = ran ++ o :: tasks -> pool_op o = true -> requested tr = total ran ->
  base (started (tr ++ [Ran o res])) (requested (tr ++ [Ran o res])) tasks w' ->
  settled (started (tr ++ [Ran o res])) w' -> started (tr ++ [Ran o res]) = true ->
  inv (tr ++ [Ran o res]) w'.
Proof.
  intros [_ _ H5 H6] Hp Ho Hrt Hb Hs Hst.
  constructor; rewrite ?posts_snoc, ?app_nil_r; try done.
  exists (ran ++ [o]), tasks. rewrite <- app_assoc. split_and!; [done | | | done].
  - rewrite Hst. split; [done|]. intros E. by apply app_eq_nil in E as [_ [=]].
  - rewrite requested_snoc, posted_app, posted_cons, Hrt. cbn. lia.
Qed.

(** The next task of the pool: the session has started, unless it is [start]. *)
Lemma next_task tr w o T ran :
  inv tr w -> posts tr = ran ++ o :: T -> (started tr = false <-> ran = []) ->
  (o = StartTask /\ started tr = false) \/ (o <> StartTask /\ started tr = true).
Proof.
  intros [_ _ _ Hf] Hp Hr. rewrite Hp in Hf. destruct ran as [|o' ran]; cbn in Hf.
  - left. split; [apply Hf | by apply Hr].
  - right. destruct Hf as [_ Hn]. split.
    + intros ->. apply Hn. rewrite in_app_iff. right. by left.
    + destruct (started tr); [done|]. by destruct Hr as [Hr _]; specialize (Hr eq_refl).
Qed.

Abbreviation run_op := (Session.run_op config steady_clock system_clock ready do_read start_task
                          run_transport).

Lemma run_task_inv tr w pre o post_ res :
  inv tr w -> pending w = pre ++ o :: post_ -> pool_op o = true ->
  Forall (fun o' => pool_op o' = false) pre -> total (posts tr) < 2 ^ 64 ->
  exists w', run_op o res (set_pending (pre ++ post_) w) = Ok w' /\ inv (tr ++ [Ran o res]) w'.
Proof.
  intros Hi Hp Ho Hpre Hrq. pose proof Hi as [(ran & tasks & H1 & H2 & Hrt & Hb) Hs Hsz _].
  destruct (remove_task _ _ _ _ _ _ _ Hb Hs Hp Ho Hpre) as (T & -> & Hb' & Hs').
  rewrite H1, posted_app, posted_cons, <- Hrt in Hrq.
  rewrite H1, Forall_app, List.Forall_cons_iff in Hsz. destruct Hsz as (_ & Hn & HT).
  apply posted_nonneg in HT.
  enough (exists w', run_op o res (set_pending (pre ++ post_) w) = Ok w' /\
            base (started (tr ++ [Ran o res])) (requested (tr ++ [Ran o res])) T w' /\
            settled (started (tr ++ [Ran o res])) w' /\ started (tr ++ [Ran o res]) = true)
    as (w' & E & E1 & E2 & E3).
  { exists w'. split; [done|]. by eapply inv_ran_task. }
  rewrite requested_snoc, started_snoc.
  destruct (next_task _ _ _ _ _ Hi H1 H2) as [[-> Hst]|[Hne Hst]].
  - rewrite Hst in *. cbn. rewrite Z.add_0_r.
    destruct (start_task_ok _ _ _ res Hb' Hs') as (w' & E & E1 & E2). by exists w'.
  - rewrite Hst in *. cbn [orb].
    destruct o; try done; cbn [Session.run_op]; rewrite ?Z.add_0_r.
    + destruct (flood_task_ok _ _ _ _ Hb' Hs') as (w' & E & E1 & E2 & _). by exists w'.
    + destruct Hn as [Hn _].
      destruct (send_task_ok _ _ _ _ n Hb' Hs' Hn ltac:(lia)) as (w' & E & E1 & E2 & _). by exists w'.
    + destruct (drain_task_ok _ _ _ _ Hb' Hs' eq_refl) as (w' & E & E1 & E2 & _). by exists w'.
    + destruct (stop_task_ok _ _ _ _ Hb' Hs') as (w' & E & E1 & E2 & _). by exists w'.
Qed.

Lemma run_completion_inv tr w pre o post_ res :
  inv tr w -> pending w = pre ++ o :: post_ -> pool_op o = false ->
  result_of transport_result w o res ->
  exists w', run_op o res (set_pending (pre ++ post_) w) = Ok w' /\ inv (tr ++ [Ran o res]) w'.
Proof.
  intros Hi Hp Ho Hres. pose proof Hi as [(ran & tasks & H1 & H2 & Hrt & Hb) Hs _ _].
  assert (forall m, (forall T, base (started tr) (requested tr) T w ->
                      reads_on (started tr) (requested tr) T m) ->
            exists w', m = Ok w' /\ inv (tr ++ [Ran o res]) w') as Hfin.
  { intros m Hm. destruct (Hm _ Hb) as (w' & -> & E1 & E2). exists w'. split; [done|].
    apply (inv_ran tr w); [done | done |]. intros T HT. by destruct (Hm T HT) as (? & [= <-] & ? & ?). }
  apply Hfin. intros T HT. destruct o; try done; cbn [Session.run_op].
  - destruct (remove_response _ _ _ _ _ _ _ HT Hs Hp) as (E1 & E2 & E3 & E4).
    by apply response_task_ok.
  - destruct (remove_writer _ _ _ _ _ _ _ HT Hs Hp eq_refl) as (E1 & E2 & E3).
    by eapply settles_reads, on_written_ok.
  - destruct (remove_writer _ _ _ _ _ _ _ HT Hs Hp eq_refl) as (E1 & E2 & E3).
    by eapply settles_reads, on_written_ok.
  - destruct (front_transport _ _ _ _ _ _ _ HT Hs Hp) as (E1 & E2).
    apply run_transport_ok; [done | done |]. destruct res; [done|]. by apply transport_result_pending.
Qed.

Lemma handled_inv h h' : handler_inv h -> handled h h' -> handler_inv h'.
Proof.
  intros Hh. induction 1 as [h|h h1 h2 header body packets _ IH Hn Hp|h h1 h2 buffer r _ IH Hn Hp]; [done| |].
  - destruct (message_answered h1 header body (IH Hh) Hn) as (p & h3 & E & Hi).
    rewrite Hp in E. by injection E as _ <-.
  - destruct (header_parsed h1 buffer (IH Hh) Hn) as (p & h3 & E & Hi & _).
    rewrite Hp in E. by injection E as _ <-.
Qed.

Lemma same_shape_ok m m' : manager_ok m -> same_shape m m' -> manager_ok m'.
Proof.
  intros [H1 H2] [E1 E2]. split; [congruence|].
  apply Forall2_same_length_lookup_2.
  - rewrite <- (length_map length (PayloadManager.counters_ m')), E2, length_map.
    by apply Forall2_length in H2.
  - intros i d cs' Hd Hcs'.
    assert (map length (PayloadManager.counters_ m') !! i = Some (length cs')) as Hl
      by (by rewrite list_lookup_fmap, Hcs').
    rewrite E2, list_lookup_fmap in Hl. apply fmap_Some in Hl as (cs & Hcs & ->).
    by apply (Forall2_lookup_lr _ _ _ _ _ _ H2 Hd Hcs).
Qed.

Lemma inv_other tr w s :
  inv tr w -> interferes (shared w) s -> inv tr (set_shared s w).
Proof.
  intros [(ran & tasks & H1 & H2 & Hrt & Hb) Hs H5 H6] (I1 & (I2 & I3 & I4) & I5 & I6 & I7).
  change (set_shared s w) with (sync (sampling w) s w). constructor; try done.
  - exists ran, tasks. split_and!; [done | done | done |]. apply base_sync; [done|]. destruct Hb.
    split_and!; try done.
    + by eapply same_shape_ok.
    + destruct b_metrics0 as (? & ? & ?). unfold metrics_ok, metrics in *. split_and!; congruence.
    + by eapply handled_inv.
  - by apply settled_sync.
Qed.

Variable w0 : world.
Hypothesis w0_base : base false 0 [] w0.
Hypothesis w0_settled : settled false w0.

Abbreviation run := (Session.run config steady_clock system_clock ready do_read start_task
                       run_transport transport_result w0).

Lemma run_inv tr w : run tr w -> total (posts tr) < 2 ^ 64 -> inv tr w.
Proof.
  induction 1 as [|tr w o Hrun IH Ho Hsz Hf|tr w pre o post_ r w' Hrun IH Hp Hfifo Hres Hop|tr w s Hrun IH Hi];
    intros Hrq.
  - constructor; try done. exists [], []. by split_and!.
  - rewrite posts_snoc, posted_app in Hrq. apply inv_post; try done. apply IH.
    assert (0 <= total [o]) by (apply posted_nonneg; by constructor). lia.
  - rewrite posts_snoc, app_nil_r in Hrq. specialize (IH Hrq).
    destruct (pool_op o) eqn:Ho.
    + destruct (run_task_inv tr w pre o post_ r IH Hp Ho (Hfifo eq_refl) Hrq) as (w1 & E & Hi).
      rewrite Hop in E. by injection E as <-.
    + destruct (run_completion_inv tr w pre o post_ r IH Hp Ho Hres) as (w1 & E & Hi).
      rewrite Hop in E. by injection E as <-.
  - apply inv_other; auto.
Qed.

(** No operation that may complete fails. *)
Lemma run_progress tr w pre o post_ r :
  run tr w -> total (posts tr) < 2 ^ 64 -> pending w = pre ++ o :: post_ ->
  (pool_op o = true -> Forall (fun o' => pool_op o' = false) pre) ->
  result_of transport_result w o r ->
  exists w', run_op o r (set_pending (pre ++ post_) w) = Ok w'.
Proof.
  intros Hrun Hrq Hp Hfifo Hres. pose proof (run_inv _ _ Hrun Hrq) as Hi.
  destruct (pool_op o) eqn:Ho.
  - destruct (run_task_inv tr w pre o post_ r Hi Hp Ho (Hfifo eq_refl) Hrq) as (w1 & E & _). by exists w1.
  - destruct (run_completion_inv tr w pre o post_ r Hi Hp Ho Hres) as (w1 & E & _). by exists w1.
Qed.
End Facts.

Arguments transports : simpl never.

Lemma transports_snoc {O} (l : list (op O)) o : transports (l ++ [Transport o]) = transports l ++ [o].
Proof. apply (transports_app l [Transport o]). Qed.

Lemma transports_cons {O} (l : list (op O)) o : transports (Transport o :: l) = o :: transports l.
Proof. done. Qed.

(** Without any payload, a session that repeats them never finds one. *)
Lemma do_write_no_payloads {X O H} config steady_clock system_clock fuel :
  SessionConfig.loop_payloads config = true ->
  forall w : Session.world X O H,
    PayloadManager.payloads_ (manager w) = [] -> responses w = [] -> draining w = false ->
    flooding w || (writes_queued w >? 0) = true ->
    do_write config steady_clock system_clock fuel w = NoFuel.
Proof.
  intros Hl. induction fuel as [|fuel IH]; intros w Hp Hr Hd Hw; [done|]. cbn [do_write].
  rewrite Hr, Hw. unfold fill_payload, PayloadManager.fill_payload. rewrite Hp, lookup_nil.
  cbn [obind negb]. rewrite Hl. cbn [andb].
  match goal with |- (if negb (draining ?w1) then _ else _) = _ =>
    change (draining w1) with (draining w) end.
  rewrite Hd. cbn [negb]. by apply IH.
Qed.
