(* ===== verification/TcpSession.v ===== *)
(** * TCP sessions (src/transports/tcp-session.{h,cpp})

    The read path of a TCP session over the shared core: connect, read a header,
    ask the message handler how long the body is, read the body, hand both to
    the message handler and read on when it has answered. *)

From S2P Require Import Prelude Payload ExecutionPlan Metrics MessageHandler Session.

Module TCPSession.
Import Session.

(** Which buffer [body_buffer_ptr_] points to. *)
Inductive buffer_ptr : Type := NullBuffer | SmallBuffer | LargeBuffer.

(** The members of a TCP session outside the core. *)
Record reader : Type := mk_reader {
  connecting_ : bool;
  incoming_header_ : list Z;
  next_payload_size_ : Z;
  body_buffer_ : list Z;
  large_body_buffer_ : list Z;
  body_buffer_ptr_ : buffer_ptr
}.

(** The operations of asio a TCP session starts besides its writes. *)
Inductive tcp_op : Type :=
| Connecting (conn_start : Z)
| HeaderRead
| BodyRead.

Definition MESSAGE_BUFFER_SIZE : Z := 4 * 1024.

Section Tcp.
Context {H : Type} `{MessageHandler H}.

Abbreviation world := (world reader tcp_op H).

Variable config : SessionConfig.t.
Variable steady_clock : nat -> Z.
Variable system_clock : nat -> nat -> Z.

Definition set_connecting (b : bool) (w : world) : world :=
  let x := extra w in
  set_extra (mk_reader b (incoming_header_ x) (next_payload_size_ x) (body_buffer_ x)
               (large_body_buffer_ x) (body_buffer_ptr_ x)) w.
Definition set_incoming_header (l : list Z) (w : world) : world :=
  let x := extra w in
  set_extra (mk_reader (connecting_ x) l (next_payload_size_ x) (body_buffer_ x)
               (large_body_buffer_ x) (body_buffer_ptr_ x)) w.
Definition set_next_payload_size (n : Z) (w : world) : world :=
  let x := extra w in
  set_extra (mk_reader (connecting_ x) (incoming_header_ x) n (body_buffer_ x)
               (large_body_buffer_ x) (body_buffer_ptr_ x)) w.
Definition set_body_buffers (small large : list Z) (p : buffer_ptr) (w : world) : world :=
  let x := extra w in
  set_extra (mk_reader (connecting_ x) (incoming_header_ x) (next_payload_size_ x) small large
               p) w.

(** The constructor. *)
Definition init (m : PayloadManager.t) (sink : ShardMetrics.t) (h : H) : world :=
  Session.init config
    (mk_reader false (replicate (Z.to_nat (SessionConfig.header_size config)) 0) 0
       (replicate (Z.to_nat MESSAGE_BUFFER_SIZE) 0) [] NullBuffer) m sink h.

Definition ready (w : world) : bool := live w && negb (connecting_ (extra w)).

(** [vector::resize(n)] *)
Definition resize (l : list Z) (n : Z) : list Z :=
  take (Z.to_nat n) l ++ replicate (Z.to_nat n - length l) 0.

Definition do_read_header (w : world) : world :=
  post (Transport HeaderRead) (sample_read config steady_clock w).

(** The message in the buffer. *)
Definition body_bytes (x : reader) : outcome (list Z) :=
  let buffer := match body_buffer_ptr_ x with
                | NullBuffer => []
                | SmallBuffer => body_buffer_ x
                | LargeBuffer => large_body_buffer_ x
                end in
  if next_payload_size_ x <=? Z.of_nat (length buffer)
  then Ok (take (Z.to_nat (next_payload_size_ x)) buffer) else Undef.

Definition handle_message (w : world) : outcome world :=
  let! body := body_bytes (extra w) in
  Session.handle_message (incoming_header_ (extra w)) body w.

Definition do_read_body (w : world) : outcome world :=
  let x := extra w in
  if next_payload_size_ x =? 0 then handle_message w
  else
    let w :=
      if next_payload_size_ x >? MESSAGE_BUFFER_SIZE
      then set_body_buffers (body_buffer_ x)
             (resize (large_body_buffer_ x) (next_payload_size_ x)) LargeBuffer w
      else set_body_buffers (body_buffer_ x) (large_body_buffer_ x) SmallBuffer w in
    Ok (post (Transport BodyRead) w).

(** The bytes that [async_read] stores through [body_buffer_ptr_]. *)
Definition store_body (data : list Z) (w : world) : world :=
  let x := extra w in
  match body_buffer_ptr_ x with
  | NullBuffer => w
  | SmallBuffer =>
      set_body_buffers (list_inserts 0 data (body_buffer_ x)) (large_body_buffer_ x)
        SmallBuffer w
  | LargeBuffer =>
      set_body_buffers (body_buffer_ x) (list_inserts 0 data (large_body_buffer_ x))
        LargeBuffer w
  end.

Definition handle_stream_error (w : world) : world := close_session w.

(** The completion of the read of a header. *)
Definition header_read (r : result) (w : world) : outcome world :=
  match r with
  | Failed => Ok (handle_stream_error w)
  | Success data =>
      let w := set_incoming_header data w in
      let w := set_metrics (ShardMetrics.record_bytes_read (metrics w)
                              (Z.of_nat (length data))) w in
      let! (res, h) := parse_header (message_handler_ (shared w)) (incoming_header_ (extra w)) in
      let w := set_handler h w in
      match HeaderResult.status res with
      | HeaderResult.OK =>
          let w := set_next_payload_size (HeaderResult.length res) w in
          if next_payload_size_ (extra w) >? SessionConfig.payload_size_limit config
          then Ok (handle_stream_error w)
          else do_read_body w
      | _ => Ok (do_read_header (set_next_payload_size 0 w))
      end
  end.

(** The completion of the read of a body. *)
Definition body_read (r : result) (w : world) : outcome world :=
  match r with
  | Failed => Ok (handle_stream_error w)
  | Success data =>
      let w := store_body data w in
      let w := set_metrics (ShardMetrics.record_bytes_read (metrics w)
                              (Z.of_nat (length data))) w in
      let! w := record_read_sample config steady_clock w in
      handle_message w
  end.

Definition on_connect (w : world) : outcome world :=
  Session.on_connect config steady_clock system_clock do_read_header w.

(** The handler [start] posts. *)
Definition start_task (r : result) (w : world) : outcome world :=
  let w := set_live true w in
  let w := set_connecting true w in
  let w := set_metrics (ShardMetrics.record_connection_attempt (metrics w)) w in
  let '(conn_start, w) := now steady_clock w in
  Ok (post (Transport (Connecting conn_start)) w).

(** The completion of [async_connect]. *)
Definition connected (conn_start : Z) (r : result) (w : world) : outcome world :=
  let w := set_connecting false w in
  match r with
  | Failed =>
      let w := set_metrics (ShardMetrics.record_connection_fail (metrics w)) w in
      Ok (close_session w)
  | Success _ =>
      let '(end_, w) := now steady_clock w in
      let! m := ShardMetrics.record_connection_latency (metrics w)
                  (latency_us conn_start end_) in
      let w := set_metrics (ShardMetrics.record_connection_success m) w in
      on_connect w
  end.

Definition run_transport (o : tcp_op) (r : result) (w : world) : outcome world :=
  match o with
  | Connecting conn_start => connected conn_start r w
  | HeaderRead => header_read r w
  | BodyRead => body_read r w
  end.

Definition run_op (o : op tcp_op) (r : result) (w : world) : outcome world :=
  Session.run_op config steady_clock system_clock ready do_read_header start_task
    run_transport o r w.

(** [async_read] fills its buffer. *)
Definition transport_result (w : world) (o : tcp_op) (data : list Z) : Prop :=
  match o with
  | Connecting _ => data = []
  | HeaderRead => Z.of_nat (length data) = SessionConfig.header_size config
  | BodyRead => Z.of_nat (length data) = next_payload_size_ (extra w)
  end.

(** The histories of a session. *)
Definition run (w0 : world) : list (event tcp_op) -> world -> Prop :=
  Session.run config steady_clock system_clock ready do_read_header start_task run_transport
    transport_result w0.

(** ** The calls of the pool *)

Definition start (w : world) : world := post StartTask w.
Definition flood (w : world) : world := post FloodTask w.
Definition send (n : Z) (w : world) : world := post (SendTask n) w.
Definition drain (w : world) : world := post DrainTask w.
Definition stop (w : world) : world := post StopTask w.

Definition try_start_write (w : world) : outcome world :=
  Session.try_start_write config steady_clock system_clock w.

Definition do_write (fuel : nat) (w : world) : outcome world :=
  Session.do_write config steady_clock system_clock fuel w.

End Tcp.
End TCPSession.
