(* ===== verification/UdpSession.v ===== *)
(** * UDP sessions (src/transports/udp-session.{h,cpp})

    The read path of a UDP session over the shared core: open and connect the
    socket at once, then receive one datagram after the other and hand each to
    the message handler as a body without a header. *)

From S2P Require Import Prelude Payload ExecutionPlan Metrics MessageHandler Session.

Module UDPSession.
Import Session.

(** The members of a UDP session outside the core. *)
Record receiver : Type := mk_receiver {
  packet_buffer_ : list Z;
  packet_size_ : Z
}.

Inductive udp_op : Type := DatagramRead.

Section Udp.
Context {H : Type} `{MessageHandler H}.

Abbreviation world := (world receiver udp_op H).

Variable config : SessionConfig.t.
Variable steady_clock : nat -> Z.
Variable system_clock : nat -> nat -> Z.

Definition set_packet_buffer (l : list Z) (w : world) : world :=
  set_extra (mk_receiver l (packet_size_ (extra w))) w.
Definition set_packet_size (n : Z) (w : world) : world :=
  set_extra (mk_receiver (packet_buffer_ (extra w)) n) w.

(** The constructor. *)
Definition init (m : PayloadManager.t) (sink : ShardMetrics.t) (h : H) : world :=
  let limit := SessionConfig.payload_size_limit config in
  let expected_body :=
    if limit <? ExecutionPlan.MAX_DATAGRAM_SIZE then limit
    else ExecutionPlan.MAX_DATAGRAM_SIZE in
  Session.init config (mk_receiver (replicate (Z.to_nat expected_body) 0) 0) m sink h.

Definition ready (w : world) : bool := live w.

Definition do_read (w : world) : world :=
  post (Transport DatagramRead) (sample_read config steady_clock w).

Definition handle_message (w : world) : outcome world :=
  let x := extra w in
  if packet_size_ x <=? Z.of_nat (length (packet_buffer_ x))
  then Session.handle_message [] (take (Z.to_nat (packet_size_ x)) (packet_buffer_ x)) w
  else Undef.

(** The completion of [async_receive]. *)
Definition datagram_read (r : result) (w : world) : outcome world :=
  match r with
  | Failed => Ok (close_session w)
  | Success data =>
      let w := set_packet_buffer (list_inserts 0 data (packet_buffer_ (extra w))) w in
      let w := set_packet_size (Z.of_nat (length data)) w in
      let w := set_metrics (ShardMetrics.record_bytes_read (metrics w)
                              (Z.of_nat (length data))) w in
      if packet_size_ (extra w) >? SessionConfig.payload_size_limit config
      then Ok (close_session w)
      else
        let! w := record_read_sample config steady_clock w in
        handle_message w
  end.

Definition on_connect (w : world) : outcome world :=
  Session.on_connect config steady_clock system_clock do_read w.

(** The handler [start] posts; a failure is one of [open] or of [connect], with
    the same consequences. *)
Definition start_task (r : result) (w : world) : outcome world :=
  let w := set_live true w in
  let w := set_metrics (ShardMetrics.record_connection_attempt (metrics w)) w in
  match r with
  | Failed =>
      let w := set_metrics (ShardMetrics.record_connection_fail (metrics w)) w in
      Ok (close_session w)
  | Success _ =>
      let w := set_metrics (ShardMetrics.record_connection_success (metrics w)) w in
      on_connect w
  end.

Definition run_transport (o : udp_op) (r : result) (w : world) : outcome world :=
  match o with
  | DatagramRead => datagram_read r w
  end.

Definition run_op (o : op udp_op) (r : result) (w : world) : outcome world :=
  Session.run_op config steady_clock system_clock ready do_read start_task run_transport o r w.

(** [async_receive] stores at most the size of its buffer. *)
Definition transport_result (w : world) (o : udp_op) (data : list Z) : Prop :=
  (length data <= length (packet_buffer_ (extra w)))%nat.

(** The histories of a session. *)
Definition run (w0 : world) : list (event udp_op) -> world -> Prop :=
  Session.run config steady_clock system_clock ready do_read start_task run_transport
    transport_result w0.

(** ** The calls of the pool *)

Definition start (w : world) : world := post StartTask w.
Definition flood (w : world) : world := post FloodTask w.
Definition send (n : Z) (w : world) : world := post (SendTask n) w.
Definition drain (w : world) : world := post DrainTask w.
Definition stop (w : world) : world := post StopTask w.

Definition try_start_write (w : world) : outcome world :=
  Session.try_start_write config steady_clock system_clock w.

Definition do_write (fuel : nat) (w : world) : outcome world :=
  Session.do_write config steady_clock system_clock fuel w.

End Udp.
End UDPSession.
