(* ===== verification/TcpSessionFacts.v ===== *)
(** * Facts on TCP sessions

    What a TCP session keeps of its read path, and that its handlers preserve
    the invariant of the sessions. *)

From S2P Require Import Prelude Payload PayloadProps ExecutionPlan Metrics MessageHandler.
From S2P Require Import MessageHandlerProps Session SessionFacts TcpSession.
Import Session TCPSession.

Definition reads (o : tcp_op) : bool :=
  match o with HeaderRead | BodyRead => true | Connecting _ => false end.

Definition is_connecting (o : tcp_op) : bool :=
  match o with Connecting _ => true | _ => false end.

Definition begun (st : bool) (x : reader) : bool := st && negb (connecting_ x).

(** The buffer that is read into. *)
Definition buffer (x : reader) : list Z :=
  match body_buffer_ptr_ x with
  | NullBuffer => []
  | SmallBuffer => body_buffer_ x
  | LargeBuffer => large_body_buffer_ x
  end.

Section Tcp.
Context {H : Type} `{HL : HandlerLaws H}.

Abbreviation world := (Session.world reader tcp_op H).

Variable config : SessionConfig.t.
Variable steady_clock : nat -> Z.
Variable system_clock : nat -> nat -> Z.

Variable payloads : list PayloadDescriptor.t.
Hypothesis payloads_ok : Forall descriptor_ok payloads.
Hypothesis payloads_bound : Z.of_nat (length payloads) < 2 ^ 64 - 1.
Hypothesis payloads_some : SessionConfig.loop_payloads config = true -> payloads <> [].

(** Headers and bodies together stay below 4 GiB. *)
Hypothesis header_size_nonneg : 0 <= SessionConfig.header_size config.
Hypothesis message_bound :
  SessionConfig.header_size config + SessionConfig.payload_size_limit config < 2 ^ 32.
Hypothesis limit_nonneg : 0 <= SessionConfig.payload_size_limit config.

(** One connection attempt at a time; a body that is read fits its buffer. *)
Definition x_inv (st : bool) (x : reader) (l : list tcp_op) : Prop :=
  count is_connecting l = (if connecting_ x then 1 else 0)%nat /\
  (connecting_ x = true -> st = true) /\
  Z.of_nat (length (incoming_header_ x)) = SessionConfig.header_size config /\
  Z.of_nat (length (body_buffer_ x)) = MESSAGE_BUFFER_SIZE /\
  (In BodyRead l -> 0 < next_payload_size_ x <= SessionConfig.payload_size_limit config /\
                    next_payload_size_ x <= Z.of_nat (length (buffer x))).

Lemma x_inv_perm st x l l' : Permutation l l' -> x_inv st x l -> x_inv st x l'.
Proof.
  intros Hp (H1 & H2 & H3 & H4 & H5). split_and!; try done.
  - by rewrite <- Hp.
  - intros Hin. apply H5. by eapply Permutation_in; [symmetry|].
Qed.

Lemma x_inv_read st x l : x_inv st x l -> x_inv st x (l ++ [HeaderRead]).
Proof.
  intros (H1 & H2 & H3 & H4 & H5). split_and!; try done.
  - counts. lia.
  - rewrite in_app_iff. intros [Hin|[[=]|[]]]. by apply H5.
Qed.

Abbreviation base := (SessionFacts.base config payloads reads begun x_inv).
Abbreviation settled := (SessionFacts.settled config payloads begun).
Abbreviation reads_on := (SessionFacts.reads_on config payloads reads begun x_inv).
Abbreviation n_readers w := (count (is_reader reads) (pending w)).
Abbreviation n_writers w := (count is_writer (pending w)).

(** Closing ends a handler. *)
Lemma close_ok st r T (w : world) :
  base st r T w -> settled st w -> reads_on st r T (Ok (close_session w)).
Proof. intros Hb []. by eapply settles_reads, settles_close. Qed.

(** Metrics and handlers do not matter to the rest. *)
Lemma base_metrics st r T m (w : world) :
  base st r T w -> metrics_ok m -> base st r T (set_metrics m w).
Proof. intros [] Hm. by constructor. Qed.

Lemma settled_metrics st m (w : world) : settled st w -> settled st (set_metrics m w).
Proof. intros []. by constructor. Qed.

Lemma base_handler st r T h (w : world) :
  base st r T w -> handler_inv h -> base st r T (set_handler h w).
Proof. intros [] Hm. by constructor. Qed.

Lemma settled_handler st h (w : world) : settled st w -> settled st (set_handler h w).
Proof. intros []. by constructor. Qed.

Lemma start_task_ok r T (w : world) res :
  base false r T w -> settled false w -> reads_on true r T (start_task steady_clock res w).
Proof.
  intros Hb Hs. unfold start_task. cbv zeta. cbn [now].
  destruct Hb, Hs.
  destruct (b_begun eq_refl) as (Hw & Hr & Hc).
  assert (live w = false) as Hl.
  { destruct (live w) eqn:E; [|done]. by specialize (b_live eq_refl). }
  destruct b_extra as (X1 & X2 & X3 & X4 & X5).
  assert (connecting_ (extra w) = false) as Hcn.
  { destruct (connecting_ (extra w)); [|done]. by specialize (X2 eq_refl). }
  rewrite Hcn in X1.
  eexists. split; [reflexivity|]. split.
  - constructor; try assumption; cbn; try done.
    + intros _. split_and!; [done | done |]. counts. lia.
    + counts. lia.
    + by rewrite List.filter_app, app_nil_r.
    + unfold x_inv. rewrite transports_snoc. cbn. split_and!; try done.
      * counts. lia.
      * rewrite in_app_iff. intros [Hin|[[=]|[]]]. by apply X5.
  - constructor; cbn.
    + counts. lia.
    + intros _. counts. specialize (s_idle Hw). lia.
    + intros _ E. change (writing w = true) in E. congruence.
    + intros i sl Hin. cbn in Hin. rewrite in_app_iff in Hin. destruct Hin as [Hin|[[=]|[]]].
      by apply s_buffers.
    + done.
    + intros _ _ E. change (draining w = true) in E. by rewrite b_unstarted in E.
Qed.

(** An operation that reads completed: nothing else reads. *)
Lemma remove_reader st r T (w : world) o :
  base st r T (set_pending (Transport o :: pending w) w) -> reads o = true ->
  base st r T w /\ begun st (extra w) = true /\ n_readers w = 0%nat.
Proof.
  intros Hb Ho.
  assert (n_readers w = 0%nat) as Hc.
  { pose proof (b_readers _ _ _ _ _ _ _ _ _ Hb) as Hr. cbn in Hr.
    rewrite count_cons in Hr. cbn in Hr. rewrite Ho in Hr. lia. }
  split_and!; [| |done].
  - destruct w. eapply (base_pending _ _ _ _ _ _ _ _ _ _ _ Hb).
    + cbn. counts. lia.
    + apply (b_tasks _ _ _ _ _ _ _ _ _ Hb).
    + pose proof (b_extra _ _ _ _ _ _ _ _ _ Hb) as (X1 & X2 & X3 & X4 & X5). cbn in *.
      rewrite transports_cons in *. split_and!; try done.
      * rewrite count_cons in X1. by destruct o.
      * intros Hin. apply X5. by right.
  - destruct (begun st (extra w)) eqn:E; [done|].
    destruct (b_begun _ _ _ _ _ _ _ _ _ Hb E) as (_ & _ & Hr). cbn in Hr.
    rewrite count_cons in Hr. cbn in Hr. rewrite Ho in Hr. lia.
Qed.

Lemma do_read_header_ok st r T (w : world) :
  base st r T w -> settled st w -> begun st (extra w) = true -> n_readers w = 0%nat ->
  reads_on st r T (Ok (do_read_header config steady_clock w)).
Proof.
  intros Hb Hs Hbg Hc.
  destruct (do_read_ok config steady_clock payloads reads begun x_inv HeaderRead eq_refl
              x_inv_read st r T w Hb Hs Hbg Hc) as [H1 H2].
  by exists (do_read_header config steady_clock w).
Qed.

Lemma tcp_handle_message_ok st r T (w : world) :
  base st r T w -> settled st w -> begun st (extra w) = true -> n_readers w = 0%nat ->
  0 <= next_payload_size_ (extra w) <= SessionConfig.payload_size_limit config ->
  next_payload_size_ (extra w) <= Z.of_nat (length (buffer (extra w))) ->
  reads_on st r T (handle_message w).
Proof.
  intros Hb Hs Hbg Hc Hsz Hfit. unfold handle_message, body_bytes. fold (buffer (extra w)).
  rewrite (proj2 (Z.leb_le _ _) Hfit). cbn [obind].
  pose proof (b_extra _ _ _ _ _ _ _ _ _ Hb) as (X1 & X2 & X3 & X4 & X5).
  apply handle_message_ok; try done. rewrite X3, length_take. lia.
Qed.

(** The session is about to read a body of a legal size. *)
Lemma do_read_body_ok st r T (w : world) :
  base st r T w -> settled st w -> begun st (extra w) = true -> n_readers w = 0%nat ->
  0 <= next_payload_size_ (extra w) <= SessionConfig.payload_size_limit config ->
  reads_on st r T (do_read_body w).
Proof.
  intros Hb Hs Hbg Hc Hsz. unfold do_read_body. cbv zeta.
  destruct (next_payload_size_ (extra w) =? 0) eqn:E0; bool_to_Z.
  { apply tcp_handle_message_ok; try done. lia. }
  pose proof (b_extra _ _ _ _ _ _ _ _ _ Hb) as (X1 & X2 & X3 & X4 & X5).
  assert (Hn : forall o, In o (transports (pending w)) -> o <> BodyRead).
  { intros o Hin ->. unfold transports in Hin. apply in_flat_map in Hin as (p & Hp & Hin).
    destruct p; try done. destruct Hin as [->|[]].
    by apply (count_zero _ _ _ Hc) in Hp. }
  assert (Hfin : forall small large ptr,
    Z.of_nat (length small) = MESSAGE_BUFFER_SIZE ->
    (next_payload_size_ (extra w) <= Z.of_nat (length
       match ptr with NullBuffer => [] | SmallBuffer => small | LargeBuffer => large end)) ->
    reads_on st r T (Ok (post (Transport BodyRead) (set_body_buffers small large ptr w)))).
  { intros small large ptr Hl Hfit. eexists. split; [reflexivity|]. split.
    - apply base_post_reader; try done.
      + apply base_set_extra; try done. split_and!; try done.
        intros Hin. by apply Hn in Hin.
      + cbn. rewrite transports_snoc. split_and!; try done; cbn.
        * counts. lia.
        * intros _. split; [lia | done].
    - apply settled_post; [done|]. by apply settled_set_extra. }
  destruct (next_payload_size_ (extra w) >? MESSAGE_BUFFER_SIZE) eqn:Em; bool_to_Z; apply Hfin;
    try done; try lia.
  unfold resize. rewrite length_app, length_take, length_replicate. lia.
Qed.

(** Changes of the reader that keep it connected, while nothing reads. *)
Lemma base_reader st r T x (w : world) :
  base st r T w -> n_readers w = 0%nat -> connecting_ x = connecting_ (extra w) ->
  Z.of_nat (length (incoming_header_ x)) = SessionConfig.header_size config ->
  Z.of_nat (length (body_buffer_ x)) = MESSAGE_BUFFER_SIZE ->
  base st r T (set_extra x w).
Proof.
  intros Hb Hc Hx Hh Hbuf. apply base_set_extra; [done | unfold begun; by rewrite Hx |].
  pose proof (b_extra _ _ _ _ _ _ _ _ _ Hb) as (X1 & X2 & X3 & X4 & X5).
  split_and!; try done; rewrite ?Hx; try done.
  intros Hin. exfalso. unfold transports in Hin. apply in_flat_map in Hin as (p & Hp & Hin).
  destruct p; try done. destruct Hin as [->|[]]. by apply (count_zero _ _ _ Hc) in Hp.
Qed.

Lemma header_read_ok st r T (w : world) res :
  base st r T (set_pending (Transport HeaderRead :: pending w) w) -> settled st w ->
  match res with Failed => True | Success data => transport_result config w HeaderRead data end ->
  reads_on st r T (header_read config steady_clock res w).
Proof.
  intros Hb0 Hs Hres. destruct (remove_reader _ _ _ _ _ Hb0 eq_refl) as (Hb & Hbg & Hc).
  destruct res as [|data]; cbn [header_read]; [by apply close_ok|].
  cbn in Hres. pose proof (b_extra _ _ _ _ _ _ _ _ _ Hb) as (X1 & X2 & X3 & X4 & X5).
  set (w1 := set_metrics _ (set_incoming_header data w)).
  assert (base st r T w1 /\ settled st w1) as [Hb1 Hs1].
  { split.
    - apply base_metrics; [by apply base_reader|]. apply Hb.
    - by apply settled_metrics, settled_set_extra. }
  destruct (header_parsed (message_handler_ (shared w1)) (incoming_header_ (extra w1)))
    as (h & h' & -> & Hh & Hl).
  { apply Hb1. }
  { change (incoming_header_ (extra w1)) with data. lia. }
  cbn [obind]. set (w2 := set_handler h' w1).
  assert (base st r T w2 /\ settled st w2) as [Hb2 Hs2].
  { split; [by apply base_handler | by apply settled_handler]. }
  assert (forall n, base st r T (set_next_payload_size n w2) /\
                    settled st (set_next_payload_size n w2)) as Hn.
  { intros n. split; [by apply base_reader | by apply settled_set_extra]. }
  destruct (HeaderResult.status h);
    [|destruct (Hn 0); by apply do_read_header_ok..].
  destruct (Hn (HeaderResult.length h)) as [Hb3 Hs3].
  destruct (_ >? _) eqn:E; [by apply close_ok|]. bool_to_Z.
  apply do_read_body_ok; try done. cbn in *. lia.
Qed.

Lemma body_read_ok st r T (w : world) res :
  base st r T (set_pending (Transport BodyRead :: pending w) w) -> settled st w ->
  match res with Failed => True | Success data => transport_result config w BodyRead data end ->
  reads_on st r T (body_read config steady_clock res w).
Proof.
  intros Hb0 Hs Hres. destruct (remove_reader _ _ _ _ _ Hb0 eq_refl) as (Hb & Hbg & Hc).
  destruct res as [|data]; cbn [body_read]; [by apply close_ok|].
  pose proof (b_extra _ _ _ _ _ _ _ _ _ Hb0) as (X1 & X2 & X3 & X4 & X5).
  destruct (X5 (or_introl eq_refl)) as [Hsz Hfit]. cbn in X3, X4, Hsz, Hfit.
  assert (exists x, store_body data w = set_extra x w /\ connecting_ x = connecting_ (extra w) /\
            incoming_header_ x = incoming_header_ (extra w) /\
            length (body_buffer_ x) = length (body_buffer_ (extra w)) /\
            next_payload_size_ x = next_payload_size_ (extra w) /\
            length (buffer x) = length (buffer (extra w))) as (x & -> & E1 & E2 & E3 & E4 & E5).
  { unfold store_body, buffer. destruct (body_buffer_ptr_ (extra w)) eqn:Ep.
    - exists (extra w). rewrite Ep. by destruct w.
    - eexists. split; [reflexivity|]. cbn. by rewrite length_inserts.
    - eexists. split; [reflexivity|]. cbn. by rewrite length_inserts. }
  set (w1 := set_metrics _ (set_extra x w)).
  assert (base st r T w1 /\ settled st w1) as [Hb1 Hs1].
  { split.
    - apply base_metrics; [|apply Hb]. apply base_reader; congruence.
    - apply settled_metrics, settled_set_extra; [done|]. unfold begun. by rewrite E1. }
  destruct (record_read_sync config steady_clock w1 (b_metrics _ _ _ _ _ _ _ _ _ Hb1))
    as (s & sh & -> & Hsh & Hme).
  cbn [obind]. assert (base st r T (sync s sh w1)) as Hb2.
  { apply base_sync; [done|]. rewrite Hsh. destruct Hb. by split_and!. }
  apply tcp_handle_message_ok; try done.
  - by apply settled_sync.
  - cbn. unfold begun. by rewrite E1.
  - cbn. rewrite E4. lia.
  - cbn. rewrite E4, E5. lia.
Qed.

Lemma connected_ok st r T (w : world) conn_start res :
  base st r T (set_pending (Transport (Connecting conn_start) :: pending w) w) -> settled st w ->
  reads_on st r T (connected config steady_clock system_clock conn_start res w).
Proof.
  intros Hb0 Hs. pose proof (b_extra _ _ _ _ _ _ _ _ _ Hb0) as (X1 & X2 & X3 & X4 & X5).
  cbn in X1, X2, X3, X4, X5. rewrite transports_cons in X1, X5. rewrite count_cons in X1.
  cbn in X1. destruct (connecting_ (extra w)) eqn:Ecn; [|lia]. specialize (X2 eq_refl). subst st.
  assert (begun true (extra w) = false) as Hbg by (unfold begun; by rewrite Ecn).
  destruct (b_begun _ _ _ _ _ _ _ _ _ Hb0 Hbg) as (Hw & Hr & Hc).
  change (count (is_reader reads) (Transport (Connecting conn_start) :: pending w) = 0%nat) in Hc.
  rewrite count_cons in Hc. cbn in Hc.
  pose proof (s_idle _ _ _ _ _ Hs Hw) as Hcw.
  unfold connected. set (w1 := set_connecting false w).
  assert (base true r T w1) as Hb1.
  { destruct Hb0. constructor; try assumption; try done.
    split_and!; try done; cbn; [lia|]. intros Hin. apply X5. by right. }
  destruct res as [|data].
  - eapply settles_reads, settles_close; try done; [by apply base_metrics; [|apply Hb1] | cbn; lia |].
    by apply no_buffers.
  - cbn [now].
    match goal with |- context [ShardMetrics.record_connection_latency ?m ?l] =>
      destruct (record_connection_ok m l) as (m' & -> & Hm') end; [apply Hb1|].
    cbn [obind]. apply on_connect_ok; try done.
    + apply x_inv_read.
    + apply base_metrics; [|done]. by apply (base_sync _ _ _ _ _ _ _ _ (sampling w1) (shared (tick w1)) w1);
        [|destruct Hb1; split_and!].
    + intros Hl Hd. by apply (s_drain _ _ _ _ _ Hs).
Qed.

Lemma run_transport_ok st r T (w : world) o res :
  base st r T (set_pending (Transport o :: pending w) w) -> settled st w ->
  match res with Failed => True | Success data => transport_result config w o data end ->
  reads_on st r T (run_transport config steady_clock system_clock o res w).
Proof.
  intros Hb Hs Hres. destruct o.
  - by apply connected_ok.
  - by apply header_read_ok.
  - by apply body_read_ok.
Qed.

(** The constructor establishes the invariant. *)
Lemma init_ok m sink h :
  manager_ok payloads m -> metrics_ok sink -> handler_inv h ->
  base false 0 [] (init config m sink h) /\ settled false (init config m sink h).
Proof.
  intros Hm Hs Hh. split.
  - constructor; try done; cbn; try lia.
    + exists 0%nat. split; [|done]. split; [done|]. split; [intros _; lia | done].
    + rewrite count_nil. lia.
    + split_and!; try done; cbn; rewrite length_replicate; lia.
  - constructor; try done; cbn. rewrite count_nil. lia.
Qed.

Lemma tcp_ready_begun st (w : world) :
  (live w = true -> st = true) -> ready w = live w && begun st (extra w).
Proof.
  intros Hl. unfold ready, begun. destruct (live w); [|done]. by rewrite Hl.
Qed.
End Tcp.
