(* ===== verification/SessionHistory.v ===== *)
(** * Executable histories of sessions

    A history given step by step, what the pool posts and which pending
    operation completes with which result, is checked and run by evaluation. *)

From S2P Require Import Prelude Payload ExecutionPlan Metrics MessageHandler Session.
Import Session.

Section History.
Context {X O H : Type} `{MessageHandler H}.

Abbreviation world := (Session.world X O H).

Variable config : SessionConfig.t.
Variable steady_clock : nat -> Z.
Variable system_clock : nat -> nat -> Z.
Variable ready : world -> bool.
Variable do_read : world -> world.
Variable start_task : result -> world -> outcome world.
Variable run_transport : O -> result -> world -> outcome world.
Variable transport_result : world -> O -> list Z -> Prop.
Variable transport_check : world -> O -> list Z -> bool.
Hypothesis transport_check_sound : forall w o data,
  transport_check w o data = true -> transport_result w o data.

(** The pool posts an operation, or the pending operation at a position
    completes. *)
Inductive step : Type :=
| Post (o : op O)
| Complete (k : nat) (r : result).

Definition is_start (o : op O) : bool := match o with StartTask => true | _ => false end.

Definition post_check (tr : list (event O)) (o : op O) : bool :=
  pool_op o &&
  match o with SendTask n => (0 <=? n) && (n <? 2 ^ 64) | _ => true end &&
  Bool.eqb (is_start o) (match posts tr with [] => true | _ => false end).

Definition result_check (w : world) (o : op O) (r : result) : bool :=
  match r, o with
  | Failed, _ => true
  | Success data, ResponseWritten packet => bool_decide (data = packet)
  | Success data, PayloadWritten index slices =>
      match PayloadManager.payloads_ (manager w) !! Z.to_nat index with
      | None => false
      | Some d =>
          match PreparedPayload.read_slices (PayloadDescriptor.packet_data d)
                  (current_payload w) slices with
          | Ok bytes => bool_decide (data = bytes)
          | _ => false
          end
      end
  | Success data, Transport o => transport_check w o data
  | Success data, _ => bool_decide (data = [])
  end.

Definition play_step (s : step) (tr : list (event O)) (w : world)
  : option (list (event O) * world) :=
  match s with
  | Post o => if post_check tr o then Some (tr ++ [Posted o], post o w) else None
  | Complete k r =>
      match pending w !! k with
      | None => None
      | Some o =>
          let pre := take k (pending w) in
          if (negb (pool_op o) || forallb (fun o' => negb (pool_op o')) pre)
             && result_check w o r then
            match run_op config steady_clock system_clock ready do_read start_task run_transport
                    o r (set_pending (pre ++ drop (S k) (pending w)) w) with
            | Ok w' => Some (tr ++ [Ran o r], w')
            | _ => None
            end
          else None
      end
  end.

Fixpoint play (l : list step) (tr : list (event O)) (w : world)
  : option (list (event O) * world) :=
  match l with
  | [] => Some (tr, w)
  | s :: l =>
      match play_step s tr w with
      | Some (tr, w) => play l tr w
      | None => None
      end
  end.

Abbreviation run := (Session.run config steady_clock system_clock ready do_read start_task
                       run_transport transport_result).

Lemma result_check_sound w o r :
  result_check w o r = true -> result_of transport_result w o r.
Proof.
  destruct r as [|data]; [by destruct o|]. cbn [result_check result_of].
  destruct o; try (intros E; by apply bool_decide_eq_true in E).
  - destruct (_ !! _) as [d|]; [|done].
    destruct (PreparedPayload.read_slices _ _ _) as [bytes| | |] eqn:E; try done.
    intros Hd. apply bool_decide_eq_true in Hd. subst. by exists d.
  - apply transport_check_sound.
Qed.

Lemma play_step_run w0 s tr w tr' w' :
  run w0 tr w -> play_step s tr w = Some (tr', w') -> run w0 tr' w'.
Proof.
  intros Hrun. destruct s as [o|k r]; cbn [play_step].
  - destruct (post_check tr o) eqn:E; [|done]. intros [= <- <-]. unfold post_check in E.
    apply andb_true_iff in E as [E E3]. apply andb_true_iff in E as [E1 E2].
    apply run_post; try done.
    + destruct o; try done. cbn. bool_to_Z. lia.
    + apply eqb_prop in E3. destruct (posts tr); cbn in E3.
      * by destruct o.
      * split; [done|]. intros ->. done.
  - destruct (pending w !! k) as [o|] eqn:Ek; [|done].
    destruct (_ && _) eqn:E; [|done]. apply andb_true_iff in E as [E1 E2].
    destruct (run_op _ _ _ _ _ _ _ _ _ _) as [w1| | |] eqn:Er; try done. intros [= <- <-].
    eapply run_complete; [exact Hrun | | | by apply result_check_sound | exact Er].
    + symmetry. by apply take_drop_middle.
    + intros Ho. rewrite Ho in E1. cbn in E1. rewrite forallb_forall in E1.
      apply List.Forall_forall. intros x Hx. by apply negb_true_iff, E1.
Qed.

Lemma play_run w0 l : forall tr w tr' w',
  run w0 tr w -> play l tr w = Some (tr', w') -> run w0 tr' w'.
Proof.
  induction l as [|s l IH]; intros tr w tr' w' Hrun; cbn [play].
  - by intros [= <- <-].
  - destruct (play_step s tr w) as [[tr1 w1]|] eqn:E; [|done].
    apply IH. by eapply play_step_run.
Qed.
End History.

Arguments Post {O} o.
Arguments Complete {O} k r.
