(* ===== verification/TcpSessionProps.v ===== *)
(** * Theorems on TCP sessions

    Safety in every history, the order of the payloads, and that an idle session
    has nothing left to write. *)

From S2P Require Import Prelude Payload PayloadProps ExecutionPlan Metrics MessageHandler.
From S2P Require Import MessageHandlerProps Session SessionFacts SessionHistory.
From S2P Require Import TcpSession TcpSessionFacts.
Import Session TCPSession.

(** What the objects a session is built from must satisfy: the payloads come
    from a plan, one exists when they repeat, and messages stay below 4 GiB. *)
Record setting_ok {H : Type} `{HL : HandlerLaws H} (config : SessionConfig.t)
    (m : PayloadManager.t) (sink : ShardMetrics.t) (h : H) : Prop := {
  set_manager : manager_ok (PayloadManager.payloads_ m) m;
  set_payloads : Forall descriptor_ok (PayloadManager.payloads_ m);
  set_number : Z.of_nat (length (PayloadManager.payloads_ m)) < 2 ^ 64 - 1;
  set_repeat : SessionConfig.loop_payloads config = true -> PayloadManager.payloads_ m <> [];
  set_metrics_ok : metrics_ok sink;
  set_handler_ok : handler_inv h;
  set_header : 0 <= SessionConfig.header_size config;
  set_limit : 0 <= SessionConfig.payload_size_limit config;
  set_bound : SessionConfig.header_size config + SessionConfig.payload_size_limit config < 2 ^ 32
}.

Section Tcp.
Context {H : Type} `{HL : HandlerLaws H}.
Variables (config : SessionConfig.t) (steady_clock : nat -> Z) (system_clock : nat -> nat -> Z).
Variables (m : PayloadManager.t) (sink : ShardMetrics.t) (h : H).
Hypothesis ok : setting_ok config m sink h.

Abbreviation payloads := (PayloadManager.payloads_ m).
Abbreviation run := (TCPSession.run config steady_clock system_clock
                       (TCPSession.init config m sink h)).

Lemma tcp_run_inv tr w :
  run tr w -> total (posts tr) < 2 ^ 64 ->
  inv config payloads TcpSessionFacts.reads begun (x_inv config) tr w.
Proof.
  destruct ok. intros Hrun Ht.
  destruct (init_ok config payloads set_header0 m sink h) as [Hb Hs]; try done.
  eapply (run_inv config steady_clock system_clock payloads) with (read_op := HeaderRead)
    (ready := ready) (start_task := start_task steady_clock)
    (run_transport := run_transport config steady_clock system_clock)
    (transport_result := transport_result config) (w0 := TCPSession.init config m sink h); try done.
  - intros st w1 Hl. by apply tcp_ready_begun.
  - intros st x l. by apply (x_inv_read config (PayloadManager.payloads_ m)).
  - apply x_inv_perm.
  - intros r T w1 res. by apply start_task_ok.
  - intros st r T w1 o res. by apply run_transport_ok.
Qed.

(** The invariant, in the terms of the theorems below. *)
Lemma tcp_safe tr w :
  run tr w -> total (posts tr) < 2 ^ 64 ->
  (count is_writer (pending w) <= 1)%nat /\
  (count (is_reader TcpSessionFacts.reads) (pending w) <= 1)%nat /\
  disconnects (shared w) = (if started tr && negb (live w) then 1 else 0)%nat /\
  buffers_ok payloads w /\
  (forall pre o post_ r,
     pending w = pre ++ o :: post_ ->
     (pool_op o = true -> Forall (fun o' => pool_op o' = false) pre) ->
     result_of (transport_result config) w o r ->
     exists w', run_op config steady_clock system_clock o r (set_pending (pre ++ post_) w) = Ok w').
Proof.
  intros Hrun Ht. pose proof (tcp_run_inv _ _ Hrun Ht) as [(ran & tasks & _ & _ & _ & []) [] _ _].
  split_and!; try done.
  destruct ok. intros pre o post_ r Hp Hf Hr.
  destruct (init_ok config payloads set_header0 m sink h) as [Hb Hs]; try done.
  eapply (run_progress config steady_clock system_clock payloads) with (read_op := HeaderRead)
    (ready := ready) (start_task := start_task steady_clock) (x_inv := x_inv config)
    (begun := begun) (reads := TcpSessionFacts.reads)
    (transport_result := transport_result config) (w0 := TCPSession.init config m sink h); try done.
  - intros st w1 Hl. by apply tcp_ready_begun.
  - intros st x l. by apply (x_inv_read config payloads).
  - apply x_inv_perm.
  - intros r1 T w1 res. by apply start_task_ok.
  - intros st r1 T w1 o1 res. by apply run_transport_ok.
Qed.

Lemma tcp_order tr w :
  run tr w -> total (posts tr) < 2 ^ 64 ->
  let k := length (payload_indices (written (shared w))) in
  payload_indices (written (shared w))
  = map (fun j => Z.of_nat (j mod length payloads)) (seq 0 k) /\
  (SessionConfig.loop_payloads config = false -> (k <= length payloads)%nat) /\
  (flooding w = false -> writes_queued w = requested tr - Z.of_nat k).
Proof.
  intros Hrun Ht. pose proof (tcp_run_inv _ _ Hrun Ht) as [(ran & tasks & _ & _ & _ & []) _ _ _].
  destruct b_log as (k & (L1 & L2 & L3) & _). cbv zeta.
  assert (length (payload_indices (written (shared w))) = k) as Hk.
  { rewrite L1. unfold in_turn. by rewrite length_map, length_seq. }
  by rewrite Hk.
Qed.

Lemma tcp_quiet tr w :
  run tr w -> total (posts tr) < 2 ^ 64 ->
  live w = true -> connecting_ (extra w) = false -> writing w = false ->
  let k := Z.of_nat (length (payload_indices (written (shared w)))) in
  let used_up := (SessionConfig.loop_payloads config = false \/ draining w = true) /\
                 payloads !! Z.to_nat (next_payload_index w) = None in
  responses w = [] /\ count is_writer (pending w) = 0%nat /\
  (flooding w = false /\ k = requested tr \/ used_up) /\
  (draining w = true -> 0 < writes_queued w /\ used_up).
Proof.
  intros Hrun Ht Hl Hc Hw.
  pose proof (tcp_run_inv _ _ Hrun Ht) as [(ran & tasks & _ & _ & _ & Hb) [] _ _].
  assert (begun (started tr) (extra w) = true) as Hbg.
  { unfold begun. by rewrite Hc, (b_live _ _ _ _ _ _ _ _ _ Hb Hl). }
  destruct (s_quiet Hbg Hl Hw) as [Hr Hx]. cbv zeta. split; [done|]. split; [by apply s_idle|].
  destruct (tcp_order _ _ Hrun Ht) as (_ & _ & Hq). split.
  - destruct (wants w) eqn:E; [by right; apply Hx|]. left.
    apply orb_false_iff in E as [Ef Eq]. specialize (Hq Ef). bool_to_Z.
    pose proof (b_queue _ _ _ _ _ _ _ _ _ Hb). split; [done | lia].
  - intros Hd. specialize (s_drain Hl Hw Hd). split; [done|]. apply Hx. unfold wants.
    apply orb_true_iff. right. apply Z.gtb_lt. lia.
Qed.
End Tcp.

(** C5: A TCP session is safe in every history: start comes first and once, its
    posted handlers run in order, connections, reads and writes complete in any
    order, with errors or without, and other sessions use the counters, metrics
    and message handler in between.  At most one write and one read are under
    way; [on_disconnect_] has been called exactly once if the session has been
    started and is closed, and not at all otherwise; the buffers handed to a
    pending write still hold the payload prepared for it; and whatever pending
    operation completes next, its handler returns without undefined
    behaviour. *)
Theorem tcp_session_safe {H : Type} `{HandlerLaws H} config steady_clock system_clock
    m sink (h : H) tr w :
  setting_ok config m sink h ->
  TCPSession.run config steady_clock system_clock (TCPSession.init config m sink h) tr w ->
  total (posts tr) < 2 ^ 64 ->
  (count is_writer (pending w) <= 1)%nat /\
  (count (is_reader TcpSessionFacts.reads) (pending w) <= 1)%nat /\
  disconnects (shared w) = (if started tr && negb (live w) then 1 else 0)%nat /\
  buffers_ok (PayloadManager.payloads_ m) w /\
  (forall pre o post_ r,
     pending w = pre ++ o :: post_ ->
     (pool_op o = true -> Forall (fun o' => pool_op o' = false) pre) ->
     result_of (transport_result config) w o r ->
     exists w', run_op config steady_clock system_clock o r (set_pending (pre ++ post_) w) = Ok w').
Proof. intros Hok. by apply tcp_safe. Qed.

(** C12: The payloads a TCP session writes are those of the plan in turn, from the
    first one on and around again only when it repeats them; and as long as it
    was never told to flood, the writes it has queued are the ones requested by
    the [send]s that ran, less those it has written. *)
Theorem tcp_payload_order {H : Type} `{HandlerLaws H} config steady_clock system_clock
    m sink (h : H) tr w :
  setting_ok config m sink h ->
  TCPSession.run config steady_clock system_clock (TCPSession.init config m sink h) tr w ->
  total (posts tr) < 2 ^ 64 ->
  let n := length (PayloadManager.payloads_ m) in
  let k := length (payload_indices (written (shared w))) in
  payload_indices (written (shared w)) = map (fun j => Z.of_nat (j mod n)) (seq 0 k) /\
  (SessionConfig.loop_payloads config = false -> (k <= n)%nat) /\
  (flooding w = false -> writes_queued w = requested tr - Z.of_nat k).
Proof. intros Hok. by apply tcp_order. Qed.

(** C17: A connected TCP session with no write under way is not forgetting
    anything: every response has been written, and either every payload
    requested so far has been written too or the payloads are used up; and if
    it was told to drain and has not closed, then requested writes are left
    over for which no payload is left. *)
Theorem tcp_idle_is_done {H : Type} `{HandlerLaws H} config steady_clock system_clock
    m sink (h : H) tr w :
  setting_ok config m sink h ->
  TCPSession.run config steady_clock system_clock (TCPSession.init config m sink h) tr w ->
  total (posts tr) < 2 ^ 64 ->
  live w = true -> connecting_ (extra w) = false -> writing w = false ->
  let k := Z.of_nat (length (payload_indices (written (shared w)))) in
  let used_up := (SessionConfig.loop_payloads config = false \/ draining w = true) /\
                 PayloadManager.payloads_ m !! Z.to_nat (next_payload_index w) = None in
  responses w = [] /\ count is_writer (pending w) = 0%nat /\
  (flooding w = false /\ k = requested tr \/ used_up) /\
  (draining w = true -> 0 < writes_queued w /\ used_up).
Proof. intros Hok. by apply tcp_quiet. Qed.

(** ** Witnesses: a session of two payloads that connects, sends and reads *)

Definition transport_check {H} (config : SessionConfig.t) (w : Session.world reader tcp_op H)
    (o : tcp_op) (data : list Z) : bool :=
  match o with
  | Connecting _ => bool_decide (data = [])
  | HeaderRead => Z.of_nat (length data) =? SessionConfig.header_size config
  | BodyRead => Z.of_nat (length data) =? next_payload_size_ (extra w)
  end.

Lemma transport_check_sound {H} config (w : Session.world reader tcp_op H) o data :
  transport_check config w o data = true -> transport_result config w o data.
Proof.
  destruct o; cbn; intros E; [by apply bool_decide_eq_true in E | bool_to_Z; lia..].
Qed.

Definition tcp_play {H} `{MessageHandler H} config steady_clock system_clock
    (l : list (step (O := tcp_op))) (w : Session.world reader tcp_op H) :=
  play config steady_clock system_clock ready (do_read_header config steady_clock)
    (start_task steady_clock) (run_transport config steady_clock system_clock)
    (transport_check config) l [] w.

Lemma tcp_play_run {H} `{MessageHandler H} config steady_clock system_clock l w0 tr w :
  tcp_play config steady_clock system_clock l w0 = Some (tr, w) ->
  TCPSession.run (H := H) config steady_clock system_clock w0 tr w.
Proof.
  apply play_run; [apply transport_check_sound | apply run_init].
Qed.

Definition sample_payloads : list PayloadDescriptor.t :=
  [PayloadDescriptor.mk [1; 2; 3] [PacketOperation.make_identity 1;
                                   PacketOperation.make_counter 2 true];
   PayloadDescriptor.mk [4] [PacketOperation.make_identity 1]].

Definition sample_manager : PayloadManager.t := PayloadManager.init sample_payloads [[7]; []].

(** A session with these payloads. *)
Definition sample_config (read loop : bool) : SessionConfig.t :=
  SessionConfig.mk 4 1024 read loop 100.

Definition sample_session (read loop : bool)
  : Session.world reader tcp_op NOPMessageHandler.t :=
  TCPSession.init (sample_config read loop) sample_manager ShardMetrics.init NOPMessageHandler.mk.

Definition clock (n : nat) : Z := 1000000 * Z.of_nat n.

Lemma sample_setting read loop :
  setting_ok (sample_config read loop) sample_manager ShardMetrics.init NOPMessageHandler.mk.
Proof.
  constructor; try done; cbn; try lia.
  - split; [done|]. repeat constructor.
  - repeat constructor; cbn; try lia; done.
Qed.

Definition sample_steps : list (step (O := tcp_op)) :=
  [Post StartTask; Complete 0 (Success []); Post (SendTask 2); Complete 1 (Success []);
   Complete 0 (Success []); Complete 1 (Success [1; 0; 0]); Complete 0 (Success [0; 0; 0; 0]);
   Complete 1 (Success []); Complete 0 (Success [4])].

Definition sample_end : list (event tcp_op) * Session.world reader tcp_op NOPMessageHandler.t :=
  Eval vm_compute in
  default ([], sample_session true false)
    (tcp_play (sample_config true false) clock (fun _ => clock) sample_steps
       (sample_session true false)).

Lemma sample_run :
  TCPSession.run (sample_config true false) clock (fun _ => clock) (sample_session true false)
    sample_end.1 sample_end.2.
Proof. apply (tcp_play_run _ _ _ sample_steps). vm_compute. reflexivity. Qed.

Lemma tcp_session_safe_witness :
  (count is_writer (pending sample_end.2) <= 1)%nat /\
  disconnects (shared sample_end.2) = 0%nat.
Proof.
  destruct (tcp_session_safe _ _ _ _ _ _ _ _ (sample_setting true false) sample_run)
    as (H1 & _ & H3 & _); [vm_compute; reflexivity|].
  split; [exact H1 | exact H3].
Defined.

Lemma tcp_payload_order_witness :
  payload_indices (written (shared sample_end.2)) = [0; 1] /\
  writes_queued sample_end.2 = 0.
Proof.
  destruct (tcp_payload_order _ _ _ _ _ _ _ _ (sample_setting true false) sample_run)
    as (H1 & _ & H3); [vm_compute; reflexivity|].
  split; [exact H1 | exact (H3 eq_refl)].
Defined.

Lemma tcp_idle_is_done_witness :
  responses sample_end.2 = [] /\ count is_writer (pending sample_end.2) = 0%nat.
Proof.
  destruct (tcp_idle_is_done _ _ _ _ _ _ _ _ (sample_setting true false) sample_run)
    as (H1 & H2 & _); [vm_compute; reflexivity..|].
  split; [exact H1 | exact H2].
Defined.
