(* ===== verification/TcpDrain.v ===== *)
(** * Draining a TCP session

    A session that was never told to flood closes once it is drained and has
    written what was requested; one that flooded may stay connected for ever,
    since the payloads it writes while flooding are not counted. *)

From S2P Require Import Prelude Payload PayloadProps ExecutionPlan Metrics MessageHandler.
From S2P Require Import MessageHandlerProps Session SessionFacts SessionHistory.
From S2P Require Import TcpSession TcpSessionFacts TcpSessionProps.
Import Session TCPSession.

Section Drain.
Context {H : Type} `{HL : HandlerLaws H}.
Variables (config : SessionConfig.t) (steady_clock : nat -> Z) (system_clock : nat -> nat -> Z).
Variables (m : PayloadManager.t) (sink : ShardMetrics.t) (h : H).
Hypothesis ok : setting_ok config m sink h.

Abbreviation payloads := (PayloadManager.payloads_ m).
Abbreviation n := (length payloads).
Abbreviation world := (Session.world reader tcp_op H).
Abbreviation run := (TCPSession.run config steady_clock system_clock
                       (TCPSession.init config m sink h)).

(** ** Without a flood *)

(** The payloads are used up only after each of them was written. *)
Lemma used_up_written tr w :
  run tr w -> total (posts tr) < 2 ^ 64 ->
  payloads !! Z.to_nat (next_payload_index w) = None ->
  (n <= length (payload_indices (written (shared w))))%nat.
Proof.
  intros Hrun Ht Hn.
  pose proof (tcp_run_inv config steady_clock system_clock m sink h ok _ _ Hrun Ht)
    as [(ran & tasks & _ & _ & _ & []) _ _ _].
  destruct b_log as (k & (L1 & _) & Hk). rewrite L1. unfold in_turn. rewrite length_map, length_seq.
  rewrite Hk, Nat2Z.id in Hn. apply lookup_ge_None_1 in Hn.
  destruct k as [|j]; cbn [position] in Hn; [done|].
  pose proof (Nat.Div0.mod_le j n). lia.
Qed.

Lemma drain_closes tr w :
  run tr w -> total (posts tr) < 2 ^ 64 -> flooding w = false -> requested tr <= Z.of_nat n ->
  draining w = true -> connecting_ (extra w) = false -> writing w = false -> live w = false.
Proof.
  intros Hrun Ht Hf Hr Hd Hc Hw. destruct (live w) eqn:Hl; [|done]. exfalso.
  destruct (tcp_quiet config steady_clock system_clock m sink h ok _ _ Hrun Ht Hl Hc Hw)
    as (_ & _ & _ & Hq). destruct (Hq Hd) as (Hpos & _ & Hnone).
  destruct (tcp_order config steady_clock system_clock m sink h ok _ _ Hrun Ht) as (_ & _ & Hk).
  pose proof (used_up_written tr w Hrun Ht Hnone). specialize (Hk Hf). lia.
Qed.

(** ** With a flood *)

Hypothesis no_repeat : SessionConfig.loop_payloads config = false.
Hypothesis no_reads : SessionConfig.read_messages config = false.
Variable r : Z.
Hypothesis r_bound : 0 < r <= Z.of_nat n.

(** A session that floods with [r] writes queued and is at the payload [i]. *)
Record flooded (i : nat) (w : world) : Prop := {
  f_live : live w = true;
  f_flood : flooding w = true;
  f_drain : draining w = false;
  f_responses : responses w = [];
  f_queue : writes_queued w = r;
  f_next : next_payload_index w = Z.of_nat i;
  f_written : payload_indices (written (shared w)) = map Z.of_nat (seq 0 i);
  f_manager : manager_ok payloads (manager w);
  f_metrics : metrics_ok (metrics w)
}.

Definition write_pending (i : nat) (w : world) : Prop :=
  exists slices d b,
    pending w = [PayloadWritten (Z.of_nat i) slices] /\ payloads !! i = Some d /\
    PreparedPayload.read_slices (PayloadDescriptor.packet_data d) (current_payload w) slices
    = Ok b.

Definition idle (w : world) : Prop := writing w = false /\ pending w = [].

(** While flooding, a write does not change the queue. *)
Lemma flooded_writes i w :
  flooded i w -> pending w = [] -> (i <= n)%nat ->
  exists w', Session.do_write config steady_clock system_clock RESTARTS w = Ok w' /\
    ((i < n)%nat /\ flooded (S i) w' /\ write_pending i w' \/ i = n /\ flooded n w' /\ idle w').
Proof.
  intros [] Hp Hi. unfold RESTARTS. cbn [Session.do_write]. rewrite f_responses0, f_flood0.
  cbn [orb]. destruct ok.
  pose proof (fill_payload_ok system_clock payloads set_payloads w f_manager0) as Hfill.
  rewrite f_next0, Nat2Z.id in Hfill. destruct (payloads !! i) as [d|] eqn:Ed.
  - destruct Hfill as (p & m' & b & -> & Hm & Hb). cbn [obind negb]. unfold write_payload.
    change (flooding (refill p m' w)) with (flooding w). rewrite f_flood0. cbn [negb].
    match goal with |- context [sample_write config steady_clock ?x] =>
      destruct (sample_write_sync config steady_clock x) as (s & sh & -> & Hsh) end.
    assert (Hlt : (i < n)%nat) by by eapply lookup_lt_Some.
    eexists. split; [done|]. left. split; [done|].
    change (next_payload_index (refill p m' w)) with (next_payload_index w) in *.
    rewrite f_next0 in *. rewrite u64_small in * by lia. split.
    + rewrite Hsh. constructor; try done.
      * cbn. lia.
      * change (payload_indices (written (shared w) ++ [WrotePayload (Z.of_nat i)])
                = map Z.of_nat (seq 0 (S i))).
        by rewrite payload_indices_app, f_written0, seq_S, map_app.
    + exists (PreparedPayload.packet_slices p), d, b. split; [|by split].
      change (pending w ++ [PayloadWritten (Z.of_nat i) (PreparedPayload.packet_slices p)]
              = [PayloadWritten (Z.of_nat i) (PreparedPayload.packet_slices p)]).
      by rewrite Hp.
  - assert (i = n) as -> by (apply lookup_ge_None_1 in Ed; lia).
    rewrite Hfill. cbn [obind negb]. rewrite no_repeat. cbn [andb].
    eexists. split; [done|]. right. split; [done|]. unfold stop_writing.
    change (draining (set_writing false (refill _ _ w))) with (draining w). rewrite f_drain0.
    split; [by constructor | by split].
Qed.

Lemma flooded_sync i s sh w :
  flooded i w -> manager_ok payloads (payload_manager_ sh) -> metrics_ok (metrics_sink_ sh) ->
  written sh = written (shared w) -> flooded i (sync s sh w).
Proof. intros [] Hm Hs Hw. constructor; try done. cbn. by rewrite Hw. Qed.

(** The completion of the write of a payload starts the next one. *)
Lemma flooded_completes i tr w :
  run tr w -> flooded (S i) w -> write_pending i w -> (i < n)%nat ->
  exists slices data w',
    run (tr ++ [Ran (PayloadWritten (Z.of_nat i) slices) (Success data)]) w' /\
    ((S i < n)%nat /\ flooded (S (S i)) w' /\ write_pending (S i) w' \/
     S i = n /\ flooded n w' /\ idle w').
Proof.
  intros Hrun Hf (slices & d & b & Hp & Hd & Hb) Hi. exists slices, b.
  set (w1 := set_metrics (ShardMetrics.record_bytes_sent (metrics w) (Z.of_nat (length b)))
               (set_pending [] w)).
  assert (Hf1 : flooded (S i) w1).
  { destruct Hf. constructor; try done. }
  destruct (record_write_sync config steady_clock w1 (f_metrics _ _ Hf1)) as (s & sh & Hs & Hsh & Hm).
  destruct (flooded_writes (S i) (sync s sh w1)) as (w' & Hw & Hcase).
  - apply flooded_sync; [done | rewrite Hsh; apply (f_manager _ _ Hf1) | done | by rewrite Hsh].
  - done.
  - lia.
  - exists w'. split; [|done].
    apply (run_complete config steady_clock system_clock _ _ _ _ _ _ tr w []
             (PayloadWritten (Z.of_nat i) slices) []); [done | done | done | |].
    + exists d. rewrite Nat2Z.id. split; [|done]. destruct (f_manager _ _ Hf) as [-> _]. done.
    + change ((let! w2 := record_write_sample config steady_clock w1 in
               Session.do_write config steady_clock system_clock RESTARTS w2) = Ok w').
      by rewrite Hs.
Qed.

Definition wrote (e : event tcp_op) : Prop :=
  exists index slices data, e = Ran (PayloadWritten index slices) (Success data).

Lemma wrote_silent evs :
  Forall wrote evs ->
  posts evs = [] /\ requested evs = 0 /\ (forall o, ~ In (Ran o Failed) evs).
Proof.
  induction 1 as [|e evs (i & sl & data & ->) _ (H1 & H2 & H3)].
  { split; [done|]. split; [done|]. by intros o []. }
  split; [exact H1|]. split; [exact H2|].
  intros o [Ho|Ho]; [discriminate Ho | by apply (H3 o)].
Qed.

Lemma requested_app (tr l : list (event tcp_op)) : requested (tr ++ l) = requested tr + requested l.
Proof.
  induction tr as [|[o|o res] tr IH]; [done | exact IH|]. cbn [requested app fold_right] in *.
  unfold requested in *. destruct o; lia.
Qed.

Lemma flood_all k : forall i tr w,
  (i + S k = n)%nat -> run tr w -> flooded (S i) w -> write_pending i w ->
  exists evs w', run (tr ++ evs) w' /\ Forall wrote evs /\ flooded n w' /\ idle w'.
Proof.
  induction k as [|k IH]; intros i tr w Hi Hrun Hf Hp;
    destruct (flooded_completes i tr w Hrun Hf Hp ltac:(lia))
      as (sl & data & w1 & Hrun1 & [(Hlt & Hf1 & Hp1)|(He & Hf1 & Hid)]); try lia.
  - exists [Ran (PayloadWritten (Z.of_nat i) sl) (Success data)], w1. split; [done|].
    split; [|done]. constructor; [by eexists _, _, _ | constructor].
  - destruct (IH (S i) _ w1 ltac:(lia) Hrun1 Hf1 Hp1) as (evs & w2 & Hrun2 & Hw & Hf2).
    rewrite <- app_assoc in Hrun2. eexists _, w2. split; [exact Hrun2|]. split; [|done].
    constructor; [by eexists _, _, _ | done].
Qed.

Definition opening : list (event tcp_op) :=
  [Posted StartTask; Ran StartTask (Success []); Posted (SendTask r);
   Ran (SendTask r) (Success []); Posted FloodTask; Ran FloodTask (Success []);
   Ran (Transport (Connecting (steady_clock 0%nat))) (Success [])].

(** The session before it is connected. *)
Definition waiting : world :=
  let w := TCPSession.init config m sink h in
  let w := set_connecting true (set_live true w) in
  let w := set_metrics (ShardMetrics.record_connection_attempt (metrics w)) w in
  let w := tick w in
  post (Transport (Connecting (steady_clock 0%nat))) w.

Lemma run_waiting :
  run (take 6 opening) (set_flood true (set_writes_queued (u64 (0 + r)) waiting)).
Proof.
  assert (R1 : run [Posted StartTask] (post StartTask (TCPSession.init config m sink h))).
  { by apply (run_post _ _ _ _ _ _ _ _ _ [] _ StartTask (run_init _ _ _ _ _ _ _ _ _)). }
  assert (R2 : run (take 2 opening) waiting).
  { by apply (run_complete _ _ _ _ _ _ _ _ _ _ _ [] StartTask [] (Success []) _ R1). }
  assert (R3 : run (take 3 opening) (post (SendTask r) waiting)).
  { apply (run_post _ _ _ _ _ _ _ _ _ _ _ (SendTask r) R2); [done | cbn | done].
    destruct ok. lia. }
  assert (R4 : run (take 4 opening) (set_writes_queued (u64 (0 + r)) waiting)).
  { apply (run_complete _ _ _ _ _ _ _ _ _ _ _ [Transport (Connecting (steady_clock 0%nat))]
             (SendTask r) [] (Success []) _ R3); try done. intros _. by constructor. }
  assert (R5 : run (take 5 opening) (post FloodTask (set_writes_queued (u64 (0 + r)) waiting))).
  { by apply (run_post _ _ _ _ _ _ _ _ _ _ _ FloodTask R4). }
  apply (run_complete _ _ _ _ _ _ _ _ _ _ _ [Transport (Connecting (steady_clock 0%nat))]
           FloodTask [] (Success []) _ R5); try done. intros _. by constructor.
Qed.

(** Connected, it writes its first payload. *)
Lemma run_opening : exists w, run opening w /\ flooded 1 w /\ write_pending 0 w.
Proof.
  set (w1 := set_flood true (set_writes_queued (u64 (0 + r)) waiting)).
  set (w2 := tick (set_connecting false (set_pending [] w1))).
  destruct ok. destruct (record_connection_ok (metrics w2)
    (latency_us (steady_clock 0%nat) (steady_clock 1%nat))) as (m1 & Hm & Hok); [exact set_metrics_ok|].
  set (w3 := set_metrics (ShardMetrics.record_connection_success m1) w2).
  assert (Hf : flooded 0 w3).
  { constructor; try done. cbn. by rewrite u64_small by lia. }
  destruct (flooded_writes 0 w3 Hf eq_refl ltac:(lia)) as (w4 & Hw & [(_ & Hf4 & Hp4)|(He & _)]);
    [|lia].
  exists w4. split; [|by split].
  apply (run_complete _ _ _ _ _ _ _ _ _ (take 6 opening) w1 []
           (Transport (Connecting (steady_clock 0%nat))) [] (Success []) w4 run_waiting); try done.
  change ((let! m := ShardMetrics.record_connection_latency (metrics w2)
                       (latency_us (steady_clock 0%nat) (steady_clock 1%nat)) in
           TCPSession.on_connect config steady_clock system_clock
             (set_metrics (ShardMetrics.record_connection_success m) w2)) = Ok w4).
  rewrite Hm. cbn [obind]. unfold TCPSession.on_connect, Session.on_connect. rewrite no_reads.
  fold w3. cbn [writing]. change (writing w3) with false. cbn [andb].
  change (flooding w3) with true. exact Hw.
Qed.

(** Told to drain, it does not close, since writes are queued. *)
Lemma flooded_drain_task w :
  flooded n w -> idle w ->
  run_op config steady_clock system_clock DrainTask (Success [])
    (set_pending [] (post DrainTask w)) = Ok (set_draining true w).
Proof.
  intros [] [Hw Hp]. change (set_pending [] (post DrainTask w)) with (set_pending [] w).
  assert (Hs : set_pending [] w = w) by (destruct w; cbn in Hp; by subst).
  rewrite Hs. unfold run_op, Session.run_op, drain_task.
  change (writes_queued (set_draining true w)) with (writes_queued w). rewrite f_queue0.
  rewrite (proj2 (Z.eqb_neq r 0)) by lia. by rewrite andb_false_r.
Qed.

Lemma flooded_drains :
  exists tr w,
    run tr w /\ posts tr = [StartTask; SendTask r; FloodTask; DrainTask] /\
    In (Ran FloodTask (Success [])) tr /\ requested tr = r /\ (forall o, ~ In (Ran o Failed) tr) /\
    payload_indices (written (shared w)) = map Z.of_nat (seq 0 n) /\
    pending w = [] /\ draining w = true /\ live w = true.
Proof.
  destruct run_opening as (w1 & R1 & Hf1 & Hp1).
  destruct (flood_all (Nat.pred n) 0 opening w1 ltac:(lia) R1 Hf1 Hp1)
    as (evs & w2 & R2 & Hev & Hf2 & Hw & Hp).
  assert (R3 : run ((opening ++ evs) ++ [Posted DrainTask]) (post DrainTask w2)).
  { by apply run_post. }
  destruct (wrote_silent evs Hev) as (E1 & E2 & E3).
  eexists _, (set_draining true w2). split.
  { apply (run_complete _ _ _ _ _ _ _ _ _ _ _ [] DrainTask [] (Success []) (set_draining true w2) R3);
      try done.
    - change (pending (post DrainTask w2)) with (pending w2 ++ [DrainTask]). by rewrite Hp.
    - by apply flooded_drain_task. }
  split; [by rewrite !posts_app, E1|]. split; [by do 5 right; left|].
  split; [rewrite !requested_app, E2; cbn; lia|]. split.
  { intros o Hin. rewrite !List.in_app_iff in Hin.
    destruct Hin as [[[Hin|Hin]|Hin]|Hin]; [|by apply (E3 o)|..];
      repeat (destruct Hin as [Hin|Hin]; [discriminate Hin|]); done. }
  split_and!; [apply (f_written _ _ Hf2) | exact Hp | done | apply (f_live _ _ Hf2)].
Qed.
End Drain.

(** C36: A drained session closes when it never flooded and was not asked for more
    payloads than there are: connected and with no write under way, it is not live
    any more.  A flood breaks this, for every plan of payloads that does not
    repeat and every request for some of them: told to start, send, flood and
    drain, with no error anywhere, the session writes every payload and then stays
    connected with nothing pending, because the payloads it wrote while flooding
    were not taken off the writes it has queued. *)
Theorem tcp_drain_hangs {H : Type} `{HL : HandlerLaws H} config steady_clock system_clock
    m sink (h : H) :
  setting_ok config m sink h ->
  let n := length (PayloadManager.payloads_ m) in
  let run := TCPSession.run config steady_clock system_clock (TCPSession.init config m sink h) in
  (forall tr w,
     run tr w -> total (posts tr) < 2 ^ 64 -> flooding w = false -> requested tr <= Z.of_nat n ->
     draining w = true -> connecting_ (extra w) = false -> writing w = false -> live w = false) /\
  (SessionConfig.loop_payloads config = false -> SessionConfig.read_messages config = false ->
   forall r, 0 < r <= Z.of_nat n ->
   exists tr w,
     run tr w /\ posts tr = [StartTask; SendTask r; FloodTask; DrainTask] /\
     In (Ran FloodTask (Success [])) tr /\ requested tr = r /\
     (forall o, ~ In (Ran o Failed) tr) /\
     payload_indices (written (shared w)) = map Z.of_nat (seq 0 n) /\
     pending w = [] /\ draining w = true /\ live w = true).
Proof.
  intros Hok. cbv zeta. split; [by apply drain_closes | by apply flooded_drains].
Qed.

(** ** Witness: both payloads of the sample requested *)

Lemma tcp_drain_hangs_witness :
  exists tr w,
    TCPSession.run (sample_config false false) clock (fun _ => clock)
      (sample_session false false) tr w /\
    In (Ran FloodTask (Success [])) tr /\ requested tr = 2 /\
    payload_indices (written (shared w)) = [0; 1] /\ pending w = [] /\
    draining w = true /\ live w = true.
Proof.
  destruct (tcp_drain_hangs (sample_config false false) clock (fun _ => clock) sample_manager
              ShardMetrics.init NOPMessageHandler.mk (sample_setting false false))
    as (_ & Hf).
  destruct (Hf eq_refl eq_refl 2) as (tr & w & H1 & _ & H3 & H4 & _ & H6 & H7 & H8 & H9).
  - cbn. lia.
  - exists tr, w. split_and!; assumption.
Defined.
