(* ===== verification/UdpSessionProps.v ===== *)
(** * Theorems on UDP sessions

    The handlers of the read path preserve the invariant of the sessions, which
    gives the safety of a UDP session in every history. *)

From S2P Require Import Prelude Payload PayloadProps ExecutionPlan Metrics MessageHandler.
From S2P Require Import MessageHandlerProps Session SessionFacts SessionHistory UdpSession.
Import Session UDPSession.

Definition reads (o : udp_op) : bool := match o with DatagramRead => true end.

Definition begun (st : bool) (x : receiver) : bool := st.

(** What the objects a session is built from must satisfy. *)
Record udp_setting_ok {H : Type} `{HL : HandlerLaws H} (config : SessionConfig.t)
    (m : PayloadManager.t) (sink : ShardMetrics.t) (h : H) : Prop := {
  udp_manager : manager_ok (PayloadManager.payloads_ m) m;
  udp_payloads : Forall descriptor_ok (PayloadManager.payloads_ m);
  udp_number : Z.of_nat (length (PayloadManager.payloads_ m)) < 2 ^ 64 - 1;
  udp_repeat : SessionConfig.loop_payloads config = true -> PayloadManager.payloads_ m <> [];
  udp_metrics_ok : metrics_ok sink;
  udp_handler_ok : handler_inv h
}.

Section Udp.
Context {H : Type} `{HL : HandlerLaws H}.

Abbreviation world := (Session.world receiver udp_op H).

Variables (config : SessionConfig.t) (steady_clock : nat -> Z) (system_clock : nat -> nat -> Z).
Variables (m : PayloadManager.t) (sink : ShardMetrics.t) (h : H).
Hypothesis ok : udp_setting_ok config m sink h.

Abbreviation payloads := (PayloadManager.payloads_ m).

(** The receive buffer is at most as large as a datagram. *)
Definition x_inv (st : bool) (x : receiver) (l : list udp_op) : Prop :=
  Z.of_nat (length (packet_buffer_ x)) <= ExecutionPlan.MAX_DATAGRAM_SIZE.

Abbreviation base := (SessionFacts.base config payloads reads begun x_inv).
Abbreviation settled := (SessionFacts.settled config payloads begun).
Abbreviation reads_on := (SessionFacts.reads_on config payloads reads begun x_inv).

Lemma udp_on_connect_ok r T (w : world) :
  base false r T w -> settled false w ->
  let w1 := set_metrics (ShardMetrics.record_connection_attempt (metrics w)) (set_live true w) in
  reads_on true r T
    (on_connect config steady_clock system_clock
       (set_metrics (ShardMetrics.record_connection_success (metrics w1)) w1)) /\
  reads_on true r T
    (Ok (close_session (set_metrics (ShardMetrics.record_connection_fail (metrics w1)) w1))).
Proof.
  intros Hb Hs. cbv zeta. destruct ok.
  destruct (b_begun _ _ _ _ _ _ _ _ _ Hb eq_refl) as (Hw & Hr & Hc).
  pose proof (s_idle _ _ _ _ _ Hs Hw) as Hcw.
  assert (live w = false) as Hl.
  { destruct (live w) eqn:E; [|done]. by apply (b_live _ _ _ _ _ _ _ _ _ Hb) in E. }
  assert (forall mt, metrics_ok mt -> base true r T (set_metrics mt (set_live true w))) as Hb1.
  { intros mt Hm. destruct Hb. rewrite Hl in b_disc. constructor; try assumption; done. }
  pose proof (b_metrics _ _ _ _ _ _ _ _ _ Hb) as Hm. split.
  - eapply on_connect_ok; try done.
    + by apply Hb1.
    + intros _ Hd. change (draining w = true) in Hd.
      by rewrite (b_unstarted _ _ _ _ _ _ _ _ _ Hb eq_refl) in Hd.
  - eapply settles_reads, settles_close; [by apply Hb1 | | done | by apply no_buffers].
    change (count is_writer (pending w) <= 1)%nat. lia.
Qed.

Lemma udp_start_task_ok r T (w : world) res :
  base false r T w -> settled false w ->
  reads_on true r T (start_task config steady_clock system_clock res w).
Proof.
  intros Hb Hs. destruct (udp_on_connect_ok r T w Hb Hs) as [H1 H2].
  unfold start_task. by destruct res.
Qed.

Lemma datagram_read_ok st r T (w : world) res :
  base st r T (set_pending (Transport DatagramRead :: pending w) w) -> settled st w ->
  match res with Failed => True | Success data => transport_result w DatagramRead data end ->
  reads_on st r T (datagram_read config steady_clock res w).
Proof.
  intros Hb0 Hs Hres.
  pose proof (b_readers _ _ _ _ _ _ _ _ _ Hb0) as Hc. cbn in Hc. rewrite count_cons in Hc.
  cbn in Hc.
  assert (base st r T w) as Hb.
  { destruct w. eapply (base_pending _ _ _ _ _ _ _ _ _ _ _ Hb0).
    - cbn. counts. lia.
    - apply (b_tasks _ _ _ _ _ _ _ _ _ Hb0).
    - apply (b_extra _ _ _ _ _ _ _ _ _ Hb0). }
  assert (st = true) as ->.
  { destruct st; [done|]. destruct (b_begun _ _ _ _ _ _ _ _ _ Hb0 eq_refl) as (_ & _ & Hn).
    cbn in Hn. rewrite count_cons in Hn. cbn in Hn. lia. }
  destruct res as [|data]; cbn [datagram_read].
  { destruct Hs. by eapply settles_reads, settles_close. }
  unfold transport_result in Hres. pose proof (b_extra _ _ _ _ _ _ _ _ _ Hb) as Hx. unfold x_inv in Hx.
  set (buf := list_inserts 0 data (packet_buffer_ (extra w))).
  set (w1 := set_metrics _ _).
  assert (base true r T w1 /\ settled true w1) as [Hb1 Hs1].
  { split; [destruct Hb | destruct Hs]; constructor; try assumption.
    unfold x_inv. cbn. unfold buf. by rewrite length_inserts. }
  destruct (_ >? _) eqn:E.
  { destruct Hs1. by eapply settles_reads, settles_close. }
  destruct (record_read_sync config steady_clock w1 (b_metrics _ _ _ _ _ _ _ _ _ Hb1))
    as (s & sh & -> & Hsh & Hme).
  cbn [obind]. assert (base true r T (sync s sh w1)) as Hb2.
  { apply base_sync; [done|]. rewrite Hsh. destruct Hb. by split_and!. }
  unfold handle_message. cbn. unfold buf at 1. rewrite length_inserts.
  rewrite (proj2 (Z.leb_le _ _)) by lia.
  apply handle_message_ok; try done.
  - by apply settled_sync.
  - cbn. change (count (is_reader reads) (pending w) = 0%nat). lia.
  - rewrite length_take. unfold buf. rewrite length_inserts.
    unfold ExecutionPlan.MAX_DATAGRAM_SIZE in Hx. cbn. lia.
Qed.

Lemma udp_init_ok :
  base false 0 [] (UDPSession.init config m sink h) /\
  settled false (UDPSession.init config m sink h).
Proof.
  destruct ok. split.
  - constructor; try done; cbn; try lia.
    + exists 0%nat. split; [|done]. split; [done|]. split; [intros _; lia | done].
    + rewrite count_nil. lia.
    + unfold x_inv. cbn. rewrite length_replicate. unfold ExecutionPlan.MAX_DATAGRAM_SIZE.
      destruct (_ <? _) eqn:E; bool_to_Z; lia.
  - constructor; try done; cbn. rewrite count_nil. lia.
Qed.

Lemma udp_run_transport_ok st r T (w : world) o res :
  base st r T (set_pending (Transport o :: pending w) w) -> settled st w ->
  match res with Failed => True | Success data => transport_result w o data end ->
  reads_on st r T (run_transport config steady_clock o res w).
Proof. destruct o. apply datagram_read_ok. Qed.

Lemma udp_ready_begun st (w : world) :
  (live w = true -> st = true) -> ready w = live w && begun st (extra w).
Proof. intros Hl. unfold ready, begun. destruct (live w); [|done]. by rewrite Hl. Qed.

Abbreviation run := (UDPSession.run config steady_clock system_clock
                       (UDPSession.init config m sink h)).

Lemma udp_run_inv tr w :
  run tr w -> total (posts tr) < 2 ^ 64 -> inv config payloads reads begun x_inv tr w.
Proof.
  intros Hrun Ht. destruct udp_init_ok as [Hb Hs]. destruct ok.
  eapply (run_inv config steady_clock system_clock payloads) with (read_op := DatagramRead)
    (ready := ready) (start_task := start_task config steady_clock system_clock)
    (run_transport := run_transport config steady_clock)
    (transport_result := transport_result) (w0 := UDPSession.init config m sink h); try done.
  - intros st w1 Hl. by apply udp_ready_begun.
  - intros r T w1 res. by apply udp_start_task_ok.
  - intros st r T w1 o res. by apply udp_run_transport_ok.
Qed.

Lemma udp_progress tr w pre o post_ r :
  run tr w -> total (posts tr) < 2 ^ 64 -> pending w = pre ++ o :: post_ ->
  (pool_op o = true -> Forall (fun o' => pool_op o' = false) pre) ->
  result_of transport_result w o r ->
  exists w', run_op config steady_clock system_clock o r (set_pending (pre ++ post_) w) = Ok w'.
Proof.
  intros Hrun Ht Hp Hf Hr. destruct udp_init_ok as [Hb Hs]. destruct ok.
  eapply (run_progress config steady_clock system_clock payloads) with (read_op := DatagramRead)
    (ready := ready) (start_task := start_task config steady_clock system_clock)
    (x_inv := x_inv) (begun := begun) (reads := reads)
    (transport_result := transport_result) (w0 := UDPSession.init config m sink h); try done.
  - intros st w1 Hl. by apply udp_ready_begun.
  - intros r1 T w1 res. by apply udp_start_task_ok.
  - intros st r1 T w1 o1 res. by apply udp_run_transport_ok.
Qed.
End Udp.

(** C16: A UDP session is safe in every history, as a TCP session is: at most one
    datagram is being sent and one being received, [on_disconnect_] is called
    once when a started session closes, the buffers of a pending send still
    hold their payload, and no handler runs into undefined behaviour.  Its
    payloads are those of the plan in turn; and while it is open with nothing
    being sent, no response is left, and no payload it could send either. *)
Theorem udp_session_safe {H : Type} `{HandlerLaws H} config steady_clock system_clock
    m sink (h : H) tr w :
  udp_setting_ok config m sink h ->
  UDPSession.run config steady_clock system_clock (UDPSession.init config m sink h) tr w ->
  total (posts tr) < 2 ^ 64 ->
  let n := length (PayloadManager.payloads_ m) in
  let k := length (payload_indices (written (shared w))) in
  (count is_writer (pending w) <= 1)%nat /\
  (count (is_reader reads) (pending w) <= 1)%nat /\
  disconnects (shared w) = (if started tr && negb (live w) then 1 else 0)%nat /\
  buffers_ok (PayloadManager.payloads_ m) w /\
  payload_indices (written (shared w)) = map (fun j => Z.of_nat (j mod n)) (seq 0 k) /\
  (live w = true -> writing w = false ->
   responses w = [] /\
   (flooding w || (writes_queued w >? 0) = true ->
    (SessionConfig.loop_payloads config = false \/ draining w = true) /\
    PayloadManager.payloads_ m !! Z.to_nat (next_payload_index w) = None)) /\
  (forall pre o post_ r,
     pending w = pre ++ o :: post_ ->
     (pool_op o = true -> Forall (fun o' => pool_op o' = false) pre) ->
     result_of transport_result w o r ->
     exists w', run_op config steady_clock system_clock o r (set_pending (pre ++ post_) w) = Ok w').
Proof.
  intros Hok Hrun Ht.
  pose proof (udp_run_inv _ _ _ _ _ _ Hok _ _ Hrun Ht) as [(ran & tasks & _ & _ & _ & []) [] _ _].
  destruct b_log as (k & (L1 & L2 & L3) & _). cbv zeta.
  assert (length (payload_indices (written (shared w))) = k) as Hk.
  { rewrite L1. unfold in_turn. by rewrite length_map, length_seq. }
  rewrite Hk. do 5 (split; [done|]). split.
  - intros Hl Hw. apply s_quiet; try done. by apply b_live.
  - intros pre o post_ r. by apply (udp_progress _ _ _ _ _ _ Hok tr).
Qed.

(** ** Witness: a session that sends two datagrams and receives one *)

Definition udp_transport_check (w : Session.world receiver udp_op NOPMessageHandler.t) (o : udp_op)
    (data : list Z) : bool :=
  Nat.leb (length data) (length (packet_buffer_ (extra w))).

Definition udp_payloads_sample : list PayloadDescriptor.t :=
  [PayloadDescriptor.mk [1; 2; 3] [PacketOperation.make_identity 1;
                                   PacketOperation.make_counter 2 true];
   PayloadDescriptor.mk [4] [PacketOperation.make_identity 1]].

Definition udp_manager_sample : PayloadManager.t :=
  PayloadManager.init udp_payloads_sample [[7]; []].

Definition udp_config_sample : SessionConfig.t := SessionConfig.mk 0 16 true true 100.

Definition udp_clock (n : nat) : Z := 1000 * Z.of_nat n.

Definition udp_session_sample : Session.world receiver udp_op NOPMessageHandler.t :=
  UDPSession.init udp_config_sample udp_manager_sample ShardMetrics.init NOPMessageHandler.mk.

Definition udp_steps : list (step (O := udp_op)) :=
  [Post StartTask; Complete 0 (Success []); Post (SendTask 3); Complete 1 (Success []);
   Complete 1 (Success [1; 0; 0]); Complete 0 (Success [9; 9]); Complete 1 (Success []);
   Complete 0 (Success [4])].

Definition udp_end : list (event udp_op) * Session.world receiver udp_op NOPMessageHandler.t :=
  Eval vm_compute in
  default ([], udp_session_sample)
    (play udp_config_sample udp_clock (fun _ => udp_clock) ready
       (do_read udp_config_sample udp_clock)
       (start_task udp_config_sample udp_clock (fun _ => udp_clock))
       (run_transport udp_config_sample udp_clock) udp_transport_check udp_steps []
       udp_session_sample).

Lemma udp_sample_run :
  UDPSession.run udp_config_sample udp_clock (fun _ => udp_clock) udp_session_sample
    udp_end.1 udp_end.2.
Proof.
  eapply (play_run _ _ _ _ _ _ _ transport_result udp_transport_check) with (l := udp_steps).
  - intros w o data Hd. unfold transport_result. by apply Nat.leb_le.
  - apply run_init.
  - vm_compute. reflexivity.
Qed.

Lemma udp_sample_setting :
  udp_setting_ok udp_config_sample udp_manager_sample ShardMetrics.init NOPMessageHandler.mk.
Proof.
  constructor; try done; cbn; try lia.
  - split; [done|]. repeat constructor.
  - repeat constructor; cbn; try lia; done.
Qed.

Lemma udp_session_safe_witness :
  payload_indices (written (shared udp_end.2)) = [0; 1; 0] /\
  (count is_writer (pending udp_end.2) <= 1)%nat /\
  disconnects (shared udp_end.2) = 0%nat.
Proof.
  destruct (udp_session_safe _ _ _ _ _ _ _ _ udp_sample_setting udp_sample_run)
    as (H1 & _ & H3 & _ & H5 & _); [vm_compute; reflexivity|].
  split; [exact H5|]. split; [exact H1 | exact H3].
Defined.
