(* ===== verification/SessionEffects.v ===== *)
(** * What a session does to the objects it shares

    The sessions of a shard use one payload manager, one set of counters and one
    message handler.  Every operation of a session changes them only in the way
    its neighbours tolerate: [evolves], which is what [interferes] allows. *)

From S2P Require Import Prelude Payload PayloadProps ExecutionPlan Metrics MessageHandler.
From S2P Require Import MessageHandlerProps Session SessionFacts TcpSession TcpSessionFacts.
From S2P Require Import TcpSessionProps UdpSession UdpSessionProps.
Import Session.

(** ** The payload manager *)

Lemma fill_ops_length now ops : forall k cs p off idx cs' p',
  PayloadManager.fill_ops now k ops cs p off idx = Ok (cs', p') -> length cs' = length cs.
Proof.
  induction ops as [|op ops IH]; intros k cs p off idx cs' p' Hf; cbn in Hf.
  { by injection Hf as <- <-. }
  destruct (PacketOperation.type op); [by apply IH in Hf| |].
  - destruct (cs !! idx) as [c|]; [|done]. destruct (PayloadCounter.fetch_add c) as [v c'].
    apply obind_Ok in Hf as (p1 & _ & Hf). apply IH in Hf. by rewrite Hf, length_insert.
  - apply obind_Ok in Hf as (p1 & _ & Hf). by apply IH in Hf.
Qed.

Lemma manager_fill_shape now m i p b p' m' :
  PayloadManager.fill_payload now m i p = Ok (b, p', m') -> same_shape m m'.
Proof.
  unfold PayloadManager.fill_payload, same_shape. intros Hf.
  destruct (PayloadManager.payloads_ m !! i); [|by injection Hf as <- <- <-].
  cbv zeta in Hf. apply obind_Ok in Hf as ((cs & p1) & Hf & E). injection E as <- <- <-.
  split; [done|]. cbn. apply fill_ops_length in Hf.
  change (map length) with (fmap (M := list) (@length PayloadCounter.t)).
  rewrite list_fmap_insert. apply list_insert_id'. intros Hi. rewrite list_lookup_fmap, Hf.
  rewrite length_fmap in Hi. by destruct (lookup_lt_is_Some_2 _ _ Hi) as (c & ->).
Qed.

#[export] Instance same_shape_preorder : PreOrder same_shape.
Proof. split; [done|]. intros m1 m2 m3 [] []. split; congruence. Qed.

#[export] Instance same_buckets_preorder : PreOrder same_buckets.
Proof. split; [done|]. intros m1 m2 m3 (? & ? & ?) (? & ? & ?). split_and!; congruence. Qed.

Section Moves.
Context {H : Type} `{MessageHandler H}.

#[export] Instance handled_preorder : PreOrder (handled (H := H)).
Proof.
  split; [by constructor|]. intros h1 h2 h3 H12 H23. induction H23; [done | |].
  - by eapply handled_message; [apply IHhandled| |].
  - by eapply handled_header; [apply IHhandled| |].
Qed.

(** The changes the other sessions tolerate; and, without the metrics, what
    every step of a session does. *)
Definition moves (s s' : shared_state H) : Prop :=
  same_shape (payload_manager_ s) (payload_manager_ s') /\
  handled (message_handler_ s) (message_handler_ s') /\
  (disconnects s <= disconnects s')%nat.

Definition evolves (s s' : shared_state H) : Prop :=
  same_shape (payload_manager_ s) (payload_manager_ s') /\
  same_buckets (metrics_sink_ s) (metrics_sink_ s') /\
  handled (message_handler_ s) (message_handler_ s').

#[export] Instance moves_preorder : PreOrder moves.
Proof.
  split; [split; [|split]; reflexivity|]. intros s1 s2 s3 (? & ? & ?) (? & ? & ?).
  split; [|split]; etransitivity; eassumption.
Qed.

#[export] Instance evolves_preorder : PreOrder evolves.
Proof.
  split; [split; [|split]; reflexivity|]. intros s1 s2 s3 (? & ? & ?) (? & ? & ?).
  split; [|split]; etransitivity; eassumption.
Qed.

Lemma moves_eq (s s' : shared_state H) :
  payload_manager_ s' = payload_manager_ s -> message_handler_ s' = message_handler_ s ->
  (disconnects s <= disconnects s')%nat -> moves s s'.
Proof. intros E1 E2 Hd. unfold moves. rewrite E1, E2. split; [|split]; done. Qed.
End Moves.

(** Steps that leave the manager and the handler alone. *)
Ltac by_moves := apply moves_eq; [done | done | cbn; lia].

Section Effects.
Context {X O H : Type} `{MessageHandler H}.

Abbreviation world := (Session.world X O H).

(** What a step that returns does to the shared objects. *)
Definition effect (w : world) (m : outcome world) : Prop :=
  forall w', m = Ok w' -> moves (shared w) (shared w').

Lemma effect_ret w w' : moves (shared w) (shared w') -> effect w (Ok w').
Proof. by intros Hm w1 [= <-]. Qed.

Lemma effect_from w1 w m : effect w1 m -> moves (shared w) (shared w1) -> effect w m.
Proof. intros Hm H1 w' E. etransitivity; [exact H1 | by apply Hm]. Qed.

Lemma effect_bind w m k :
  effect w m -> (forall w', effect w' (k w')) -> effect w (let! w' := m in k w').
Proof.
  intros Hm Hk w2 E. apply obind_Ok in E as (w1 & E1 & E2).
  etransitivity; [by apply Hm | by eapply Hk].
Qed.

Variable config : SessionConfig.t.
Variable steady_clock : nat -> Z.
Variable system_clock : nat -> nat -> Z.

Lemma moves_close (w : world) : moves (shared w) (shared (close_session w)).
Proof. unfold close_session. destruct (negb (live w)); by_moves. Qed.

Lemma moves_stop_writing (w : world) : moves (shared w) (shared (stop_writing w)).
Proof.
  unfold stop_writing. cbv zeta. destruct (draining _); [|by_moves].
  apply (moves_close (set_writing false w)).
Qed.

Lemma moves_sample_write (w : world) :
  moves (shared w) (shared (sample_write config steady_clock w)).
Proof. unfold sample_write. cbv zeta. destruct (_ >=? _); by_moves. Qed.

Lemma moves_sample_read (w : world) :
  moves (shared w) (shared (sample_read config steady_clock w)).
Proof. unfold sample_read. cbv zeta. destruct (_ >=? _); by_moves. Qed.

Lemma effect_record_write (w : world) : effect w (record_write_sample config steady_clock w).
Proof.
  unfold record_write_sample. cbv zeta. destruct (_ >? _); [|by apply effect_ret].
  intros w' E. cbn [now] in E. apply obind_Ok in E as (m & _ & [= <-]). by_moves.
Qed.

Lemma effect_record_read (w : world) : effect w (record_read_sample config steady_clock w).
Proof.
  unfold record_read_sample. cbv zeta. destruct (_ >? _); [|by apply effect_ret].
  intros w' E. cbn [now] in E. apply obind_Ok in E as (m & _ & [= <-]). by_moves.
Qed.

Lemma record_read_extra (w w' : world) :
  record_read_sample config steady_clock w = Ok w' -> extra w' = extra w.
Proof.
  unfold record_read_sample. cbv zeta. destruct (_ >? _); [|by intros [= <-]].
  cbn [now]. intros E. apply obind_Ok in E as (m & _ & [= <-]). done.
Qed.

Lemma moves_write_response packet rest (w : world) :
  moves (shared w) (shared (write_response config steady_clock packet rest w)).
Proof.
  unfold write_response, async_write. cbv zeta. cbn.
  etransitivity; [|by_moves].
  apply (moves_sample_write (set_writing true (set_responses rest w))).
Qed.

Lemma moves_write_payload (w : world) :
  moves (shared w) (shared (write_payload config steady_clock w)).
Proof.
  unfold write_payload, async_write. cbv zeta. cbn.
  etransitivity; [|by_moves].
  etransitivity; [|apply moves_sample_write]. destruct (negb (flooding w)); by_moves.
Qed.

Lemma effect_do_write fuel : forall w : world,
  effect w (do_write config steady_clock system_clock fuel w).
Proof.
  induction fuel as [|fuel IH]; intros w; [done|]. rewrite do_write_S.
  destruct (responses w) as [|packet rest]; [|apply effect_ret, moves_write_response].
  destruct (_ || _); [|apply effect_ret, moves_stop_writing].
  intros w' E. apply obind_Ok in E as ((b & w1) & E1 & E).
  assert (moves (shared w) (shared w1)) as H1.
  { unfold fill_payload in E1. cbv zeta in E1. apply obind_Ok in E1 as (((v & p) & m) & E1 & E2).
    injection E2 as <- <-. apply manager_fill_shape in E1. split; [exact E1 | split; reflexivity]. }
  etransitivity; [exact H1|]. revert w' E.
  change (effect w1 (if negb b
    then if SessionConfig.loop_payloads config && negb (draining w1)
         then do_write config steady_clock system_clock fuel (set_next_payload_index 0 w1)
         else Ok (stop_writing w1)
    else Ok (write_payload config steady_clock w1))).
  destruct b; cbn [negb]; [apply effect_ret, moves_write_payload|].
  destruct (_ && _); [|apply effect_ret, moves_stop_writing].
  eapply effect_from; [apply IH | by_moves].
Qed.

Lemma effect_try_start_write (w : world) :
  effect w (try_start_write config steady_clock system_clock w).
Proof.
  unfold try_start_write. destruct (writing w); [by apply effect_ret|].
  destruct (_ || _); [apply effect_do_write|].
  destruct (draining w); apply effect_ret; [apply moves_close | done].
Qed.

Lemma effect_on_written r (w : world) :
  effect w (on_written config steady_clock system_clock r w).
Proof.
  destruct r as [|data]; cbn [on_written]; [apply effect_ret, moves_close|].
  apply (effect_from (set_metrics (ShardMetrics.record_bytes_sent (metrics w)
                                     (Z.of_nat (length data))) w)); [|by_moves].
  apply effect_bind; [apply effect_record_write | intros; apply effect_do_write].
Qed.

Lemma effect_on_connect do_read (w : world) :
  (forall w, moves (shared w) (shared (do_read w))) ->
  effect w (on_connect config steady_clock system_clock do_read w).
Proof.
  intros Hr. unfold on_connect. cbv zeta.
  set (w1 := if SessionConfig.read_messages config then do_read w else w).
  apply (effect_from w1); [|subst w1; destruct (SessionConfig.read_messages config); [apply Hr | done]].
  destruct (writing w1); [by apply effect_ret|].
  destruct (_ || _); [apply effect_do_write | by apply effect_ret].
Qed.

Lemma shared_post_all packets (w : world) :
  shared (fold_left (fun w packet => post (ResponseTask packet) w) packets w) = shared w.
Proof. revert w. induction packets as [|p l IH]; intros w; [done|]. cbn. by rewrite IH. Qed.

Lemma effect_handle_message header body (w : world) :
  Z.of_nat (length header) + Z.of_nat (length body) < 2 ^ 32 ->
  effect w (handle_message header body w).
Proof.
  intros Hn w' E. unfold handle_message in E. apply obind_Ok in E as ((packets & h) & E & [= <-]).
  rewrite shared_post_all. split; [reflexivity|]. split; [|done]. cbn.
  eapply handled_message; [constructor | exact Hn | exact E].
Qed.

(** ** The operations *)

Variable ready : world -> bool.
Variable do_read : world -> world.
Variable start_task : result -> world -> outcome world.
Variable run_transport : O -> result -> world -> outcome world.
Hypothesis do_read_moves : forall w, moves (shared w) (shared (do_read w)).
Hypothesis start_task_effect : forall r w, effect w (start_task r w).

Lemma effect_response packet (w : world) :
  effect w (response_task config steady_clock system_clock do_read packet w).
Proof.
  unfold response_task. apply effect_bind; [|intros w'; apply effect_ret, do_read_moves].
  destruct (Nat.ltb _ _); [|by apply effect_ret].
  eapply effect_from; [apply effect_try_start_write | by_moves].
Qed.

Lemma run_op_effect o r (w : world) :
  match o with Transport o => effect w (run_transport o r w) | _ => True end ->
  effect w (run_op config steady_clock system_clock ready do_read start_task run_transport o r w).
Proof.
  intros Ho. destruct o; cbn [run_op]; try done.
  - unfold flood_task. destruct (_ || _); [by apply effect_ret|]. cbv zeta.
    apply (effect_from (set_flood true w)); [|by_moves].
    destruct (ready _); [apply effect_try_start_write | by apply effect_ret].
  - unfold send_task. cbv zeta.
    apply (effect_from (set_writes_queued (u64 (writes_queued w + n)) w)); [|by_moves].
    destruct (ready _); [apply effect_try_start_write | by apply effect_ret].
  - unfold drain_task. cbv zeta. apply (effect_from (set_draining true w)); [|by_moves].
    destruct (_ && _); apply effect_ret; [apply moves_close | done].
  - apply effect_ret, moves_close.
  - apply effect_response.
  - apply effect_on_written.
  - apply effect_on_written.
Qed.

(** What comes before the operation in the queue of its session does not
    matter. *)
Lemma effect_pending l (w : world) m : effect (set_pending l w) m -> effect w m.
Proof. done. Qed.

Lemma moves_evolves (s s' : shared_state H) :
  moves s s' -> metrics_ok (metrics_sink_ s) -> metrics_ok (metrics_sink_ s') -> evolves s s'.
Proof.
  intros (H1 & H2 & _) (? & ? & ?) (? & ? & ?). split; [done|]. split; [|done]. split_and!; congruence.
Qed.
End Effects.

(** ** TCP sessions *)

Section Tcp.
Import TCPSession.
Context {H : Type} `{HL : HandlerLaws H}.
Variables (config : SessionConfig.t) (steady_clock : nat -> Z) (system_clock : nat -> nat -> Z).
Variables (m : PayloadManager.t) (sink : ShardMetrics.t) (h : H).
Hypothesis ok : setting_ok config m sink h.

Abbreviation world := (Session.world reader tcp_op H).

Lemma tcp_message_effect (w : world) :
  Z.of_nat (length (incoming_header_ (extra w))) = SessionConfig.header_size config ->
  next_payload_size_ (extra w) <= SessionConfig.payload_size_limit config ->
  effect w (handle_message w).
Proof.
  destruct ok. intros Hh Hn. unfold handle_message, body_bytes.
  destruct (_ <=? _); [|done]. cbn [obind]. apply effect_handle_message.
  rewrite Hh, length_take. lia.
Qed.

Lemma header_read_effect r (w : world) :
  match r with Failed => True | Success data => transport_result config w HeaderRead data end ->
  effect w (header_read config steady_clock r w).
Proof.
  destruct r as [|data]; cbn [header_read transport_result]; intros Hd.
  { apply effect_ret, moves_close. }
  cbv zeta. set (w1 := set_metrics _ _). apply (effect_from w1); [|by_moves].
  intros w' E. apply obind_Ok in E as ((res & h1) & Hp & E).
  assert (moves (shared w1) (shared (set_handler h1 w1))) as H1.
  { split; [reflexivity|]. split; [|done]. eapply handled_header; [constructor | | exact Hp].
    destruct ok. cbn. lia. }
  etransitivity; [exact H1|]. revert w' E.
  destruct (HeaderResult.status res).
  2, 3: apply effect_ret; etransitivity; [|apply moves_sample_read]; by_moves.
  apply (effect_from (set_next_payload_size (HeaderResult.length res) (set_handler h1 w1)));
    [|by_moves].
  destruct (_ >? _) eqn:E; [apply effect_ret, moves_close|]. bool_to_Z.
  unfold do_read_body. cbv zeta. destruct (_ =? 0); [by apply tcp_message_effect|].
  apply effect_ret. destruct (_ >? _); by_moves.
Qed.

Lemma body_read_effect r (w : world) :
  Z.of_nat (length (incoming_header_ (extra w))) = SessionConfig.header_size config ->
  next_payload_size_ (extra w) <= SessionConfig.payload_size_limit config ->
  effect w (body_read config steady_clock r w).
Proof.
  intros Hh Hn. destruct r as [|data]; cbn [body_read]; [apply effect_ret, moves_close|].
  cbv zeta. set (w1 := set_metrics _ _).
  assert (moves (shared w) (shared w1) /\ extra w1 = extra (store_body data w)) as [H1 E1].
  { split; [|done]. subst w1. unfold store_body. destruct (body_buffer_ptr_ (extra w)); by_moves. }
  apply (effect_from w1); [|done].
  intros w' E. apply obind_Ok in E as (w2 & E2 & E).
  etransitivity; [by apply (effect_record_read _ _ w1 w2 E2)|]. revert w' E.
  assert (extra w2 = extra w1) as E3 by (by apply record_read_extra in E2).
  apply tcp_message_effect; rewrite E3, E1; unfold store_body;
    destruct (body_buffer_ptr_ (extra w)); done.
Qed.

Lemma tcp_start_effect r (w : world) : effect w (start_task steady_clock r w).
Proof. apply effect_ret. by_moves. Qed.

Lemma connected_effect conn_start r (w : world) :
  effect w (connected config steady_clock system_clock conn_start r w).
Proof.
  destruct r as [|data]; unfold connected; cbv zeta.
  - apply effect_ret. etransitivity; [|apply moves_close]. by_moves.
  - intros w' E. cbn [now] in E. apply obind_Ok in E as (mt & _ & E).
    eapply (effect_from (set_metrics (ShardMetrics.record_connection_success mt)
                           (tick (set_connecting false w)))); [|by_moves|exact E].
    apply effect_on_connect. intros w1. etransitivity; [apply moves_sample_read|].
    by_moves.
Qed.

Abbreviation run := (TCPSession.run config steady_clock system_clock
                       (TCPSession.init config m sink h)).

(** A TCP session changes the shared objects only as its neighbours allow. *)
Lemma tcp_evolves tr w pre o post_ r w' :
  run tr w -> total (posts tr) < 2 ^ 64 -> pending w = pre ++ o :: post_ ->
  (pool_op o = true -> Forall (fun o' => pool_op o' = false) pre) ->
  result_of (transport_result config) w o r ->
  run_op config steady_clock system_clock o r (set_pending (pre ++ post_) w) = Ok w' ->
  evolves (shared w) (shared w') /\ (disconnects (shared w) <= disconnects (shared w'))%nat.
Proof.
  intros Hrun Ht Hp Hf Hr Hop.
  assert (run (tr ++ [Ran o r]) w') as Hrun' by (by eapply run_complete).
  pose proof (tcp_run_inv _ _ _ _ _ _ ok _ _ Hrun Ht) as [(ran & tasks & _ & _ & _ & Hb) _ _ _].
  assert (total (posts (tr ++ [Ran o r])) < 2 ^ 64) as Ht' by (by rewrite posts_snoc, app_nil_r).
  pose proof (tcp_run_inv _ _ _ _ _ _ ok _ _ Hrun' Ht') as [(? & ? & _ & _ & _ & Hb') _ _ _].
  enough (moves (shared w) (shared w')) as Hm.
  { split; [|apply Hm]. apply moves_evolves; [done | apply Hb | apply Hb']. }
  pose proof (b_extra _ _ _ _ _ _ _ _ _ Hb) as (_ & _ & X3 & _ & X5).
  refine (effect_pending (pre ++ post_) w _ (run_op_effect config steady_clock system_clock ready
    (do_read_header config steady_clock) (start_task steady_clock)
    (run_transport config steady_clock system_clock) _ _ o r _ _) w' Hop).
  - intros w1. etransitivity; [apply moves_sample_read|]. by_moves.
  - intros res w1. apply tcp_start_effect.
  - destruct o as [| | | | | | | |[conn_start| |]]; try done.
    + apply connected_effect.
    + by apply header_read_effect.
    + apply body_read_effect; [done|]. apply X5.
      rewrite Hp, transports_app, transports_cons. apply in_app_iff. right. by left.
Qed.
End Tcp.

(** ** UDP sessions *)

Section Udp.
Import UDPSession.
Context {H : Type} `{HL : HandlerLaws H}.
Variables (config : SessionConfig.t) (steady_clock : nat -> Z) (system_clock : nat -> nat -> Z).
Variables (m : PayloadManager.t) (sink : ShardMetrics.t) (h : H).
Hypothesis ok : udp_setting_ok config m sink h.

Abbreviation world := (Session.world receiver udp_op H).

Lemma udp_read_moves (w : world) :
  moves (shared w) (shared (do_read config steady_clock w)).
Proof. etransitivity; [apply moves_sample_read|]. by_moves. Qed.

Lemma udp_start_effect r (w : world) :
  effect w (start_task config steady_clock system_clock r w).
Proof.
  destruct r; unfold start_task; cbv zeta.
  - apply effect_ret. etransitivity; [|apply moves_close]. by_moves.
  - eapply effect_from; [apply effect_on_connect, udp_read_moves | by_moves].
Qed.

Lemma datagram_read_effect r (w : world) :
  Z.of_nat (length (packet_buffer_ (extra w))) <= ExecutionPlan.MAX_DATAGRAM_SIZE ->
  effect w (datagram_read config steady_clock r w).
Proof.
  intros Hx. destruct r as [|data]; cbn [datagram_read]; [apply effect_ret, moves_close|].
  cbv zeta. set (buf := list_inserts 0 data (packet_buffer_ (extra w))).
  set (w1 := set_metrics _ _). apply (effect_from w1); [|by_moves].
  destruct (_ >? _); [apply effect_ret, moves_close|].
  intros w' E. apply obind_Ok in E as (w2 & E2 & E).
  etransitivity; [by apply (effect_record_read _ _ w1 w2 E2)|]. revert w' E.
  assert (extra w2 = extra w1) as E3 by (by apply record_read_extra in E2).
  unfold handle_message. cbv zeta. destruct (_ <=? _); [|done].
  apply effect_handle_message. rewrite E3, length_take. cbn. unfold buf.
  rewrite length_inserts. unfold ExecutionPlan.MAX_DATAGRAM_SIZE in Hx. lia.
Qed.

Abbreviation run := (UDPSession.run config steady_clock system_clock
                       (UDPSession.init config m sink h)).

(** Neither does a UDP session change them otherwise. *)
Lemma udp_evolves tr w pre o post_ r w' :
  run tr w -> total (posts tr) < 2 ^ 64 -> pending w = pre ++ o :: post_ ->
  (pool_op o = true -> Forall (fun o' => pool_op o' = false) pre) ->
  result_of transport_result w o r ->
  run_op config steady_clock system_clock o r (set_pending (pre ++ post_) w) = Ok w' ->
  evolves (shared w) (shared w') /\ (disconnects (shared w) <= disconnects (shared w'))%nat.
Proof.
  intros Hrun Ht Hp Hf Hr Hop.
  assert (run (tr ++ [Ran o r]) w') as Hrun' by (by eapply run_complete).
  pose proof (udp_run_inv _ _ _ _ _ _ ok _ _ Hrun Ht) as [(ran & tasks & _ & _ & _ & Hb) _ _ _].
  assert (total (posts (tr ++ [Ran o r])) < 2 ^ 64) as Ht' by (by rewrite posts_snoc, app_nil_r).
  pose proof (udp_run_inv _ _ _ _ _ _ ok _ _ Hrun' Ht') as [(? & ? & _ & _ & _ & Hb') _ _ _].
  enough (moves (shared w) (shared w')) as Hm.
  { split; [|apply Hm]. apply moves_evolves; [done | apply Hb | apply Hb']. }
  refine (effect_pending (pre ++ post_) w _ (run_op_effect config steady_clock system_clock ready
    (do_read config steady_clock) (start_task config steady_clock system_clock)
    (run_transport config steady_clock) udp_read_moves udp_start_effect o r _ _) w' Hop).
  destruct o as [| | | | | | | |[]]; try done. apply datagram_read_effect, Hb.
Qed.
End Udp.
