(* ===== verification/SessionPool.v ===== *)
(** * The session pool (src/orchestrator/session-pool.h)

    A pool owns the sessions of a shard, passes the actions of the shard on to
    ranges of them, and counts those that are connected.  What it calls on a
    session is the interface [Session], which the source states as a list of
    [static_assert]s. *)

From S2P Require Import Prelude ExecutionPlan Metrics MessageHandler Session TcpSession UdpSession.

(** What a session type offers; every call posts to the strand of the session. *)
Class PoolSession (Sess Endpoints : Type) : Type := {
  start : Endpoints -> Sess -> Sess;
  flood : Sess -> Sess;
  send : Z -> Sess -> Sess;
  drain : Sess -> Sess;
  stop : Sess -> Sess
}.

#[global] Instance tcp_pool_session {H : Type}
  : PoolSession (Session.world TCPSession.reader TCPSession.tcp_op H) (list Endpoint.t) := {|
  start := fun _ => TCPSession.start;
  flood := TCPSession.flood;
  send := TCPSession.send;
  drain := TCPSession.drain;
  stop := TCPSession.stop
|}.

#[global] Instance udp_pool_session {H : Type}
  : PoolSession (Session.world UDPSession.receiver UDPSession.udp_op H) Endpoint.t := {|
  start := fun _ => UDPSession.start;
  flood := UDPSession.flood;
  send := UDPSession.send;
  drain := UDPSession.drain;
  stop := UDPSession.stop
|}.

Module SessionPool.

(** The pool, and how often it has called [notify_closed_]. *)
Record t (Sess : Type) : Type := mk {
  sessions_ : list Sess;
  active_sessions_ : Z;
  closed_ : bool;
  notified : nat
}.

Arguments mk {Sess}.
Arguments sessions_ {Sess}.
Arguments active_sessions_ {Sess}.
Arguments closed_ {Sess}.
Arguments notified {Sess}.

Section Pool.
Context {Sess Endpoints : Type} `{PoolSession Sess Endpoints}.

Definition init : t Sess := mk [] 0 false 0.

Definition set_sessions (l : list Sess) (p : t Sess) : t Sess :=
  mk l (active_sessions_ p) (closed_ p) (notified p).
Definition set_active (n : Z) (p : t Sess) : t Sess := mk (sessions_ p) n (closed_ p) (notified p).
Definition set_closed (b : bool) (p : t Sess) : t Sess :=
  mk (sessions_ p) (active_sessions_ p) b (notified p).
Definition notify_closed (p : t Sess) : t Sess :=
  mk (sessions_ p) (active_sessions_ p) (closed_ p) (notified p + 1).

(** [for (i = start; i < end; i++) sessions_[i]->f();], [n] iterations. *)
Fixpoint for_range (f : Sess -> Sess) (n : nat) (i : Z) (l : list Sess) : outcome (list Sess) :=
  match n with
  | O => Ok l
  | S n =>
      match l !! Z.to_nat i with
      | Some s => for_range f n (i + 1) (<[Z.to_nat i := f s]> l)
      | None => Undef
      end
  end.

Definition on_range (f : Sess -> Sess) (start end_ : Z) (p : t Sess) : outcome (t Sess) :=
  let! l := for_range f (Z.to_nat (end_ - start)) start (sessions_ p) in
  Ok (set_sessions l p).

(** [fresh] is a session as its constructor makes it. *)
Definition create_sessions (session_count : Z) (fresh : Sess) (p : t Sess) : bool * t Sess :=
  match sessions_ p with
  | _ :: _ => (false, p)
  | [] => (true, set_sessions (replicate (Z.to_nat session_count) fresh) p)
  end.

Definition start_sessions_range (endpoints : Endpoints) (first end_ : Z) (p : t Sess)
  : outcome (t Sess) :=
  if closed_ p then Ok p
  else
    let p := set_active (u64 (active_sessions_ p + u64 (end_ - first))) p in
    on_range (start endpoints) first end_ p.

Definition send_sessions_range (first end_ n : Z) (p : t Sess) : outcome (t Sess) :=
  if closed_ p then Ok p else on_range (send n) first end_ p.

Definition flood_sessions_range (first end_ : Z) (p : t Sess) : outcome (t Sess) :=
  if closed_ p then Ok p else on_range flood first end_ p.

Definition drain_sessions_range (first end_ : Z) (p : t Sess) : outcome (t Sess) :=
  if closed_ p then Ok p else on_range drain first end_ p.

Definition stop_sessions_range (first end_ : Z) (p : t Sess) : outcome (t Sess) :=
  if closed_ p then Ok p else on_range stop first end_ p.

Definition stop_all_sessions (p : t Sess) : outcome (t Sess) :=
  stop_sessions_range 0 (Z.of_nat (length (sessions_ p))) p.

Definition shutdown (p : t Sess) : outcome (t Sess) :=
  if closed_ p then Ok p
  else
    let p := set_closed true p in
    let! p := stop_all_sessions p in
    Ok (if active_sessions_ p =? 0 then notify_closed p else p).

Definition active_sessions (p : t Sess) : Z := active_sessions_ p.

(** What a session calls when it closes. *)
Definition disconnect_callback (p : t Sess) : t Sess :=
  let p := set_active (u64 (active_sessions_ p - 1)) p in
  if (active_sessions_ p =? 0) && closed_ p then notify_closed p else p.

End Pool.
End SessionPool.
