(* ===== verification/SessionPoolProps.v ===== *)
(** * Theorems on the session pool

    A call on a range is a map over its positions; the pool counts the sessions it
    started and reports the end of the last one once; its shutdown stops none. *)

From S2P Require Import Prelude SessionPool.
Import SessionPool.

(** The calls on ranges of sessions, by their definitions. *)
Tactic Notation "unfold_calls" :=
  unfold start_sessions_range, send_sessions_range, flood_sessions_range, drain_sessions_range,
    stop_sessions_range.
Tactic Notation "unfold_calls" "in" hyp(H) :=
  unfold start_sessions_range, send_sessions_range, flood_sessions_range, drain_sessions_range,
    stop_sessions_range in H.

(** ** Ranges *)

(** [f] on the positions from [start] to [end_], the end excluded. *)
Definition on_positions {A} (f : A -> A) (start end_ : Z) (l : list A) : list A :=
  imap (fun i x => if (start <=? Z.of_nat i) && (Z.of_nat i <? end_) then f x else x) l.

#[global] Arguments on_positions : simpl never.

Lemma on_positions_lookup {A} (f : A -> A) a b l i :
  on_positions f a b l !! i
  = (fun x => if (a <=? Z.of_nat i) && (Z.of_nat i <? b) then f x else x) <$> l !! i.
Proof. unfold on_positions. by rewrite list_lookup_imap. Qed.

Lemma length_on_positions {A} (f : A -> A) a b l : length (on_positions f a b l) = length l.
Proof. unfold on_positions. apply length_imap. Qed.

Lemma on_positions_none {A} (f : A -> A) a b l : b <= a -> on_positions f a b l = l.
Proof.
  intros Hab. apply list_eq. intros i. rewrite on_positions_lookup.
  destruct (l !! i); [|done]. cbn.
  replace (_ && _) with false; [done|]. symmetry. apply andb_false_iff.
  destruct (Z.leb_spec a (Z.of_nat i)); [right; apply Z.ltb_ge; lia | by left].
Qed.

Lemma on_positions_step {A} (f : A -> A) a b l x :
  0 <= a < b -> l !! Z.to_nat a = Some x ->
  on_positions f (a + 1) b (<[Z.to_nat a := f x]> l) = on_positions f a b l.
Proof.
  intros Ha Hx. apply list_eq. intros i. rewrite !on_positions_lookup.
  pose proof (lookup_lt_Some _ _ _ Hx) as Hlen.
  destruct (decide (i = Z.to_nat a)) as [->|Hi].
  - rewrite list_lookup_insert_eq, Hx by done. cbn.
    rewrite Z2Nat.id by lia. rewrite (proj2 (Z.leb_gt (a + 1) a)) by lia.
    rewrite (proj2 (Z.leb_le a a)), (proj2 (Z.ltb_lt a b)) by lia. done.
  - rewrite list_lookup_insert_ne by done. destruct (l !! i); [|done]. cbn.
    replace (a + 1 <=? Z.of_nat i) with (a <=? Z.of_nat i); [done|].
    apply eq_true_iff_eq. rewrite !Z.leb_le. lia.
Qed.

Lemma on_positions_app {A} (f : A -> A) a b l1 l2 :
  on_positions f a b (l1 ++ l2)
  = on_positions f a b l1
    ++ on_positions f (a - Z.of_nat (length l1)) (b - Z.of_nat (length l1)) l2.
Proof.
  unfold on_positions. rewrite imap_app. f_equal. apply imap_ext. intros i x _. cbn.
  rewrite Nat2Z.inj_add. set (m := Z.of_nat (length l1)).
  replace (a - m <=? Z.of_nat i) with (a <=? m + Z.of_nat i)
    by (apply eq_true_iff_eq; rewrite !Z.leb_le; lia).
  by replace (Z.of_nat i <? b - m) with (m + Z.of_nat i <? b)
    by (apply eq_true_iff_eq; rewrite !Z.ltb_lt; lia).
Qed.

(** Only the bounds inside the list matter. *)
Lemma on_positions_clip {A} (f : A -> A) a b a' b' l :
  (forall i, 0 <= i < Z.of_nat (length l) -> a <= i < b <-> a' <= i < b') ->
  on_positions f a b l = on_positions f a' b' l.
Proof.
  intros Hc. apply list_eq. intros i. rewrite !on_positions_lookup.
  destruct (l !! i) eqn:E; [|done]. apply lookup_lt_Some in E. cbn.
  specialize (Hc (Z.of_nat i) ltac:(lia)).
  replace ((a <=? Z.of_nat i) && (Z.of_nat i <? b))
    with ((a' <=? Z.of_nat i) && (Z.of_nat i <? b')); [done|].
  apply eq_true_iff_eq. rewrite !andb_true_iff, !Z.leb_le, !Z.ltb_lt. tauto.
Qed.

Section Ranges.
Context {Sess Endpoints : Type} `{PoolSession Sess Endpoints}.

Lemma for_range_spec (f : Sess -> Sess) n : forall i l,
  0 <= i -> i + Z.of_nat n <= Z.of_nat (length l) ->
  for_range f n i l = Ok (on_positions f i (i + Z.of_nat n) l).
Proof.
  induction n as [|n IH]; intros i l Hi Hn; cbn [for_range].
  - by rewrite on_positions_none by lia.
  - destruct (lookup_lt_is_Some_2 l (Z.to_nat i)) as (x & Hx); [lia|]. rewrite Hx.
    rewrite IH by (rewrite ?length_insert; lia). f_equal.
    replace (i + 1 + Z.of_nat n) with (i + Z.of_nat (S n)) by lia.
    apply on_positions_step; [lia | done].
Qed.

Lemma on_range_spec (f : Sess -> Sess) a b (p : t Sess) :
  0 <= a -> b <= Z.of_nat (length (sessions_ p)) ->
  on_range f a b p = Ok (set_sessions (on_positions f a b (sessions_ p)) p).
Proof.
  intros Ha Hb. unfold on_range. destruct (decide (a <= b)) as [Hab|Hab].
  - rewrite for_range_spec by lia. cbn [obind]. by rewrite Z2Nat.id, Zplus_minus by lia.
  - replace (Z.to_nat (b - a)) with 0%nat by lia. cbn [for_range obind].
    by rewrite on_positions_none by lia.
Qed.

Lemma sessions_set (l : list Sess) p : sessions_ (set_sessions l p) = l.
Proof. done. Qed.

(** ** Counting the connected sessions *)

(** The histories of a pool, with the number of starts it passed on less that of
    the sessions that closed: it is handed ranges of sessions to start, sessions
    that were started close, and it is shut down.  What else it does to its
    sessions changes neither. *)
Inductive pool_run : t Sess -> Z -> Prop :=
| pool_init : pool_run init 0
| pool_create p n count fresh b p' :
    pool_run p n -> create_sessions count fresh p = (b, p') -> pool_run p' n
| pool_start p n endpoints first end_ p' :
    pool_run p n -> 0 <= first <= end_ -> n + (end_ - first) < 2 ^ 64 ->
    start_sessions_range endpoints first end_ p = Ok p' ->
    pool_run p' (if closed_ p then n else n + (end_ - first))
| pool_other p n f first end_ p' :
    pool_run p n -> on_range f first end_ p = Ok p' -> pool_run p' n
| pool_disconnect p n :
    pool_run p n -> 0 < n -> pool_run (disconnect_callback p) (n - 1)
| pool_shutdown p n p' :
    pool_run p n -> shutdown p = Ok p' -> pool_run p' n.

Lemma on_range_fields f first end_ (p p' : t Sess) :
  on_range f first end_ p = Ok p' ->
  active_sessions_ p' = active_sessions_ p /\ closed_ p' = closed_ p /\ notified p' = notified p.
Proof. unfold on_range. intros Hr. inv_ok. by subst p'. Qed.

Lemma shutdown_spec (p : t Sess) :
  shutdown p
  = Ok (if closed_ p then p
        else let p := set_closed true p in
             if active_sessions_ p =? 0 then notify_closed p else p).
Proof. unfold shutdown. by destruct (closed_ p). Qed.

Lemma pool_run_count p n :
  pool_run p n ->
  0 <= n < 2 ^ 64 /\ active_sessions_ p = n /\
  notified p = (if closed_ p && (n =? 0)%Z then 1 else 0)%nat.
Proof.
  induction 1 as [|p n count fresh b p' _ (IH & Ha & Hn) Hc|p n ep a b p' _ (IH & Ha & Hn) Hab Hlt Hs
    |p n f a b p' _ (IH & Ha & Hn) Ho|p n _ (IH & Ha & Hn) Hpos|p n p' _ (IH & Ha & Hn) Hs].
  - done.
  - unfold create_sessions in Hc. destruct (sessions_ p); by injection Hc as <- <-.
  - unfold start_sessions_range in Hs. destruct (closed_ p) eqn:Ec.
    { injection Hs as <-. by rewrite Ec. }
    apply on_range_fields in Hs as (E1 & E2 & E3). cbn in E1, E2, E3.
    rewrite E1, E2, E3, Ha, Hn, ?Ec. rewrite (u64_small (b - a)), u64_small by lia.
    split_and!; [lia | lia | done | done].
  - apply on_range_fields in Ho as (E1 & E2 & E3). by rewrite E1, E2, E3.
  - unfold disconnect_callback. cbn. rewrite Ha, u64_small by lia.
    replace (n =? 0) with false in Hn by (symmetry; apply Z.eqb_neq; lia).
    rewrite andb_false_r in Hn. rewrite andb_comm.
    destruct (closed_ p && (n - 1 =? 0)) eqn:E; cbn.
    + apply andb_true_iff in E as [E1 E2]. rewrite E1, E2, Hn. split_and!; [lia | lia | done | done].
    + rewrite E, Hn. split_and!; [lia | lia | done | done].
  - rewrite shutdown_spec in Hs. injection Hs as <-.
    destruct (closed_ p) eqn:Ec; cbn; [by rewrite Ec|]. cbn in Hn. rewrite Ha.
    destruct (n =? 0) eqn:E; cbn; rewrite ?E, Hn, ?Ha; split_and!; done || lia.
Qed.
End Ranges.

(** The pool's count is the number of starts it passed on less the number of
    sessions that have closed, and it reports that it is closed once, when it has
    been shut down and the last of them is gone, and never before. *)
Theorem pool_notifies_once {Sess Endpoints : Type} `{PoolSession Sess Endpoints}
    (p : SessionPool.t Sess) n :
  pool_run p n ->
  active_sessions p = n /\ notified p = (if closed_ p && (n =? 0)%Z then 1 else 0)%nat.
Proof. intros Hr. by apply pool_run_count in Hr as (_ & ? & ?). Qed.

(** C35: Shutting a pool down stops none of its sessions: it is marked as closed
    first, and a closed pool passes nothing on, the stop of its own shutdown
    included. *)
Theorem shutdown_stops_nothing {Sess Endpoints : Type} `{PoolSession Sess Endpoints}
    (p : SessionPool.t Sess) :
  exists p', shutdown p = Ok p' /\ closed_ p' = true /\ sessions_ p' = sessions_ p /\
             active_sessions_ p' = active_sessions_ p.
Proof.
  rewrite shutdown_spec. eexists. split; [reflexivity|].
  destruct (closed_ p) eqn:E; [by rewrite E|]. cbn. by destruct (_ =? 0).
Qed.

(** ** Witness: a pool of two sessions that logs what it is told *)

#[local] Instance log_session : PoolSession (list string) unit := {|
  start := fun _ l => l ++ ["start"];
  flood := fun l => l ++ ["flood"];
  send := fun _ l => l ++ ["send"];
  drain := fun l => l ++ ["drain"];
  stop := fun l => l ++ ["stop"]
|}.

Definition log_pool : SessionPool.t (list string) := mk [["start"]; ["start"]] 1 true 0.

Lemma log_pool_run : pool_run log_pool 1.
Proof.
  eapply (pool_shutdown (mk [["start"]; ["start"]] 1 false 0)); [|reflexivity].
  apply (pool_disconnect (mk [["start"]; ["start"]] 2 false 0) 2); [|lia].
  apply (pool_start (mk [[]; []] 0 false 0) 0 tt 0 2); [|lia | lia | reflexivity].
  by eapply (pool_create init 0 2 []); [constructor|].
Qed.

Lemma pool_notifies_once_witness :
  active_sessions log_pool = 1 /\ notified log_pool = 0%nat.
Proof. apply (pool_notifies_once log_pool 1 log_pool_run). Defined.
