(* ===== verification/Shard.v ===== *)
(** * Shards (src/orchestrator/shard.h)

    A shard is a thread with an io_context of its own: it runs the actions the
    orchestrator posts to it, one after the other, on its session pool.  The
    model keeps the posted handlers in order, the flags that end the thread and
    how often [on_shard_closed_] was called. *)

From S2P Require Import Prelude Script ExecutionPlan Metrics SessionPool.

Module Shard.

(** What is posted to the context of a shard: [handle_action], the recording of
    its metrics with the callback to call after it, and the shutdown. *)
Inductive task : Type :=
| HandleAction (action : ActionDescriptor.t)
| RecordMetrics
| Shutdown.

Record t (Sess H : Type) : Type := mk {
  running_ : bool;
  posted : list task;
  message_handler_ : option H;
  metrics_ : ShardMetrics.t;
  session_pool_ : SessionPool.t Sess;
  work_guard_ : bool;
  stop_timer_ : bool;
  stopped : bool;
  history : list MetricsSnapshot.t;
  shard_closed : nat
}.

Arguments mk {Sess H}.
Arguments running_ {Sess H}.
Arguments posted {Sess H}.
Arguments message_handler_ {Sess H}.
Arguments metrics_ {Sess H}.
Arguments session_pool_ {Sess H}.
Arguments work_guard_ {Sess H}.
Arguments stop_timer_ {Sess H}.
Arguments stopped {Sess H}.
Arguments history {Sess H}.
Arguments shard_closed {Sess H}.

Section Shard.
Context {Sess Endpoints H : Type} `{PoolSession Sess Endpoints}.

(** The factory of the message handler may throw; a session is made of the
    shard's handler, and connects to the shard's copy of the endpoints. *)
Variable handler_factory_ : option H.
Variable make_session : H -> Sess.
Variable endpoints : Endpoints.

Abbreviation shard := (t Sess H).

Definition init : shard :=
  mk false [] None ShardMetrics.init SessionPool.init true false false [] 0.

Definition set_running (b : bool) (s : shard) : shard :=
  mk b (posted s) (message_handler_ s) (metrics_ s) (session_pool_ s) (work_guard_ s)
    (stop_timer_ s) (stopped s) (history s) (shard_closed s).
Definition set_posted (l : list task) (s : shard) : shard :=
  mk (running_ s) l (message_handler_ s) (metrics_ s) (session_pool_ s) (work_guard_ s)
    (stop_timer_ s) (stopped s) (history s) (shard_closed s).
Definition set_handler (h : option H) (s : shard) : shard :=
  mk (running_ s) (posted s) h (metrics_ s) (session_pool_ s) (work_guard_ s)
    (stop_timer_ s) (stopped s) (history s) (shard_closed s).
Definition set_pool (p : SessionPool.t Sess) (s : shard) : shard :=
  mk (running_ s) (posted s) (message_handler_ s) (metrics_ s) p (work_guard_ s)
    (stop_timer_ s) (stopped s) (history s) (shard_closed s).
Definition set_flags (guard timer stop : bool) (s : shard) : shard :=
  mk (running_ s) (posted s) (message_handler_ s) (metrics_ s) (session_pool_ s) guard
    timer stop (history s) (shard_closed s).
Definition set_history (l : list MetricsSnapshot.t) (s : shard) : shard :=
  mk (running_ s) (posted s) (message_handler_ s) (metrics_ s) (session_pool_ s)
    (work_guard_ s) (stop_timer_ s) (stopped s) l (shard_closed s).
Definition on_shard_closed (s : shard) : shard :=
  mk (running_ s) (posted s) (message_handler_ s) (metrics_ s) (session_pool_ s)
    (work_guard_ s) (stop_timer_ s) (stopped s) (history s) (Datatypes.S (shard_closed s)).

Definition post (k : task) (s : shard) : shard := set_posted (posted s ++ [k]) s.

(** ** Called by the orchestrator *)

(** Whether the thread is started, and the shard. *)
Definition start (s : shard) : bool * shard :=
  if running_ s then (false, s) else (true, set_running true s).

Definition submit_work (action : ActionDescriptor.t) (s : shard) : bool * shard :=
  if negb (running_ s) then (false, s) else (true, post (HandleAction action) s).

Definition schedule_metrics_pull (s : shard) : shard := post RecordMetrics s.

Definition stop (s : shard) : shard :=
  if negb (running_ s) then s else post Shutdown (set_running false s).

(** ** On the thread of the shard *)

(** [thread_entry] until [cntx_.run()]: an exception stops the context. *)
Definition thread_entry (s : shard) : shard :=
  match handler_factory_ with
  | Some h => set_handler (Some h) s
  | None => set_flags false (stop_timer_ s) true s
  end.

(** The callback of the pool. *)
Definition on_pool_closed (s : shard) : shard := set_flags false false (stopped s) s.

(** Put back a pool that may have called [notify_closed_]. *)
Definition return_pool (p : SessionPool.t Sess) (s : shard) : shard :=
  let again := negb (Nat.eqb (SessionPool.notified p) (SessionPool.notified (session_pool_ s))) in
  let s := set_pool p s in
  if again then on_pool_closed s else s.

Definition handle_action (action : ActionDescriptor.t) (s : shard) : outcome shard :=
  let first := ActionDescriptor.sessions_start action in
  let end_ := ActionDescriptor.sessions_end action in
  let pool := session_pool_ s in
  match ActionDescriptor.type action with
  | ActionType.CREATE =>
      match message_handler_ s with
      | None => Undef
      | Some h =>
          let '(_, pool) :=
            SessionPool.create_sessions (u32 (end_ - first)) (make_session h) pool in
          Ok (set_pool pool s)
      end
  | ActionType.CONNECT =>
      let! pool := SessionPool.start_sessions_range endpoints first end_ pool in
      Ok (set_pool pool s)
  | ActionType.SEND =>
      let! pool := SessionPool.send_sessions_range first end_ (ActionDescriptor.count action)
                     pool in
      Ok (set_pool pool s)
  | ActionType.FLOOD =>
      let! pool := SessionPool.flood_sessions_range first end_ pool in
      Ok (set_pool pool s)
  | ActionType.DRAIN =>
      let! pool := SessionPool.drain_sessions_range first end_ pool in
      Ok (set_pool pool s)
  | ActionType.DISCONNECT =>
      let! pool := SessionPool.stop_sessions_range first end_ pool in
      Ok (set_pool pool s)
  end.

(** [start_force_stop_timer] *)
Definition start_force_stop_timer (s : shard) : shard :=
  set_flags (work_guard_ s) true (stopped s) s.

(** The timer goes off. *)
Definition force_stop (s : shard) : shard :=
  if stop_timer_ s && negb (stopped s) then set_flags (work_guard_ s) false true s else s.

Definition record_metrics (s : shard) : shard :=
  let snapshot := ShardMetrics.fetch_snapshot (metrics_ s) in
  let snapshot :=
    MetricsSnapshot.set_connected_sessions snapshot
      (SessionPool.active_sessions (session_pool_ s)) in
  set_history (history s ++ [snapshot]) s.

Definition run_task (k : task) (s : shard) : outcome shard :=
  match k with
  | HandleAction action => handle_action action s
  | RecordMetrics => Ok (record_metrics s)
  | Shutdown =>
      let s := start_force_stop_timer s in
      let! pool := SessionPool.shutdown (session_pool_ s) in
      Ok (return_pool pool s)
  end.

(** The context runs the handlers posted to it in order, until it is stopped. *)
Fixpoint run_tasks (l : list task) (s : shard) : outcome shard :=
  match l with
  | [] => Ok s
  | k :: l =>
      if stopped s then Ok s
      else
        let! s := run_task k s in
        run_tasks l s
  end.

(** The thread of the shard, from its entry until what was posted so far is
    done. *)
Definition run (s : shard) : outcome shard :=
  run_tasks (posted s) (set_posted [] (thread_entry s)).

(** A session of the shard closes. *)
Definition session_closed (s : shard) : shard :=
  return_pool (SessionPool.disconnect_callback (session_pool_ s)) s.

(** [cntx_.run()] returns once it is stopped or out of work; [busy] is whether
    its sessions have operations pending. *)
Definition run_returns (busy : bool) (s : shard) : bool :=
  stopped s ||
  (negb (work_guard_ s) && negb busy && negb (stop_timer_ s) &&
   match posted s with [] => true | _ => false end).

End Shard.
End Shard.
