(* ===== verification/ShardSystem.v ===== *)
(** * A shard with its sessions (shard.h, session-pool.h and the sessions they run)

    The context of a shard runs, on one thread, the handlers the orchestrator
    posts to the shard and the completions of the operations its sessions have
    started, in any order but one at a time.  All sessions of the shard use its
    metrics and its message handler; the payload manager is used by the sessions
    of the other shards as well.  The objects are kept here once: a session is
    given them while one of its handlers runs. *)

From S2P Require Import Prelude Script Payload ExecutionPlan Metrics MessageHandler Session.
From S2P Require Import SessionPool Shard.
Import Session.

Module ShardSystem.

Record t (X O H : Type) : Type := mk {
  shard : Shard.t (world X O H) H;
  payload_manager_ : PayloadManager.t;
  ticks : nat;
  fills : nat
}.

Arguments mk {X O H}.
Arguments shard {X O H}.
Arguments payload_manager_ {X O H}.
Arguments ticks {X O H}.
Arguments fills {X O H}.

Section System.
Context {X O H Endpoints : Type} `{MessageHandler H} `{PoolSession (world X O H) Endpoints}.

Abbreviation world := (world X O H).
Abbreviation t := (t X O H).

Definition pool (s : t) : SessionPool.t world := Shard.session_pool_ (shard s).
Definition sessions (s : t) : list world := SessionPool.sessions_ (pool s).

Definition set_shard (sh : Shard.t world H) (s : t) : t :=
  mk sh (payload_manager_ s) (ticks s) (fills s).
Definition set_payload_manager (m : PayloadManager.t) (s : t) : t :=
  mk (shard s) m (ticks s) (fills s).

(** A shard whose thread has started and made its message handler. *)
Definition init (h : H) (m : PayloadManager.t) : t :=
  mk (Shard.thread_entry (Some h) (snd (Shard.start Shard.init))) m 0 0.

(** ** Sessions and what they share *)

(** The session [w], with the objects it refers to as they are. *)
Definition load (s : t) (h : H) (w : world) : world :=
  set_shared (mk_shared (payload_manager_ s) (Shard.metrics_ (shard s)) h (ticks s) (fills s)
                (disconnects (shared w)) (written (shared w))) w.

(** The session [i] has become [w]. *)
Definition store (i : nat) (w : world) (s : t) : t :=
  let sh := shard s in
  let p := pool s in
  mk (Shard.mk (Shard.running_ sh) (Shard.posted sh)
        (Some (message_handler_ (shared w))) (metrics_sink_ (shared w))
        (SessionPool.set_sessions (<[i := w]> (SessionPool.sessions_ p)) p)
        (Shard.work_guard_ sh) (Shard.stop_timer_ sh) (Shard.stopped sh) (Shard.history sh)
        (Shard.shard_closed sh))
     (Session.payload_manager_ (shared w)) (Session.ticks (shared w)) (Session.fills (shared w)).

(** ** The handlers of the context *)

Variable make_session : H -> world.
Variable endpoints : Endpoints.
Variable run_op : op O -> result -> world -> outcome world.
Variable transport_result : world -> O -> list Z -> Prop.

(** The next handler posted to the shard. *)
Definition run_next (s : t) : outcome t :=
  match Shard.posted (shard s) with
  | [] => Ok s
  | k :: l =>
      let! sh := Shard.run_task make_session endpoints k (Shard.set_posted l (shard s)) in
      Ok (set_shard sh s)
  end.

(** The operation [o] of the session [i] completes with [r] and leaves it the
    pending operations [rest].  If the session has closed, it has called the
    pool. *)
Definition complete (i : nat) (o : op O) (rest : list (op O)) (r : result) (s : t)
  : outcome t :=
  match sessions s !! i, Shard.message_handler_ (shard s) with
  | Some w, Some h =>
      let! w' := run_op o r (set_pending rest (load s h w)) in
      let s := store i w' s in
      if Nat.ltb (disconnects (shared w)) (disconnects (shared w'))
      then Ok (set_shard (Shard.session_closed (shard s)) s)
      else Ok s
  | _, _ => Undef
  end.

(** The thread leaves [cntx_.run()]. *)
Definition thread_exit (s : t) : t :=
  let sh := shard s in
  set_shard (Shard.on_shard_closed
               (Shard.set_flags (Shard.work_guard_ sh) (Shard.stop_timer_ sh) true sh)) s.

(** Whether any operation of a session is pending. *)
Definition busy (s : t) : bool := existsb (fun w => nonempty (pending w)) (sessions s).

(** ** Histories

    An event of the history names the session it is one of. *)

Definition events : Type := list (nat * event O).

Definition of_session (i : nat) (tr : events) : list (event O) :=
  flat_map (fun e => if Nat.eqb (fst e) i then [snd e] else []) tr.

(** What a handler posts to the sessions. *)
Definition range_events (o : op O) (action : ActionDescriptor.t) : events :=
  let first := ActionDescriptor.sessions_start action in
  map (fun i => (i, Posted o))
    (seq (Z.to_nat first) (Z.to_nat (ActionDescriptor.sessions_end action - first))).

Definition action_events (action : ActionDescriptor.t) : events :=
  match ActionDescriptor.type action with
  | ActionType.CREATE => []
  | ActionType.CONNECT => range_events StartTask action
  | ActionType.SEND => range_events (SendTask (ActionDescriptor.count action)) action
  | ActionType.FLOOD => range_events FloodTask action
  | ActionType.DRAIN => range_events DrainTask action
  | ActionType.DISCONNECT => range_events StopTask action
  end.

Definition next_events (s : t) : events :=
  match Shard.posted (shard s) with
  | Shard.HandleAction action :: _ =>
      if SessionPool.closed_ (pool s) then [] else action_events action
  | _ => []
  end.

(** The fields of an action are [uint32_t]s. *)
Definition action_ok (action : ActionDescriptor.t) : Prop :=
  0 <= ActionDescriptor.sessions_start action <= ActionDescriptor.sessions_end action /\
  ActionDescriptor.sessions_end action < 2 ^ 32 /\
  0 <= ActionDescriptor.count action < 2 ^ 32.

(** The histories of a shard: the orchestrator calls it, its context runs, the
    force-stop timer goes off, and other shards fill payloads.  The first list is
    that of the actions the orchestrator has submitted. *)
Inductive run (s0 : t) : list ActionDescriptor.t -> events -> t -> Prop :=
| run_init : run s0 [] [] s0
| run_submit l tr s action :
    run s0 l tr s -> action_ok action ->
    run s0 (l ++ [action]) tr (set_shard (snd (Shard.submit_work action (shard s))) s)
| run_pull l tr s :
    run s0 l tr s -> run s0 l tr (set_shard (Shard.schedule_metrics_pull (shard s)) s)
| run_stop l tr s : run s0 l tr s -> run s0 l tr (set_shard (Shard.stop (shard s)) s)
| run_timer l tr s : run s0 l tr s -> run s0 l tr (set_shard (Shard.force_stop (shard s)) s)
| run_others l tr s m :
    run s0 l tr s -> same_shape (payload_manager_ s) m ->
    run s0 l tr (set_payload_manager m s)
| run_handler l tr s s' :
    run s0 l tr s -> Shard.stopped (shard s) = false -> run_next s = Ok s' ->
    run s0 l (tr ++ next_events s) s'
| run_completion l tr s i w h pre o post_ r s' :
    run s0 l tr s -> Shard.stopped (shard s) = false ->
    sessions s !! i = Some w -> Shard.message_handler_ (shard s) = Some h ->
    pending w = pre ++ o :: post_ ->
    (pool_op o = true -> Forall (fun o' => pool_op o' = false) pre) ->
    result_of transport_result (load s h w) o r ->
    complete i o (pre ++ post_) r s = Ok s' ->
    run s0 l (tr ++ [(i, Ran o r)]) s'
| run_exit l tr s :
    run s0 l tr s -> Shard.shard_closed (shard s) = 0%nat ->
    Shard.run_returns (busy s) (shard s) = true -> run s0 l tr (thread_exit s).

End System.
End ShardSystem.
