(* ===== verification/ShardSystemFacts.v ===== *)
(** * Facts on a shard with its sessions

    Every session of a shard, seen with the shared objects as they are, has a
    history of its own: what the shard and the other sessions do in between is
    what the histories of single sessions allow. *)

From S2P Require Import Prelude Script Payload PayloadProps ExecutionPlan Metrics MessageHandler.
From S2P Require Import MessageHandlerProps Session SessionFacts SessionEffects.
From S2P Require Import TcpSession UdpSession SessionPool SessionPoolProps Shard ShardSystem.
Import Session ShardSystem.

(** What the pool calls are handlers posted to the strand of the session. *)
Class PostingSession (X O H Endpoints : Type) `{PoolSession (Session.world X O H) Endpoints}
  : Prop := {
  start_posts e w : SessionPool.start e w = post StartTask w;
  flood_posts w : SessionPool.flood w = post FloodTask w;
  send_posts n w : SessionPool.send n w = post (SendTask n) w;
  drain_posts w : SessionPool.drain w = post DrainTask w;
  stop_posts w : SessionPool.stop w = post StopTask w
}.

#[export] Instance tcp_posting {H} :
  PostingSession TCPSession.reader TCPSession.tcp_op H (list Endpoint.t).
Proof. by constructor. Qed.

#[export] Instance udp_posting {H} :
  PostingSession UDPSession.receiver UDPSession.udp_op H Endpoint.t.
Proof. by constructor. Qed.

(** ** Events *)

Section Events.
Context {O : Type}.

Lemma of_session_app i (tr l : events (O := O)) :
  of_session i (tr ++ l) = of_session i tr ++ of_session i l.
Proof. apply flat_map_app. Qed.

Lemma of_session_one i j (e : event O) :
  of_session i [(j, e)] = if Nat.eqb j i then [e] else [].
Proof. unfold of_session. cbn. by rewrite app_nil_r. Qed.

Lemma of_session_seq i (e : event O) n : forall a,
  of_session i (map (fun i => (i, e)) (seq a n))
  = if Nat.leb a i && Nat.ltb i (a + n) then [e] else [].
Proof.
  induction n as [|n IH]; intros a.
  - rewrite Nat.add_0_r. destruct (Nat.leb_spec a i), (Nat.ltb_spec i a); done || lia.
  - cbn [seq map]. change (of_session i ((a, e) :: ?l)) with
      ((if Nat.eqb a i then [e] else []) ++ of_session i l). rewrite IH.
    destruct (Nat.eqb_spec a i), (Nat.leb_spec (S a) i), (Nat.leb_spec a i),
      (Nat.ltb_spec i (S a + n)), (Nat.ltb_spec i (a + S n)); try done; try lia.
Qed.

Lemma of_session_range i (o : op O) a :
  0 <= ActionDescriptor.sessions_start a ->
  of_session i (range_events o a)
  = if (ActionDescriptor.sessions_start a <=? Z.of_nat i) &&
       (Z.of_nat i <? ActionDescriptor.sessions_end a) then [Posted o] else [].
Proof.
  intros Ha. unfold range_events. rewrite of_session_seq.
  destruct (Nat.leb_spec (Z.to_nat (ActionDescriptor.sessions_start a)) i),
    (Z.leb_spec (ActionDescriptor.sessions_start a) (Z.of_nat i)); try lia; [|done].
  cbn [andb].
  destruct (Nat.ltb_spec i (Z.to_nat (ActionDescriptor.sessions_start a) +
              Z.to_nat (ActionDescriptor.sessions_end a - ActionDescriptor.sessions_start a))),
    (Z.ltb_spec (Z.of_nat i) (ActionDescriptor.sessions_end a)); lia || done.
Qed.

(** The calls of the session [i] that a list of actions stands for. *)
Definition call_of (d : ActionDescriptor.t) : option (op O) :=
  match ActionDescriptor.type d with
  | ActionType.CREATE => None
  | ActionType.CONNECT => Some StartTask
  | ActionType.SEND => Some (SendTask (ActionDescriptor.count d))
  | ActionType.FLOOD => Some FloodTask
  | ActionType.DRAIN => Some DrainTask
  | ActionType.DISCONNECT => Some StopTask
  end.

Definition covers (d : ActionDescriptor.t) (i : Z) : bool :=
  (ActionDescriptor.sessions_start d <=? i) && (i <? ActionDescriptor.sessions_end d).

Definition calls_to (i : Z) (l : list ActionDescriptor.t) : list (op O) :=
  omap (fun d => if covers d i then call_of d else None) l.

Lemma calls_cons i d l :
  calls_to i (d :: l)
  = (if covers d i then match call_of d with Some o => [o] | None => [] end else [])
    ++ calls_to i l.
Proof.
  unfold calls_to. cbn. destruct (covers d i); [|done]. by destruct (call_of d).
Qed.

Lemma calls_app i l k : calls_to i (l ++ k) = calls_to i l ++ calls_to i k.
Proof. apply omap_app. Qed.

Lemma action_calls i a :
  0 <= ActionDescriptor.sessions_start a ->
  posts (of_session i (action_events (O := O) a)) = calls_to (Z.of_nat i) [a].
Proof.
  intros Ha. rewrite calls_cons. unfold action_events, call_of.
  destruct (ActionDescriptor.type a); rewrite ?of_session_range by done; unfold covers;
    by destruct (_ && _).
Qed.

(** Each session is started first and only once, and asked for fewer than 2^64
    payloads. *)
Definition well_called (tr : events (O := O)) : Prop :=
  forall i, starts_first (posts (of_session i tr)) /\ total (posts (of_session i tr)) < 2 ^ 64.

Definition sized (e : nat * event O) : Prop :=
  match snd e with Posted o => size_ok o | Ran _ _ => True end.

Lemma sized_total i (l : events (O := O)) :
  Forall sized l -> 0 <= total (posts (of_session i l)).
Proof.
  intros Hl. apply (posted_nonneg). induction Hl as [|[j e] l He _ IH]; [constructor|].
  change (of_session i ((j, e) :: l)) with ((if Nat.eqb j i then [e] else []) ++ of_session i l).
  rewrite posts_app, Forall_app. split; [|done].
  destruct (Nat.eqb j i); [|constructor]. destruct e; cbn in *; by repeat constructor.
Qed.

Lemma starts_first_prefix (l k : list (op O)) : starts_first (l ++ k) -> starts_first l.
Proof.
  destruct l as [|o l]; [done|]. cbn. intros [-> Hn]. split; [done|].
  intros Hin. apply Hn. rewrite in_app_iff. by left.
Qed.

Lemma well_called_prefix (tr l : events (O := O)) :
  Forall sized l -> well_called (tr ++ l) -> well_called tr.
Proof.
  intros Hl Hc i. destruct (Hc i) as [H1 H2].
  rewrite of_session_app, posts_app in H1, H2. rewrite posted_app in H2.
  split; [by eapply starts_first_prefix|]. pose proof (sized_total i l Hl). lia.
Qed.

Lemma well_called_post i (o : op O) (tr l : events (O := O)) :
  well_called (tr ++ l) -> of_session i l = [Posted o] ->
  posts (of_session i tr) = [] <-> o = StartTask.
Proof.
  intros Hc E. destruct (Hc i) as [Hs _]. rewrite of_session_app, E, posts_app in Hs. cbn in Hs.
  destruct (posts (of_session i tr)) as [|o' k]; cbn in Hs.
  - split; [intros _; apply Hs | done].
  - split; [done|]. intros ->. destruct Hs as [_ []]. rewrite in_app_iff. right. by left.
Qed.
End Events.

(** ** Running a handler of the shard *)

Lemma for_range_bound {A} (f : A -> A) n : forall i l l',
  0 <= i -> SessionPool.for_range f n i l = Ok l' -> n <> 0%nat ->
  i + Z.of_nat n <= Z.of_nat (length l).
Proof.
  induction n as [|n IH]; intros i l l' Hi Hf Hn; [done|]. cbn in Hf.
  destruct (l !! Z.to_nat i) as [x|] eqn:Ex; [|done]. apply lookup_lt_Some in Ex.
  destruct n as [|n]; [lia|]. apply IH in Hf; [|lia | done]. rewrite length_insert in Hf. lia.
Qed.

(** A call on a range that returns is one inside the pool. *)
Lemma on_range_positions {A} (f : A -> A) a b (p p' : SessionPool.t A) :
  0 <= a -> SessionPool.on_range f a b p = Ok p' ->
  (a < b -> b <= Z.of_nat (length (SessionPool.sessions_ p))) /\
  SessionPool.sessions_ p' = on_positions f a b (SessionPool.sessions_ p).
Proof.
  intros Ha Hr. destruct (decide (a < b)) as [Hab|Hab].
  - assert (b <= Z.of_nat (length (SessionPool.sessions_ p))) as Hb.
    { unfold SessionPool.on_range in Hr. apply obind_Ok in Hr as (l & Hl & _).
      apply for_range_bound in Hl; lia. }
    split; [done|]. rewrite on_range_spec in Hr by done. by injection Hr as <-.
  - split; [lia|]. unfold SessionPool.on_range in Hr.
    replace (Z.to_nat (b - a)) with 0%nat in Hr by lia. cbn in Hr. injection Hr as <-.
    by rewrite on_positions_none by lia.
Qed.

Section System.
Context {X O H Endpoints : Type} `{HL : HandlerLaws H} `{PS : PostingSession X O H Endpoints}.

Abbreviation world := (Session.world X O H).
Abbreviation system := (ShardSystem.t X O H).

Variable make_session : H -> world.
Variable endpoints : Endpoints.

Abbreviation run_next := (ShardSystem.run_next make_session endpoints).

Definition task_ok (k : Shard.task) : Prop :=
  match k with Shard.HandleAction action => action_ok action | _ => True end.

(** A call of the pool on a range, as it is seen by the sessions. *)
Record ranged (o : op O) (a b : Z) (s s' : system) : Prop := {
  g_pool : pool_op o = true;
  g_size : size_ok o;
  g_start : 0 <= a;
  g_order : a <= b < 2 ^ 32;
  g_end : a < b -> b <= Z.of_nat (length (sessions s));
  g_sessions : sessions s' = on_positions (post o) a b (sessions s);
  g_events : forall i, of_session i (next_events s)
                       = if (a <=? Z.of_nat i) && (Z.of_nat i <? b) then [Posted o] else [];
  g_count : forall n, pool_run (pool s) n -> n + (b - a) < 2 ^ 64 ->
              pool_run (pool s') (match o with StartTask => n + (b - a) | _ => n end)
}.

(** The sessions are made. *)
Record created (s s' : system) : Prop := {
  c_none : sessions s = [];
  c_made : exists n h, Shard.message_handler_ (shard s) = Some h /\ 0 <= n < 2 ^ 32 /\
             sessions s' = replicate (Z.to_nat n) (make_session h);
  c_events : next_events s = [];
  c_count : forall n, pool_run (pool s) n -> pool_run (pool s') n
}.

Lemma no_range (s s' : system) :
  sessions s' = sessions s -> next_events s = [] ->
  (forall n, pool_run (pool s) n -> pool_run (pool s') n) -> ranged StartTask 0 0 s s'.
Proof.
  intros E1 E2 E3. constructor; try done.
  - by rewrite E1, on_positions_none.
  - intros i. rewrite E2. cbn. destruct (Z.leb_spec 0 (Z.of_nat i)); [|done].
    by destruct (Z.ltb_spec (Z.of_nat i) 0); [lia|].
  - intros n Hn _. rewrite Z.sub_0_r, Z.add_0_r. by apply E3.
Qed.

(** The handlers a shard is sent keep its message handler and its metrics. *)
Lemma run_task_objects k (sh sh' : Shard.t world H) :
  Shard.run_task make_session endpoints k sh = Ok sh' ->
  Shard.message_handler_ sh' = Shard.message_handler_ sh /\
  Shard.metrics_ sh' = Shard.metrics_ sh /\ Shard.posted sh' = Shard.posted sh.
Proof.
  destruct k as [action| |]; cbn [Shard.run_task].
  - unfold Shard.handle_action. cbv zeta. destruct (ActionDescriptor.type action).
    { destruct (Shard.message_handler_ sh) eqn:E; [|done].
      destruct (SessionPool.create_sessions _ _ _). by intros [= <-]. }
    all: intros E; apply obind_Ok in E as (p & _ & [= <-]); done.
  - by intros [= <-].
  - intros E. cbv zeta in E. apply obind_Ok in E as (p & _ & [= <-]).
    unfold Shard.return_pool. by destruct (negb _).
Qed.

(** An action other than CREATE on an open pool. *)
Lemma handle_range a (sh sh' : Shard.t world H) :
  action_ok a -> ActionDescriptor.type a <> ActionType.CREATE ->
  Shard.handle_action make_session endpoints a sh = Ok sh' ->
  let l := SessionPool.sessions_ (Shard.session_pool_ sh) in
  let l' := SessionPool.sessions_ (Shard.session_pool_ sh') in
  let first := ActionDescriptor.sessions_start a in
  let end_ := ActionDescriptor.sessions_end a in
  exists o, action_events a = range_events o a /\ pool_op o = true /\ size_ok o /\
    if SessionPool.closed_ (Shard.session_pool_ sh)
    then Shard.session_pool_ sh' = Shard.session_pool_ sh
    else (first < end_ -> end_ <= Z.of_nat (length l)) /\
         l' = on_positions (post o) first end_ l /\
         forall n, pool_run (Shard.session_pool_ sh) n -> n + (end_ - first) < 2 ^ 64 ->
           pool_run (Shard.session_pool_ sh')
             (match o with StartTask => n + (end_ - first) | _ => n end).
Proof.
  intros (Ha & _ & Hc) Ht Hr. cbv zeta. unfold Shard.handle_action in Hr. unfold action_events.
  set (first := ActionDescriptor.sessions_start a) in *.
  set (end_ := ActionDescriptor.sessions_end a) in *. cbv zeta in Hr.
  assert (forall f o p p', (forall w, f w = post o w) ->
            SessionPool.sessions_ p = SessionPool.sessions_ (Shard.session_pool_ sh) ->
            SessionPool.on_range f first end_ p = Ok p' ->
            let l := SessionPool.sessions_ (Shard.session_pool_ sh) in
            (first < end_ -> end_ <= Z.of_nat (length l)) /\
            SessionPool.sessions_ p' = on_positions (post o) first end_ l) as Hf.
  { intros f o p p' Ho Hp Hon. apply on_range_positions in Hon as [Hb Hl]; [|lia].
    rewrite Hp in Hb, Hl. split; [done|]. rewrite Hl. apply list_eq. intros i.
    rewrite !on_positions_lookup. destruct (_ !! i); [|done]. cbn. by rewrite Ho. }
  assert (forall f p', SessionPool.on_range f first end_ (Shard.session_pool_ sh) = Ok p' ->
            forall n, pool_run (Shard.session_pool_ sh) n -> n + (end_ - first) < 2 ^ 64 ->
            pool_run p' n) as Hother by (intros; by eapply pool_other).
  destruct (ActionDescriptor.type a) eqn:Et; [done|..]; apply obind_Ok in Hr as (p' & Hp & [= <-]);
    (eexists; split; [reflexivity|]; split; [done|]; split; [cbn; lia|]);
    pose proof Hp as Hp0;
    unfold_calls in Hp;
    (destruct (SessionPool.closed_ (Shard.session_pool_ sh)) eqn:Ec; [by injection Hp as <-|]);
    rewrite (and_assoc (_ -> _));
    (split; [refine (Hf _ _ _ _ _ _ Hp); [intros w | done]|]).
  - apply start_posts.
  - intros n Hn Hlt. pose proof (pool_start _ _ _ _ _ _ Hn Ha Hlt Hp0) as Hs. by rewrite Ec in Hs.
  - apply send_posts.
  - by eapply Hother.
  - apply flood_posts.
  - by eapply Hother.
  - apply drain_posts.
  - by eapply Hother.
  - apply stop_posts.
  - by eapply Hother.
Qed.

(** A CREATE makes the sessions of an empty pool. *)
Lemma handle_create (s : system) a l sh :
  Shard.posted (shard s) = Shard.HandleAction a :: l ->
  ActionDescriptor.type a = ActionType.CREATE ->
  Shard.handle_action make_session endpoints a (Shard.set_posted l (shard s)) = Ok sh ->
  created s (set_shard sh s) \/ ranged StartTask 0 0 s (set_shard sh s).
Proof.
  intros Ep Ht Hr. unfold Shard.handle_action in Hr. rewrite Ht in Hr. cbv zeta in Hr. cbn in Hr.
  destruct (Shard.message_handler_ (shard s)) as [h|] eqn:Eh; [|done].
  assert (next_events s = []) as En.
  { unfold next_events, action_events. rewrite Ep, Ht. by destruct (SessionPool.closed_ _). }
  destruct (SessionPool.create_sessions _ _ _) as [c p] eqn:Ec.
  pose proof (fun n Hn => pool_create _ n _ _ _ _ Hn Ec) as Hcount.
  unfold SessionPool.create_sessions in Ec.
  destruct (SessionPool.sessions_ (Shard.session_pool_ (shard s))) eqn:Es;
    injection Ec as <- <-; injection Hr as <-.
  - left. constructor; [exact Es| |done|exact Hcount].
    exists (u32 (ActionDescriptor.sessions_end a - ActionDescriptor.sessions_start a)), h.
    split_and!; [done | apply u32_range.. | done].
  - right. by apply no_range.
Qed.

Lemma run_next_spec (s s' : system) :
  Forall task_ok (Shard.posted (shard s)) -> run_next s = Ok s' ->
  (created s s' \/ exists o a b, ranged o a b s s') /\
  (forall h w, load s' h w = load s h w) /\
  Shard.message_handler_ (shard s') = Shard.message_handler_ (shard s) /\
  Forall task_ok (Shard.posted (shard s')).
Proof.
  intros Hk Hr. unfold ShardSystem.run_next in Hr.
  destruct (Shard.posted (shard s)) as [|k l] eqn:Ep.
  { injection Hr as <-. split_and!; try done; [|by rewrite Ep].
    right. exists StartTask, 0, 0. apply no_range; [done| |done]. unfold next_events. by rewrite Ep. }
  apply obind_Ok in Hr as (sh & Hr & [= <-]). apply List.Forall_cons_iff in Hk as [Hk Hl].
  pose proof (run_task_objects _ _ _ Hr) as (E1 & E2 & E3). cbn in E1, E2, E3.
  split; [|split_and!; [|done|by cbn; rewrite E3]].
  2:{ intros h w. unfold load. cbn. by rewrite E2. }
  destruct k as [action| |].
  - cbn in Hr, Hk. destruct (decide (ActionDescriptor.type action = ActionType.CREATE)) as [Ht|Ht].
    + destruct (handle_create _ _ _ _ Ep Ht Hr) as [Hc|Hg]; [by left|].
      right. by exists StartTask, 0, 0.
    + destruct (handle_range _ _ _ Hk Ht Hr) as (o & Eo & Ho & Hs & Hl').
      cbn in Hl'. right.
      destruct (SessionPool.closed_ (Shard.session_pool_ (shard s))) eqn:Ec.
      * exists StartTask, 0, 0. apply no_range.
        -- unfold sessions, pool. cbn. by rewrite Hl'.
        -- unfold next_events, pool. by rewrite Ep, Ec.
        -- unfold pool. cbn. by rewrite Hl'.
      * destruct Hl' as (Hb & Hl' & Hcount). destruct Hk as (Hk & Hk' & _).
        exists o, (ActionDescriptor.sessions_start action), (ActionDescriptor.sessions_end action).
        constructor; try done; [lia..|]. intros i. unfold next_events, pool. rewrite Ep, Ec, Eo.
        apply of_session_range. lia.
  - injection Hr as <-. right. exists StartTask, 0, 0. apply no_range; [done| |done].
    unfold next_events. by rewrite Ep.
  - cbn in Hr. apply obind_Ok in Hr as (p & Hp & [= <-]). right. exists StartTask, 0, 0.
    pose proof (fun n Hn => pool_shutdown _ n _ Hn Hp) as Hcount.
    rewrite shutdown_spec in Hp. injection Hp as <-. apply no_range.
    + unfold sessions, pool, Shard.return_pool. cbn.
      destruct (SessionPool.closed_ _); cbn; [by destruct (negb _)|].
      by destruct (_ =? 0); cbn; destruct (negb _).
    + unfold next_events. by rewrite Ep.
    + intros n Hn. specialize (Hcount n Hn). unfold pool, Shard.return_pool. cbn.
      by destruct (negb _).
Qed.
End System.

(** ** Counting the connected sessions *)

Section Count.
Context {X O H : Type}.
Abbreviation world := (Session.world X O H).

Definition told_to_start (l : list (op O)) : bool :=
  existsb (fun o => match o with StartTask => true | _ => false end) l.

Lemma told_to_start_app l k : told_to_start (l ++ k) = told_to_start l || told_to_start k.
Proof. apply existsb_app. Qed.

Definition counted (tr : events) (i : nat) (w : world) : Z :=
  if told_to_start (posts (of_session i tr)) && Nat.eqb (disconnects (shared w)) 0 then 1 else 0.

(** The sessions that were told to start and have not closed. *)
Definition connected_sessions (tr : events) (l : list world) : Z :=
  foldr Z.add 0 (imap (counted tr) l).

Lemma sum_imap_range {A} (f g : nat -> A -> Z) l : forall a b,
  a <= b -> (a < b -> 0 <= a /\ b <= Z.of_nat (length l)) ->
  (forall i x, l !! i = Some x ->
     g i x = f i x + if (a <=? Z.of_nat i) && (Z.of_nat i <? b) then 1 else 0) ->
  foldr Z.add 0 (imap g l) = foldr Z.add 0 (imap f l) + (b - a).
Proof.
  revert f g. induction l as [|x l IH]; intros f g a b Hab Hb Hg; cbn in *; [lia|].
  pose proof (Hg 0%nat x eq_refl) as H0. change (Z.of_nat 0) with 0 in H0.
  assert (forall i y, l !! i = Some y -> (g ∘ S) i y = (f ∘ S) i y +
            if (a - 1 <=? Z.of_nat i) && (Z.of_nat i <? b - 1) then 1 else 0) as HS.
  { intros i y Hy. cbn. rewrite (Hg (S i) y Hy). f_equal.
    destruct (Z.leb_spec a (Z.of_nat (S i))), (Z.leb_spec (a - 1) (Z.of_nat i)),
      (Z.ltb_spec (Z.of_nat (S i)) b), (Z.ltb_spec (Z.of_nat i) (b - 1)); done || lia. }
  destruct (decide (a = 0 /\ 0 < b)) as [[-> Hb0]|Hn].
  - rewrite (IH (f ∘ S) (g ∘ S) 0 (b - 1)); [|lia|intros; split; lia|].
    + rewrite H0. destruct (Z.ltb_spec 0 b); cbn; lia.
    + intros i y Hy. rewrite HS by done.
      by destruct (Z.leb_spec (0 - 1) (Z.of_nat i)), (Z.leb_spec 0 (Z.of_nat i)); try lia.
  - rewrite (IH (f ∘ S) (g ∘ S) (a - 1) (b - 1)); [|lia|intros; split; lia|done].
    rewrite H0. destruct (Z.leb_spec a 0), (Z.ltb_spec 0 b); cbn; lia.
Qed.

Lemma sum_imap_insert {A} (f : nat -> A -> Z) l : forall i x y,
  l !! i = Some x ->
  foldr Z.add 0 (imap f (<[i := y]> l)) = foldr Z.add 0 (imap f l) - f i x + f i y.
Proof.
  revert f. induction l as [|z l IH]; intros f i x y Hx; [done|].
  destruct i as [|i]; [cbn in *; injection Hx as ->; lia|].
  change (<[S i := y]> (z :: l)) with (z :: <[i := y]> l). cbn [imap foldr].
  rewrite (IH (f ∘ S) i x y Hx). cbn. lia.
Qed.

Lemma sum_imap_ext {A} (f g : nat -> A -> Z) l :
  (forall i x, l !! i = Some x -> g i x = f i x) ->
  foldr Z.add 0 (imap g l) = foldr Z.add 0 (imap f l).
Proof. intros Hg. f_equal. apply imap_ext. auto. Qed.

Lemma sum_imap_bounds {A} (f : nat -> A -> Z) l :
  (forall i x, 0 <= f i x <= 1) -> 0 <= foldr Z.add 0 (imap f l) <= Z.of_nat (length l).
Proof.
  revert f. induction l as [|x l IH]; intros f Hf; cbn; [lia|].
  specialize (IH (f ∘ S) (fun i => Hf (S i))). specialize (Hf 0%nat x). lia.
Qed.

Lemma connected_on_positions tr o a b (l : list world) :
  connected_sessions tr (on_positions (post o) a b l) = connected_sessions tr l.
Proof.
  unfold connected_sessions, on_positions. f_equal. apply list_eq. intros i. rewrite !list_lookup_imap.
  destruct (l !! i); [|done]. cbn. f_equal. by destruct (_ && _).
Qed.

(** Without a start in between, the count depends on the sessions only. *)
Lemma connected_events tr l' (l : list world) :
  (forall i, told_to_start (posts (of_session i l')) = false) ->
  connected_sessions (tr ++ l') l = connected_sessions tr l.
Proof.
  intros Hl. apply sum_imap_ext. intros i w _. unfold counted.
  by rewrite of_session_app, posts_app, told_to_start_app, Hl, orb_false_r.
Qed.

Lemma connected_none tr (l : list world) :
  (forall i, of_session i tr = []) -> connected_sessions tr l = 0.
Proof.
  intros Hn. pose proof (sum_imap_range (fun _ _ => 0) (counted tr) l 0 0) as Hs.
  assert (foldr Z.add 0 (imap (fun _ _ => 0) l) = 0) as E.
  { clear Hs. induction l as [|x l IH]; [done|]. exact IH. }
  unfold connected_sessions. rewrite Hs, E; [lia | lia | intros; lia |].
  intros i x _. unfold counted. rewrite Hn. cbn.
  by destruct (Z.leb_spec 0 (Z.of_nat i)), (Z.ltb_spec (Z.of_nat i) 0); try lia.
Qed.

Lemma connected_bounds tr (l : list world) : 0 <= connected_sessions tr l <= Z.of_nat (length l).
Proof. apply sum_imap_bounds. intros i x. unfold counted. destruct (_ && _); lia. Qed.

End Count.

(** ** Every session has a history of its own *)

Section Histories.
Context {X O H Endpoints : Type} `{HL : HandlerLaws H} `{PS : PostingSession X O H Endpoints}.

Abbreviation world := (Session.world X O H).
Abbreviation system := (ShardSystem.t X O H).

Variable endpoints : Endpoints.
Variables (config : SessionConfig.t) (steady_clock : nat -> Z) (system_clock : nat -> nat -> Z).
Variable ready : world -> bool.
Variable do_read : world -> world.
Variable start_task : result -> world -> outcome world.
Variable run_transport : O -> result -> world -> outcome world.
Variable transport_result : world -> O -> list Z -> Prop.
Variable make_session : H -> world.
Variables (m : PayloadManager.t) (h0 : H).

Abbreviation run_op := (Session.run_op config steady_clock system_clock ready do_read start_task
                          run_transport).
Abbreviation session_run := (Session.run config steady_clock system_clock ready do_read
                               start_task run_transport transport_result (make_session h0)).
Abbreviation run := (ShardSystem.run make_session endpoints run_op transport_result
                       (ShardSystem.init h0 m)).

Hypothesis fresh_session : forall h,
  make_session h = set_shared (mk_shared m ShardMetrics.init h 0 0 0 []) (make_session h0).
Hypothesis session_evolves : forall tr w pre o post_ r w',
  session_run tr w -> total (posts tr) < 2 ^ 64 -> pending w = pre ++ o :: post_ ->
  (pool_op o = true -> Forall (fun o' => pool_op o' = false) pre) ->
  result_of transport_result w o r -> run_op o r (set_pending (pre ++ post_) w) = Ok w' ->
  evolves (shared w) (shared w') /\ (disconnects (shared w) <= disconnects (shared w'))%nat.

Lemma next_events_sized (s : system) :
  Forall task_ok (Shard.posted (shard s)) -> Forall sized (next_events s).
Proof.
  unfold next_events. destruct (Shard.posted (shard s)) as [|[a| |] l]; try by constructor.
  intros Hk. apply List.Forall_cons_iff in Hk as [(_ & _ & Hc) _].
  destruct (SessionPool.closed_ _); [constructor|]. unfold action_events, range_events.
  destruct (ActionDescriptor.type a); [constructor|..]; apply List.Forall_map;
    apply List.Forall_forall; intros i _; cbn; lia || done.
Qed.

Lemma session_closed_spec (sh : Shard.t world H) :
  Shard.session_pool_ (Shard.session_closed sh)
  = SessionPool.disconnect_callback (Shard.session_pool_ sh) /\
  Shard.message_handler_ (Shard.session_closed sh) = Shard.message_handler_ sh /\
  Shard.metrics_ (Shard.session_closed sh) = Shard.metrics_ sh /\
  Shard.posted (Shard.session_closed sh) = Shard.posted sh.
Proof. unfold Shard.session_closed, Shard.return_pool. by destruct (negb _). Qed.

(** What the completion of an operation of the session [i] leaves behind. *)
Lemma complete_spec i w h o rest r (s s' : system) :
  sessions s !! i = Some w -> Shard.message_handler_ (shard s) = Some h ->
  complete run_op i o rest r s = Ok s' ->
  exists w', run_op o r (set_pending rest (load s h w)) = Ok w' /\
    sessions s' = <[i := w']> (sessions s) /\
    Shard.message_handler_ (shard s') = Some (message_handler_ (shared w')) /\
    (forall h v, load s' h v = load (store i w' s) h v) /\
    Shard.posted (shard s') = Shard.posted (shard s) /\
    let p := SessionPool.set_sessions (<[i := w']> (sessions s)) (pool s) in
    pool s' = (if Nat.ltb (disconnects (shared w)) (disconnects (shared w'))
               then SessionPool.disconnect_callback p else p).
Proof.
  intros Hw Hh Hc. unfold complete in Hc. rewrite Hw, Hh in Hc.
  apply obind_Ok in Hc as (w' & Hop & Hc). exists w'. cbv zeta in Hc.
  destruct (Nat.ltb _ _); apply Ok_inj in Hc as <-; [|by split_and!].
  destruct (session_closed_spec (shard (store i w' s))) as (E1 & E2 & E3 & E4).
  split_and!; [done | | done | | done | done].
  - change (SessionPool.sessions_ (Shard.session_pool_ (Shard.session_closed (shard (store i w' s))))
            = <[i := w']> (sessions s)).
    rewrite E1. unfold SessionPool.disconnect_callback. cbn. by destruct (_ && _).
  - intros h1 v. unfold load.
    change (Shard.metrics_ (shard (set_shard ?a ?b))) with (Shard.metrics_ a).
    by rewrite E3.
Qed.

Record system_inv (tr : events) (s : system) : Prop := {
  y_handler : exists h, Shard.message_handler_ (shard s) = Some h /\
    evolves (mk_shared m ShardMetrics.init h0 0 0 0 [])
      (mk_shared (payload_manager_ s) (Shard.metrics_ (shard s)) h 0 0 0 []) /\
    forall i w, sessions s !! i = Some w -> session_run (of_session i tr) (load s h w);
  y_none : forall i, (length (sessions s) <= i)%nat -> of_session i tr = [];
  y_small : Z.of_nat (length (sessions s)) < 2 ^ 32
}.

(** Nothing about the sessions and the shared objects has changed. *)
Lemma system_inv_same tr (s s' : system) :
  system_inv tr s -> sessions s' = sessions s ->
  Shard.message_handler_ (shard s') = Shard.message_handler_ (shard s) ->
  Shard.metrics_ (shard s') = Shard.metrics_ (shard s) ->
  payload_manager_ s' = payload_manager_ s -> (forall h w, load s' h w = load s h w) ->
  system_inv tr s'.
Proof.
  intros [(h & Hh & He & Hr) Hn Hl] E1 E2 E3 E4 E5.
  constructor; rewrite ?E1, ?E2, ?E3, ?E4; try done.
  exists h. split_and!; [done | done |]. intros i w Hw. rewrite E5. by apply Hr.
Qed.

(** A session while the shared objects change as it allows. *)
Lemma run_evolved tr w sh :
  session_run tr w -> evolves (shared w) sh ->
  disconnects sh = disconnects (shared w) -> written sh = written (shared w) ->
  session_run tr (set_shared sh w).
Proof.
  intros Hr (H1' & H2' & H3') Hd Hw. apply Session.run_other; [done|]. by split_and!.
Qed.

Lemma run_sizes l tr s :
  run l tr s -> Forall task_ok (Shard.posted (shard s)) /\ Forall sized tr.
Proof.
  assert (forall k (sh : Shard.t world H), Forall task_ok (Shard.posted sh) -> task_ok k ->
            Forall task_ok (Shard.posted (Shard.post k sh))) as Hpost.
  { intros k sh Hs Hk. apply Forall_app. split; [done | by constructor]. }
  induction 1 as [|l tr s a _ [IH1 IH2] Ha|l tr s _ [IH1 IH2]|l tr s _ [IH1 IH2]|l tr s _ [IH1 IH2]
    |l tr s m' _ [IH1 IH2]|l tr s s' _ [IH1 IH2] _ Hn|l tr s i w h pre o post_ r s' _ [IH1 IH2] _ Hw Hh _ _ _ Hc
    |l tr s _ [IH1 IH2]]; try (split; [done | exact IH2]).
  - split; [cbn; constructor | constructor].
  - split; [|done]. unfold Shard.submit_work. destruct (negb _); [done|]. by apply Hpost.
  - split; [|done]. by apply Hpost.
  - split; [|done]. unfold Shard.stop. destruct (negb _); [done|]. by apply Hpost.
  - split; [|done]. unfold Shard.force_stop. by destruct (_ && _).
  - split; [by eapply run_next_spec|]. apply Forall_app. split; [done|].
    by apply next_events_sized.
  - destruct (complete_spec _ _ _ _ _ _ _ _ Hw Hh Hc) as (w' & _ & _ & _ & _ & -> & _).
    split; [done|]. apply Forall_app. split; [done|]. by repeat constructor.
Qed.

(** ** The calls of the sessions are those of the actions submitted *)

Definition handle_actions (l : list Shard.task) : list ActionDescriptor.t :=
  omap (fun k => match k with Shard.HandleAction a => Some a | _ => None end) l.

Lemma run_task_closed k (sh sh' : Shard.t world H) :
  Shard.run_task make_session endpoints k sh = Ok sh' ->
  Shard.running_ sh' = Shard.running_ sh /\
  SessionPool.closed_ (Shard.session_pool_ sh')
  = match k with Shard.Shutdown => true | _ => SessionPool.closed_ (Shard.session_pool_ sh) end.
Proof.
  destruct k as [action| |]; cbn [Shard.run_task].
  - unfold Shard.handle_action. cbv zeta. intros E.
    unfold_calls in E.
    destruct (ActionDescriptor.type action).
    { destruct (Shard.message_handler_ sh); [|done]. unfold SessionPool.create_sessions in E.
      by destruct (SessionPool.sessions_ (Shard.session_pool_ sh)); injection E as <-. }
    all: apply obind_Ok in E as (p & E & [= <-]); destruct (SessionPool.closed_ _) eqn:Ec;
      [injection E as <-; split; [done | exact Ec]|];
      apply on_range_fields in E as (_ & E & _); (split; [done|]); cbn in *; by rewrite E.
  - by intros [= <-].
  - intros E. cbv zeta in E. apply obind_Ok in E as (p & E & [= <-]).
    rewrite shutdown_spec in E. injection E as <-. unfold Shard.return_pool.
    change (Shard.session_pool_ (Shard.start_force_stop_timer sh)) with (Shard.session_pool_ sh).
    destruct (SessionPool.closed_ (Shard.session_pool_ sh)) eqn:Ec; [by destruct (negb _)|].
    cbv zeta. destruct (_ =? 0); by destruct (negb _).
Qed.

Lemma complete_closed i w h o rest r (s s' : system) :
  sessions s !! i = Some w -> Shard.message_handler_ (shard s) = Some h ->
  complete run_op i o rest r s = Ok s' ->
  Shard.running_ (shard s') = Shard.running_ (shard s) /\
  SessionPool.closed_ (pool s') = SessionPool.closed_ (pool s).
Proof.
  intros Hw Hh Hc. unfold complete in Hc. rewrite Hw, Hh in Hc.
  apply obind_Ok in Hc as (w' & _ & Hc). cbv zeta in Hc.
  destruct (Nat.ltb _ _); apply Ok_inj in Hc as <-; [|done].
  unfold pool. cbn [set_shard shard]. split.
  - unfold Shard.session_closed, Shard.return_pool. by destruct (negb _).
  - destruct (session_closed_spec (shard (store i w' s))) as (-> & _).
    unfold SessionPool.disconnect_callback. cbv zeta. by destruct (_ && _).
Qed.

Record calls_inv (l : list ActionDescriptor.t) (tr : events (O := O)) (s : system) : Prop := {
  k_split : exists fin more,
    l = fin ++ handle_actions (Shard.posted (shard s)) ++ more /\
    (Shard.running_ (shard s) = true -> more = []) /\
    forall i, (SessionPool.closed_ (pool s) = false ->
               posts (of_session i tr) = calls_to (Z.of_nat i) fin) /\
              posts (of_session i tr) `prefix_of` calls_to (Z.of_nat i) fin
}.

Lemma handle_actions_app l k : handle_actions (l ++ k) = handle_actions l ++ handle_actions k.
Proof. apply omap_app. Qed.

(** Steps that run no action of the shard. *)
Lemma calls_inv_same l tr tr' (s s' : system) :
  calls_inv l tr s ->
  handle_actions (Shard.posted (shard s')) = handle_actions (Shard.posted (shard s)) ->
  (Shard.running_ (shard s') = true -> Shard.running_ (shard s) = true) ->
  SessionPool.closed_ (pool s') = SessionPool.closed_ (pool s) ->
  (forall i, posts (of_session i tr') = posts (of_session i tr)) -> calls_inv l tr' s'.
Proof.
  intros [(fin & more & H1' & H2' & H3')] E1 E2 E3 E4. constructor. exists fin, more.
  rewrite E1, E3. split_and!; [done | auto |]. intros i. by rewrite E4.
Qed.

Lemma calls_inv_submit l tr (s : system) a :
  calls_inv l tr s ->
  calls_inv (l ++ [a]) tr (set_shard (snd (Shard.submit_work a (shard s))) s).
Proof.
  intros [(fin & more & -> & H2' & H3')]. constructor. unfold Shard.submit_work.
  destruct (Shard.running_ (shard s)) eqn:Er; cbn [negb snd].
  - exists fin, []. rewrite (H2' eq_refl), !app_nil_r. split_and!; [|done|done].
    cbn. by rewrite handle_actions_app, <- app_assoc.
  - exists fin, (more ++ [a]). split_and!; [by rewrite <- !app_assoc | cbn; congruence | done].
Qed.

Lemma calls_inv_next l tr (s s' : system) :
  Forall task_ok (Shard.posted (shard s)) -> calls_inv l tr s ->
  run_next make_session endpoints s = Ok s' -> calls_inv l (tr ++ next_events s) s'.
Proof.
  intros Hk Hi Hn. unfold ShardSystem.run_next in Hn. unfold next_events.
  destruct (Shard.posted (shard s)) as [|k post_] eqn:Ep.
  { injection Hn as <-. by rewrite app_nil_r. }
  apply obind_Ok in Hn as (sh & Hn & [= <-]).
  pose proof (run_task_objects _ _ _ _ _ Hn) as (_ & _ & E).
  apply run_task_closed in Hn as [Er Ec]. cbn in E, Er, Ec.
  apply List.Forall_cons_iff in Hk as [Hk _].
  destruct Hi as [(fin & more & -> & H2' & H3')].
  assert (forall ev, (forall i, posts (of_session i ev) = []) ->
            handle_actions [k] = [] ->
            calls_inv (fin ++ handle_actions (k :: post_) ++ more) (tr ++ ev) (set_shard sh s))
    as Hnone.
  { intros ev Hev Hka. constructor. exists fin, more. cbn [set_shard shard]. rewrite E, Er. split_and!.
    - by rewrite (handle_actions_app [k] post_ : handle_actions (k :: post_) = _), Hka.
    - done.
    - intros i. rewrite of_session_app, posts_app, Hev, app_nil_r. destruct (H3' i) as [H4 H5].
      split; [|done]. unfold pool. cbn. rewrite Ec. intros Hcl. apply H4.
      destruct k; done. }
  rewrite Ep. destruct k as [a| |]; [|by apply Hnone..].
  constructor. exists (fin ++ [a]), more. cbn [set_shard shard]. rewrite E, Er. split_and!.
  - by rewrite <- app_assoc.
  - done.
  - intros i. rewrite of_session_app, posts_app, calls_app. destruct (H3' i) as [H4 H5].
    unfold pool in *. cbn. rewrite Ec. destruct (SessionPool.closed_ _).
    + cbn. rewrite app_nil_r. split; [done|]. by apply prefix_app_r.
    + rewrite action_calls, H4 by (done || apply Hk). done.
Qed.

Lemma run_calls l tr s : run l tr s -> calls_inv l tr s.
Proof.
  induction 1 as [|l tr s a _ IH _|l tr s _ IH|l tr s _ IH|l tr s _ IH|l tr s m' _ IH _|l tr s s' Hrun IH _ Hn
    |l tr s i w h pre o post_ r s' _ IH _ Hw Hh _ _ _ Hc|l tr s _ IH];
    try (by eapply calls_inv_same).
  - constructor. exists [], []. split_and!; [done | done |]. intros i. by split.
  - by apply calls_inv_submit.
  - eapply calls_inv_same; [exact IH | | done | done | done]. cbn.
    by rewrite handle_actions_app, app_nil_r.
  - eapply calls_inv_same; [exact IH | | | | done]; unfold Shard.stop;
      destruct (Shard.running_ (shard s)) eqn:Er; try done; cbn.
    + by rewrite handle_actions_app, app_nil_r.
    + congruence.
  - eapply calls_inv_same; [exact IH | | | | done]; unfold Shard.force_stop; by destruct (_ && _).
  - apply calls_inv_next; try done. by eapply run_sizes.
  - destruct (complete_spec _ _ _ _ _ _ _ _ Hw Hh Hc) as (w' & _ & _ & _ & _ & Ep & _).
    destruct (complete_closed _ _ _ _ _ _ _ _ Hw Hh Hc) as [Er Ec].
    eapply calls_inv_same; [exact IH | by rewrite Ep | by rewrite Er | done |].
    intros j. rewrite of_session_app, posts_app, of_session_one.
    destruct (Nat.eqb i j); by rewrite app_nil_r.
Qed.

(** So what holds of the actions holds of the calls. *)
Lemma run_prefix l tr s i :
  run l tr s -> posts (of_session i tr) `prefix_of` calls_to (Z.of_nat i) l.
Proof.
  intros Hr. destruct (run_calls _ _ _ Hr) as [(fin & more & -> & _ & Hi)].
  rewrite calls_app. apply prefix_app_r, Hi.
Qed.

Lemma make_session_run i h (s : system) :
  evolves (mk_shared m ShardMetrics.init h0 0 0 0 [])
    (mk_shared (payload_manager_ s) (Shard.metrics_ (shard s)) h 0 0 0 []) ->
  session_run [] (load s h (make_session i)).
Proof.
  intros He. rewrite (fresh_session i).
  change (session_run [] (set_shared (mk_shared (payload_manager_ s) (Shard.metrics_ (shard s)) h
            (ticks s) (fills s) 0 []) (make_session h0))).
  assert (shared (make_session h0) = mk_shared m ShardMetrics.init h0 0 0 0 []) as E
    by exact (f_equal shared (fresh_session h0)).
  apply run_evolved; [constructor|..]; by rewrite E.
Qed.

(** A handler of the shard runs. *)
Lemma system_inv_next tr (s s' : system) :
  Forall task_ok (Shard.posted (shard s)) -> well_called (tr ++ next_events s) ->
  system_inv tr s -> run_next make_session endpoints s = Ok s' ->
  payload_manager_ s' = payload_manager_ s -> Shard.metrics_ (shard s') = Shard.metrics_ (shard s) ->
  system_inv (tr ++ next_events s) s'.
Proof.
  intros Hk Hwc [(h & Hh & He & Hr) Hn Hl] Hnext Em Es.
  destruct (run_next_spec _ _ _ _ Hk Hnext) as ([[Hs0 (n & h' & Hh' & Hn' & Hs') Hev]|(o & a & b & [])]
    & Hload & Hhs & _).
  - rewrite Hh in Hh'. injection Hh' as <-. rewrite Hev, app_nil_r. rewrite Hs0 in Hn.
    assert (forall i, of_session i tr = []) as Hnone by (intros i; apply Hn; cbn; lia).
    constructor; [|intros; apply Hnone|rewrite Hs', length_replicate; lia].
    exists h. split_and!; [by rewrite Hhs | by rewrite Em, Es |].
    intros i w Hw. rewrite Hs' in Hw. apply lookup_replicate in Hw as [-> _].
    rewrite Hnone, Hload. by apply make_session_run.
  - assert (length (sessions s') = length (sessions s)) as Hlen
      by (by rewrite g_sessions0, length_on_positions).
    constructor; [|intros i; rewrite Hlen; intros Hi|by rewrite Hlen].
    + exists h. split_and!; [by rewrite Hhs | by rewrite Em, Es |].
      intros i w Hw. rewrite g_sessions0, on_positions_lookup in Hw.
      apply fmap_Some in Hw as (w1 & Hw1 & ->). rewrite Hload, of_session_app.
      pose proof (well_called_post i o tr (next_events s) Hwc) as Hfirst.
      rewrite g_events0 in *.
      destruct ((a <=? Z.of_nat i) && (Z.of_nat i <? b)).
      * apply (Session.run_post _ _ _ _ _ _ _ _ _ (of_session i tr) (load s h w1) o);
          [by apply Hr | done | done | by apply Hfirst].
      * rewrite app_nil_r. by apply Hr.
    + rewrite of_session_app, Hn, g_events0 by done.
      destruct (Z.leb_spec a (Z.of_nat i)), (Z.ltb_spec (Z.of_nat i) b); try done. cbn. lia.
Qed.

(** An operation of a session completes: it goes on, and the others see the
    shared objects change. *)
Lemma system_inv_complete tr (s s' : system) i w h pre o post_ r :
  system_inv tr s -> well_called tr ->
  sessions s !! i = Some w -> Shard.message_handler_ (shard s) = Some h ->
  pending w = pre ++ o :: post_ ->
  (pool_op o = true -> Forall (fun o' => pool_op o' = false) pre) ->
  result_of transport_result (load s h w) o r ->
  complete run_op i o (pre ++ post_) r s = Ok s' ->
  system_inv (tr ++ [(i, Ran o r)]) s'.
Proof.
  intros [(h1 & Hh1 & He & Hr) Hn Hl] Hwc Hw Hh Hp Hf Hres Hc.
  rewrite Hh in Hh1. injection Hh1 as <-.
  destruct (complete_spec _ _ _ _ _ _ _ _ Hw Hh Hc) as (w' & Hop & Hs' & Hh' & Hload & _ & _).
  pose proof (session_evolves _ _ _ _ _ _ _ (Hr i w Hw) (proj2 (Hwc i)) Hp Hf Hres Hop) as [Hev _].
  pose proof (lookup_lt_Some _ _ _ Hw) as Hi.
  assert (forall v, load s' (message_handler_ (shared w')) v
            = set_shared (mk_shared (Session.payload_manager_ (shared w'))
                (metrics_sink_ (shared w')) (message_handler_ (shared w'))
                (Session.ticks (shared w')) (Session.fills (shared w'))
                (disconnects (shared v)) (written (shared v))) v) as Hl' by (intros v; apply Hload).
  assert (payload_manager_ s' = Session.payload_manager_ (shared w') /\
          Shard.metrics_ (shard s') = metrics_sink_ (shared w')) as [Em Es].
  { specialize (Hload h w'). split.
    - exact (f_equal (fun v => Session.payload_manager_ (shared v)) Hload).
    - exact (f_equal (fun v => metrics_sink_ (shared v)) Hload). }
  constructor; rewrite ?Hs', ?length_insert; [| |done].
  - exists (message_handler_ (shared w')). split_and!; [done | |].
    + rewrite Em, Es. etransitivity; [exact He|]. exact Hev.
    + intros j v Hv. rewrite Hl', of_session_app, of_session_one.
      destruct (Nat.eqb_spec i j) as [<-|Hij].
      * rewrite list_lookup_insert_eq in Hv by done. injection Hv as <-.
        replace (set_shared _ w') with w' by (by destruct w' as [? ? ? ? [] ?]).
        by eapply (Session.run_complete _ _ _ _ _ _ _ _ _ (of_session i tr) (load s h w)); [apply Hr|..].
      * rewrite list_lookup_insert_ne in Hv by done. rewrite app_nil_r.
        change (set_shared ?sh v) with (set_shared sh (load s h v)).
        apply run_evolved; [by apply Hr | exact Hev | done | done].
  - intros j Hj. rewrite of_session_app, of_session_one, Hn by done.
    destruct (Nat.eqb_spec i j); [lia | done].
Qed.

Lemma system_run_inv l tr s : run l tr s -> well_called tr -> system_inv tr s.
Proof.
  induction 1 as [|l tr s a _ IH Ha|l tr s _ IH|l tr s _ IH|l tr s _ IH|l tr s m' _ IH Hm|l tr s s' Hrun IH _ Hn
    |l tr s i w h pre o post_ r s' Hrun IH _ Hw Hh Hp Hf Hres Hc|l tr s _ IH]; intros Hwc.
  - constructor; [|done|cbn; lia]. exists h0. by split_and!.
  - eapply system_inv_same; [by apply IH|..]; try done; unfold Shard.submit_work;
      by destruct (negb _).
  - by eapply system_inv_same; [apply IH|..].
  - eapply system_inv_same; [by apply IH|..]; try done; unfold Shard.stop; by destruct (negb _).
  - eapply system_inv_same; [by apply IH|..]; try done; unfold Shard.force_stop;
      try by destruct (_ && _).
  - destruct (IH Hwc) as [(h & Hh & He & Hr) Hn Hl]. constructor; [|done|done].
    exists h. split_and!; [done | |].
    + etransitivity; [exact He|]. split; [exact Hm | split; reflexivity].
    + intros i w Hw. change (load (set_payload_manager m' s) h w) with
        (set_shared (mk_shared m' (Shard.metrics_ (shard s)) h (ticks s) (fills s)
           (disconnects (shared w)) (written (shared w))) (load s h w)).
      apply run_evolved; [by apply Hr | | done | done].
      split; [exact Hm | split; reflexivity].
  - destruct (run_sizes _ _ _ Hrun) as [Hk _].
    assert (payload_manager_ s' = payload_manager_ s /\
            Shard.metrics_ (shard s') = Shard.metrics_ (shard s)) as [E1 E2].
    { destruct (run_next_spec _ _ _ _ Hk Hn) as (_ & Hload & _). specialize (Hload h0 (make_session h0)).
      split; [exact (f_equal (fun v => Session.payload_manager_ (shared v)) Hload)
             |exact (f_equal (fun v => metrics_sink_ (shared v)) Hload)]. }
    apply system_inv_next; try done. apply IH.
    eapply well_called_prefix; [|done]. by apply next_events_sized.
  - assert (well_called tr) as Hwc'.
    { eapply well_called_prefix; [|done]. by repeat constructor. }
    eapply system_inv_complete; try done. by apply IH.
  - by eapply system_inv_same; [apply IH|..].
Qed.

(** ** The pool counts them *)

Hypothesis session_counts : forall tr w,
  session_run tr w -> total (posts tr) < 2 ^ 64 ->
  disconnects (shared w) = (if started tr && negb (live w) then 1 else 0)%nat /\
  (live w = true -> started tr = true) /\
  (started tr = true -> told_to_start (posts tr) = true).

(** The context loses its work guard when the pool reports its end. *)
Definition guarded (sh : Shard.t world H) : Prop :=
  Shard.work_guard_ sh = Nat.eqb (SessionPool.notified (Shard.session_pool_ sh)) 0.

Lemma return_pool_guarded p (sh : Shard.t world H) :
  guarded sh -> (SessionPool.notified (Shard.session_pool_ sh) <= SessionPool.notified p)%nat ->
  guarded (Shard.return_pool p sh).
Proof.
  unfold guarded, Shard.return_pool. intros Hg Hle.
  destruct (Nat.eqb_spec (SessionPool.notified p) (SessionPool.notified (Shard.session_pool_ sh)))
    as [E|E]; cbn; [by rewrite E|].
  symmetry. apply Nat.eqb_neq. lia.
Qed.

Lemma session_closed_guarded (sh : Shard.t world H) :
  guarded sh -> guarded (Shard.session_closed sh).
Proof.
  intros Hg. apply return_pool_guarded; [done|]. unfold SessionPool.disconnect_callback.
  cbv zeta. destruct (_ && _); cbn; lia.
Qed.

Lemma run_task_guarded k (sh sh' : Shard.t world H) :
  Shard.run_task make_session endpoints k sh = Ok sh' -> guarded sh -> guarded sh'.
Proof.
  destruct k as [action| |]; cbn [Shard.run_task].
  - unfold Shard.handle_action. cbv zeta. intros E Hg.
    unfold_calls in E.
    destruct (ActionDescriptor.type action).
    { destruct (Shard.message_handler_ sh); [|done]. unfold SessionPool.create_sessions in E.
      by destruct (SessionPool.sessions_ (Shard.session_pool_ sh)); injection E as <-. }
    all: apply obind_Ok in E as (p & E & [= <-]); destruct (SessionPool.closed_ _);
      [by injection E as <-|]; apply on_range_fields in E as (_ & _ & E);
      unfold guarded in *; cbn in *; by rewrite E.
  - by intros [= <-].
  - intros E Hg. cbv zeta in E. apply obind_Ok in E as (p & E & [= <-]).
    apply return_pool_guarded; [done|]. rewrite shutdown_spec in E. injection E as <-.
    destruct (SessionPool.closed_ _); cbn; [lia|]. destruct (_ =? 0); cbn; lia.
Qed.

Lemma complete_guarded i w h o rest r (s s' : system) :
  sessions s !! i = Some w -> Shard.message_handler_ (shard s) = Some h ->
  complete run_op i o rest r s = Ok s' -> guarded (shard s) -> guarded (shard s').
Proof.
  intros Hw Hh Hc Hg. unfold complete in Hc. rewrite Hw, Hh in Hc.
  apply obind_Ok in Hc as (w' & _ & Hc). cbv zeta in Hc.
  destruct (Nat.ltb _ _); apply Ok_inj in Hc as <-; [|exact Hg].
  by apply session_closed_guarded.
Qed.

Lemma run_guarded l tr s : run l tr s -> guarded (shard s).
Proof.
  induction 1 as [|l tr s a _ IH _|l tr s _ IH|l tr s _ IH|l tr s _ IH|l tr s m' _ IH _|l tr s s' _ IH _ Hn
    |l tr s i w h pre o post_ r s' _ IH _ Hw Hh _ _ _ Hc|l tr s _ IH]; try done.
  - unfold Shard.submit_work. by destruct (negb _).
  - unfold Shard.stop. by destruct (negb _).
  - unfold Shard.force_stop. by destruct (_ && _).
  - unfold ShardSystem.run_next in Hn. destruct (Shard.posted (shard s)); [by injection Hn as <-|].
    apply obind_Ok in Hn as (sh & Hn & [= <-]). by apply run_task_guarded in Hn.
  - by eapply complete_guarded.
Qed.

(** A range of sessions is called. *)
Lemma connected_ranged tr (s s' : system) o a b :
  well_called (tr ++ next_events s) -> well_called tr -> system_inv tr s -> ranged o a b s s' ->
  connected_sessions (tr ++ next_events s) (sessions s')
  = match o with StartTask => connected_sessions tr (sessions s) + (b - a) | _ => connected_sessions tr (sessions s) end.
Proof.
  intros Hwc Hwc0 [(h & _ & _ & Hr) _ _] []. rewrite g_sessions0, connected_on_positions.
  assert (o <> StartTask -> connected_sessions (tr ++ next_events s) (sessions s) = connected_sessions tr (sessions s))
    as Hne.
  { intros Ho. apply connected_events. intros i. rewrite g_events0. destruct (_ && _); [|done].
    by destruct o. }
  destruct o; try by apply Hne.
  apply sum_imap_range; [lia | intros Hab; split; [done | by apply g_end0] |].
  intros i w Hw. specialize (g_events0 i). unfold counted.
  rewrite of_session_app, posts_app, told_to_start_app, g_events0.
  destruct ((a <=? Z.of_nat i) && (Z.of_nat i <? b)) eqn:E; [|by cbn; rewrite orb_false_r, Z.add_0_r].
  cbn. rewrite orb_true_r.
  assert (posts (of_session i tr) = []) as Hp by (by eapply well_called_post).
  destruct (session_counts _ _ (Hr i w Hw) (proj2 (Hwc0 i))) as (Hd & _ & Hs).
  rewrite Hp in *. cbn in Hs |- *.
  destruct (started (of_session i tr)); [by specialize (Hs eq_refl)|]. cbn in Hd. by rewrite Hd.
Qed.

(** An operation of a session completes, and it may close. *)
Lemma connected_complete tr (s s' : system) i w h pre o post_ r :
  system_inv tr s -> well_called tr ->
  sessions s !! i = Some w -> Shard.message_handler_ (shard s) = Some h ->
  pending w = pre ++ o :: post_ ->
  (pool_op o = true -> Forall (fun o' => pool_op o' = false) pre) ->
  result_of transport_result (load s h w) o r ->
  complete run_op i o (pre ++ post_) r s = Ok s' ->
  pool_run (pool s) (connected_sessions tr (sessions s)) ->
  pool_run (pool s') (connected_sessions (tr ++ [(i, Ran o r)]) (sessions s')).
Proof.
  intros [(h1 & Hh1 & He & Hr) Hn Hl] Hwc Hw Hh Hp Hf Hres Hc Hpool.
  rewrite Hh in Hh1. injection Hh1 as <-.
  destruct (complete_spec _ _ _ _ _ _ _ _ Hw Hh Hc) as (w' & Hop & Hs' & _ & _ & _ & Hpl).
  specialize (Hr i w Hw). destruct (Hwc i) as [_ Hsz].
  pose proof (session_evolves _ _ _ _ _ _ _ Hr Hsz Hp Hf Hres Hop) as [_ Hmono].
  assert (session_run (of_session i tr ++ [Ran o r]) w') as Hr'.
  { by eapply (Session.run_complete _ _ _ _ _ _ _ _ _ (of_session i tr) (load s h w)). }
  destruct (session_counts _ _ Hr Hsz) as (Hd & _ & Hst).
  destruct (session_counts _ _ Hr') as (Hd' & _ & Hst').
  { by rewrite posts_snoc, app_nil_r. }
  rewrite posts_snoc, app_nil_r in Hst'. cbn in Hd, Hmono.
  rewrite Hs', connected_events.
  2:{ intros j. rewrite of_session_one. by destruct (Nat.eqb i j). }
  unfold connected_sessions in *. rewrite (sum_imap_insert _ _ _ _ _ Hw).
  pose proof (lookup_lt_Some _ _ _ Hw) as Hi.
  assert (pool_run (SessionPool.set_sessions (<[i := w']> (sessions s)) (pool s))
            (foldr Z.add 0 (imap (counted tr) (sessions s)))) as Hset.
  { apply (pool_other _ _ (fun _ => w') (Z.of_nat i) (Z.of_nat i + 1) _ Hpool).
    rewrite on_range_spec by (unfold sessions in Hi; lia). do 2 f_equal.
    rewrite <- (on_positions_step (fun _ => w') _ _ _ w) by (rewrite ?Nat2Z.id; done || lia).
    by rewrite on_positions_none, Nat2Z.id by lia. }
  cbv zeta in Hpl. rewrite Hpl. unfold counted at 2 3.
  destruct (Nat.ltb_spec (disconnects (shared w)) (disconnects (shared w'))) as [Hlt|Hge].
  - assert (disconnects (shared w) = 0%nat /\ disconnects (shared w') = 1%nat) as [E E'].
    { destruct (started (of_session i tr ++ [Ran o r]) && negb (live w')); lia. }
    assert (told_to_start (posts (of_session i tr)) = true) as Ht.
    { apply Hst'. rewrite E' in Hd'. by destruct (started (of_session i tr ++ [Ran o r])). }
    rewrite E, E', Ht. cbn. rewrite Z.add_0_r. apply pool_disconnect; [done|].
    assert (counted tr i w = 1) as Hc1 by (unfold counted; by rewrite Ht, E).
    pose proof (sum_imap_insert (counted tr) _ _ _ w' Hw) as Hsum.
    pose proof (connected_bounds tr (<[i := w']> (sessions s))) as Hb. unfold connected_sessions in Hb.
    assert (counted tr i w' = 0) as Hc0 by (unfold counted; by rewrite Ht, E').
    lia.
  - replace (disconnects (shared w')) with (disconnects (shared w)) by lia.
    by rewrite Z.sub_add.
Qed.

Lemma system_count l tr s :
  run l tr s -> well_called tr -> pool_run (pool s) (connected_sessions tr (sessions s)).
Proof.
  induction 1 as [|l tr s a _ IH Ha|l tr s _ IH|l tr s _ IH|l tr s _ IH|l tr s m' _ IH Hm|l tr s s' Hrun IH _ Hn
    |l tr s i w h pre o post_ r s' Hrun IH _ Hw Hh Hp Hf Hres Hc|l tr s _ IH]; intros Hwc; try by apply IH.
  - constructor.
  - unfold Shard.submit_work. specialize (IH Hwc). by destruct (negb _).
  - unfold Shard.stop. specialize (IH Hwc). by destruct (negb _).
  - unfold Shard.force_stop. specialize (IH Hwc). by destruct (_ && _).
  - destruct (run_sizes _ _ _ Hrun) as [Hk _].
    assert (well_called tr) as Hwc'.
    { eapply well_called_prefix; [|done]. by apply next_events_sized. }
    specialize (IH Hwc'). pose proof (system_run_inv _ _ _ Hrun Hwc') as Hinv.
    destruct (run_next_spec _ _ _ _ Hk Hn) as ([[Hs0 (n & h' & _ & _ & Hs') Hev Hcount]
      |(o & a & b & Hg)] & _).
    + assert (forall i, of_session i tr = []) as Hnone.
      { intros i. apply (y_none _ _ Hinv). rewrite Hs0. cbn. lia. }
      rewrite Hev, app_nil_r. rewrite connected_none in * by done. by apply Hcount.
    + rewrite (connected_ranged _ _ _ _ _ _ Hwc Hwc' Hinv Hg). destruct Hg.
      apply g_count0; [done|]. pose proof (connected_bounds tr (sessions s)).
      pose proof (y_small _ _ Hinv). lia.
  - assert (well_called tr) as Hwc'.
    { eapply well_called_prefix; [|done]. by repeat constructor. }
    eapply connected_complete; try done; [by eapply system_run_inv | by apply IH].
Qed.
End Histories.
