(* ===== verification/ShardSystemProps.v ===== *)
(** * Theorems on a shard with its sessions

    The sessions of a shard share its payload manager, metrics and message
    handler, and each of them still behaves as it does on its own; what the pool
    counts is how many of them are connected; and what is left when the thread of
    the shard ends by itself. *)

From S2P Require Import Prelude Script Payload PayloadProps ExecutionPlan Metrics MessageHandler.
From S2P Require Import MessageHandlerProps Session SessionFacts SessionHistory SessionEffects.
From S2P Require Import TcpSession TcpSessionFacts TcpSessionProps UdpSession UdpSessionProps.
From S2P Require Import SessionPool SessionPoolProps Shard ShardSystem ShardSystemFacts.
Import Session ShardSystem.

(** A posted action that names sessions of the pool only. *)
Definition in_pool {X O H} (s : ShardSystem.t X O H) (k : Shard.task) : Prop :=
  match k with
  | Shard.HandleAction a =>
      ActionDescriptor.type a = ActionType.CREATE \/
      ActionDescriptor.sessions_end a <= Z.of_nat (length (sessions s))
  | _ => True
  end.

Lemma sum_imap_none {A} (f : nat -> A -> Z) l :
  (forall i x, 0 <= f i x) -> foldr Z.add 0 (imap f l) = 0 ->
  forall i x, l !! i = Some x -> f i x = 0.
Proof.
  revert f. induction l as [|y l IH]; intros f Hf Hs i x Hx; [done|]. cbn in Hs.
  assert (0 <= foldr Z.add 0 (imap (f ∘ S) l)) as Hpos.
  { clear -Hf. revert f Hf. induction l as [|z l IH]; intros f Hf; cbn; [lia|].
    specialize (IH (f ∘ S) (fun i => Hf (S i))). specialize (Hf 1%nat z). cbn. lia. }
  pose proof (Hf 0%nat y). destruct i as [|i]; [injection Hx as <-; lia|].
  apply (IH (f ∘ S)); [intros; apply Hf | lia | done].
Qed.

Section Generic.
Context {X O H Endpoints : Type} `{HL : HandlerLaws H} `{PS : PostingSession X O H Endpoints}.
Abbreviation system := (ShardSystem.t X O H).
Variable make_session : H -> Session.world X O H.
Variable endpoints : Endpoints.

(** A handler of the shard returns when its action is in the pool. *)
Lemma run_next_ok h (s : system) :
  Forall task_ok (Shard.posted (shard s)) -> Shard.message_handler_ (shard s) = Some h ->
  (forall k l, Shard.posted (shard s) = k :: l -> in_pool s k) ->
  exists s', run_next make_session endpoints s = Ok s'.
Proof.
  intros Hk Hh Hin. unfold ShardSystem.run_next.
  destruct (Shard.posted (shard s)) as [|k l]; [by eexists|].
  apply List.Forall_cons_iff in Hk as [Hk _]. specialize (Hin k l eq_refl).
  enough (exists sh, Shard.run_task make_session endpoints k (Shard.set_posted l (shard s)) = Ok sh)
    as (sh & ->) by (by eexists).
  destruct k as [a| |]; cbn [Shard.run_task]; [|by eexists|].
  - destruct Hk as (Ha & _ & _). unfold Shard.handle_action. cbv zeta. cbn [Shard.message_handler_
      Shard.set_posted Shard.session_pool_]. rewrite Hh.
    unfold_calls.
    destruct (ActionDescriptor.type a) eqn:Et;
      [destruct (SessionPool.create_sessions _ _ _); by eexists|..];
      (destruct Hin as [Hin|Hin]; [congruence|]);
      (destruct (SessionPool.closed_ _); [by eexists|]);
      (rewrite on_range_spec by (cbn; unfold sessions, pool in Hin; lia)); by eexists.
  - cbv zeta. rewrite shutdown_spec. by eexists.
Qed.

(** So does the completion of an operation whose handler does. *)
Lemma complete_ok run_op i w h o rest r w' (s : system) :
  sessions s !! i = Some w -> Shard.message_handler_ (shard s) = Some h ->
  run_op o r (set_pending rest (load s h w)) = Ok w' ->
  exists s', complete run_op i o rest r s = Ok s'.
Proof.
  intros Hw Hh Hop. unfold complete. rewrite Hw, Hh, Hop. cbn [obind]. cbv zeta.
  destruct (Nat.ltb _ _); by eexists.
Qed.

(** What the invariant of a session says about its start and its end. *)
Lemma inv_counts config payloads reads begun x_inv tr (w : Session.world X O H) :
  inv config payloads reads begun x_inv tr w ->
  disconnects (shared w) = (if started tr && negb (live w) then 1 else 0)%nat /\
  (live w = true -> started tr = true) /\
  (started tr = true -> told_to_start (posts tr) = true).
Proof.
  intros [(ran & tasks & Hp & Hs & _ & Hb) _ _ Hf]. split_and!; [apply Hb | apply Hb |].
  intros Ht. rewrite Hp in *. destruct ran as [|o ran].
  - destruct Hs as [_ Hs]. by rewrite Hs in Ht.
  - by destruct Hf as [-> _].
Qed.

(** A shard whose thread can leave its context by itself. *)
Lemma ended tr (s : system) :
  guarded (shard s) -> pool_run (pool s) (connected_sessions tr (sessions s)) ->
  Shard.run_returns (busy s) (shard s) = true -> Shard.stopped (shard s) = false ->
  SessionPool.closed_ (pool s) = true /\
  forall i w, sessions s !! i = Some w -> pending w = [] /\ counted tr i w = 0.
Proof.
  intros Hg Hp Hr Hst. unfold Shard.run_returns in Hr. rewrite Hst in Hr. cbn in Hr.
  rewrite !andb_true_iff, !negb_true_iff in Hr. destruct Hr as (((Hwg & Hb) & _) & _).
  unfold guarded in Hg. rewrite Hwg in Hg. symmetry in Hg. apply Nat.eqb_neq in Hg.
  apply pool_run_count in Hp as (_ & _ & Hn). unfold pool in *.
  destruct (SessionPool.closed_ _); cbn in Hn; [|done]. split; [done|].
  destruct (Z.eqb_spec (connected_sessions tr (sessions s)) 0) as [E|]; [|done].
  intros i w Hw. split.
  - unfold busy in Hb. destruct (pending w) as [|o l] eqn:Ew; [done|]. exfalso.
    assert (existsb (fun w => nonempty (pending w)) (sessions s) = true) as Ht; [|congruence].
    apply existsb_exists. exists w. rewrite Ew. split; [|done].
    by apply list_elem_of_In, (list_elem_of_lookup_2 _ i).
  - refine (sum_imap_none _ _ _ E _ _ Hw). intros j x. unfold counted. destruct (_ && _); lia.
Qed.
End Generic.

(** ** Shards of TCP sessions *)

Section Tcp.
Import TCPSession.
Context {H : Type} `{HL : HandlerLaws H}.
Variables (config : SessionConfig.t) (steady_clock : nat -> Z) (system_clock : nat -> nat -> Z).
Variables (endpoints : list Endpoint.t) (m : PayloadManager.t) (h : H).

Definition tcp_session (h : H) : Session.world reader tcp_op H :=
  TCPSession.init config m ShardMetrics.init h.

(** The histories of a shard that made the message handler [h]. *)
Definition tcp_shard_run
  : list ActionDescriptor.t -> events -> ShardSystem.t reader tcp_op H -> Prop :=
  ShardSystem.run tcp_session endpoints (run_op config steady_clock system_clock)
    (transport_result config) (ShardSystem.init h m).

Hypothesis ok : setting_ok config m ShardMetrics.init h.

Lemma tcp_counts tr w :
  TCPSession.run config steady_clock system_clock (tcp_session h) tr w ->
  total (posts tr) < 2 ^ 64 ->
  disconnects (shared w) = (if started tr && negb (live w) then 1 else 0)%nat /\
  (live w = true -> started tr = true) /\
  (started tr = true -> told_to_start (posts tr) = true).
Proof.
  intros Hr Ht. eapply inv_counts. by apply (tcp_run_inv config steady_clock system_clock _ _ _ ok).
Qed.

Lemma tcp_system_inv l tr s :
  tcp_shard_run l tr s -> well_called tr ->
  system_inv config steady_clock system_clock ready (do_read_header config steady_clock)
    (start_task steady_clock) (run_transport config steady_clock system_clock)
    (transport_result config) tcp_session m h tr s /\
  pool_run (pool s) (connected_sessions tr (sessions s)) /\ guarded (shard s) /\
  Forall task_ok (Shard.posted (shard s)).
Proof.
  intros Hr Hwc.
  assert (forall h1, tcp_session h1
            = set_shared (mk_shared m ShardMetrics.init h1 0 0 0 []) (tcp_session h)) as Hf by done.
  split; [|split; [|split]].
  - by eapply (system_run_inv endpoints); [done|apply (tcp_evolves config steady_clock system_clock _ _ _ ok)|..].
  - by eapply (system_count endpoints); [done | apply (tcp_evolves config steady_clock system_clock _ _ _ ok)
      | apply tcp_counts | exact Hr | done].
  - by eapply (run_guarded endpoints).
  - by eapply (run_sizes endpoints).
Qed.
End Tcp.

(** What holds of a shard after the events [tr]: each of its sessions has a
    history of its own and is safe in it, every completion is handled, and so is
    the next handler of the shard if it names sessions of the pool. *)
Definition tcp_sessions_safe {H : Type} `{HandlerLaws H} config steady_clock system_clock
    endpoints m (h : H) (tr : events) (s : ShardSystem.t TCPSession.reader TCPSession.tcp_op H)
  : Prop :=
  exists h', Shard.message_handler_ (shard s) = Some h' /\
  (forall i w0, sessions s !! i = Some w0 ->
     let w := load s h' w0 in
     TCPSession.run config steady_clock system_clock (tcp_session config m h)
       (of_session i tr) w /\
     (count is_writer (pending w) <= 1)%nat /\
     (count (is_reader TcpSessionFacts.reads) (pending w) <= 1)%nat /\
     disconnects (shared w) = (if started (of_session i tr) && negb (live w) then 1 else 0)%nat /\
     buffers_ok (PayloadManager.payloads_ m) w /\
     (forall pre o post_ r,
        pending w = pre ++ o :: post_ ->
        (pool_op o = true -> Forall (fun o' => pool_op o' = false) pre) ->
        result_of (TCPSession.transport_result config) w o r ->
        exists s', complete (TCPSession.run_op config steady_clock system_clock) i o
                     (pre ++ post_) r s = Ok s')) /\
  ((forall k l, Shard.posted (shard s) = k :: l -> in_pool s k) ->
   exists s', run_next (tcp_session config m) endpoints s = Ok s').

Lemma tcp_shard_safe {H : Type} `{HandlerLaws H} config steady_clock system_clock
    endpoints m (h : H) l tr s :
  setting_ok config m ShardMetrics.init h ->
  tcp_shard_run config steady_clock system_clock endpoints m h l tr s -> well_called tr ->
  tcp_sessions_safe config steady_clock system_clock endpoints m h tr s.
Proof.
  intros ok Hrun Hwc.
  destruct (tcp_system_inv _ _ _ _ _ _ ok _ _ _ Hrun Hwc) as ([(h' & Hh & _ & Hr) _ _] & _ & _ & Hk).
  exists h'. split; [done|]. split; [|by eapply run_next_ok].
  intros i w Hw. specialize (Hr i w Hw). cbv zeta. split; [exact Hr|].
  destruct (tcp_safe config steady_clock system_clock _ _ _ ok _ _ Hr (proj2 (Hwc i)))
    as (S1 & S2 & S3 & S4 & S5).
  do 4 (split; [done|]). intros pre o post_ r Hp Hf Hres.
  destruct (S5 pre o post_ r Hp Hf Hres) as (w' & Hop). by eapply complete_ok.
Qed.

(** ** Shards of UDP sessions *)

Section Udp.
Import UDPSession.
Context {H : Type} `{HL : HandlerLaws H}.
Variables (config : SessionConfig.t) (steady_clock : nat -> Z) (system_clock : nat -> nat -> Z).
Variables (endpoints : Endpoint.t) (m : PayloadManager.t) (h : H).

Definition udp_session (h : H) : Session.world receiver udp_op H :=
  UDPSession.init config m ShardMetrics.init h.

Definition udp_shard_run
  : list ActionDescriptor.t -> events -> ShardSystem.t receiver udp_op H -> Prop :=
  ShardSystem.run udp_session endpoints (run_op config steady_clock system_clock)
    transport_result (ShardSystem.init h m).

Hypothesis ok : udp_setting_ok config m ShardMetrics.init h.

Lemma udp_counts tr w :
  UDPSession.run config steady_clock system_clock (udp_session h) tr w ->
  total (posts tr) < 2 ^ 64 ->
  disconnects (shared w) = (if started tr && negb (live w) then 1 else 0)%nat /\
  (live w = true -> started tr = true) /\
  (started tr = true -> told_to_start (posts tr) = true).
Proof.
  intros Hr Ht. eapply inv_counts. by apply (udp_run_inv config steady_clock system_clock _ _ _ ok).
Qed.

Lemma udp_system_inv l tr s :
  udp_shard_run l tr s -> well_called tr ->
  system_inv config steady_clock system_clock ready (do_read config steady_clock)
    (start_task config steady_clock system_clock) (run_transport config steady_clock)
    transport_result udp_session m h tr s /\
  pool_run (pool s) (connected_sessions tr (sessions s)) /\ guarded (shard s) /\
  Forall task_ok (Shard.posted (shard s)).
Proof.
  intros Hr Hwc.
  assert (forall h1, udp_session h1
            = set_shared (mk_shared m ShardMetrics.init h1 0 0 0 []) (udp_session h)) as Hf by done.
  split; [|split; [|split]].
  - by eapply (system_run_inv endpoints); [done|apply (udp_evolves config steady_clock system_clock _ _ _ ok)|..].
  - by eapply (system_count endpoints); [done
      | apply (udp_evolves config steady_clock system_clock _ _ _ ok)
      | apply udp_counts | exact Hr | done].
  - by eapply (run_guarded endpoints).
  - by eapply (run_sizes endpoints).
Qed.
End Udp.

(** C6: The TCP sessions of a shard do not disturb each other.  In every history of
    a shard whose sessions are each started first and once, the orchestrator's
    calls, the operations of all sessions, their errors and the payloads other
    shards fill interleaved in any way, each session, with the shared objects as
    they are, has a history of a session on its own, made of its own events.  So
    each has at most one write and one read under way, has told the pool once
    that it closed if it was started and has closed, and its buffers hold; the
    completion of any of its operations leaves a shard; and so does the next
    handler of the shard, if it names sessions of its pool. *)
Theorem shard_sessions_safe {H : Type} `{HandlerLaws H} config steady_clock system_clock
    endpoints m (h : H) l tr s :
  setting_ok config m ShardMetrics.init h ->
  tcp_shard_run config steady_clock system_clock endpoints m h l tr s -> well_called tr ->
  tcp_sessions_safe config steady_clock system_clock endpoints m h tr s.
Proof. apply tcp_shard_safe. Qed.

(** C19: The number of connected sessions a shard reports is the number of its
    sessions that were told to start and have not closed; the pool reports its
    end once, when it has been shut down and the last of them has closed; and
    when the thread of the shard ends without being forced to, the pool was shut
    down, no session is live and none has an operation pending. *)
Theorem shard_counts_sessions {H : Type} `{HandlerLaws H} config steady_clock system_clock
    endpoints m (h : H) l tr s :
  setting_ok config m ShardMetrics.init h ->
  tcp_shard_run config steady_clock system_clock endpoints m h l tr s -> well_called tr ->
  let n := connected_sessions tr (sessions s) in
  SessionPool.active_sessions (pool s) = n /\
  SessionPool.notified (pool s) = (if SessionPool.closed_ (pool s) && (n =? 0)%Z then 1 else 0)%nat /\
  (Shard.run_returns (busy s) (shard s) = true -> Shard.stopped (shard s) = false ->
   SessionPool.closed_ (pool s) = true /\
   forall i w, sessions s !! i = Some w -> live w = false /\ pending w = []).
Proof.
  intros ok Hrun Hwc. cbv zeta.
  destruct (tcp_system_inv _ _ _ _ _ _ ok _ _ _ Hrun Hwc) as ([(h' & Hh & _ & Hr) _ _] & Hp & Hg & _).
  destruct (pool_run_count _ _ Hp) as (_ & Ha & Hn). split; [done|]. split; [done|].
  intros Hret Hst. destruct (ended _ _ Hg Hp Hret Hst) as [Hc Hs]. split; [done|].
  intros i w Hw. destruct (Hs i w Hw) as [Hpend Hcnt]. split; [|done].
  destruct (tcp_counts config steady_clock system_clock _ _ ok _ _ (Hr i w Hw) (proj2 (Hwc i)))
    as (Hd & Hl & Ht).
  change (disconnects (shared w) = (if started (of_session i tr) && negb (live w) then 1 else 0)%nat)
    in Hd. change (live w = true -> started (of_session i tr) = true) in Hl.
  destruct (live w); [|done]. rewrite Hl in Hd, Ht by done. unfold counted in Hcnt.
  by rewrite Ht, Hd in Hcnt.
Qed.

(** The same for a shard of UDP sessions: each has a history of its own, no
    completion of an operation fails, and the pool counts them. *)
Theorem udp_shard_sessions_safe {H : Type} `{HandlerLaws H} config steady_clock system_clock
    endpoints m (h : H) l tr s :
  udp_setting_ok config m ShardMetrics.init h ->
  udp_shard_run config steady_clock system_clock endpoints m h l tr s -> well_called tr ->
  exists h', Shard.message_handler_ (shard s) = Some h' /\
  (forall i w0, sessions s !! i = Some w0 ->
     let w := load s h' w0 in
     UDPSession.run config steady_clock system_clock (udp_session config m h)
       (of_session i tr) w /\
     (forall pre o post_ r,
        pending w = pre ++ o :: post_ ->
        (pool_op o = true -> Forall (fun o' => pool_op o' = false) pre) ->
        result_of UDPSession.transport_result w o r ->
        exists s', complete (UDPSession.run_op config steady_clock system_clock) i o
                     (pre ++ post_) r s = Ok s')) /\
  SessionPool.active_sessions (pool s) = connected_sessions tr (sessions s).
Proof.
  intros ok Hrun Hwc.
  destruct (udp_system_inv _ _ _ _ _ _ ok _ _ _ Hrun Hwc) as ([(h' & Hh & _ & Hr) _ _] & Hp & _ & _).
  exists h'. split; [done|]. split; [|by apply pool_run_count in Hp as (_ & ? & _)].
  intros i w Hw. specialize (Hr i w Hw). cbv zeta. split; [exact Hr|].
  intros pre o post_ r Hpend Hf Hres.
  destruct (udp_progress config steady_clock system_clock _ _ _ ok _ _ pre o post_ r Hr
              (proj2 (Hwc i)) Hpend Hf Hres) as (w' & Hop). by eapply complete_ok.
Qed.

(** ** Witnesses: two sessions that share their payloads *)

(** A history given step by step, checked and run by evaluation. *)
Inductive move {O : Type} : Type :=
| Submit (a : ActionDescriptor.t)
| StopShard
| Next
| Finish (i k : nat) (r : result).

Arguments move : clear implicits.

Section Play.
Context {X O H Endpoints : Type} `{MessageHandler H} `{PoolSession (Session.world X O H) Endpoints}.
Abbreviation system := (ShardSystem.t X O H).
Variable make_session : H -> Session.world X O H.
Variable endpoints : Endpoints.
Variable run_op : op O -> result -> Session.world X O H -> outcome (Session.world X O H).
Variable transport_result : Session.world X O H -> O -> list Z -> Prop.
Variable transport_check : Session.world X O H -> O -> list Z -> bool.
Hypothesis transport_check_sound : forall w o data,
  transport_check w o data = true -> transport_result w o data.

Definition action_check (a : ActionDescriptor.t) : bool :=
  (0 <=? ActionDescriptor.sessions_start a) &&
  (ActionDescriptor.sessions_start a <=? ActionDescriptor.sessions_end a) &&
  (ActionDescriptor.sessions_end a <? 2 ^ 32) &&
  (0 <=? ActionDescriptor.count a) && (ActionDescriptor.count a <? 2 ^ 32).

Definition submitted (l : list (move O)) : list ActionDescriptor.t :=
  omap (fun mv => match mv with Submit a => Some a | _ => None end) l.

Definition play_move (mv : move O) (tr : events) (s : system) : option (events * system) :=
  match mv with
  | Submit a =>
      if action_check a then Some (tr, set_shard (snd (Shard.submit_work a (shard s))) s) else None
  | StopShard => Some (tr, set_shard (Shard.stop (shard s)) s)
  | Next =>
      if Shard.stopped (shard s) then None
      else match run_next make_session endpoints s with
           | Ok s' => Some (tr ++ next_events s, s')
           | _ => None
           end
  | Finish i k r =>
      match sessions s !! i, Shard.message_handler_ (shard s) with
      | Some w, Some h =>
          match pending w !! k with
          | Some o =>
              let pre := take k (pending w) in
              if negb (Shard.stopped (shard s)) &&
                 (negb (pool_op o) || forallb (fun o' => negb (pool_op o')) pre) &&
                 result_check transport_check (load s h w) o r
              then match complete run_op i o (pre ++ drop (S k) (pending w)) r s with
                   | Ok s' => Some (tr ++ [(i, Ran o r)], s')
                   | _ => None
                   end
              else None
          | None => None
          end
      | _, _ => None
      end
  end.

Fixpoint play_shard (l : list (move O)) (tr : events) (s : system) : option (events * system) :=
  match l with
  | [] => Some (tr, s)
  | mv :: l =>
      match play_move mv tr s with
      | Some (tr, s) => play_shard l tr s
      | None => None
      end
  end.

Abbreviation run := (ShardSystem.run make_session endpoints run_op transport_result).

Lemma play_move_run s0 mv acts tr s tr' s' :
  run s0 acts tr s -> play_move mv tr s = Some (tr', s') ->
  run s0 (acts ++ submitted [mv]) tr' s'.
Proof.
  intros Hr. destruct mv as [a| | |i k r]; cbn [play_move submitted omap list_omap];
    rewrite ?app_nil_r.
  - destruct (action_check a) eqn:Ea; [|done]. intros [= <- <-]. apply ShardSystem.run_submit; [done|].
    unfold action_check in Ea. repeat (apply andb_true_iff in Ea as [Ea ?]). bool_to_Z.
    split_and!; lia.
  - intros [= <- <-]. by apply ShardSystem.run_stop.
  - destruct (Shard.stopped (shard s)) eqn:Es; [done|].
    destruct (run_next make_session endpoints s) as [s1| | |] eqn:En; try done. intros [= <- <-].
    by apply ShardSystem.run_handler.
  - destruct (sessions s !! i) as [w|] eqn:Ew; [|done].
    destruct (Shard.message_handler_ (shard s)) as [h|] eqn:Eh; [|done].
    destruct (pending w !! k) as [o|] eqn:Ek; [|done]. cbv zeta.
    destruct (_ && _) eqn:E; [|done].
    apply andb_true_iff in E as [E Er]. apply andb_true_iff in E as [Es Ef].
    apply negb_true_iff in Es.
    destruct (complete _ _ _ _ _ _) as [s1| | |] eqn:Ec; try done. intros [= <- <-].
    eapply ShardSystem.run_completion; [exact Hr | exact Es | exact Ew | exact Eh | | | | exact Ec].
    + symmetry. by apply take_drop_middle.
    + intros Ho. rewrite Ho in Ef. cbn in Ef. rewrite forallb_forall in Ef.
      apply List.Forall_forall. intros x Hx. by apply negb_true_iff, Ef.
    + by eapply result_check_sound.
Qed.

Lemma play_shard_run s0 l : forall acts tr s tr' s',
  run s0 acts tr s -> play_shard l tr s = Some (tr', s') -> run s0 (acts ++ submitted l) tr' s'.
Proof.
  induction l as [|mv l IH]; intros acts tr s tr' s' Hr; cbn [play_shard].
  - rewrite app_nil_r. by intros [= <- <-].
  - destruct (play_move mv tr s) as [[tr1 s1]|] eqn:E; [|done]. intros Hp.
    unfold submitted. rewrite (omap_app _ [mv] l), app_assoc.
    eapply IH; [|exact Hp]. by eapply play_move_run.
Qed.
End Play.

(** Both sessions connect and send the first payload; the first one disconnects,
    the second one loses its connection, and the shard is stopped. *)
Definition pair_config : SessionConfig.t := SessionConfig.mk 4 1024 false false 100.

Definition pair_moves : list (move TCPSession.tcp_op) :=
  [Submit (ActionDescriptor.mk ActionType.CREATE 0 2 2 0);
   Submit (ActionDescriptor.mk ActionType.CONNECT 0 2 0 0);
   Submit (ActionDescriptor.mk ActionType.SEND 0 2 1 0);
   Next; Next; Finish 0 0 (Success []); Finish 1 0 (Success []); Next;
   Finish 1 1 (Success []); Finish 1 0 (Success []); Finish 0 0 (Success []);
   Finish 0 0 (Success []); Finish 0 0 (Success [1; 7; 0]);
   Submit (ActionDescriptor.mk ActionType.DISCONNECT 0 1 0 0); Next; Finish 0 0 (Success []);
   Finish 1 0 Failed; StopShard; Next].

Definition pair_init : ShardSystem.t TCPSession.reader TCPSession.tcp_op NOPMessageHandler.t :=
  ShardSystem.init NOPMessageHandler.mk sample_manager.

Definition pair_play : option (events * ShardSystem.t _ _ _) :=
  play_shard (tcp_session pair_config sample_manager) []
    (TCPSession.run_op pair_config clock (fun _ => clock))
    (transport_check pair_config) pair_moves [] pair_init.

Definition pair_end : events * ShardSystem.t TCPSession.reader TCPSession.tcp_op NOPMessageHandler.t :=
  Eval vm_compute in default ([], pair_init) pair_play.

Lemma pair_setting :
  setting_ok pair_config sample_manager ShardMetrics.init NOPMessageHandler.mk.
Proof. destruct (sample_setting false false). by constructor. Qed.

Lemma pair_run :
  tcp_shard_run pair_config clock (fun _ => clock) [] sample_manager NOPMessageHandler.mk
    (submitted pair_moves) pair_end.1 pair_end.2.
Proof.
  apply (play_shard_run _ _ _ _ (transport_check pair_config) (transport_check_sound pair_config)
           _ pair_moves [] [] pair_init); [constructor | vm_compute; reflexivity].
Qed.

Lemma pair_called : well_called pair_end.1.
Proof.
  intros i. destruct i as [|[|i]]; (split; [|vm_compute; reflexivity]); cbn; intuition discriminate.
Qed.

Lemma shard_sessions_safe_witness :
  exists h', Shard.message_handler_ (shard pair_end.2) = Some h' /\
  forall i w0, sessions pair_end.2 !! i = Some w0 ->
    TCPSession.run pair_config clock (fun _ => clock)
      (tcp_session pair_config sample_manager NOPMessageHandler.mk) (of_session i pair_end.1)
      (load pair_end.2 h' w0).
Proof.
  destruct (shard_sessions_safe _ _ _ _ _ _ _ _ _ pair_setting pair_run pair_called)
    as (h' & Hh & Hs & _).
  exists h'. split; [exact Hh|]. intros i w0 Hw. exact (proj1 (Hs i w0 Hw)).
Defined.

Lemma shard_counts_sessions_witness :
  SessionPool.notified (pool pair_end.2) = 1%nat /\
  SessionPool.closed_ (pool pair_end.2) = true.
Proof.
  destruct (shard_counts_sessions _ _ _ _ _ _ _ _ _ pair_setting pair_run pair_called)
    as (_ & Hn & Hr).
  split; [etransitivity; [exact Hn | vm_compute; reflexivity]|].
  apply Hr; vm_compute; reflexivity.
Defined.
