(* ===== verification/Orchestrator.v ===== *)
(** * The orchestrator (src/orchestrator/orchestrator.h)

    The orchestrator owns the shards, splits the sessions among them, hands out
    the actions of the plan when they are due and gathers the metrics.  Times
    are nanoseconds of the steady clock; its handlers run one after the other on
    the thread of its io_context, the callbacks of the shards on theirs. *)

From S2P Require Import Prelude Script ExecutionPlan Metrics SessionPool Shard.

Module Orchestrator.

Definition DEFAULT_METRICS_INTERVAL_MS : Z := 500.

(** [current_action_indx_] stands for the position in [actions_]; [warnings]
    counts the log messages about sessions not distributed and work not
    submitted. *)
Record t (Sess H : Type) : Type := mk {
  actions_ : list ActionDescriptor.t;
  current_action_indx_ : nat;
  shards_ : list (Shard.t Sess H);
  shard_ranges_ : list (Z * Z);
  startup_time_ : Z;
  dispatch_timer_ : option Z;
  metrics_timer_ : bool;
  active_shards_ : Z;
  shutdown_ : bool;
  pending_metric_pulls_ : Z;
  work_guard_ : bool;
  warnings : nat
}.

Arguments mk {Sess H}.
Arguments actions_ {Sess H}.
Arguments current_action_indx_ {Sess H}.
Arguments shards_ {Sess H}.
Arguments shard_ranges_ {Sess H}.
Arguments startup_time_ {Sess H}.
Arguments dispatch_timer_ {Sess H}.
Arguments metrics_timer_ {Sess H}.
Arguments active_shards_ {Sess H}.
Arguments shutdown_ {Sess H}.
Arguments pending_metric_pulls_ {Sess H}.
Arguments work_guard_ {Sess H}.
Arguments warnings {Sess H}.

Section Orchestrator.
Context {Sess H : Type}.

Abbreviation orchestrator := (t Sess H).
Abbreviation shard := (Shard.t Sess H).

(** ** Assignments *)

Definition set_index (i : nat) (o : orchestrator) : orchestrator :=
  mk (actions_ o) i (shards_ o) (shard_ranges_ o) (startup_time_ o) (dispatch_timer_ o)
    (metrics_timer_ o) (active_shards_ o) (shutdown_ o) (pending_metric_pulls_ o)
    (work_guard_ o) (warnings o).
Definition set_shards (l : list shard) (o : orchestrator) : orchestrator :=
  mk (actions_ o) (current_action_indx_ o) l (shard_ranges_ o) (startup_time_ o)
    (dispatch_timer_ o) (metrics_timer_ o) (active_shards_ o) (shutdown_ o)
    (pending_metric_pulls_ o) (work_guard_ o) (warnings o).
Definition set_ranges (l : list (Z * Z)) (o : orchestrator) : orchestrator :=
  mk (actions_ o) (current_action_indx_ o) (shards_ o) l (startup_time_ o)
    (dispatch_timer_ o) (metrics_timer_ o) (active_shards_ o) (shutdown_ o)
    (pending_metric_pulls_ o) (work_guard_ o) (warnings o).
Definition set_timers (startup : Z) (dispatch : option Z) (metrics : bool)
    (o : orchestrator) : orchestrator :=
  mk (actions_ o) (current_action_indx_ o) (shards_ o) (shard_ranges_ o) startup dispatch
    metrics (active_shards_ o) (shutdown_ o) (pending_metric_pulls_ o) (work_guard_ o)
    (warnings o).
Definition set_counts (active pulls : Z) (o : orchestrator) : orchestrator :=
  mk (actions_ o) (current_action_indx_ o) (shards_ o) (shard_ranges_ o) (startup_time_ o)
    (dispatch_timer_ o) (metrics_timer_ o) active (shutdown_ o) pulls (work_guard_ o)
    (warnings o).
Definition set_ends (shut guard : bool) (o : orchestrator) : orchestrator :=
  mk (actions_ o) (current_action_indx_ o) (shards_ o) (shard_ranges_ o) (startup_time_ o)
    (dispatch_timer_ o) (metrics_timer_ o) (active_shards_ o) shut
    (pending_metric_pulls_ o) guard (warnings o).
Definition warn (o : orchestrator) : orchestrator :=
  mk (actions_ o) (current_action_indx_ o) (shards_ o) (shard_ranges_ o) (startup_time_ o)
    (dispatch_timer_ o) (metrics_timer_ o) (active_shards_ o) (shutdown_ o)
    (pending_metric_pulls_ o) (work_guard_ o) (S (warnings o)).

(** ** Construction *)

(** The lists of metrics only reserve memory; [actions_.back()] needs an action. *)
Definition init (actions : list ActionDescriptor.t) (shard_count : Z) : outcome orchestrator :=
  match actions with
  | [] => Undef
  | _ =>
      Ok (mk actions 0 (replicate (Z.to_nat shard_count) Shard.init) [] 0 None false
            shard_count false 0 true 0)
  end.

(** ** Splitting the sessions *)

(** The loop over the shards, from [i] on: [n] iterations. *)
Fixpoint split_ranges (n : nat) (i s_split_base s_split_rem start : Z) : list (Z * Z) :=
  match n with
  | 0%nat => []
  | S n =>
      let rem_distributed := if i <? s_split_rem then 1 else 0 in
      let count := u32 (s_split_base + rem_distributed) in
      let end_ := u32 (start + count) in
      (start, end_) :: split_ranges n (i + 1) s_split_base s_split_rem end_
  end.

(** The ranges for [N] sessions over [K] shards; a division by zero is
    undefined. *)
Definition compute_ranges (N K : Z) : outcome (list (Z * Z)) :=
  if K =? 0 then Undef
  else Ok (split_ranges (Z.to_nat K) 0 (N / K) (N mod K) 0).

(** Where the last range ends. *)
Definition ranges_end (l : list (Z * Z)) : Z :=
  fold_left (fun _ r => snd r) l 0.

(** The part of an action for a shard with the range [r], if there is one. *)
Definition shard_action (action : ActionDescriptor.t) (r : Z * Z) : option ActionDescriptor.t :=
  let intersect_lower := Z.max (ActionDescriptor.sessions_start action) (fst r) in
  let intersect_upper := Z.min (ActionDescriptor.sessions_end action) (snd r) in
  if intersect_lower >=? intersect_upper then None
  else
    let local_start := u32 (intersect_lower - fst r) in
    let session_count := u32 (intersect_upper - intersect_lower) in
    Some (ActionDescriptor.mk (ActionDescriptor.type action) local_start
            (u32 (local_start + session_count)) (ActionDescriptor.count action)
            (ActionDescriptor.offset action)).

(** The loop that submits the parts to the shards, from the shard [k] on. *)
Fixpoint submit_parts (action : ActionDescriptor.t) (shards : list shard)
    (ranges : list (Z * Z)) : outcome (list shard * nat) :=
  match shards with
  | [] => Ok ([], 0%nat)
  | s :: shards =>
      match ranges with
      | [] => Undef
      | r :: ranges =>
          let '(failed, s) :=
            match shard_action action r with
            | None => (0%nat, s)
            | Some part =>
                let '(success, s) := Shard.submit_work part s in
                ((if success then 0 else 1)%nat, s)
            end in
          let! (rest, failures) := submit_parts action shards ranges in
          Ok (s :: rest, (failed + failures)%nat)
      end
  end.

Definition distribute_action_to_shards (action : ActionDescriptor.t) (o : orchestrator)
  : outcome orchestrator :=
  let! o :=
    match ActionDescriptor.type action with
    | ActionType.CREATE =>
        let! ranges := compute_ranges (ActionDescriptor.count action)
                         (u32 (Z.of_nat (length (shards_ o)))) in
        let o := set_ranges ranges o in
        Ok (if negb (ranges_end ranges =? ActionDescriptor.count action) then warn o else o)
    | _ => Ok o
    end in
  let! (shards, failures) := submit_parts action (shards_ o) (shard_ranges_ o) in
  Ok (Nat.iter failures warn (set_shards shards o)).

(** ** Dispatching *)

(** The time an action is due at. *)
Definition target_time (o : orchestrator) (action : ActionDescriptor.t) : Z :=
  startup_time_ o + ActionDescriptor.offset action * 1000000.

Definition schedule_next_action (deadline : Z) (o : orchestrator) : orchestrator :=
  set_timers (startup_time_ o) (Some deadline) (metrics_timer_ o) o.

Definition do_shutdown (o : orchestrator) : orchestrator :=
  if shutdown_ o then o
  else
    let o := set_ends true (work_guard_ o) o in
    let o := set_timers (startup_time_ o) None false o in
    set_shards (map Shard.stop (shards_ o)) o.

(** The loop of [dispatch_pending_actions] over the actions left, at the time
    [now]. *)
Fixpoint dispatch_loop (now : Z) (left_ : list ActionDescriptor.t) (o : orchestrator)
  : outcome orchestrator :=
  match left_ with
  | [] => Ok (do_shutdown o)
  | action :: left_ =>
      if target_time o action >? now
      then Ok (schedule_next_action (target_time o action) o)
      else
        let! o := distribute_action_to_shards action o in
        dispatch_loop now left_ (set_index (S (current_action_indx_ o)) o)
  end.

Definition dispatch_pending_actions (now : Z) (o : orchestrator) : outcome orchestrator :=
  dispatch_loop now (drop (current_action_indx_ o) (actions_ o)) o.

(** The dispatch timer ends at the time [now], or was cancelled. *)
Definition dispatch_timer_fired (now : Z) (o : orchestrator) : outcome orchestrator :=
  match dispatch_timer_ o with
  | None => Ok o
  | Some _ =>
      dispatch_pending_actions now
        (set_timers (startup_time_ o) None (metrics_timer_ o) o)
  end.

(** ** Metrics *)

Definition schedule_metrics_snapshot (o : orchestrator) : orchestrator :=
  set_timers (startup_time_ o) (dispatch_timer_ o) true o.

Definition do_request_metrics (o : orchestrator) : orchestrator :=
  let o := set_counts (active_shards_ o) (Z.of_nat (length (shards_ o))) o in
  set_shards (map Shard.schedule_metrics_pull (shards_ o)) o.

(** Whether [on_metrics_round_complete] is posted. *)
Definition shard_metrics_callback (o : orchestrator) : bool * orchestrator :=
  let remaining := u64 (pending_metric_pulls_ o - 1) in
  (remaining =? 0, set_counts (active_shards_ o) remaining o).

(** What [metrics_sink_] is given: the totals, the changes and the time. *)
Definition on_metrics_round_complete (now : Z) (o : orchestrator)
  : outcome (MetricsSnapshot.t * MetricsDelta.t * Z * orchestrator) :=
  let! (current, change) :=
    OrchestratorMetrics.get_aggregate_delta (map Shard.history (shards_ o)) in
  Ok (current, change, now - startup_time_ o, schedule_metrics_snapshot o).

(** ** Starting and stopping *)

(** [start] until its context runs: all shards are started, the first dispatch
    is posted and the metrics timer is armed. *)
Definition start (now : Z) (o : orchestrator) : orchestrator :=
  let o := set_shards (map (fun s => snd (Shard.start s)) (shards_ o)) o in
  let o := set_timers now (dispatch_timer_ o) (metrics_timer_ o) o in
  schedule_metrics_snapshot o.

Definition early_stop (o : orchestrator) : orchestrator := do_shutdown o.

(** A shard is closed; the handler the last one posts. *)
Definition shard_exit_callback (o : orchestrator) : bool * orchestrator :=
  let remaining := u64 (active_shards_ o - 1) in
  (remaining =? 0, set_counts remaining (pending_metric_pulls_ o) o).

Definition last_shard_closed (o : orchestrator) : orchestrator :=
  set_timers (startup_time_ o) None (metrics_timer_ o) (set_ends (shutdown_ o) false o).

End Orchestrator.
End Orchestrator.
