(* ===== verification/OrchestratorProps.v ===== *)
(** * Theorems on the orchestrator

    The ranges of the shards partition the sessions, and the parts of an action
    for the shards are those of its range. *)

From S2P Require Import Prelude Script ExecutionPlan SessionPool SessionPoolProps Shard Orchestrator.
Import Orchestrator.

(** ** The split of the sessions *)

(** The ranges follow each other from [s] to [e]. *)
Fixpoint chained (s : Z) (l : list (Z * Z)) (e : Z) : Prop :=
  match l with
  | [] => s = e
  | r :: l => fst r = s /\ s <= snd r /\ chained (snd r) l e
  end.

Lemma chained_le s l e : chained s l e -> s <= e.
Proof.
  revert s. induction l as [|r l IH]; intros s; cbn; [lia|].
  intros (_ & H1 & H2%IH). lia.
Qed.

Lemma chained_end l : forall s e acc,
  chained s l e -> l <> [] -> fold_left (fun _ r => snd r) l acc = e.
Proof.
  induction l as [|r l IH]; intros s e acc; [done|]. intros (_ & _ & H) _. cbn [fold_left].
  destruct l as [|r' l]; [done | by apply (IH (snd r))].
Qed.

Lemma chained_within s l e : chained s l e -> Forall (fun r => s <= fst r /\ fst r <= snd r <= e) l.
Proof.
  revert s. induction l as [|r l IH]; intros s; [constructor|].
  intros (H1 & H2 & H3). pose proof (chained_le _ _ _ H3). constructor; [lia|].
  apply IH in H3. eapply Forall_impl; [|exact H3]. cbn. lia.
Qed.

Lemma length_split_ranges n : forall i b r s, length (split_ranges n i b r s) = n.
Proof. induction n as [|n IH]; intros; cbn; [done | by rewrite IH]. Qed.

(** What the loop gives from the shard [i] on, as long as nothing wraps. *)
Lemma split_ranges_spec n : forall i base rem start,
  0 <= base -> 0 <= i -> 0 <= start ->
  let end_ := start + Z.of_nat n * base + (Z.min (i + Z.of_nat n) rem - Z.min i rem) in
  end_ < 2 ^ 32 ->
  chained start (split_ranges n i base rem start) end_ /\
  Forall (fun r => base <= snd r - fst r <= base + 1) (split_ranges n i base rem start).
Proof.
  induction n as [|n IH]; intros i base rem start Hb Hi Hs end_ He; subst end_.
  - cbn. split; [lia | constructor].
  - rewrite Nat2Z.inj_succ in *. cbn [split_ranges].
    set (one := if i <? rem then 1 else 0).
    assert (H1 : 0 <= one <= 1 /\ one = Z.min (i + 1) rem - Z.min i rem).
    { subst one. destruct (Z.ltb_spec i rem); lia. }
    assert (Hn : 0 <= Z.of_nat n * base) by (apply Z.mul_nonneg_nonneg; lia).
    rewrite (u32_small (base + one)), (u32_small (start + _)) by lia.
    destruct (IH (i + 1) base rem (start + (base + one))) as [Hc Hf]; [lia | lia | lia | lia |].
    split.
    + cbn. split_and!; [done | lia|]. eapply eq_rect; [exact Hc | lia].
    + constructor; [cbn; lia | done].
Qed.

Lemma compute_ranges_spec N K :
  0 <= N < 2 ^ 32 -> 0 < K ->
  exists ranges,
    compute_ranges N K = Ok ranges /\ length ranges = Z.to_nat K /\ chained 0 ranges N /\
    Forall (fun r => N / K <= snd r - fst r <= N / K + 1) ranges.
Proof.
  intros HN HK. unfold compute_ranges. destruct (Z.eqb_spec K 0); [lia|].
  eexists. split; [done|]. rewrite length_split_ranges. split; [done|].
  pose proof (Z.div_mod N K ltac:(lia)). pose proof (Z.mod_pos_bound N K ltac:(lia)).
  assert (0 <= N / K) by (apply Z.div_pos; lia).
  assert (HE : 0 + Z.of_nat (Z.to_nat K) * (N / K)
               + (Z.min (0 + Z.of_nat (Z.to_nat K)) (N mod K) - Z.min 0 (N mod K)) = N).
  { rewrite Z2Nat.id by lia. rewrite Z.min_r, Z.min_l by lia. lia. }
  pose proof (split_ranges_spec (Z.to_nat K) 0 (N / K) (N mod K) 0) as Hs. cbv zeta in Hs.
  rewrite HE in Hs. apply Hs; lia.
Qed.

(** ** The parts of an action *)

(** The sessions of the whole test an action reaches through the shard with the
    range [r], in the order it reaches them. *)
Definition targets (action : ActionDescriptor.t) (r : Z * Z) : list Z :=
  match shard_action action r with
  | None => []
  | Some part =>
      seqZ (fst r + ActionDescriptor.sessions_start part)
        (ActionDescriptor.sessions_end part - ActionDescriptor.sessions_start part)
  end.

Lemma shard_action_spec action r :
  0 <= fst r -> snd r < 2 ^ 32 ->
  let a := Z.max (ActionDescriptor.sessions_start action) (fst r) in
  let b := Z.min (ActionDescriptor.sessions_end action) (snd r) in
  shard_action action r
  = if a <? b then
      Some (ActionDescriptor.mk (ActionDescriptor.type action) (a - fst r) (b - fst r)
              (ActionDescriptor.count action) (ActionDescriptor.offset action))
    else None.
Proof.
  intros Hr1 Hr2 a b. unfold shard_action. fold a b. cbv zeta. rewrite Z.geb_leb, Z.leb_antisym.
  destruct (Z.ltb_spec a b) as [Hab|Hab]; [|done]. cbn [negb].
  assert (fst r <= a) by lia. assert (b <= snd r) by lia.
  rewrite (u32_small (a - fst r)), (u32_small (b - a)), u32_small by lia.
  do 2 f_equal. lia.
Qed.

Lemma seqZ_join a m b : a <= m <= b -> seqZ a (m - a) ++ seqZ m (b - m) = seqZ a (b - a).
Proof.
  intros H. replace (b - a) with ((m - a) + (b - m)) by lia. rewrite seqZ_app by lia.
  by rewrite Zplus_minus.
Qed.

Lemma targets_chained action l : forall s e,
  0 <= s -> e < 2 ^ 32 -> chained s l e ->
  flat_map (targets action) l
  = seqZ (Z.max (ActionDescriptor.sessions_start action) s)
      (Z.min (ActionDescriptor.sessions_end action) e
       - Z.max (ActionDescriptor.sessions_start action) s).
Proof.
  induction l as [|[s' m] l IH]; intros s e Hs He; cbn [chained flat_map fst snd].
  - intros <-. rewrite seqZ_nil by lia. done.
  - intros (-> & Hm & Hc). pose proof (chained_le _ _ _ Hc).
    rewrite (IH m e) by (done || lia). unfold targets. rewrite shard_action_spec by (cbn; lia).
    cbn [fst snd]. set (a := ActionDescriptor.sessions_start action).
    set (b := ActionDescriptor.sessions_end action).
    destruct (Z.ltb_spec (Z.max a s) (Z.min b m)) as [Hlt|Hlt].
    + cbn [ActionDescriptor.sessions_start ActionDescriptor.sessions_end].
      replace (s + (Z.max a s - s)) with (Z.max a s) by lia.
      replace (Z.min b m - s - (Z.max a s - s)) with (Z.min b m - Z.max a s) by lia.
      destruct (Z.le_gt_cases b m).
      * rewrite (seqZ_nil (Z.max a m)) by lia. rewrite app_nil_r. f_equal. lia.
      * replace (Z.min b m) with m by lia. replace (Z.max a m) with m by lia.
        apply seqZ_join. lia.
    + destruct (Z.le_gt_cases m (Z.max a s)).
      * replace (Z.max a m) with (Z.max a s) by lia. done.
      * rewrite !seqZ_nil by lia. done.
Qed.

(** C8: Splitting N sessions over K shards gives every shard N/K or one more of
    them, and splitting an action along the ranges reaches exactly the sessions
    it names, each once and in order, with no position outside the shard. *)
Theorem distribution_partition N K :
  0 <= N < 2 ^ 32 -> 0 < K ->
  exists ranges,
    compute_ranges N K = Ok ranges /\ length ranges = Z.to_nat K /\ ranges_end ranges = N /\
    Forall (fun r => N / K <= snd r - fst r <= N / K + 1) ranges /\
    forall action,
      0 <= ActionDescriptor.sessions_start action ->
      ActionDescriptor.sessions_end action <= N ->
      flat_map (targets action) ranges
      = seqZ (ActionDescriptor.sessions_start action)
          (ActionDescriptor.sessions_end action - ActionDescriptor.sessions_start action) /\
      forall r part, In r ranges -> shard_action action r = Some part ->
        0 <= ActionDescriptor.sessions_start part < ActionDescriptor.sessions_end part /\
        ActionDescriptor.sessions_end part <= snd r - fst r.
Proof.
  intros HN HK. destruct (compute_ranges_spec N K HN HK) as (ranges & Hr & Hl & Hc & Hf).
  exists ranges. split_and!; [done | done | | done |].
  - unfold ranges_end. apply (chained_end _ 0); [done|]. intros ->. cbn in Hl. lia.
  - intros action Ha Hb. split.
    + rewrite (targets_chained action ranges 0 N) by (done || lia). f_equal; lia.
    + intros r part Hin Hp. pose proof (chained_within _ _ _ Hc) as Hw.
      rewrite List.Forall_forall in Hw. specialize (Hw r Hin).
      rewrite shard_action_spec in Hp by lia. destruct (Z.ltb_spec
        (Z.max (ActionDescriptor.sessions_start action) (fst r))
        (Z.min (ActionDescriptor.sessions_end action) (snd r))); [|done].
      injection Hp as <-. cbn. lia.
Qed.

(** ** Counting callbacks *)

(** [n] calls of a callback, with what each of them returned. *)
Fixpoint calls {A} (f : A -> bool * A) (n : nat) (a : A) : list bool * A :=
  match n with
  | 0%nat => ([], a)
  | S n =>
      let '(last, a) := f a in
      let '(flags, a) := calls f n a in
      (last :: flags, a)
  end.

Lemma calls_countdown {A} (f : A -> bool * A) (counter : A -> Z) :
  (forall a, f a = (u64 (counter a - 1) =? 0, (f a).2) /\
             counter (f a).2 = u64 (counter a - 1)) ->
  forall n a, counter a = Z.of_nat (S n) -> Z.of_nat (S n) < 2 ^ 64 ->
    (calls f (S n) a).1 = replicate n false ++ [true] /\ counter (calls f (S n) a).2 = 0.
Proof.
  intros Hf. induction n as [|n IH]; intros a Ha Hn; destruct (Hf a) as [E Ec].
  - cbn [calls]. rewrite E, Ha. cbn. by rewrite Ec, Ha.
  - change (calls f (S (S n)) a) with
      (let '(last, a) := f a in let '(flags, a) := calls f (S n) a in (last :: flags, a)).
    rewrite E. rewrite Ha, u64_small in Ec |- * by lia.
    destruct (IH (f a).2) as [H1 H2]; [lia | lia|].
    destruct (calls f (S n) (f a).2) as [flags a']. cbn [fst snd] in *. rewrite H1. split; [|done].
    cbn. f_equal. apply Z.eqb_neq. lia.
Qed.

(** A round of metrics asks every shard for a snapshot, and of the callbacks
    of the shards exactly the last one completes the round; in the same way the
    last shard to close, and none before it, lets the orchestrator go. *)
Theorem last_callback_completes {Sess H : Type} (o : Orchestrator.t Sess H) n :
  length (shards_ o) = S n -> Z.of_nat (S n) < 2 ^ 64 ->
  Forall2 (fun s s' => Shard.posted s' = Shard.posted s ++ [Shard.RecordMetrics])
    (shards_ o) (shards_ (do_request_metrics o)) /\
  (calls shard_metrics_callback (S n) (do_request_metrics o)).1 = replicate n false ++ [true] /\
  (active_shards_ o = Z.of_nat (S n) ->
   (calls shard_exit_callback (S n) o).1 = replicate n false ++ [true]).
Proof.
  intros Hl Hn. split_and!.
  - cbn. clear. induction (shards_ o); by constructor.
  - apply (calls_countdown _ pending_metric_pulls_); [done | cbn; by rewrite Hl | done].
  - intros Ha. by apply (calls_countdown _ active_shards_).
Qed.

Definition sample_action : ActionDescriptor.t :=
  ActionDescriptor.mk ActionType.SEND 1 9 3 0.

Lemma distribution_partition_witness :
  exists ranges, compute_ranges 10 3 = Ok ranges /\
    flat_map (targets sample_action) ranges = [1; 2; 3; 4; 5; 6; 7; 8].
Proof.
  destruct (distribution_partition 10 3) as (ranges & H1 & _ & _ & _ & H2); [lia | lia |].
  exists ranges. split; [exact H1|]. destruct (H2 sample_action) as [H3 _]; [cbn; lia | cbn; lia |].
  exact H3.
Defined.

Lemma last_callback_completes_witness :
  (calls shard_metrics_callback 2
     (do_request_metrics (mk (Sess := unit) (H := unit) [] 0 (replicate 2 Shard.init) [] 0 None
                            false 2 false 0 true 0))).1 = [false; true].
Proof.
  destruct (last_callback_completes (mk (Sess := unit) (H := unit) [] 0
              (replicate 2 Shard.init) [] 0 None false 2 false 0 true 0) 1) as (_ & E & _);
    [done | lia | exact E].
Defined.
