(* ===== verification/OrchestratorRun.v ===== *)
(** * A whole test: the orchestrator, its shards and their pools

    The actions of a plan are split along the shards and run by each of them on
    its own sessions; together this is what one pool with all the sessions would
    do.  The dispatch loop hands every action out once, in order and when it is
    due. *)

From S2P Require Import Prelude Script ExecutionPlan SessionPool SessionPoolProps Shard Orchestrator.
From S2P Require Import OrchestratorProps.
Import Orchestrator.

(** ** One shard *)

Section Run.
Context {Sess Endpoints H : Type} `{PoolSession Sess Endpoints}.
Variable handler : H.
Variable make_session : H -> Sess.
Variable endpoints : Endpoints.

Abbreviation action := ActionDescriptor.t.
Abbreviation run_tasks := (Shard.run_tasks make_session endpoints).

(** What an action does to each session it names. *)
Definition act (a : action) : Sess -> Sess :=
  match ActionDescriptor.type a with
  | ActionType.CREATE => fun s => s
  | ActionType.CONNECT => SessionPool.start endpoints
  | ActionType.SEND => SessionPool.send (ActionDescriptor.count a)
  | ActionType.FLOOD => SessionPool.flood
  | ActionType.DRAIN => SessionPool.drain
  | ActionType.DISCONNECT => SessionPool.stop
  end.

(** The actions on a list of sessions whose first one has the index [d]. *)
Definition act_all (d : Z) (l : list action) (sessions : list Sess) : list Sess :=
  fold_left
    (fun sessions a =>
       on_positions (act a) (ActionDescriptor.sessions_start a - d)
         (ActionDescriptor.sessions_end a - d) sessions)
    l sessions.

Lemma length_act_all d l : forall sessions, length (act_all d l sessions) = length sessions.
Proof.
  induction l as [|a l IH]; intros sessions; [done|].
  etransitivity; [apply IH | apply length_on_positions].
Qed.

Lemma act_all_app d l : forall s1 s2,
  act_all d l (s1 ++ s2) = act_all d l s1 ++ act_all (d + Z.of_nat (length s1)) l s2.
Proof.
  induction l as [|a l IH]; intros s1 s2; [done|]. cbn. rewrite on_positions_app.
  unfold act_all in IH. rewrite IH, length_on_positions. f_equal. f_equal. f_equal; lia.
Qed.

(** A pool that passes its actions on. *)
Definition open_pool (s : Shard.t Sess H) (n : Z) : Prop :=
  Shard.stopped s = false /\ SessionPool.closed_ (Shard.session_pool_ s) = false /\
  Z.of_nat (length (SessionPool.sessions_ (Shard.session_pool_ s))) = n.

Abbreviation sessions_of s := (SessionPool.sessions_ (Shard.session_pool_ s)).

Lemma handle_part (a part : action) r (s : Shard.t Sess H) :
  ActionDescriptor.type a <> ActionType.CREATE ->
  0 <= fst r -> snd r < 2 ^ 32 -> shard_action a r = Some part -> open_pool s (snd r - fst r) ->
  exists s', Shard.handle_action make_session endpoints part s = Ok s' /\
    open_pool s' (snd r - fst r) /\
    sessions_of s' = act_all (fst r) [a] (sessions_of s).
Proof.
  intros Ht Hr1 Hr2 Hp (Hst & Hcl & Hn). rewrite shard_action_spec in Hp by done.
  destruct (Z.ltb_spec (Z.max (ActionDescriptor.sessions_start a) (fst r))
                       (Z.min (ActionDescriptor.sessions_end a) (snd r))) as [Hlt|]; [|done].
  injection Hp as <-. unfold Shard.handle_action. cbn [ActionDescriptor.type
    ActionDescriptor.sessions_start ActionDescriptor.sessions_end ActionDescriptor.count].
  set (x := Z.max _ _ - fst r). set (y := Z.min _ _ - fst r). cbn [act_all fold_left].
  rewrite (on_positions_clip (act a) _ _ x y) by (intros; subst x y; lia).
  unfold act; unfold_calls. rewrite Hcl.
  destruct (ActionDescriptor.type a); try done;
    (rewrite on_range_spec by (cbn; subst x y; lia); cbn [obind]; eexists; split; [done|];
     split; [split_and!; [done | done | cbn; by rewrite length_on_positions] | done]).
Qed.

(** The part of each action for the range [r]. *)
Definition parts (l : list action) (r : Z * Z) : list Shard.task :=
  map Shard.HandleAction (omap (fun a => shard_action a r) l).

Lemma parts_app l1 l2 r : parts (l1 ++ l2) r = parts l1 r ++ parts l2 r.
Proof. unfold parts. by rewrite omap_app, map_app. Qed.

Lemma no_part a r sessions :
  0 <= fst r -> snd r < 2 ^ 32 -> shard_action a r = None ->
  Z.of_nat (length sessions) = snd r - fst r -> act_all (fst r) [a] sessions = sessions.
Proof.
  intros Hr1 Hr2 Hp Hn. rewrite shard_action_spec in Hp by done.
  destruct (Z.ltb_spec (Z.max (ActionDescriptor.sessions_start a) (fst r))
                       (Z.min (ActionDescriptor.sessions_end a) (snd r))) as [|Hge]; [done|].
  cbn. rewrite (on_positions_clip _ _ _ 0 0) by (intros; lia). by apply on_positions_none.
Qed.

Lemma run_parts (l : list action) r more : forall s,
  Forall (fun a => ActionDescriptor.type a <> ActionType.CREATE) l ->
  0 <= fst r -> snd r < 2 ^ 32 -> open_pool s (snd r - fst r) ->
  exists s', run_tasks (parts l r ++ more) s = run_tasks more s' /\
    open_pool s' (snd r - fst r) /\ sessions_of s' = act_all (fst r) l (sessions_of s).
Proof.
  induction l as [|a l IH]; intros s Hl Hr1 Hr2 Hs; [by exists s|].
  apply List.Forall_cons_iff in Hl as [Ha Hl]. unfold parts. cbn [omap list_omap].
  destruct (shard_action a r) as [part|] eqn:Ep.
  - destruct (handle_part a part r s Ha Hr1 Hr2 Ep Hs) as (s1 & E1 & Hs1 & Es1).
    destruct (IH s1 Hl Hr1 Hr2 Hs1) as (s2 & E2 & Hs2 & Es2).
    exists s2. split; [|split; [done|]].
    + cbn. destruct Hs as [-> _]. rewrite E1. apply E2.
    + by rewrite Es2, Es1.
  - destruct (IH s Hl Hr1 Hr2 Hs) as (s2 & E2 & Hs2 & Es2). exists s2. split_and!; [done | done|].
    rewrite Es2. change (act_all (fst r) (a :: l)) with
      (fun x => act_all (fst r) l (act_all (fst r) [a] x)). cbv beta.
    by rewrite no_part by (done || apply Hs).
Qed.

(** ** A shard from its thread's entry to the shutdown *)

(** A shard started by the orchestrator that was sent the parts of [l]. *)
Definition shard_for (l : list action) (r : Z * Z) : Shard.t Sess H :=
  Shard.set_posted (parts l r) (Shard.set_running true Shard.init).

(** The action creates the sessions from 0 to [N]. *)
Definition creates (a : action) (N : Z) : Prop :=
  ActionDescriptor.type a = ActionType.CREATE /\ ActionDescriptor.sessions_start a = 0 /\
  ActionDescriptor.sessions_end a = N /\ ActionDescriptor.count a = N.

Lemma run_create create N r l more :
  creates create N -> 0 <= fst r <= snd r -> snd r <= N -> N < 2 ^ 32 ->
  exists s', run_tasks (parts [create] r ++ more)
               (Shard.set_posted [] (Shard.thread_entry (Some handler) (Shard.stop (shard_for l r))))
             = run_tasks more s' /\
    open_pool s' (snd r - fst r) /\
    sessions_of s' = replicate (Z.to_nat (snd r - fst r)) (make_session handler).
Proof.
  intros (Ht & Hstart & HN & Hc) Hr1 Hr2 Hlt. unfold parts. cbn [omap list_omap].
  rewrite shard_action_spec by lia. rewrite Hstart, HN, Ht, Z.max_r, Z.min_r by lia.
  destruct (Z.ltb_spec (fst r) (snd r)) as [Hr|Hr].
  - cbn. rewrite u32_small by lia. eexists. split; [done|].
    rewrite Z.sub_diag, Z.sub_0_r. split; [|done]. split_and!; [done | done|].
    cbn. rewrite length_replicate. lia.
  - eexists. split; [done|]. replace (snd r - fst r) with 0 by lia. done.
Qed.

Lemma run_shutdown (s : Shard.t Sess H) n :
  open_pool s n -> exists s', run_tasks [Shard.Shutdown] s = Ok s' /\
    sessions_of s' = sessions_of s.
Proof.
  intros (Hst & _). cbn. rewrite Hst, shutdown_spec. cbn. unfold Shard.return_pool.
  eexists. split; [done|].
  destruct (SessionPool.closed_ _); [|destruct (_ =? 0)]; destruct (negb _); done.
Qed.

Lemma run_shard create rest N r :
  creates create N -> Forall (fun a => ActionDescriptor.type a <> ActionType.CREATE) rest ->
  0 <= fst r <= snd r -> snd r <= N -> N < 2 ^ 32 ->
  exists s', Shard.run (Some handler) make_session endpoints
               (Shard.stop (shard_for (create :: rest) r)) = Ok s' /\
    sessions_of s'
    = act_all (fst r) rest (replicate (Z.to_nat (snd r - fst r)) (make_session handler)).
Proof.
  intros Hc Hf Hr1 Hr2 Hlt. unfold Shard.run.
  change (Shard.posted _) with (parts ([create] ++ rest) r ++ [Shard.Shutdown]).
  rewrite parts_app, <- app_assoc.
  destruct (run_create create N r (create :: rest) (parts rest r ++ [Shard.Shutdown]) Hc Hr1 Hr2 Hlt)
    as (s1 & E1 & Ho1 & Es1).
  destruct (run_parts rest r [Shard.Shutdown] s1 Hf) as (s2 & E2 & Ho2 & Es2);
    [lia | lia | done|].
  destruct (run_shutdown s2 _ Ho2) as (s3 & E3 & Es3).
  exists s3. split; [|by rewrite Es3, Es2, Es1].
  rewrite <- E3, <- E2, <- E1. done.
Qed.

(** All shards run. *)
Fixpoint run_shards (l : list (Shard.t Sess H)) : outcome (list (Shard.t Sess H)) :=
  match l with
  | [] => Ok []
  | s :: l =>
      let! s := Shard.run (Some handler) make_session endpoints s in
      let! l := run_shards l in
      Ok (s :: l)
  end.

Definition all_sessions (l : list (Shard.t Sess H)) : list Sess :=
  flat_map (fun s => sessions_of s) l.

Lemma run_shards_spec create rest N ranges : forall s,
  creates create N -> Forall (fun a => ActionDescriptor.type a <> ActionType.CREATE) rest ->
  0 <= s -> N < 2 ^ 32 -> chained s ranges N ->
  exists shards,
    run_shards (map Shard.stop (map (shard_for (create :: rest)) ranges)) = Ok shards /\
    all_sessions shards
    = act_all s rest (replicate (Z.to_nat (N - s)) (make_session handler)).
Proof.
  induction ranges as [|r ranges IH]; intros s Hc Hf Hs HN Hch.
  - cbn in Hch. subst s. exists []. split; [done|]. rewrite Z.sub_diag.
    clear. induction rest; [done|]. cbn. done.
  - destruct Hch as (<- & Hle & Hch). pose proof (chained_le _ _ _ Hch).
    destruct (run_shard create rest N r) as (s' & E & Es); [done | done | lia | lia | lia|].
    destruct (IH (snd r) Hc Hf ltac:(lia) HN Hch) as (shards & E' & Es').
    exists (s' :: shards). cbn [map run_shards]. rewrite E. cbn [obind]. rewrite E'. split; [done|].
    cbn [all_sessions flat_map]. fold (all_sessions shards). rewrite Es, Es'.
    replace (Z.to_nat (N - fst r)) with
      (Z.to_nat (snd r - fst r) + Z.to_nat (N - snd r))%nat by lia.
    rewrite replicate_add, act_all_app, length_replicate. do 2 f_equal. lia.
Qed.

End Run.

(** ** Dispatching *)

Section Dispatch.
Context {Sess H : Type}.

Abbreviation action := ActionDescriptor.t.
Abbreviation orchestrator := (Orchestrator.t Sess H).

(** Hand out a list of actions, counting each. *)
Fixpoint distribute_all (l : list action) (o : orchestrator) : outcome orchestrator :=
  match l with
  | [] => Ok o
  | a :: l =>
      let! o := distribute_action_to_shards a o in
      distribute_all l (set_index (S (current_action_indx_ o)) o)
  end.

(** What the loop does once no action is due: wait for the next or end. *)
Definition after_due (later : list action) (o : orchestrator) : orchestrator :=
  match later with
  | [] => do_shutdown o
  | a :: _ => schedule_next_action (target_time o a) o
  end.

Lemma iter_warn_time n (o : orchestrator) : startup_time_ (Nat.iter n warn o) = startup_time_ o.
Proof. by induction n. Qed.

Lemma distribute_time a (o o' : orchestrator) :
  distribute_action_to_shards a o = Ok o' -> startup_time_ o' = startup_time_ o.
Proof.
  unfold distribute_action_to_shards. intros Hd. inv_ok. subst o'. rewrite iter_warn_time. cbn.
  destruct (ActionDescriptor.type a); inv_ok; subst; try done. by destruct (negb _).
Qed.

(** The actions of [l] that are due, and the others. *)
Fixpoint split_due (now startup : Z) (l : list action) : list action * list action :=
  match l with
  | [] => ([], [])
  | a :: l' =>
      if startup + ActionDescriptor.offset a * 1000000 <=? now then
        let '(due, later) := split_due now startup l' in (a :: due, later)
      else ([], l)
  end.

Lemma split_due_spec now startup l due later :
  split_due now startup l = (due, later) ->
  l = due ++ later /\
  Forall (fun a => startup + ActionDescriptor.offset a * 1000000 <= now) due /\
  forall a, head later = Some a -> now < startup + ActionDescriptor.offset a * 1000000.
Proof.
  revert due later. induction l as [|a l IH]; intros due later; cbn [split_due].
  - intros [= <- <-]. split_and!; [done | constructor | done].
  - destruct (_ <=? now) eqn:E; bool_to_Z.
    + destruct (split_due now startup l) as [d t] eqn:Es. intros [= <- <-].
      destruct (IH d t eq_refl) as (-> & H1 & H2). split_and!; [done | by constructor | done].
    + intros [= <- <-]. split_and!; [done | constructor | by intros ? [= <-]].
Qed.

Lemma dispatch_loop_eq now l : forall o : orchestrator,
  dispatch_loop now l o
  = let! o' := distribute_all (split_due now (startup_time_ o) l).1 o in
    Ok (after_due (split_due now (startup_time_ o) l).2 o').
Proof.
  induction l as [|a l IH]; intros o; [done|]. cbn [dispatch_loop split_due].
  rewrite Z.gtb_ltb, Z.ltb_antisym. unfold target_time.
  destruct (_ <=? now) eqn:E; cbn [negb]; [|done].
  destruct (distribute_action_to_shards a o) as [o1|e| |] eqn:Ed;
    [|by destruct (split_due _ _ l); cbn; rewrite Ed ..].
  cbn [obind]. rewrite IH.
  change (startup_time_ (set_index _ o1)) with (startup_time_ o1).
  rewrite (distribute_time _ _ _ Ed).
  destruct (split_due _ _ l); cbn [fst snd distribute_all]. by rewrite Ed.
Qed.

Lemma distribute_all_app l1 : forall l2 (o : orchestrator),
  distribute_all (l1 ++ l2) o = let! o := distribute_all l1 o in distribute_all l2 o.
Proof.
  induction l1 as [|a l1 IH]; intros l2 o; [done|]. cbn [distribute_all app].
  rewrite obind_assoc. destruct (distribute_action_to_shards a o); cbn [obind]; [apply IH | done..].
Qed.

(** ** Shards in step with the orchestrator *)

(** Before the sessions are split, and after the actions of [l] were handed out. *)
Definition not_split (K : Z) (o : orchestrator) : Prop :=
  shards_ o = replicate (Z.to_nat K) (shard_for [] (0, 0)) /\ shutdown_ o = false.

Definition in_step (l : list action) (ranges : list (Z * Z)) (o : orchestrator) : Prop :=
  shard_ranges_ o = ranges /\ shards_ o = map (shard_for l) ranges /\ shutdown_ o = false.

Lemma shard_for_snoc a l r :
  @shard_for Sess H (l ++ [a]) r
  = match shard_action a r with
    | Some part => snd (Shard.submit_work part (shard_for l r))
    | None => shard_for l r
    end.
Proof.
  unfold shard_for. rewrite parts_app. unfold parts at 2. cbn [omap list_omap].
  destruct (shard_action a r); [done|]. cbn [map]. by rewrite app_nil_r.
Qed.

Lemma submit_parts_for (a : action) l ranges :
  submit_parts a (map (@shard_for Sess H l) ranges) ranges
  = Ok (map (shard_for (l ++ [a])) ranges, 0%nat).
Proof.
  induction ranges as [|r ranges IH]; [done|]. cbn [map submit_parts].
  rewrite IH, shard_for_snoc. by destruct (shard_action a r).
Qed.

Lemma distribute_in_step a l ranges (o : orchestrator) :
  ActionDescriptor.type a <> ActionType.CREATE -> in_step l ranges o ->
  exists o', distribute_action_to_shards a o = Ok o' /\ in_step (l ++ [a]) ranges o' /\
    warnings o' = warnings o /\ actions_ o' = actions_ o /\
    current_action_indx_ o' = current_action_indx_ o.
Proof.
  intros Ht (Hr & Hs & Hd). unfold distribute_action_to_shards.
  assert (Hsub : submit_parts a (shards_ o) (shard_ranges_ o)
                 = Ok (map (shard_for (l ++ [a])) ranges, 0%nat))
    by (rewrite Hs, Hr; apply submit_parts_for).
  eexists. split.
  - destruct (ActionDescriptor.type a); [done | cbn [obind]; rewrite Hsub; done..].
  - done.
Qed.

Lemma distribute_create a K ranges N (o : orchestrator) :
  creates a N -> not_split K o -> compute_ranges N K = Ok ranges -> length ranges = Z.to_nat K ->
  ranges_end ranges = N -> 0 < K < 2 ^ 32 ->
  exists o', distribute_action_to_shards a o = Ok o' /\ in_step [a] ranges o' /\
    warnings o' = warnings o /\ actions_ o' = actions_ o /\
    current_action_indx_ o' = current_action_indx_ o.
Proof.
  intros (Ht & _ & _ & Hc) (Hs & Hd) Hr Hl He HK. unfold distribute_action_to_shards.
  rewrite Ht, Hc, Hs, length_replicate, Z2Nat.id, u32_small, Hr by lia. cbn [obind].
  rewrite He, Z.eqb_refl. cbn [negb obind shards_ shard_ranges_ set_ranges]. rewrite Hs.
  replace (replicate (Z.to_nat K) (shard_for [] (0, 0)))
    with (map (@shard_for Sess H []) ranges).
  - rewrite submit_parts_for. eexists. split; [done|]. done.
  - rewrite <- Hl. clear. induction ranges as [|r ranges IH]; [done|]. cbn. by rewrite IH.
Qed.

(** The dispatch timer goes off as often as it is armed, each time at the next of
    [clocks], and not before its deadline. *)
Fixpoint fires (clocks : list Z) (o : orchestrator) : outcome orchestrator :=
  match clocks with
  | [] => Ok o
  | now :: clocks =>
      match dispatch_timer_ o with
      | None => Ok o
      | Some deadline =>
          let! o := dispatch_timer_fired (Z.max deadline now) o in
          fires clocks o
      end
  end.

(** ** All of a plan *)

Section Plan.
Variables (create : action) (rest : list action) (N K : Z) (ranges : list (Z * Z)).
Hypothesis Hcreate : creates create N.
Hypothesis Hrest : Forall (fun a => ActionDescriptor.type a <> ActionType.CREATE) rest.
Hypothesis HK : 0 < K < 2 ^ 32.
Hypothesis Hranges : compute_ranges N K = Ok ranges.
Hypothesis Hlength : length ranges = Z.to_nat K.
Hypothesis Hend : ranges_end ranges = N.

Abbreviation all := (create :: rest).

(** The first [n] actions were handed out. *)
Definition stage (n : nat) (o : orchestrator) : Prop :=
  actions_ o = all /\ current_action_indx_ o = n /\ warnings o = 0%nat /\
  match n with
  | 0%nat => not_split K o
  | _ => in_step (take n all) ranges o
  end.

Lemma distribute_stage n a later (o : orchestrator) :
  drop n all = a :: later -> stage n o ->
  exists o', distribute_action_to_shards a o = Ok o' /\
    stage (S n) (set_index (S (current_action_indx_ o')) o').
Proof.
  intros Hd (Ha & Hi & Hw & Hs).
  assert (Hlk : all !! n = Some a) by by rewrite <- (Nat.add_0_r n), <- lookup_drop, Hd.
  destruct n as [|n].
  - injection Hlk as <-.
    destruct (distribute_create create K ranges N o Hcreate Hs Hranges Hlength Hend HK)
      as (o' & E & Hin & Hw' & Ha' & Hi').
    exists o'. split; [done|]. split_and!; cbn; congruence || done.
  - assert (Ht : ActionDescriptor.type a <> ActionType.CREATE).
    { rewrite Forall_lookup in Hrest. by apply (Hrest n). }
    destruct (distribute_in_step a _ ranges o Ht Hs) as (o' & E & Hin & Hw' & Ha' & Hi').
    exists o'. split; [done|]. split_and!; [cbn; congruence | cbn; congruence | cbn; congruence|].
    rewrite (take_S_r _ _ a Hlk). exact Hin.
Qed.

Lemma distribute_all_stage due : forall n later (o : orchestrator),
  drop n all = due ++ later -> stage n o ->
  exists o', distribute_all due o = Ok o' /\ stage (n + length due) o'.
Proof.
  induction due as [|a due IH]; intros n later o Hd Hs.
  - exists o. split; [done|]. by rewrite Nat.add_0_r.
  - destruct (distribute_stage n a (due ++ later) o Hd Hs) as (o1 & E & Hs1).
    destruct (IH (S n) later _ ltac:(replace (S n) with (n + 1)%nat by lia;
      rewrite <- drop_drop, Hd; done) Hs1) as (o2 & E2 & Hs2).
    exists o2. cbn [distribute_all]. rewrite E. split; [exact E2|].
    cbn [length]. by replace (n + S (length due))%nat with (S n + length due)%nat by lia.
Qed.

(** The end: everything was handed out and the shards are told to stop. *)
Definition finished (o : orchestrator) : Prop :=
  current_action_indx_ o = length all /\ shutdown_ o = true /\ dispatch_timer_ o = None /\
  warnings o = 0%nat /\ shards_ o = map Shard.stop (map (shard_for all) ranges).

Lemma stage_finished (o : orchestrator) : stage (length all) o -> finished (do_shutdown o).
Proof.
  intros (Ha & Hi & Hw & _ & Hs & Hd). unfold do_shutdown. rewrite Hd.
  cbn [length] in Hs. rewrite take_ge in Hs by done. split_and!; try done. cbn. by rewrite Hs.
Qed.

(** Waiting for the first action that is left. *)
Definition waiting (n : nat) (o : orchestrator) : Prop :=
  stage n o /\ exists a, all !! n = Some a /\ dispatch_timer_ o = Some (target_time o a).

Lemma dispatch_stage now n (o : orchestrator) :
  stage n o -> (n <= length all)%nat ->
  exists o', dispatch_pending_actions now o = Ok o' /\
    (finished o' \/
     exists m, (n <= m)%nat /\ waiting m o' /\
       forall a, all !! n = Some a -> target_time o a <= now -> (n < m)%nat).
Proof.
  intros Hs Hn. unfold dispatch_pending_actions. rewrite dispatch_loop_eq.
  destruct Hs as (Ha & Hi & Hs). rewrite Ha, Hi.
  destruct (split_due now (startup_time_ o) (drop n all)) as [due later] eqn:Ed.
  pose proof Ed as (Hl & _ & _)%split_due_spec. cbn [fst snd].
  destruct (distribute_all_stage due n later o Hl) as (o1 & E1 & Hs1); [done|].
  rewrite E1. cbn [obind]. eexists. split; [done|].
  assert (Hlen : (n + length due + length later = length all)%nat).
  { apply (f_equal length) in Hl. rewrite length_drop, length_app in Hl. lia. }
  destruct later as [|a later]; cbn [after_due].
  - left. apply stage_finished. rewrite <- Hlen. cbn [length]. by rewrite Nat.add_0_r.
  - right. exists (n + length due)%nat. split; [lia|]. split.
    + split; [exact Hs1|]. exists a. split; [|done].
      rewrite <- lookup_drop, Hl. by rewrite lookup_app_r, Nat.sub_diag.
    + intros b Hb Ht. destruct due as [|c due]; [|cbn; lia]. exfalso.
      rewrite <- (Nat.add_0_r n), <- lookup_drop, Hl in Hb. injection Hb as ->. rewrite Hl in Ed. cbn [split_due app] in Ed.
      unfold target_time in Ht. apply Z.leb_le in Ht. rewrite Ht in Ed.
      by destruct (split_due _ _ later).
Qed.

Lemma fires_finished clocks (o : orchestrator) : finished o -> fires clocks o = Ok o.
Proof. intros (_ & _ & Ht & _). destruct clocks; cbn [fires]; by rewrite ?Ht. Qed.

Lemma fires_finish clocks : forall n (o : orchestrator),
  waiting n o -> (length all - n <= length clocks)%nat ->
  exists o', fires clocks o = Ok o' /\ finished o'.
Proof.
  induction clocks as [|now clocks IH]; intros n o [Hs (a & Ha & Ht)] Hl;
    pose proof (lookup_lt_Some _ _ _ Ha) as Hlt; [cbn in Hl, Hlt; lia|].
  cbn [fires]. rewrite Ht. unfold dispatch_timer_fired. rewrite Ht.
  set (o0 := set_timers _ _ _ o).
  destruct (dispatch_stage (Z.max (target_time o a) now) n o0) as (o1 & E & Ho); [done | lia |].
  rewrite E. cbn [obind]. destruct Ho as [Hf|(m & Hm & Hw & Hmore)].
  - exists o1. split; [by apply fires_finished | done].
  - apply (IH m); [done|]. assert (n < m)%nat; [|cbn [length] in *; lia].
    apply (Hmore a Ha). change (target_time o0 a) with (target_time o a). lia.
Qed.

End Plan.
End Dispatch.

(** C18: The dispatch loop hands out, in order, exactly the leading actions that
    are due, and then waits for the time of the next one, or shuts down when
    none is left. *)
Theorem dispatch_due {Sess H : Type} now (o o' : Orchestrator.t Sess H) :
  dispatch_pending_actions now o = Ok o' ->
  exists due later o1,
    drop (current_action_indx_ o) (actions_ o) = due ++ later /\
    Forall (fun a => target_time o a <= now) due /\
    (forall a, head later = Some a -> now < target_time o a) /\
    distribute_all due o = Ok o1 /\ o' = after_due later o1.
Proof.
  unfold dispatch_pending_actions. rewrite dispatch_loop_eq.
  destruct (split_due _ _ _) as [due later] eqn:E. cbn [fst snd]. intros Hd. inv_ok.
  exists due, later, x. apply split_due_spec in E as (H1 & H2 & H3). by subst.
Qed.

(** However many shards there are and however late the timer goes off, a
    plan is run to its end: every action is handed out, the orchestrator shuts
    down, and the shards' sessions together are those of one list to which the
    actions were applied in the order of the plan. *)
Theorem plan_runs {Sess Endpoints H : Type} `{PoolSession Sess Endpoints}
    (handler : H) make_session (endpoints : Endpoints)
    create rest N K now0 now clocks (o : Orchestrator.t Sess H) :
  creates create N -> 0 <= N < 2 ^ 32 -> 0 < K < 2 ^ 32 ->
  Forall (fun a => ActionDescriptor.type a <> ActionType.CREATE) rest ->
  Orchestrator.init (create :: rest) K = Ok o ->
  (length (create :: rest) <= length clocks)%nat ->
  exists o' shards,
    (let! o1 := dispatch_pending_actions now (Orchestrator.start now0 o) in fires clocks o1)
    = Ok o' /\
    current_action_indx_ o' = length (create :: rest) /\ shutdown_ o' = true /\
    dispatch_timer_ o' = None /\ warnings o' = 0%nat /\
    run_shards handler make_session endpoints (shards_ o') = Ok shards /\
    all_sessions shards
    = act_all endpoints 0 rest (replicate (Z.to_nat N) (make_session handler)).
Proof.
  intros Hc HN HK Hf Hi Hl. injection Hi as <-.
  destruct (compute_ranges_spec N K) as (ranges & Hr & Hlen & Hch & _); [done | lia |].
  assert (He : ranges_end ranges = N).
  { unfold ranges_end. apply (chained_end _ 0); [done|]. intros ->. cbn in Hlen. lia. }
  set (o0 := Orchestrator.start now0 _).
  assert (Hs : stage create rest K ranges 0 o0).
  { split_and!; [done | done | done|]. split; [|done]. exact (fmap_replicate _ _ _). }
  destruct (dispatch_stage create rest N K ranges Hc Hf HK Hr Hlen He now 0 o0 Hs)
    as (o1 & E1 & Ho); [lia|].
  assert (Hfin : exists o', fires clocks o1 = Ok o' /\ finished create rest ranges o').
  { destruct Ho as [Hfin|(m & _ & Hw & _)].
    - exists o1. split; [by eapply fires_finished | done].
    - apply (fires_finish create rest N K ranges Hc Hf HK Hr Hlen He clocks m); [done | lia]. }
  destruct Hfin as (o' & E & Hidx & Hsd & Ht & Hw & Hsh).
  destruct (run_shards_spec handler make_session endpoints create rest N ranges 0 Hc Hf)
    as (shards & Er & Es); [lia | lia | done|].
  exists o', shards. rewrite E1, Hsh. rewrite Z.sub_0_r in Es. split_and!; done.
Qed.

(** ** Witness: three sessions over two shards *)

Definition sample_create : ActionDescriptor.t :=
  ActionDescriptor.mk ActionType.CREATE 0 3 3 0.

Definition sample_rest : list ActionDescriptor.t :=
  [ActionDescriptor.mk ActionType.CONNECT 0 3 0 1; ActionDescriptor.mk ActionType.SEND 1 3 5 20].

Definition sample_plan : Orchestrator.t (list string) unit :=
  mk (sample_create :: sample_rest) 0 (replicate 2 Shard.init) [] 0 None false 2 false 0 true 0.

Lemma dispatch_due_witness :
  exists due later,
    sample_create :: sample_rest = due ++ later /\
    Forall (fun a => target_time (Orchestrator.start 0 sample_plan) a <= 5000000) due.
Proof.
  destruct (dispatch_loop 5000000 (sample_create :: sample_rest)
              (Orchestrator.start 0 sample_plan)) as [o'|e| |] eqn:E; [|vm_compute in E; done..].
  destruct (dispatch_due 5000000 (Orchestrator.start 0 sample_plan) o' E)
    as (due & later & _ & H1 & H2 & _).
  exists due, later. split; [exact H1 | exact H2].
Defined.

Lemma plan_runs_witness :
  exists o' shards,
    (let! o1 := dispatch_pending_actions 0 (Orchestrator.start 0 sample_plan) in
     fires [0; 0; 0] o1) = Ok o' /\
    run_shards (H := unit) (H0 := log_session) tt (fun _ => []) tt (shards_ o') = Ok shards /\
    all_sessions shards = [["start"]; ["start"; "send"]; ["start"; "send"]]%string.
Proof.
  destruct (plan_runs (H := unit) (H0 := log_session) tt (fun _ => []) tt sample_create
              sample_rest 3 2 0 0 [0; 0; 0] sample_plan)
    as (o' & shards & H1 & _ & _ & _ & _ & H2 & H3).
  - vm_compute. done.
  - lia.
  - lia.
  - repeat constructor; discriminate.
  - reflexivity.
  - cbn. lia.
  - exists o', shards. split; [exact H1|]. split; [exact H2 | exact H3].
Defined.
