(* ===== verification/SystemProps.v ===== *)
(** * The whole program

    From a script the interpreter accepts, through its plan, to the sessions of
    the shards; and two kinds of scripts that are accepted and then go wrong: their
    dispatch is undefined, or a session writes for ever. *)

From S2P Require Import Prelude Script ParserProps ParserPrint Payload Resolver.
From S2P Require Import Interpreter InterpreterFacts InterpreterProps.
From S2P Require Import ExecutionPlan ExecutionPlanProps Metrics MessageHandler Session SessionFacts.
From S2P Require Import TcpSession SessionPool SessionPoolProps Shard Orchestrator.
From S2P Require Import OrchestratorProps OrchestratorRun.

(** ** The plan of an accepted script *)

Section Accepted.
Context {sys : System} (options : Resolver.options) (settings : Settings.t).

(** Once the pool is made, no other CREATE is accepted. *)
Lemma run_no_create p l q :
  plan_run options settings p l q -> pool p <> 0 ->
  Forall (fun a => Action.type a <> ActionType.CREATE) l.
Proof.
  induction 1 as [|p q s a l Hs Hr IH]; intros Hp; [constructor|].
  assert (Ht : Action.type a <> ActionType.CREATE) by (inversion Hs; subst; congruence).
  constructor; [done|]. apply IH. inversion Hs; subst; done.
Qed.

Lemma descriptors_types o l ds :
  descriptors o l ds -> Forall (fun a => Action.type a <> ActionType.CREATE) l ->
  Forall (fun d => ActionDescriptor.type d <> ActionType.CREATE) ds.
Proof.
  induction 1 as [|o a l d ds Hd Ho Hds IH]; intros Hf; [constructor|].
  apply List.Forall_cons_iff in Hf as [Ha Hf]. constructor; [|by apply IH].
  destruct Hd as [-> _]. done.
Qed.

(** A plan starts with the CREATE, and that is the only one. *)
Lemma accepted_plan a l q ds :
  action_wf a -> is_int (Settings.shards settings) -> Settings.shards settings <> 0 ->
  Action.type a = ActionType.CREATE ->
  plan_run options settings no_plan (a :: l) q -> descriptors 0 (a :: l) ds ->
  exists d rest, ds = d :: rest /\ creates d (Action.count a) /\
    0 < Settings.shards settings < 2 ^ 32 /\ 0 <= Action.count a < 2 ^ 32 /\
    Forall (fun d => ActionDescriptor.type d <> ActionType.CREATE) rest.
Proof.
  intros (_ & _ & _ & Hwf) Hsh Hsh0 Ht Hr Hd. rewrite Ht in Hwf. destruct Hwf as (Hc & Hrange & _).
  inversion Hd as [|? ? ? d rest (Hd1 & Hd2 & Hd3 & _ & Hd5) _ Hds]; subst. exists d, rest.
  unfold is_int, INT_MAX in *. specialize (Hd5 Ht). rewrite Hrange in Hd3, Hd5.
  cbn in Hd3, Hd5. rewrite Ht in Hd1, Hd2. rewrite u32_small in Hd5 by lia.
  split; [done|]. split; [done|]. split; [lia|]. split; [lia|].
  inversion Hr as [|? p1 ? ? ? Hs Hrest]; subst.
  apply (descriptors_types _ _ _ Hds), (run_no_create _ _ _ Hrest).
  inversion Hs; subst; try congruence. cbn. lia.
Qed.

End Accepted.

Lemma accepted_runs {sys : System} {ord : HashOrder} options can_allocate garbage
    {Sess Endpoints H : Type} `{PoolSession Sess Endpoints}
    (handler : H) make_session (endpoints : Endpoints) script a l w now0 now clocks :
  script_wf script -> script_valid options script ->
  Orchestrator_block.actions (DSLData.orchestrator script) = a :: l ->
  Action.type a = ActionType.CREATE ->
  ExecutionPlan.generate_plan_common options can_allocate garbage script = Ok w ->
  (length (ExecutionPlan.actions w) <= length clocks)%nat ->
  exists (o o' : Orchestrator.t Sess H) shards,
    Orchestrator.init (ExecutionPlan.actions w) (Settings.shards (DSLData.settings script)) = Ok o /\
    (let! o1 := Orchestrator.dispatch_pending_actions now (Orchestrator.start now0 o) in
     fires clocks o1) = Ok o' /\
    Orchestrator.current_action_indx_ o' = length (ExecutionPlan.actions w) /\
    Orchestrator.shutdown_ o' = true /\
    run_shards handler make_session endpoints (Orchestrator.shards_ o') = Ok shards /\
    all_sessions shards
    = act_all endpoints 0 (tail (ExecutionPlan.actions w))
        (replicate (Z.to_nat (Action.count a)) (make_session handler)).
Proof.
  intros Hwf (Hset & _ & _ & _ & q & Hr) Ha Ht Hg Hl.
  destruct (plan_common_ok options can_allocate garbage script Hwf) as [_ Hp].
  destruct (Hp w Hg) as [_ Hd]. rewrite Ha in Hr, Hd.
  destruct Hwf as [(_ & Hsh & _) Hacts]. rewrite Ha in Hacts.
  apply List.Forall_cons_iff in Hacts as [Hawf _].
  destruct (accepted_plan options _ a l q _ Hawf Hsh ltac:(apply Hset) Ht Hr Hd)
    as (d & rest & Hds & Hc & HK & HN & Hf).
  rewrite Hds in Hl |- *.
  destruct (plan_runs handler make_session endpoints d rest _ _ now0 now clocks _
              Hc HN HK Hf eq_refl Hl) as (o' & shards & H1 & H2 & H3 & _ & _ & H4 & H5).
  eexists _, o', shards. split_and!; try done.
Qed.

(** C1: Every test the interpreter accepts and whose first action is its CREATE
    is run to its end: once its plan is generated, the orchestrator hands out all
    of its actions however late its timer is, no shard leaves its vectors, and
    the sessions of the shards are together those of one list of as many sessions
    as the CREATE says, to which the actions were applied in order. *)
Theorem accepted_script_runs {sys : System} {ord : HashOrder} options can_allocate garbage
    {Sess Endpoints H : Type} `{PoolSession Sess Endpoints}
    (handler : H) make_session (endpoints : Endpoints) script a l w now0 now clocks :
  script_wf script -> script_valid options script ->
  Orchestrator_block.actions (DSLData.orchestrator script) = a :: l ->
  Action.type a = ActionType.CREATE ->
  ExecutionPlan.generate_plan_common options can_allocate garbage script = Ok w ->
  (length (ExecutionPlan.actions w) <= length clocks)%nat ->
  exists (o o' : Orchestrator.t Sess H) shards,
    Orchestrator.init (ExecutionPlan.actions w) (Settings.shards (DSLData.settings script)) = Ok o /\
    (let! o1 := Orchestrator.dispatch_pending_actions now (Orchestrator.start now0 o) in
     fires clocks o1) = Ok o' /\
    Orchestrator.current_action_indx_ o' = length (ExecutionPlan.actions w) /\
    Orchestrator.shutdown_ o' = true /\
    run_shards handler make_session endpoints (Orchestrator.shards_ o') = Ok shards /\
    all_sessions shards
    = act_all endpoints 0 (tail (ExecutionPlan.actions w))
        (replicate (Z.to_nat (Action.count a)) (make_session handler)).
Proof. apply accepted_runs. Qed.

(** ** Accepted scripts that go wrong *)

(** Before the CREATE was handed out there is no range to submit to. *)
Lemma distribute_early {Sess H : Type} (d : ActionDescriptor.t) (o : Orchestrator.t Sess H) :
  ActionDescriptor.type d <> ActionType.CREATE -> Orchestrator.shards_ o <> [] ->
  Orchestrator.shard_ranges_ o = [] -> Orchestrator.distribute_action_to_shards d o = Undef.
Proof.
  intros Ht Hs Hr. unfold Orchestrator.distribute_action_to_shards.
  assert (Hsub : Orchestrator.submit_parts d (Orchestrator.shards_ o)
                   (Orchestrator.shard_ranges_ o) = Undef)
    by (rewrite Hr; by destruct (Orchestrator.shards_ o)).
  destruct (ActionDescriptor.type d); [done | cbn [obind]; by rewrite Hsub..].
Qed.

(** So a plan that starts with another action is undefined as soon as the action is
    due, at the first dispatch or when the timer goes off. *)
Lemma dispatch_early {Sess H : Type} d rest K now0 now clock clocks
    (o : Orchestrator.t Sess H) :
  ActionDescriptor.type d <> ActionType.CREATE -> 0 < K ->
  Orchestrator.init (d :: rest) K = Ok o ->
  (let! o1 := Orchestrator.dispatch_pending_actions now (Orchestrator.start now0 o) in
   fires (clock :: clocks) o1) = Undef.
Proof.
  intros Ht HK [= <-]. set (o0 := Orchestrator.start now0 _).
  assert (Hs : Orchestrator.shards_ o0 <> []).
  { intros Hnil%(f_equal length). cbn in Hnil. rewrite length_map, length_replicate in Hnil.
    cbn in Hnil. lia. }
  unfold Orchestrator.dispatch_pending_actions. cbn [Orchestrator.actions_
    Orchestrator.current_action_indx_ o0 Orchestrator.start drop].
  change (drop _ _) with (d :: rest). cbn [Orchestrator.dispatch_loop].
  destruct (_ >? now) eqn:E; [|by rewrite distribute_early].
  cbn [obind fires]. unfold Orchestrator.dispatch_timer_fired.
  cbn [Orchestrator.schedule_next_action Orchestrator.set_timers Orchestrator.dispatch_timer_].
  set (o1 := Orchestrator.set_timers _ _ _ _).
  unfold Orchestrator.dispatch_pending_actions. change (drop _ _) with (d :: rest).
  cbn [Orchestrator.dispatch_loop].
  change (Orchestrator.target_time o1 d) with (Orchestrator.target_time o0 d).
  rewrite Z.gtb_ltb, (proj2 (Z.ltb_ge _ _)) by lia. by rewrite distribute_early.
Qed.

(** C38: The converse of C1: an accepted script whose first action is not its CREATE
    (the validator accepts an action on an empty range of sessions there) is
    planned and the orchestrator is made, but whatever the clocks, the dispatch of
    that action reads ranges of the shards that do not exist yet. *)
Theorem early_action_undefined {sys : System} {ord : HashOrder} options can_allocate garbage
    {Sess H : Type} script a l w :
  script_wf script -> script_valid options script ->
  Orchestrator_block.actions (DSLData.orchestrator script) = a :: l ->
  Action.type a <> ActionType.CREATE ->
  ExecutionPlan.generate_plan_common options can_allocate garbage script = Ok w ->
  exists o : Orchestrator.t Sess H,
    Orchestrator.init (ExecutionPlan.actions w) (Settings.shards (DSLData.settings script)) = Ok o /\
    forall now0 now clock clocks,
      (let! o1 := Orchestrator.dispatch_pending_actions now (Orchestrator.start now0 o) in
       fires (clock :: clocks) o1) = Undef.
Proof.
  intros Hwf (Hset & _) Ha Ht Hg.
  destruct (plan_common_ok options can_allocate garbage script Hwf) as [_ Hp].
  destruct (Hp w Hg) as [_ Hd]. rewrite Ha in Hd. destruct Hwf as [(_ & Hsh & _) _].
  assert (HK : 0 < Settings.shards (DSLData.settings script)).
  { assert (Settings.shards (DSLData.settings script) <> 0) by apply Hset.
    unfold is_int in Hsh. lia. }
  inversion Hd as [|? ? ? d rest (Hd1 & _) _ Hds Ho Hl Hw]. subst.
  eexists. split; [done|]. intros now0 now clock clocks.
  apply (dispatch_early d rest (Settings.shards (DSLData.settings script))); [congruence | done | done].
Qed.

Definition plain (ty : ActionType.t) (r : Range.t) : Action.t :=
  Action.mk ty 0 r 0 EmptyString [] [] [].

Definition create_two : Action.t :=
  Action.mk ActionType.CREATE 2 (Range.mk 0 2) 0 EmptyString [] [] [].

Definition bare_script (actions : list Action.t) : DSLData.t :=
  DSLData.mk
    (Settings.mk "s" "TCP" 8 1024 true true 100 2 12345 "NOP" ["127.0.0.1"%string] ∅)
    (Orchestrator_block.mk "s" actions).

(** A FLOOD of no session before the CREATE. *)
Definition early_script : DSLData.t :=
  bare_script [plain ActionType.FLOOD (Range.mk 0 0); create_two].

(** A FLOOD of a test that has nothing to send and repeats it. *)
Definition flood_script : DSLData.t :=
  bare_script [create_two; plain ActionType.CONNECT (Range.mk 0 2);
               plain ActionType.FLOOD (Range.mk 0 2)].

Definition plan_of (script : DSLData.t) : outcome ExecutionPlan.work :=
  @ExecutionPlan.generate_plan_common sample_system sample_order sample_options any_size 7 script.

Definition no_work : ExecutionPlan.work := ExecutionPlan.mk_work [] [] [] [].

(** C37: A test that floods, repeats its payloads and has none is accepted, and its
    sessions then call [do_write] again and again: no number of calls is enough. *)
Theorem flood_without_payloads :
  @Interpreter.verify_script sample_system sample_order sample_options flood_script = Ok tt /\
  exists w config,
    plan_of flood_script = Ok w /\
    SessionConfig.loop_payloads config = Settings.repeat (DSLData.settings flood_script) /\
    forall steady_clock system_clock fuel,
      TCPSession.do_write config steady_clock system_clock fuel
        (Session.set_flood true (Session.set_live true
           (TCPSession.init (H := NOPMessageHandler.t) config
              (PayloadManager.init (ExecutionPlan.payloads w) (ExecutionPlan.counter_steps w))
              ShardMetrics.init NOPMessageHandler.mk)))
      = NoFuel.
Proof.
  split; [vm_compute; reflexivity|].
  exists (result no_work (plan_of flood_script)), (SessionConfig.mk 8 1024 true true 100).
  split_and!; [vm_compute; reflexivity | done|]. intros. by apply do_write_no_payloads.
Qed.

(** ** Witness: the sample script over two shards of logging sessions *)

Definition sample_work : ExecutionPlan.work :=
  result no_work (plan_of (sample_data 7)).

Lemma accepted_script_runs_witness :
  exists (o : Orchestrator.t (list string) unit) shards,
    Orchestrator.shutdown_ o = true /\
    run_shards (H0 := log_session) tt (fun _ => []) tt (Orchestrator.shards_ o) = Ok shards /\
    length (all_sessions shards) = 100%nat.
Proof.
  destruct (@accepted_script_runs sample_system sample_order sample_options any_size 7
              (list string) unit unit log_session tt (fun _ => []) tt (sample_data 7)
              (List.nth 0 (sample_actions 7) (Action.fresh 0)) (List.tl (sample_actions 7))
              sample_work 0 0 [0; 0; 0; 0])
    as (_ & o' & shards & _ & _ & _ & H1 & H2 & H3).
  - apply (sample_wf 7).
  - destruct (@script_spec sample_system sample_order sample_options (sample_data 7)
                (sample_wf 7)) as [[Hv _]|[_ Hv]]; [exact Hv | vm_compute in Hv; discriminate Hv].
  - reflexivity.
  - reflexivity.
  - vm_compute. reflexivity.
  - vm_compute. lia.
  - exists o', shards. split; [exact H1|]. split; [exact H2|].
    rewrite H3, length_act_all. vm_compute. reflexivity.
Defined.

(** The script with a FLOOD of no session first is accepted. *)
Lemma early_action_undefined_witness :
  @Interpreter.verify_script sample_system sample_order sample_options early_script = Ok tt /\
  exists w o,
    plan_of early_script = Ok w /\
    Orchestrator.init (Sess := list string) (H := unit) (ExecutionPlan.actions w) 2 = Ok o /\
    (let! o1 := Orchestrator.dispatch_pending_actions 0 (Orchestrator.start 0 o) in fires [0] o1)
    = Undef.
Proof.
  assert (Hv : @Interpreter.verify_script sample_system sample_order sample_options early_script
               = Ok tt) by (vm_compute; reflexivity).
  split; [exact Hv|].
  assert (Hwf : script_wf early_script).
  { repeat split; cbn; repeat constructor; closed_Z. }
  destruct (@early_action_undefined sample_system sample_order sample_options any_size 7
              (list string) unit early_script (plain ActionType.FLOOD (Range.mk 0 0)) [create_two]
              (result no_work (plan_of early_script))) as (o & Ho & Hu).
  - exact Hwf.
  - destruct (@script_spec sample_system sample_order sample_options early_script Hwf)
      as [[Hs _]|[_ Hs]]; [exact Hs | rewrite Hv in Hs; discriminate Hs].
  - reflexivity.
  - discriminate.
  - vm_compute. reflexivity.
  - exists (result no_work (plan_of early_script)), o. split; [vm_compute; reflexivity|].
    split; [exact Ho | apply Hu].
Defined.
