(* ===== verification/SystemCalls.v ===== *)
(** * What an accepted script makes the pools call

    The theorems on sessions assume that [start] comes first and only once, and
    that fewer than 2^64 payloads are requested.  The validator ensures it for
    the scripts that connect every session once and disconnect only sessions
    they have connected; it accepts others as well. *)

From S2P Require Import Prelude Script ParserProps ParserPrint Payload PayloadProps Resolver.
From S2P Require Import Interpreter InterpreterFacts InterpreterProps.
From S2P Require Import ExecutionPlan ExecutionPlanProps Metrics MessageHandler MessageHandlerProps.
From S2P Require Import Session SessionFacts.
From S2P Require Import TcpSession TcpSessionProps SessionPool SessionPoolProps Shard Orchestrator.
From S2P Require Import OrchestratorProps OrchestratorRun SystemProps.
From S2P Require Import ShardSystem ShardSystemFacts ShardSystemProps.

(** ** The calls a session gets *)

Section Calls.
Context {O : Type}.

Abbreviation op := (Session.op O).
Abbreviation call_of := (call_of (O := O)).
Abbreviation calls_to := (calls_to (O := O)).

(** A session that is the list of the calls it has got. *)
#[local] Instance call_log : PoolSession (list op) unit := {|
  SessionPool.start := fun _ l => l ++ [Session.StartTask];
  SessionPool.flood := fun l => l ++ [Session.FloodTask];
  SessionPool.send := fun n l => l ++ [Session.SendTask n];
  SessionPool.drain := fun l => l ++ [Session.DrainTask];
  SessionPool.stop := fun l => l ++ [Session.StopTask]
|}.

Lemma act_all_calls l : forall (sessions : list (list op)) i,
  act_all tt 0 l sessions !! i = (fun s => s ++ calls_to (Z.of_nat i) l) <$> sessions !! i.
Proof.
  induction l as [|d l IH]; intros sessions i.
  - cbn. destruct (sessions !! i); [|done]. cbn. by rewrite app_nil_r.
  - change (act_all tt 0 (d :: l) sessions) with (act_all tt 0 l (act_all tt 0 [d] sessions)).
    rewrite IH. cbn [act_all fold_left]. rewrite on_positions_lookup, !Z.sub_0_r, calls_cons.
    destruct (sessions !! i) as [s|]; [|done]. cbn. f_equal. unfold covers, call_of, act.
    destruct (_ && _); [|done].
    destruct (ActionDescriptor.type d); cbn; by rewrite <- ?app_assoc.
Qed.

(** ** Connecting each session once *)

(** The actions connect no session of [C], and no other one twice; they
    disconnect only sessions that are, or will then be, in [C]. *)
Fixpoint connects_once (C : gset Z) (l : list Action.t) : Prop :=
  match l with
  | [] => True
  | a :: l =>
      let rng := sessions_of (Action.range a) in
      match Action.type a with
      | ActionType.CONNECT => rng ## C /\ connects_once (rng ∪ C) l
      | ActionType.DISCONNECT => rng ⊆ C /\ connects_once C l
      | _ => connects_once C l
      end
  end.

Section Plan.
Context {sys : System} (options : Resolver.options) (settings : Settings.t).

Lemma covers_range a d i :
  describes a d -> Action.type a <> ActionType.CREATE ->
  covers d i = true <-> i ∈ sessions_of (Action.range a).
Proof.
  intros (Ht & Hs & He & _) Hc. unfold covers. rewrite Hs, He.
  rewrite elem_of_sessions, andb_true_iff, Z.leb_le, Z.ltb_lt.
  destruct (Action.type a); done.
Qed.

(** A session that is not covered is not called. *)
Lemma not_covered a d i :
  describes a d -> i ∉ sessions_of (Action.range a) -> call_of d = None \/ covers d i = false.
Proof.
  intros Hd Hi. destruct (decide (Action.type a = ActionType.CREATE)) as [Hc|Hc].
  - left. destruct Hd as [Ht _]. unfold call_of. by rewrite Ht, Hc.
  - right. pose proof (covers_range a d i Hd Hc). destruct (covers d i); [tauto | done].
Qed.

Lemma calls_not_covered a d i l :
  describes a d -> i ∉ sessions_of (Action.range a) -> calls_to i (d :: l) = calls_to i l.
Proof.
  intros Hd Hi. rewrite calls_cons. destruct (not_covered a d i Hd Hi) as [->| ->]; [|done].
  by destruct (covers d i).
Qed.

Lemma once_calls p l q :
  plan_run options settings p l q -> forall C o ds i,
  connected p ⊆ C -> connects_once C l -> descriptors o l ds ->
  (i ∈ C -> ~ In Session.StartTask (calls_to i ds)) /\
  (i ∉ C -> starts_first (calls_to i ds)).
Proof.
  induction 1 as [p|p q s a l Hs _ IH]; intros C o ds i HC Hl Hd.
  { inversion Hd. subst. by split; [intros _ []|]. }
  inversion Hd as [|? ? ? d ds' Hdesc _ Hds]; subst.
  assert (Hother : forall t, call_of d = Some t -> t <> Session.StartTask ->
            sessions_of (Action.range a) ⊆ C -> connected q ⊆ C -> connects_once C l ->
            (i ∈ C -> ~ In Session.StartTask (calls_to i (d :: ds'))) /\
            (i ∉ C -> starts_first (calls_to i (d :: ds')))).
  { intros t Ht Hne Hsub Hq Hl'. destruct (IH C _ _ i Hq Hl' Hds) as [H1 H2].
    split; intros Hi.
    - rewrite calls_cons, Ht. destruct (covers d i); [|by apply H1].
      intros [E|Hin]; [by subst t | by apply H1].
    - rewrite (calls_not_covered a) by (done || set_solver). by apply H2. }
  assert (Hcall : call_of d = match Action.type a with
            | ActionType.CREATE => None
            | ActionType.CONNECT => Some Session.StartTask
            | ActionType.SEND => Some (Session.SendTask (ActionDescriptor.count d))
            | ActionType.FLOOD => Some Session.FloodTask
            | ActionType.DRAIN => Some Session.DrainTask
            | ActionType.DISCONNECT => Some Session.StopTask
            end) by (unfold call_of; by destruct Hdesc as [-> _]).
  cbn [connects_once] in Hl. cbv zeta in Hl.
  destruct Hs as [p a Ht _ _|p a Ht _ _ _|p a Ht _ _ _ Hsub|p a Ht _ Hsub|p a Ht _ Hsub|p a Ht _ _];
    rewrite Ht in Hcall, Hl.
  - rewrite calls_cons, Hcall. replace (if covers d i then [] else []) with (@nil op)
      by (by destruct (covers d i)). eapply IH; [cbn; set_solver | exact Hl | exact Hds].
  - destruct Hl as [Hdis Hl]. destruct (IH (sessions_of (Action.range a) ∪ C) _ _ i
      ltac:(cbn; set_solver) Hl Hds) as [H1 H2].
    destruct (decide (i ∈ sessions_of (Action.range a))) as [Hi|Hi].
    + split; [set_solver|]. intros _. rewrite calls_cons, Hcall.
      rewrite (proj2 (covers_range a d i Hdesc ltac:(congruence)) Hi). cbn. split; [done|].
      apply H1. set_solver.
    + rewrite (calls_not_covered a) by done. split; intros HiC; [apply H1 | apply H2]; set_solver.
  - eapply Hother; [exact Hcall | done | set_solver | done | done].
  - eapply Hother; [exact Hcall | done | set_solver | done | done].
  - eapply Hother; [exact Hcall | done | set_solver | cbn; set_solver | done].
  - destruct Hl as [Hsub Hl]. eapply Hother; [exact Hcall | done | done | done | done].
Qed.

(** What is requested of a session. *)
Lemma sizes_calls l : forall o ds i,
  Forall action_wf l -> descriptors o l ds ->
  Forall Session.size_ok (calls_to i ds) /\
  total (calls_to i ds) <= INT_MAX * Z.of_nat (length l).
Proof.
  induction l as [|a l IH]; intros o ds i Hwf Hd; inversion Hd as [|? ? ? d ds' Hdesc _ Hds]; subst.
  { split; [constructor | done]. }
  apply List.Forall_cons_iff in Hwf as [Ha Hwf]. destruct (IH _ _ i Hwf Hds) as [H1 H2].
  rewrite calls_cons. cbn [length]. rewrite Nat2Z.inj_succ.
  assert (0 <= INT_MAX) as Hm by done.
  destruct (covers d i); [|split; [done | cbn [app]; lia]].
  destruct Hdesc as (Ht & _ & _ & Hc & _). destruct Ha as (_ & _ & _ & Ha).
  unfold call_of. rewrite Ht. destruct (Action.type a); cbn [app]; rewrite ?posted_cons;
    try (split; [by repeat constructor | lia]).
  rewrite (Hc eq_refl). unfold is_int in Ha. split; [|lia].
  constructor; [|done]. cbn. unfold INT_MAX in Ha. lia.
Qed.
End Plan.

(** The calls a shard makes are those of its part of the sessions. *)
Lemma calls_to_parts i r l :
  0 <= fst r -> snd r < 2 ^ 32 -> 0 <= i ->
  calls_to i (omap (fun a => Orchestrator.shard_action a r) l)
  = if i <? snd r - fst r then calls_to (fst r + i) l else [].
Proof.
  intros Hr1 Hr2 Hi. induction l as [|a l IH]; [by destruct (_ <? _)|].
  change (omap ?f (a :: l)) with (match f a with Some y => y :: omap f l | None => omap f l end).
  cbv beta. rewrite calls_cons.
  rewrite shard_action_spec by done.
  destruct (Z.ltb_spec (Z.max (ActionDescriptor.sessions_start a) (fst r))
                       (Z.min (ActionDescriptor.sessions_end a) (snd r))) as [Hlt|Hge];
    rewrite ?calls_cons, IH; unfold covers, call_of;
    cbn [ActionDescriptor.sessions_start ActionDescriptor.sessions_end ActionDescriptor.type
         ActionDescriptor.count];
    destruct (Z.ltb_spec i (snd r - fst r)) as [Hi'|Hi'].
  - f_equal.
    destruct (Z.leb_spec (Z.max (ActionDescriptor.sessions_start a) (fst r) - fst r) i),
      (Z.leb_spec (ActionDescriptor.sessions_start a) (fst r + i)); try lia; [|done]. cbn [andb].
    destruct (Z.ltb_spec i (Z.min (ActionDescriptor.sessions_end a) (snd r) - fst r)),
      (Z.ltb_spec (fst r + i) (ActionDescriptor.sessions_end a)); try lia; done.
  - destruct (Z.ltb_spec i (Z.min (ActionDescriptor.sessions_end a) (snd r) - fst r)); [lia|].
    by rewrite andb_false_r.
  - destruct (Z.leb_spec (ActionDescriptor.sessions_start a) (fst r + i)); [|done]. cbn [andb].
    destruct (Z.ltb_spec (fst r + i) (ActionDescriptor.sessions_end a)); [lia | done].
  - done.
Qed.

Lemma total_prefix (l k : list op) : l `prefix_of` k -> Forall Session.size_ok k -> total l <= total k.
Proof.
  intros [m ->] Hk. apply Forall_app in Hk as [_ Hm]. apply posted_nonneg in Hm.
  rewrite posted_app. lia.
Qed.

(** A shard that gets its parts of the plan of an accepted script in order calls
    its sessions well. *)
Lemma accepted_well_called {sys : System} options settings l q ds r parts
    (tr : ShardSystem.events (O := O)) :
  Forall action_wf l -> plan_run options settings no_plan l q -> descriptors 0 l ds ->
  connects_once ∅ l -> Z.of_nat (length l) < 2 ^ 32 -> 0 <= fst r -> snd r < 2 ^ 32 ->
  parts `prefix_of` omap (fun a => Orchestrator.shard_action a r) ds ->
  (forall i, Session.posts (ShardSystem.of_session i tr) `prefix_of` calls_to (Z.of_nat i) parts) ->
  well_called tr.
Proof.
  intros Hwf Hr Hd Honce Hlen Hr1 Hr2 [more Hparts] Hpre i.
  assert (Session.posts (ShardSystem.of_session i tr) `prefix_of`
            calls_to (Z.of_nat i) (omap (fun a => Orchestrator.shard_action a r) ds)) as Hp.
  { rewrite Hparts, calls_app. by apply prefix_app_r. }
  rewrite calls_to_parts in Hp by (done || lia).
  destruct (Z.ltb_spec (Z.of_nat i) (snd r - fst r)) as [Hi|Hi].
  - destruct (once_calls options settings _ _ _ Hr ∅ _ _ (fst r + Z.of_nat i) ltac:(done) Honce Hd)
      as [_ Hfirst].
    destruct (sizes_calls _ _ _ (fst r + Z.of_nat i) Hwf Hd) as [Hsz Htot].
    pose proof (total_prefix _ _ Hp Hsz). destruct Hp as [rest Hp]. rewrite Hp in Hfirst.
    split; [|unfold INT_MAX in Htot; lia].
    eapply starts_first_prefix, Hfirst. set_solver.
  - apply prefix_nil_inv in Hp. by rewrite Hp.
Qed.
End Calls.

(** What the theorems on sessions assume, an accepted script provides: when it
    connects no session twice and disconnects only sessions it has connected,
    every session of its shards gets [start] as its first call and never again,
    and is asked for fewer than 2^64 payloads in all, by sizes that are in the
    range of [size_t]. *)
Theorem accepted_calls_ok {sys : System} {ord : HashOrder} {O : Type} options can_allocate garbage
    script a l w now0 now clocks :
  script_wf script -> script_valid options script ->
  Orchestrator_block.actions (DSLData.orchestrator script) = a :: l ->
  Action.type a = ActionType.CREATE -> connects_once ∅ l -> Z.of_nat (length l) < 2 ^ 32 ->
  ExecutionPlan.generate_plan_common options can_allocate garbage script = Ok w ->
  (length (ExecutionPlan.actions w) <= length clocks)%nat ->
  exists (o o' : Orchestrator.t (list (Session.op O)) unit) shards,
    Orchestrator.init (ExecutionPlan.actions w) (Settings.shards (DSLData.settings script)) = Ok o /\
    (let! o1 := Orchestrator.dispatch_pending_actions now (Orchestrator.start now0 o) in
     fires clocks o1) = Ok o' /\
    run_shards (H0 := call_log) tt (fun _ => []) tt (Orchestrator.shards_ o') = Ok shards /\
    Z.of_nat (length (all_sessions shards)) = Action.count a /\
    Forall (fun calls => starts_first calls /\ Forall Session.size_ok calls /\ total calls < 2 ^ 64)
      (all_sessions shards).
Proof.
  intros Hwf Hv Ha Ht Honce Hlen Hg Hl.
  destruct (@accepted_runs sys ord options can_allocate garbage _ _ _ (call_log (O := O)) tt (fun _ => []) tt script
              a l w now0 now clocks Hwf Hv Ha Ht Hg Hl) as (o & o' & shards & E1 & E2 & _ & _ & E3 & E4).
  exists o, o', shards. do 3 (split; [done|]).
  destruct (plan_common_ok options can_allocate garbage script Hwf) as [_ Hp].
  destruct (Hp w Hg) as [_ Hd]. rewrite Ha in Hd. destruct Hv as (_ & _ & _ & _ & q & Hr).
  rewrite Ha in Hr. destruct Hwf as [_ Hacts]. rewrite Ha in Hacts.
  apply List.Forall_cons_iff in Hacts as [(_ & _ & _ & Hawf) Hlwf]. rewrite Ht in Hawf.
  destruct Hawf as (Hcount & _). unfold is_int in Hcount.
  destruct (ExecutionPlan.actions w) as [|d ds] eqn:Ew; inversion Hd as [|? ? ? ? ? _ _ Hds]; subst.
  inversion Hr as [|? p' ? ? ? Hs Hrest]; subst.
  assert (connected p' ⊆ ∅) as Hp' by (inversion Hs; subst; congruence || done).
  rewrite E4. cbn [tail]. rewrite length_act_all, length_replicate, Z2Nat.id by lia. split; [done|].
  apply Forall_lookup_2. intros i calls Hi. cbn [tail] in Hi. rewrite act_all_calls in Hi. apply fmap_Some in Hi as (s0 & Hs0 & ->).
  apply lookup_replicate in Hs0 as [-> _]. cbn [app].
  destruct (once_calls (O := O) options _ _ _ _ Hrest ∅ _ _ (Z.of_nat i) Hp' Honce Hds) as [_ Hfirst].
  destruct (sizes_calls (O := O) _ _ _ (Z.of_nat i) Hlwf Hds) as [Hsz Htot].
  split; [apply Hfirst; set_solver|]. split; [done|]. unfold INT_MAX in Htot. lia.
Qed.

(** The manager of a plan has counters for its payloads. *)
Lemma plan_manager_ok w :
  Forall2 payload_matches (ExecutionPlan.payloads w) (ExecutionPlan.counter_steps w) ->
  manager_ok (ExecutionPlan.payloads w)
    (PayloadManager.init (ExecutionPlan.payloads w) (ExecutionPlan.counter_steps w)).
Proof.
  intros Hm. split; [done|]. pose proof (Forall2_length Hm) as Hl.
  unfold PayloadManager.init. rewrite Hl, Nat.ltb_irrefl, <- Hl. cbn [PayloadManager.counters_].
  rewrite Hl, take_ge by lia. apply Forall2_fmap_r. refine (Forall2_impl _ _ Hm).
  unfold payload_matches, PayloadManager.make_counters. intros d ss Hd. cbn. rewrite Hd.
  by rewrite length_map.
Qed.

(** C2: From the script to its sessions: an accepted TCP script, which connects no
    session twice and disconnects only sessions it has connected, cannot bring
    any of its sessions into undefined behaviour, provided its
    modifications come in increasing order inside their packets, there is a
    payload when they repeat, and messages stay below 4 GiB.  Whatever part of the sessions a shard has, and however far it has
    come with its parts of the actions of the plan, with the operations of its
    sessions completing in any order, with errors or without: each session has
    at most one write and one read under way, has told the pool once if it has
    closed, its buffers hold, and the completion of any operation is handled. *)
Theorem accepted_sessions_safe {sys : System} {ord : HashOrder} options can_allocate
    {wasm_module : Type} compile resolve_host garbage script w c r parts
    {H : Type} `{HandlerLaws H} steady_clock system_clock (h : H) tr s :
  script_wf script -> script_valid options script ->
  connects_once ∅ (Orchestrator_block.actions (DSLData.orchestrator script)) ->
  Z.of_nat (length (Orchestrator_block.actions (DSLData.orchestrator script))) < 2 ^ 32 ->
  ExecutionPlan.generate_tcp_plan (wasm_module := wasm_module) options can_allocate compile
    resolve_host garbage script = Ok (w, c) ->
  let config := ExecutionPlan.session_config c in
  let payloads := ExecutionPlan.payloads w in
  let m := PayloadManager.init payloads (ExecutionPlan.counter_steps w) in
  mods_in_order script w -> Z.of_nat (length payloads) < 2 ^ 64 - 1 ->
  (SessionConfig.loop_payloads config = true -> payloads <> []) ->
  0 <= SessionConfig.header_size config -> 0 <= SessionConfig.payload_size_limit config ->
  SessionConfig.header_size config + SessionConfig.payload_size_limit config < 2 ^ 32 ->
  handler_inv h -> 0 <= fst r -> snd r < 2 ^ 32 ->
  parts `prefix_of` omap (fun a => Orchestrator.shard_action a r) (ExecutionPlan.actions w) ->
  tcp_shard_run config steady_clock system_clock (ExecutionPlan.host_info c) m h parts tr s ->
  tcp_sessions_safe config steady_clock system_clock (ExecutionPlan.host_info c) m h tr s.
Proof.
  intros Hwf (_ & _ & _ & _ & q & Hr) Honce Hlen Hg. cbv zeta.
  intros Hd Hn Hrep Hh Hl Hb Hi Hr1 Hr2 Hp Hrun.
  assert (ExecutionPlan.generate_plan_common options can_allocate garbage script = Ok w) as Hg'.
  { unfold ExecutionPlan.generate_tcp_plan in Hg. apply obind_Ok in Hg as (f & _ & Hg).
    destruct (ExecutionPlan.tcp_endpoints _ _); [done|].
    by apply obind_Ok in Hg as (w' & Hw & [= <- _]). }
  destruct (plan_common_ok options can_allocate garbage script Hwf) as [_ Hplan].
  destruct (Hplan w Hg') as [Hm Hdesc].
  assert (setting_ok (ExecutionPlan.session_config c) (PayloadManager.init (ExecutionPlan.payloads w)
            (ExecutionPlan.counter_steps w)) ShardMetrics.init h) as Hok.
  { constructor; try done; [by apply plan_manager_ok|]. cbn.
    by apply (plan_payloads_ok options can_allocate garbage script). }
  apply (tcp_shard_safe _ _ _ _ _ _ _ _ _ Hok Hrun).
  eapply accepted_well_called; [apply Hwf | exact Hr | exact Hdesc | done..| exact Hp |].
  intros i. eapply (run_prefix (ExecutionPlan.host_info c)). exact Hrun.
Qed.

(** ** Scripts that do not *)

(** The session 0 is disconnected before it is connected; the session 1 is
    connected again after its drain. *)
Definition reconnect_script : DSLData.t :=
  bare_script [create_two; plain ActionType.DISCONNECT (Range.mk 0 1);
               plain ActionType.CONNECT (Range.mk 0 2); plain ActionType.DRAIN (Range.mk 1 2);
               plain ActionType.CONNECT (Range.mk 1 2)].

(** An accepted script can call a session before [start], and [start] twice. *)
Theorem reconnect_accepted :
  @Interpreter.verify_script sample_system sample_order sample_options reconnect_script = Ok tt /\
  exists w,
    plan_of reconnect_script = Ok w /\
    @act_all _ _ (call_log (O := unit)) tt 0 (tail (ExecutionPlan.actions w)) [[]; []]
    = [[Session.StopTask; Session.StartTask];
       [Session.StartTask; Session.DrainTask; Session.StartTask]].
Proof.
  split; [vm_compute; reflexivity|].
  exists (result no_work (plan_of reconnect_script)). split; vm_compute; reflexivity.
Qed.

(** ** Witness: the sample script *)

Lemma accepted_calls_ok_witness :
  exists shards : list (Shard.t (list (Session.op unit)) unit),
    length (all_sessions shards) = 100%nat /\
    Forall (fun calls => starts_first calls) (all_sessions shards).
Proof.
  destruct (@accepted_calls_ok sample_system sample_order unit sample_options any_size 7
              (sample_data 7) (List.nth 0 (sample_actions 7) (Action.fresh 0))
              (List.tl (sample_actions 7)) sample_work 0 0 [0; 0; 0; 0])
    as (o & o' & shards & _ & _ & _ & H1 & H2).
  - apply (sample_wf 7).
  - destruct (@script_spec sample_system sample_order sample_options (sample_data 7)
                (sample_wf 7)) as [[Hv _]|[_ Hv]]; [exact Hv | vm_compute in Hv; discriminate Hv].
  - reflexivity.
  - reflexivity.
  - cbn. repeat split; try (intros x; rewrite !elem_of_sessions; set_solver); set_solver.
  - vm_compute. reflexivity.
  - vm_compute. reflexivity.
  - vm_compute. lia.
  - exists shards. split; [apply (Nat2Z.inj _ 100); exact H1|].
    eapply Forall_impl; [|exact H2]. intros calls Hc. apply Hc.
Defined.

(** A shard with the first two sessions of the plan, which runs its first three
    actions while the first session connects and writes. *)
Definition sample_tcp : ExecutionPlan.work * ExecutionPlan.config (list Endpoint.t) unit :=
  Eval vm_compute in
  result (no_work, ExecutionPlan.mk_config (SessionConfig.mk 0 0 false false 0) []
                     (ExecutionPlan.NoFactory) 0)
    (@ExecutionPlan.generate_tcp_plan sample_system sample_order sample_options any_size unit
       (fun _ => None) sample_resolve 7 (sample_data 7)).

Definition sample_tcp_config : SessionConfig.t := ExecutionPlan.session_config sample_tcp.2.

Definition sample_tcp_manager : PayloadManager.t :=
  PayloadManager.init (ExecutionPlan.payloads sample_tcp.1)
    (ExecutionPlan.counter_steps sample_tcp.1).

Lemma sample_in_order : mods_in_order (sample_data 7) sample_tcp.1.
Proof.
  intros a buf Ha Ht Hb. cbn in Ha. destruct Hb as [<-|[]].
  destruct Ha as [<-|[<-|[<-|[<-|[]]]]]; cbn in Ht; try discriminate Ht.
  cbn. lia.
Qed.

Definition sample_parts : list ActionDescriptor.t :=
  take 3 (omap (fun a => Orchestrator.shard_action a (0, 2)) (ExecutionPlan.actions sample_tcp.1)).

Definition sample_moves : list (move TCPSession.tcp_op) :=
  map Submit sample_parts ++
  [Next; Next; Next; Finish 0 0 (Session.Success []); Finish 0 1 (Session.Success []);
   Finish 0 0 (Session.Success [])].

Definition sample_shard_init :
    ShardSystem.t TCPSession.reader TCPSession.tcp_op NOPMessageHandler.t :=
  ShardSystem.init NOPMessageHandler.mk sample_tcp_manager.

Definition sample_shard_end :
    ShardSystem.events *
    ShardSystem.t TCPSession.reader TCPSession.tcp_op NOPMessageHandler.t :=
  Eval vm_compute in
  default ([], sample_shard_init)
    (play_shard (tcp_session sample_tcp_config sample_tcp_manager)
       (ExecutionPlan.host_info sample_tcp.2)
       (TCPSession.run_op sample_tcp_config clock (fun _ => clock))
       (transport_check sample_tcp_config) sample_moves [] sample_shard_init).

Lemma sample_shard_run :
  tcp_shard_run sample_tcp_config clock (fun _ => clock) (ExecutionPlan.host_info sample_tcp.2)
    sample_tcp_manager NOPMessageHandler.mk sample_parts sample_shard_end.1 sample_shard_end.2.
Proof.
  apply (play_shard_run _ _ _ _ (transport_check sample_tcp_config)
           (transport_check_sound sample_tcp_config) _ sample_moves [] [] sample_shard_init);
    [constructor | vm_compute; reflexivity].
Qed.

Lemma accepted_sessions_safe_witness :
  tcp_sessions_safe sample_tcp_config clock (fun _ => clock)
    (ExecutionPlan.host_info sample_tcp.2) sample_tcp_manager NOPMessageHandler.mk
    sample_shard_end.1 sample_shard_end.2 /\
  length (ShardSystem.sessions sample_shard_end.2) = 2%nat.
Proof.
  split; [|vm_compute; reflexivity].
  apply (@accepted_sessions_safe sample_system sample_order sample_options any_size unit
           (fun _ => None) sample_resolve 7 (sample_data 7) sample_tcp.1 sample_tcp.2 (0, 2)
           sample_parts).
  - apply (sample_wf 7).
  - destruct (@script_spec sample_system sample_order sample_options (sample_data 7)
                (sample_wf 7)) as [[Hv _]|[_ Hv]]; [exact Hv | vm_compute in Hv; discriminate Hv].
  - cbn. repeat split; set_solver.
  - vm_compute. reflexivity.
  - vm_compute. reflexivity.
  - exact sample_in_order.
  - vm_compute. reflexivity.
  - intros _. discriminate.
  - vm_compute. discriminate.
  - vm_compute. discriminate.
  - vm_compute. reflexivity.
  - exact I.
  - cbn. lia.
  - cbn. lia.
  - apply prefix_take.
  - exact sample_shard_run.
Defined.
