(* ===== verification/Logger.v ===== *)
(** * The logger (src/logger/)

    Any thread may log: a message is put into a queue under a mutex, and a thread
    of the logger, which sleeps on a condition variable, swaps the queue for an
    empty one and prints its messages.  Critical sections are atomic steps; the
    [notify_one] that follows one outside of it is a step of its own. *)

From S2P Require Import Prelude.

Module LogLevel.
Inductive t : Type := DEBUG | INFO | WARN | ERROR.

Definition to_Z (l : t) : Z :=
  match l with DEBUG => 0 | INFO => 1 | WARN => 2 | ERROR => 3 end.

(** [a < b] *)
Definition ltb (a b : t) : bool := to_Z a <? to_Z b.
End LogLevel.

Module LogEntry.
Record t : Type := mk { level : LogLevel.t; msg : string }.
End LogEntry.

Module Logger.

Definition ESC (s : string) : string := String "027"%char s.

Definition log_prefix (l : LogLevel.t) : string :=
  match l with
  | LogLevel.DEBUG => ESC "[36m[DEBUG]:" +:+ ESC "[0m "
  | LogLevel.INFO => EmptyString
  | LogLevel.WARN => ESC "[32m[WARN]:" +:+ ESC "[0m "
  | LogLevel.ERROR => ESC "[31m[ERROR]:" +:+ ESC "[0m "
  end.

(** Where the thread is in [worker_loop]: about to test the condition of [wait],
    asleep in it, or at the messages it still has to print. *)
Inductive worker_state : Type :=
| NotStarted
| Checking
| Sleeping
| Processing (processing_queue : list LogEntry.t)
| Finished.

(** The members of the instance; the calls of [notify_one] that are due; what was
    written to [std::cout]; and, for the specification, the messages the thread
    is done with. *)
Record t : Type := mk {
  level_ : LogLevel.t;
  running_ : bool;
  notify_ : bool;
  msg_queue_ : list LogEntry.t;
  worker_ : worker_state;
  notifications : nat;
  output : string;
  handled : list LogEntry.t
}.

(** The instance before [init]. *)
Definition instance : t := mk LogLevel.INFO false true [] NotStarted 0 EmptyString [].

Definition set_worker (w : worker_state) (l : t) : t :=
  mk (level_ l) (running_ l) (notify_ l) (msg_queue_ l) w (notifications l) (output l)
    (handled l).

Definition init (init_level : LogLevel.t) (l : t) : t :=
  mk init_level true (notify_ l) (msg_queue_ l) Checking (notifications l) (output l)
    (handled l).

Definition set_level (level : LogLevel.t) (l : t) : t :=
  mk level (running_ l) (notify_ l) (msg_queue_ l) (worker_ l) (notifications l) (output l)
    (handled l).

Definition should_log (level : LogLevel.t) (l : t) : bool := negb (LogLevel.ltb level (level_ l)).

Definition push_message (level : LogLevel.t) (msg : string) (l : t) : t :=
  mk (level_ l) (running_ l) (notify_ l) (msg_queue_ l ++ [LogEntry.mk level msg]) (worker_ l)
    (if notify_ l then S (notifications l) else notifications l) (output l) (handled l).

Definition pause (l : t) : t :=
  mk (level_ l) (running_ l) false (msg_queue_ l) (worker_ l) (notifications l) (output l)
    (handled l).

Definition resume (l : t) : t :=
  mk (level_ l) (running_ l) true (msg_queue_ l) (worker_ l) (S (notifications l)) (output l)
    (handled l).

Definition shutdown (l : t) : t :=
  mk (level_ l) false (notify_ l) (msg_queue_ l) (worker_ l) (S (notifications l)) (output l)
    (handled l).

(** A [notify_one] that is due wakes the thread if it sleeps. *)
Definition notify_one (l : t) : t :=
  mk (level_ l) (running_ l) (notify_ l) (msg_queue_ l)
    (match worker_ l with Sleeping => Checking | w => w end)
    (Nat.pred (notifications l)) (output l) (handled l).

Definition nonempty (q : list LogEntry.t) : bool := match q with [] => false | _ => true end.

(** The condition of [wait]. *)
Definition condition (l : t) : bool := (notify_ l && nonempty (msg_queue_ l)) || negb (running_ l).

(** The critical section of the loop, from the test of the condition on; the
    queue of the thread is empty. *)
Definition worker_check (l : t) : t :=
  if condition l then
    let processing_queue := msg_queue_ l in
    let l := mk (level_ l) (running_ l) (notify_ l) [] (worker_ l) (notifications l) (output l)
               (handled l) in
    if negb (running_ l) && negb (nonempty processing_queue)
    then set_worker Finished l else set_worker (Processing processing_queue) l
  else set_worker Sleeping l.

Definition line (entry : LogEntry.t) : string :=
  log_prefix (LogEntry.level entry) +:+ LogEntry.msg entry +:+ char_string NEWLINE.

(** One iteration over the messages, or the end of them. *)
Definition worker_print (l : t) : t :=
  match worker_ l with
  | Processing (entry :: rest) =>
      let text := if LogLevel.ltb (LogEntry.level entry) (level_ l) then EmptyString
                  else line entry in
      mk (level_ l) (running_ l) (notify_ l) (msg_queue_ l) (Processing rest) (notifications l)
        (output l +:+ text) (handled l ++ [entry])
  | Processing [] => set_worker Checking l
  | _ => l
  end.

(** What can happen next: calls from other threads, notifications, the thread,
    which may also wake up by itself. *)
Inductive event : Type :=
| Init (level : LogLevel.t)
| SetLevel (level : LogLevel.t)
| Push (level : LogLevel.t) (msg : string)
| Pause
| Resume
| Shutdown
| Notify
| SpuriousWake
| Check_
| Print_.

Inductive step : t -> event -> t -> Prop :=
| step_init level l : worker_ l = NotStarted -> step l (Init level) (init level l)
| step_level level l : step l (SetLevel level) (set_level level l)
| step_push level msg l : step l (Push level msg) (push_message level msg l)
| step_pause l : step l Pause (pause l)
| step_resume l : step l Resume (resume l)
| step_shutdown l : step l Shutdown (shutdown l)
| step_notify l : notifications l <> 0%nat -> step l Notify (notify_one l)
| step_spurious l : worker_ l = Sleeping -> step l SpuriousWake (set_worker Checking l)
| step_check l : worker_ l = Checking -> step l Check_ (worker_check l)
| step_print q l : worker_ l = Processing q -> step l Print_ (worker_print l).

Inductive run : list event -> t -> Prop :=
| run_nil : run [] instance
| run_snoc tr l e l' : run tr l -> step l e l' -> run (tr ++ [e]) l'.

End Logger.
