(* ===== verification/LoggerProps.v ===== *)
(** * Theorems on the logger

    In every interleaving of threads that log and the thread of the logger, no
    message is lost, reordered or slept through. *)

From S2P Require Import Prelude Logger.
Import Logger.

(** The messages logged by a history. *)
Definition pushed (tr : list event) : list LogEntry.t :=
  omap (fun e => match e with Push level msg => Some (LogEntry.mk level msg) | _ => None end) tr.

(** The messages the thread has taken and not printed. *)
Definition in_hand (l : t) : list LogEntry.t :=
  match worker_ l with Processing q => q | _ => [] end.

(** What is printed of messages at a level. *)
Definition text_of (level : LogLevel.t) (l : list LogEntry.t) : string :=
  fold_right (fun e s => (if LogLevel.ltb (LogEntry.level e) level then EmptyString else line e) +:+ s)
    EmptyString l.

#[local] Arguments text_of : simpl never.

Lemma text_of_snoc level l e :
  text_of level (l ++ [e])
  = text_of level l +:+ (if LogLevel.ltb (LogEntry.level e) level then EmptyString else line e).
Proof.
  unfold text_of. induction l as [|x l IH]; cbn [fold_right app].
  - by rewrite string_app_nil_r.
  - by rewrite IH, string_app_assoc.
Qed.

(** Where the thread may be. *)
Definition worker_ok (l : t) : Prop :=
  match worker_ l with
  | Sleeping => condition l = false \/ notifications l <> 0%nat
  | Finished => running_ l = false
  | NotStarted => handled l = []
  | _ => True
  end.

Lemma pushed_snoc tr e : pushed (tr ++ [e]) = pushed tr ++ pushed [e].
Proof. apply omap_app. Qed.

Lemma run_complete tr l :
  run tr l -> pushed tr = handled l ++ in_hand l ++ msg_queue_ l /\ worker_ok l.
Proof.
  induction 1 as [|tr l e l' _ [IH Hw] Hs]; [done|]. rewrite pushed_snoc, IH.
  unfold worker_ok, in_hand in *.
  destruct Hs as [lv l Hw'|lv l|lv m l|l|l|l|l Hn|l Hw'|l Hw'|q l Hw']; cbn.
  - rewrite Hw' in *. split; [by rewrite app_nil_r | done].
  - split; [by rewrite app_nil_r|]. by destruct (worker_ l).
  - split; [by rewrite !app_assoc|].
    destruct (worker_ l); try done. unfold condition in *. cbn.
    destruct (notify_ l); [by right | done].
  - split; [by rewrite app_nil_r|]. destruct (worker_ l); try done. unfold condition in *. cbn.
    destruct Hw as [Hw|Hw]; [left | by right]. by apply orb_false_iff in Hw as [_ ->].
  - split; [by rewrite app_nil_r|]. destruct (worker_ l); try done. by right.
  - split; [by rewrite app_nil_r|]. destruct (worker_ l); try done. by right.
  - by destruct (worker_ l); split; rewrite ?app_nil_r.
  - rewrite Hw'. split; [by rewrite app_nil_r | done].
  - rewrite Hw' in *. unfold worker_check. destruct (condition l) eqn:Ec.
    + cbn. destruct (running_ l) eqn:Er; cbn; [by rewrite !app_nil_r|].
      by destruct (msg_queue_ l); cbn; rewrite ?app_nil_r.
    + cbn. rewrite app_nil_r. split; [done|]. by left.
  - rewrite Hw' in *. unfold worker_print. rewrite Hw'.
    destruct q as [|entry q]; cbn; rewrite app_nil_r; [done|]. by rewrite <- !app_assoc.
Qed.

Definition is_set_level (e : event) : bool :=
  match e with SetLevel _ => true | _ => false end.

Definition is_init (level : LogLevel.t) (e : event) : Prop :=
  match e with Init level' => level' = level | _ => True end.

Lemma run_output level tr l :
  run tr l -> Forall (fun e => is_set_level e = false /\ is_init level e) tr ->
  output l = text_of level (handled l) /\ (worker_ l = NotStarted \/ level_ l = level).
Proof.
  induction 1 as [|tr l e l' Hr IH Hs]; [by split; [|left]|]. intros Hf.
  apply Forall_app in Hf as [Hf He]. destruct (IH Hf) as [Ho Hl]. clear IH.
  apply List.Forall_cons_iff in He as [[He1 He2] _].
  assert (Hh : worker_ l = NotStarted -> handled l = []).
  { intros Hw. apply run_complete in Hr as [_ Hok]. unfold worker_ok in Hok. by rewrite Hw in Hok. }
  destruct Hs as [lv l Hw'|lv l|lv m l|l|l|l|l Hn|l Hw'|l Hw'|q l Hw']; cbn in *; try done.
  - split; [done|]. right. done.
  - split; [done|]. destruct Hl as [Hl|Hl]; [left; by rewrite Hl | by right].
  - split; [done|]. right. by destruct Hl as [Hl|Hl]; [congruence|].
  - assert (level_ l = level) by (destruct Hl; congruence).
    unfold worker_check. destruct (condition l); [|by split; [|right]].
    cbn. by destruct (_ && _); split; [|right | |right].
  - assert (Hlv : level_ l = level) by (destruct Hl; congruence).
    unfold worker_print. rewrite Hw'. destruct q as [|entry q]; cbn; [by split; [|right]|].
    split; [|by right]. by rewrite text_of_snoc, Ho, Hlv.
Qed.

(** C25: The logger loses nothing and repeats nothing, whatever the threads do and
    whenever it is paused: the messages logged so far are, in order, those its
    thread is done with, those it holds and those in the queue; it does not sleep
    through a message, because while it sleeps either a notification is due or
    its condition is false; it ends only after a shutdown; and with the level
    set once, what was printed is the text of the messages it is done with, at
    that level. *)
Theorem logger_complete level tr l :
  run tr l ->
  pushed tr = handled l ++ in_hand l ++ msg_queue_ l /\
  (worker_ l = Sleeping -> condition l = false \/ notifications l <> 0%nat) /\
  (worker_ l = Finished -> running_ l = false) /\
  (Forall (fun e => is_set_level e = false /\ is_init level e) tr ->
   output l = text_of level (handled l)).
Proof.
  intros Hr. destruct (run_complete _ _ Hr) as [H1 H2]. unfold worker_ok in H2.
  split_and!; [done | by intros E; rewrite E in H2 | by intros E; rewrite E in H2|].
  intros Hf. by apply (run_output level tr l).
Qed.

(** ** Witness: two messages, one below the level *)

Definition sample_trace : list event :=
  [Push LogLevel.WARN "early"; Init LogLevel.WARN; Check_; Push LogLevel.INFO "hidden"; Print_].

Definition sample_logger : t :=
  worker_print (push_message LogLevel.INFO "hidden"
    (worker_check (init LogLevel.WARN (push_message LogLevel.WARN "early" instance)))).

Lemma sample_logger_run : run sample_trace sample_logger.
Proof.
  change sample_trace with
    ([] ++ [Push LogLevel.WARN "early"] ++ [Init LogLevel.WARN] ++ [Check_]
     ++ [Push LogLevel.INFO "hidden"] ++ [Print_]).
  rewrite !app_assoc.
  repeat (eapply run_snoc; [|first [by constructor | by econstructor]]). constructor.
Qed.

Lemma logger_complete_witness :
  pushed sample_trace = [LogEntry.mk LogLevel.WARN "early"; LogEntry.mk LogLevel.INFO "hidden"] /\
  output sample_logger = line (LogEntry.mk LogLevel.WARN "early").
Proof.
  destruct (logger_complete LogLevel.WARN sample_trace sample_logger sample_logger_run)
    as (H1 & _ & _ & H2).
  split; [exact H1|]. rewrite H2; [reflexivity|]. repeat constructor.
Defined.
