(* ===== verification/Double.v ===== *)
(** * Doubles

    The arithmetic of [double] the terminal interface uses (IEEE 754 binary64,
    rounding to the nearest with ties to even).  A double is represented by the
    rational number it is; every operation rounds the exact result to 53
    significant bits.  The numbers of the program stay far from the limits of
    the exponent, so there are no subnormal numbers, infinities or NaNs. *)

From Stdlib Require Import QArith Qround Qabs Qpower Lqa.
From S2P Require Import Prelude.
#[local] Open Scope Z_scope.

Module Double.

Abbreviation t := Q.

(** ** Rounding *)

(** The nearest integer, ties to even. *)
Definition rne (q : Q) : Z :=
  let f := Qfloor q in
  match Qcompare (q - inject_Z f) (1 # 2) with
  | Lt => f
  | Gt => f + 1
  | Eq => if Z.even f then f else f + 1
  end.

(** [2 ^ e] *)
Definition pow2 (e : Z) : Q := Qpower 2 e.

(** The [e] with [2 ^ e <= |q| < 2 ^ (e + 1)], for [q] other than 0. *)
Definition exponent (q : Q) : Z :=
  let e := Z.log2 (Z.abs (Qnum q)) - Z.log2 (Z.pos (Qden q)) in
  if Qle_bool (pow2 e) (Qabs q) then e else e - 1.

(** The distance of two neighbouring doubles at [q]. *)
Definition ulp (q : Q) : Q := pow2 (exponent q - 52).

(** Rounding to 53 bits. *)
Definition round_to_double (q : Q) : t :=
  if Qnum q =? 0 then 0%Q else Qred (inject_Z (rne (q / ulp q)) * ulp q).

(** ** Operations *)

(** [static_cast<double>(z)] *)
Definition of_Z (z : Z) : t := round_to_double (inject_Z z).

Definition div (x y : t) : t := round_to_double (x / y).
Definition mul (x y : t) : t := round_to_double (x * y).
Definition sub (x y : t) : t := round_to_double (x - y).

(** [x > y] *)
Definition gtb (x y : t) : bool := negb (Qle_bool x y).

(** [std::round]: halfway cases away from zero. *)
Definition round (x : t) : Z :=
  if Qle_bool 0 x then Qfloor (x + (1 # 2)) else - Qfloor (- x + (1 # 2)).

(** [static_cast<int64_t>(x)] *)
Definition trunc (x : t) : Z := if Qle_bool 0 x then Qfloor x else - Qfloor (- x).

(** Conversions of a whole number to [int] and [uint64_t]: undefined out of range. *)
Definition to_int (z : Z) : outcome Z :=
  if (INT_MIN <=? z) && (z <=? INT_MAX) then Ok z else Undef.

Definition to_uint64 (z : Z) : outcome Z :=
  if (0 <=? z) && (z <? 2 ^ 64) then Ok z else Undef.

(** A [float] literal of [num / den], converted to [double]: 24 bits. *)
Definition float_literal (num : Z) (den : positive) : t :=
  let q := num # den in
  if num =? 0 then 0%Q
  else let u := pow2 (exponent q - 23) in Qred (inject_Z (rne (q / u)) * u).

(** [std::fixed << std::setprecision(1)], for a number that is not negative. *)
Definition to_fixed1 (x : t) : string :=
  let tenths := rne (x * 10) in
  to_string (tenths / 10) +:+ "." +:+ to_string (tenths mod 10).

(** ** Laws *)

#[local] Open Scope Q_scope.

Lemma inject_Z_le a b : inject_Z a <= inject_Z b <-> (a <= b)%Z.
Proof. by rewrite Zle_Qle. Qed.

Lemma inject_Z_lt a b : inject_Z a < inject_Z b <-> (a < b)%Z.
Proof. by rewrite Zlt_Qlt. Qed.

Lemma inject_Z_nonneg z : (0 <= z)%Z -> 0 <= inject_Z z.
Proof. intros Hz. change 0 with (inject_Z 0). by apply inject_Z_le. Qed.

Lemma inject_Z_pos z : (0 < z)%Z -> 0 < inject_Z z.
Proof. intros Hz. change 0 with (inject_Z 0). by apply inject_Z_lt. Qed.

Lemma floor_bounds q : inject_Z (Qfloor q) <= q < inject_Z (Qfloor q) + 1.
Proof.
  split; [apply Qfloor_le|]. pose proof (Qlt_floor q) as H. by rewrite inject_Z_plus in H.
Qed.

Lemma floor_unique q z : inject_Z z <= q -> q < inject_Z z + 1 -> Qfloor q = z.
Proof.
  intros H1 H2. pose proof (floor_bounds q) as [H3 H4].
  assert (z < Qfloor q + 1)%Z by (apply inject_Z_lt; rewrite inject_Z_plus; change (inject_Z 1) with 1; lra).
  assert (Qfloor q < z + 1)%Z by (apply inject_Z_lt; rewrite inject_Z_plus; change (inject_Z 1) with 1; lra).
  lia.
Qed.

(** Rounding to an integer moves by at most one half. *)
Lemma rne_bounds q : inject_Z (rne q) - (1 # 2) <= q <= inject_Z (rne q) + (1 # 2).
Proof.
  unfold rne. pose proof (floor_bounds q) as [H1 H2].
  destruct (Qcompare_spec (q - inject_Z (Qfloor q)) (1 # 2)) as [E|E|E];
    [destruct (Z.even _)|..]; rewrite ?inject_Z_plus; change (inject_Z 1) with 1; lra.
Qed.

Lemma rne_inject z : rne (inject_Z z) = z.
Proof.
  unfold rne. rewrite Qfloor_Z.
  destruct (Qcompare_spec (inject_Z z - inject_Z z) (1 # 2)) as [E|E|E]; [lra | done | lra].
Qed.

#[global] Instance rne_proper : Proper (Qeq ==> eq) rne.
Proof.
  intros p q Hpq. unfold rne. rewrite (Qfloor_comp _ _ Hpq). by rewrite Hpq.
Qed.

Lemma pow2_pos e : 0 < pow2 e.
Proof. apply Qpower_0_lt. lra. Qed.

Lemma pow2_plus a b : pow2 (a + b) == pow2 a * pow2 b.
Proof. apply Qpower_plus. lra. Qed.

Lemma pow2_Z n : (0 <= n)%Z -> pow2 n == inject_Z (2 ^ n).
Proof. intros Hn. unfold pow2. rewrite Zpower_Qpower by done. reflexivity. Qed.

Lemma pow2_succ e : pow2 (e + 1) == 2 * pow2 e.
Proof. rewrite pow2_plus. change (pow2 1) with 2. lra. Qed.

(** A fraction between the powers of two of its parts. *)
Lemma fraction_log2 q :
  0 < q ->
  let e := (Z.log2 (Z.abs (Qnum q)) - Z.log2 (Z.pos (Qden q)))%Z in
  pow2 (e - 1) < q < pow2 (e + 1).
Proof.
  intros Hq. assert (Hn : (0 < Qnum q)%Z) by (destruct q as [[] d]; done).
  rewrite Z.abs_eq by lia. set (ln := Z.log2 (Qnum q)). set (ld := Z.log2 (Z.pos (Qden q))).
  cbv zeta. pose proof (Z.log2_spec (Qnum q) Hn) as Hln. fold ln in Hln.
  pose proof (Z.log2_spec (Z.pos (Qden q)) ltac:(lia)) as Hld. fold ld in Hld.
  pose proof (Z.log2_nonneg (Qnum q)). pose proof (Z.log2_nonneg (Z.pos (Qden q))).
  assert (Hqd : q * inject_Z (Z.pos (Qden q)) == inject_Z (Qnum q)).
  { destruct q as [n d]. unfold Qeq. cbn. lia. }
  destruct Hln as [Hl1 Hl2], Hld as [Hd1 Hd2].
  rewrite Zle_Qle, <- pow2_Z in Hl1, Hd1 by lia. rewrite Zlt_Qlt, <- pow2_Z in Hl2, Hd2 by lia.
  rewrite <- Z.add_1_r, pow2_succ in Hl2, Hd2.
  pose proof (pow2_pos ld) as Hp.
  assert (Hm : pow2 (ln - ld - 1) * (2 * pow2 ld) == pow2 ln).
  { rewrite <- pow2_succ, <- pow2_plus. by replace (ln - ld - 1 + (ld + 1))%Z with ln by lia. }
  assert (Hm' : pow2 (ln - ld + 1) * pow2 ld == 2 * pow2 ln).
  { rewrite <- pow2_succ, <- pow2_plus. by replace (ln - ld + 1 + ld)%Z with (ln + 1)%Z by lia. }
  pose proof (pow2_pos (ln - ld - 1)). pose proof (pow2_pos (ln - ld + 1)).
  split; nra.
Qed.

(** The exponent of a positive number. *)
Lemma exponent_spec q : 0 < q -> pow2 (exponent q) <= q < pow2 (exponent q + 1).
Proof.
  intros Hq. pose proof (fraction_log2 q Hq) as [H1 H2]. cbv zeta in H1, H2.
  unfold exponent. cbv zeta. rewrite Qabs_pos by lra.
  destruct (Qle_bool _ q) eqn:E.
  - apply Qle_bool_iff in E. split; [done | exact H2].
  - split; [lra|]. rewrite Z.sub_add.
    apply Qnot_le_lt. intros H. apply Qle_bool_iff in H. congruence.
Qed.

Lemma num_zero q : Qnum q = 0%Z -> q == 0.
Proof. intros H. unfold Qeq. cbn. lia. Qed.

(** Rounding moves by a relative error of at most [2 ^ -53]. *)
Lemma round_error q :
  0 <= q -> q - q * pow2 (-53) <= round_to_double q <= q + q * pow2 (-53).
Proof.
  intros Hq. unfold round_to_double. destruct (Qnum q =? 0)%Z eqn:E; bool_to_Z.
  - rewrite (num_zero q E). lra.
  - assert (Hp : 0 < q).
    { apply Qle_lteq in Hq as [|Hq]; [done|]. unfold Qeq in Hq. cbn in Hq. lia. }
    rewrite Qred_correct. destruct (exponent_spec q Hp) as [He _].
    pose proof (rne_bounds (q / ulp q)) as [H1 H2].
    assert (Hu : 0 < ulp q) by apply pow2_pos.
    assert (Hd : q / ulp q * ulp q == q) by (field; lra).
    assert (Hue : ulp q <= 2 * q * pow2 (-53)).
    { unfold ulp. replace (exponent q - 52)%Z with (exponent q + 1 + -53)%Z by lia.
      rewrite pow2_plus, pow2_succ. pose proof (pow2_pos (-53)). nra. }
    nra.
Qed.

(** Whole numbers of less than 53 bits, times a power of two, are doubles. *)
Lemma round_exact q m e :
  q == inject_Z m * pow2 e -> (0 <= m < 2 ^ 53)%Z -> round_to_double q == q.
Proof.
  intros Hqe Hm. unfold round_to_double.
  destruct (Qnum q =? 0)%Z eqn:E; bool_to_Z; [symmetry; by apply num_zero|].
  pose proof (pow2_pos e) as He. rewrite Qred_correct.
  assert (Hm0 : (0 < m)%Z).
  { destruct (Z.eq_dec m 0%Z) as [->|]; [|lia]. exfalso. apply E.
    change (inject_Z 0) with 0 in Hqe. rewrite Qmult_0_l in Hqe.
    unfold Qeq in Hqe. cbn in Hqe. lia. }
  apply inject_Z_lt in Hm0. change (inject_Z 0) with 0 in Hm0.
  assert (Hq : 0 < q) by nra. destruct (exponent_spec q Hq) as [H1 H2].
  assert (Hx : (exponent q - 52 <= e)%Z).
  { apply Z.lt_succ_r. apply Z.nle_gt. intros Hle.
    assert (Hmm : inject_Z m < pow2 53) by (rewrite pow2_Z by lia; apply inject_Z_lt; lia).
    assert (pow2 (53 + e) <= pow2 (exponent q)).
    { apply Qpower_le_compat_l; [lia | lra]. }
    rewrite pow2_plus in *. nra. }
  assert (Hu : 0 < ulp q) by apply pow2_pos.
  assert (Hs : pow2 e == ulp q * pow2 (e - (exponent q - 52))).
  { unfold ulp. rewrite <- pow2_plus. by replace (_ + _)%Z with e by lia. }
  assert (Hd : q / ulp q == inject_Z (m * 2 ^ (e - (exponent q - 52)))).
  { rewrite inject_Z_mult, <- pow2_Z by lia. rewrite Hs in Hqe. rewrite Hqe at 1. field. lra. }
  rewrite Hd, rne_inject, <- Hd. field. lra.
Qed.

Lemma of_Z_exact z : (0 <= z < 2 ^ 53)%Z -> of_Z z == inject_Z z.
Proof.
  intros Hz. apply (round_exact _ z 0); [|done]. change (pow2 0) with 1. lra.
Qed.

(** Every conversion is near its number. *)
Lemma of_Z_error z :
  (0 <= z)%Z -> inject_Z z - inject_Z z * pow2 (-53) <= of_Z z <= inject_Z z + inject_Z z * pow2 (-53).
Proof. intros Hz. apply round_error. change 0 with (inject_Z 0). by apply inject_Z_le. Qed.

(** The numbers that are doubles. *)
Definition is_double (q : Q) : Prop :=
  exists m e, q == inject_Z m * pow2 e /\ (0 <= m < 2 ^ 53)%Z.

Lemma round_double q : is_double q -> round_to_double q == q.
Proof. intros (m & e & Hq & Hm). by apply (round_exact q m e). Qed.

Lemma is_double_scale q r e : is_double q -> r == q * pow2 e -> is_double r.
Proof.
  intros (m & e' & Hq & Hm) Hr. exists m, (e' + e)%Z. split; [|done].
  rewrite Hr, Hq, pow2_plus. ring.
Qed.

Lemma is_double_Z z : (0 <= z < 2 ^ 53)%Z -> is_double (inject_Z z).
Proof. intros Hz. exists z, 0%Z. split; [|done]. change (pow2 0) with 1. ring. Qed.

(** What is rounded is a double. *)
Lemma round_is_double q : 0 <= q -> is_double (round_to_double q).
Proof.
  intros Hq. unfold round_to_double. destruct (Qnum q =? 0)%Z eqn:E; bool_to_Z.
  - exists 0%Z, 0%Z. split; [reflexivity | lia].
  - assert (Hp : 0 < q).
    { apply Qle_lteq in Hq as [|Hq]; [done|]. unfold Qeq in Hq. cbn in Hq. lia. }
    destruct (exponent_spec q Hp) as [H1 H2]. assert (Hu : 0 < ulp q) by apply pow2_pos.
    pose proof (rne_bounds (q / ulp q)) as [H3 H4]. set (m := rne (q / ulp q)) in *.
    assert (Hd : q / ulp q * ulp q == q) by (field; lra).
    assert (H53 : pow2 (exponent q + 1) == inject_Z (2 ^ 53) * ulp q).
    { rewrite <- pow2_Z by lia. unfold ulp. rewrite <- pow2_plus.
      by replace (exponent q + 1)%Z with (53 + (exponent q - 52))%Z by lia. }
    assert (Hm1 : inject_Z m < inject_Z (2 ^ 53 + 1)).
    { rewrite inject_Z_plus. change (inject_Z 1) with 1. nra. }
    assert (Hm0 : inject_Z (-1) < inject_Z m).
    { change (inject_Z (-1)) with (-(1)). assert (0 <= q / ulp q) by nra. lra. }
    apply (proj1 (inject_Z_lt _ _)) in Hm1, Hm0. destruct (Z.eq_dec m (2 ^ 53)%Z) as [->|Hm].
    + exists 1%Z, (exponent q + 1)%Z. rewrite Qred_correct, H53. split; [|lia].
      change (inject_Z 1) with 1. ring.
    + exists m, (exponent q - 52)%Z. rewrite Qred_correct. split; [done | lia].
Qed.

#[global] Instance round_proper : Proper (Qeq ==> eq) round.
Proof.
  intros p q Hpq. unfold round. assert (Qle_bool 0 p = Qle_bool 0 q) as -> by by rewrite Hpq.
  destruct (Qle_bool 0 q); [|f_equal]; apply Qfloor_comp; by rewrite Hpq.
Qed.

#[global] Instance to_fixed1_proper : Proper (Qeq ==> eq) to_fixed1.
Proof. intros p q Hpq. unfold to_fixed1. by rewrite Hpq. Qed.

(** Rounding half up what is nearer to the fraction [n / d] than any tie is;
    at a tie it must be exact. *)
Lemma round_nearest x n d :
  (0 < d)%Z -> 0 <= x ->
  2 * inject_Z n - 1 < 2 * x * inject_Z d < 2 * inject_Z n + 1 ->
  (((2 * n + d) mod (2 * d) = 0)%Z -> x * inject_Z d == inject_Z n) ->
  round x = ((2 * n + d) / (2 * d))%Z.
Proof.
  intros Hd Hx [H1 H2] Ht. unfold round.
  assert (Qle_bool 0 x = true) as -> by by apply Qle_bool_iff.
  pose proof (Z.div_mod (2 * n + d) (2 * d) ltac:(lia)) as Hdm.
  pose proof (Z.mod_pos_bound (2 * n + d) (2 * d) ltac:(lia)) as Hmb.
  set (r := ((2 * n + d) / (2 * d))%Z) in *. set (m := ((2 * n + d) mod (2 * d))%Z) in *.
  assert (Hr : 2 * inject_Z n + inject_Z d == 2 * inject_Z d * inject_Z r + inject_Z m).
  { change 2 with (inject_Z 2). rewrite <- !inject_Z_mult, <- !inject_Z_plus. by rewrite Hdm. }
  assert (Hm2 : inject_Z m + 1 <= 2 * inject_Z d).
  { change 1 with (inject_Z 1). change 2 with (inject_Z 2).
    rewrite <- inject_Z_plus, <- inject_Z_mult. apply inject_Z_le. lia. }
  apply inject_Z_pos in Hd. destruct (Z.eq_dec m 0%Z) as [Hm|Hm].
  - specialize (Ht Hm). rewrite Hm in *. change (inject_Z 0) with 0 in *. apply floor_unique; nra.
  - assert (Hm1 : 1 <= inject_Z m).
    { change 1 with (inject_Z 1). apply inject_Z_le. lia. }
    apply floor_unique; nra.
Qed.

Lemma round_Z z : (0 <= z)%Z -> round (inject_Z z) = z.
Proof.
  intros Hz. apply inject_Z_le in Hz. change (inject_Z 0) with 0 in Hz. unfold round.
  assert (Qle_bool 0 (inject_Z z) = true) as -> by by apply Qle_bool_iff.
  apply floor_unique; lra.
Qed.

Lemma round_bounds x : 0 <= x -> x - (1 # 2) <= inject_Z (round x) <= x + (1 # 2).
Proof.
  intros Hx. unfold round. assert (Qle_bool 0 x = true) as -> by by apply Qle_bool_iff.
  pose proof (floor_bounds (x + (1 # 2))). lra.
Qed.

End Double.
