(* ===== verification/Display.v ===== *)
(** * What the terminal shows (src/cli/{numeric-strings,create-numeric-display,create-histogram}.h)

    The texts of the metrics, the rows that show a number with its change, and
    the histograms.  FTXUI is a parameter: the class [Ftxui] has the elements
    and decorators the code builds its screen from.  A [std::string] that is
    asked for more characters than it can have throws a [length_error], which is
    an [Err] here. *)

From Stdlib Require Import QArith.
From S2P Require Import Prelude Double.
#[local] Open Scope Z_scope.

(** The elements of FTXUI the program uses; [x | d] is the decorator [d] on [x]. *)
Class Ftxui : Type := {
  Element : Type;
  Color : Type;
  text : string -> Element;
  separator : Element;
  bold : Element -> Element;
  dim : Element -> Element;
  center : Element -> Element;
  xflex : Element -> Element;
  yflex : Element -> Element;
  color : Color -> Element -> Element;
  hbox : list Element -> Element;
  vbox : list Element -> Element;
  gridbox : list (list Element) -> Element;
  RGB : Z -> Z -> Z -> Color;
  Interpolate : Double.t -> Color -> Color -> Color
}.

(** [std::string(n, ' ')] for a [size_t]. *)
Definition MAX_STRING : Z := 2 ^ 63 - 1.

Definition spaces_string (n : Z) : outcome string :=
  if n >? MAX_STRING then Err "length_error"
  else Ok (String.string_of_list_ascii (replicate (Z.to_nat n) " "%char)).

(** ** numeric-strings.h *)

Module NumericStrings.

Definition units : list string := ["B"; "KiB"; "MiB"; "GiB"; "TiB"].

Definition max_index : nat := 5.

(** The loop: at most [n] more divisions. *)
Fixpoint scale (n : nat) (v : Double.t) (indx : nat) : Double.t * nat :=
  match n with
  | O => (v, indx)
  | S n =>
      if Qle_bool 1024 v then scale n (Double.div v 1024) (S indx) else (v, indx)
  end.

Definition bytes_display_string (value : Z) : outcome string :=
  let '(v, indx) := scale max_index (Double.of_Z value) 0 in
  match units !! indx with
  | None => Undef
  | Some unit_ =>
      if Nat.eqb indx 0 then Ok (to_string (Double.trunc v) +:+ " " +:+ unit_)
      else Ok (Double.to_fixed1 v +:+ " " +:+ unit_)
  end.

(** [int] division truncates; the values are not negative where it is used. *)
Definition in_millions (value : Z) : string :=
  to_string (value ÷ (1000 * 1000)) +:+ "."
  +:+ to_string (Z.rem value (1000 * 1000) ÷ (100 * 1000)) +:+ "M".

Definition in_thousands (value : Z) : string := to_string (value ÷ 1000) +:+ "k".

Definition in_tenths (value : Z) : string :=
  to_string (value ÷ 1000) +:+ "." +:+ to_string (Z.rem value 1000 ÷ 100) +:+ "k".

Definition decimal_suffix_string (value : Z) : string :=
  if (value >=? 1000 * 1000) && (value <? 10 * 1000 * 1000) then in_millions value
  else if (value >=? 10 * 1000) && (value <? 1000 * 1000) then in_thousands value
  else if (value >=? 1000) && (value <? 10000) then in_tenths value
  else to_string value.

(** The text of a number beside the histogram; the padding is a [size_t]. *)
Definition y_axis_text (value : Z) : outcome string :=
  let! res :=
    if (value >=? 1000 * 1000) && (value <? 10 * 1000 * 1000)
    then Ok (" " +:+ in_millions value)
    else if (value >=? 10 * 1000) && (value <? 1000 * 1000) then Ok (" " +:+ in_thousands value)
    else if (value >=? 1000) && (value <? 10000) then Ok (" " +:+ in_tenths value)
    else
      let res := " " +:+ to_string value in
      let! padding := spaces_string (u64 (5 - Z.of_nat (String.length res))) in
      Ok (res +:+ padding) in
  Ok (res +:+ " ").

End NumericStrings.

(** ** color-scheme.h, create-numeric-display.h *)

Module NumericDisplay.
Section NumericDisplay.
Context `{Ftxui}.

Definition scheme_light_teal : Color := RGB 31 255 181.
Definition scheme_teal : Color := RGB 27 214 224.
Definition scheme_purple : Color := RGB 104 73 245.
Definition scheme_red : Color := RGB 224 27 75.

(** [value] is a [uint64_t], passed on as an [int64_t]. *)
Definition create_bytes_display (title : string) (value diff : Z) : outcome Element :=
  let! diff_element :=
    if diff >? 0 then
      let! s := NumericStrings.bytes_display_string diff in
      Ok (color scheme_light_teal (text (" +" +:+ s)))
    else Ok (text " ") in
  let! s := NumericStrings.bytes_display_string (i64 value) in
  Ok (hbox [text title; text s; diff_element]).

Definition create_numeric_display (title : string) (value diff : Z) : Element :=
  let diff_element :=
    if diff >? 0 then
      color scheme_light_teal (text (" +" +:+ NumericStrings.decimal_suffix_string diff))
    else if diff <? 0 then
      color scheme_red (text (" +" +:+ NumericStrings.decimal_suffix_string diff))
    else text " " in
  hbox [text title; text (NumericStrings.decimal_suffix_string (i64 value)); diff_element].

End NumericDisplay.
End NumericDisplay.

(** ** create-histogram.h *)

Module Histogram.

Definition latency_labels : list string :=
  ["64 "; "128"; "256"; "512"; "1  "; "2  "; "4  "; "8  "; "16 "; "32 "; "64 "; "128";
   "256"; "512"; "1  "; ">1 "].

Definition unit_labels : list string :=
  ["us "; "us "; "us "; "us "; "ms "; "ms "; "ms "; "ms "; "ms "; "ms "; "ms "; "ms ";
   "ms "; "ms "; "s  "; "s  "].

(** The literals are [float]s. *)
Definition hist_stops : list Double.t :=
  Eval vm_compute in
  [Double.float_literal 0 1; Double.float_literal 35 100; Double.float_literal 55 100;
   Double.float_literal 80 100; Double.float_literal 1 1].

(** U+2588 in UTF-8. *)
Definition block_char : string :=
  String "226"%char (String "150"%char (String "136"%char EmptyString)).

(** [std::max_element]: the first of the largest; [None] is the end iterator. *)
Definition max_element (l : list Z) : option Z :=
  match l with
  | [] => None
  | x :: l => Some (fold_left (fun m y => if m <? y then y else m) l x)
  end.

(** The loop over [hist_stops], from [i] on. *)
Fixpoint find_stop (t : Double.t) (fuel i : nat) : nat :=
  match fuel with
  | O => i
  | S fuel =>
      if Nat.ltb i (length hist_stops - 1)
      then match hist_stops !! S i with
           | Some stop => if Double.gtb t stop then find_stop t fuel (S i) else i
           | None => i
           end
      else i
  end.

(** The place of a column among the colors, in [0, 1]. *)
Definition column_place (width column : Z) : Double.t :=
  let t := Double.div (Double.of_Z column) (Double.of_Z (Z.max 1 (width - 1))) in
  if Double.gtb t 1 then 1%Q else if Double.gtb 0 t then 0%Q else t.

(** The characters to fill of a column of [height]. *)
Definition fill_of (height max_v val : Z) : outcome Z :=
  if max_v >? 0 then
    let! fill :=
      Double.to_int
        (Double.round
           (Double.mul (Double.div (Double.of_Z val) (Double.of_Z max_v))
              (Double.of_Z height))) in
    Ok (if fill >? height then height else fill)
  else Ok 0.

Section Histogram.
Context `{Ftxui}.

Definition hist_colors : list Color :=
  [NumericDisplay.scheme_light_teal; NumericDisplay.scheme_teal; NumericDisplay.scheme_teal;
   NumericDisplay.scheme_purple; NumericDisplay.scheme_red].

Definition rgb_interp (width column : Z) : outcome Color :=
  let t := column_place width column in
  let i := find_stop t (length hist_stops) 0 in
  if Nat.leb (length hist_colors - 1) i then
    match hist_colors !! (length hist_colors - 1)%nat with Some c => Ok c | None => Undef end
  else
    match hist_stops !! i, hist_stops !! S i, hist_colors !! i, hist_colors !! S i with
    | Some s0, Some s1, Some c0, Some c1 =>
        Ok (Interpolate (Double.div (Double.sub t s0) (Double.sub s1 s0)) c0 c1)
    | _, _, _, _ => Undef
    end.

(** [block] after the loop over [bin_width]. *)
Definition block (bin_width : nat) : string :=
  Nat.iter bin_width (fun b => b +:+ block_char) EmptyString.

(** The rows of a column from [r - 1] down to 0. *)
Fixpoint bar_rows (width column fill : Z) (bin_width : nat) (empty : string) (r : nat)
  : outcome (list Element) :=
  match r with
  | O => Ok []
  | S r =>
      let! row :=
        if Z.of_nat r <? fill then
          let! c := rgb_interp width column in
          Ok (color c (text (block bin_width)))
        else Ok (center (text empty)) in
      let! rows := bar_rows width column fill bin_width empty r in
      Ok (row :: rows)
  end.

(** The column of the bucket [i]; the labels are arrays of 16. *)
Definition column (height bin_width : nat) (max_v width : Z) (i : nat) (bucket : Z)
  : outcome Element :=
  let! fill := fill_of (Z.of_nat height) max_v (u64 bucket) in
  let! empty := spaces_string (Z.of_nat bin_width) in
  let! rows := bar_rows width (Z.of_nat i) fill bin_width empty height in
  match latency_labels !! i, unit_labels !! i with
  | Some latency, Some unit_ =>
      Ok (vbox (rows ++ [center (text empty); center (text latency); center (text unit_)]))
  | _, _ => Undef
  end.

(** The loop over the buckets, from [i] on. *)
Fixpoint columns (height bin_width : nat) (max_v width : Z) (i : nat) (buckets : list Z)
  : outcome (list Element) :=
  match buckets with
  | [] => Ok []
  | b :: buckets =>
      let! c := column height bin_width max_v width i b in
      let! cs := columns height bin_width max_v width (S i) buckets in
      Ok (c :: cs)
  end.

Definition y_label_width : Z := 6.

(** The number at a row of the axis. *)
Definition label_val (height max_v row : Z) : outcome Z :=
  let frac := Double.div (Double.of_Z row) (Double.of_Z (height - 1)) in
  Double.to_uint64 (Double.round (Double.mul frac (Double.of_Z max_v))).

(** The rows of the axis from [row - 1] down to 0. *)
Fixpoint axis_rows (height max_v : Z) (empty : string) (row_tick_counter row : nat)
  : outcome (list Element) :=
  match row with
  | O => Ok []
  | S row =>
      let! (e, counter) :=
        if negb (Nat.eqb row_tick_counter 0)
        then Ok (center (text empty), (row_tick_counter - 1)%nat)
        else
          let! v := label_val height max_v (Z.of_nat row) in
          let! lab := NumericStrings.y_axis_text v in
          Ok (center (text lab), 3%nat) in
      let! rows := axis_rows height max_v empty counter row in
      Ok (e :: rows)
  end.

(** [generate_histogram], with [height = 8] and [bin_width = 4] where the code
    leaves them out; a bucket is converted to [uint64_t]. *)
Definition generate_histogram (buckets : list Z) (title : string) (height bin_width : nat)
  : outcome Element :=
  match max_element buckets with
  | None => Undef
  | Some m =>
      let max_v := u64 m in
      let width := i32 (Z.of_nat (length buckets)) in
      let! cols := columns height bin_width max_v width 0 buckets in
      let! empty := spaces_string y_label_width in
      let! rows := axis_rows (Z.of_nat height) max_v empty 0 height in
      let gap := center (text empty) in
      let y_axis := vbox (rows ++ [gap; gap; gap]) in
      let body := hbox [y_axis; text " "; hbox cols] in
      Ok (vbox [center (bold (text title)); separator; body])
  end.

End Histogram.
End Histogram.
