(* ===== verification/DisplayProps.v ===== *)
(** * Properties of what the terminal shows

    The computation with doubles is compared with exact arithmetic: the bars of
    the histograms, the numbers on their axis and the texts of the byte counts
    are those of rational numbers rounded once; and the counts for which the
    program leaves its arrays or throws. *)

From Stdlib Require Import QArith Qround Qpower Lqa.
From S2P Require Import Prelude Double Metrics Display.
#[local] Open Scope Z_scope.

(** ** Byte counts *)

Import NumericStrings.

(** The loop divides exactly, and only as long as the value is 1024 or more. *)
Lemma scale_spec n : forall v i,
  (0 <= v)%Q -> Double.is_double v ->
  exists (j : nat) v',
    scale n v i = (v', (i + j)%nat) /\ (j <= n)%nat /\
    (v' == v * Double.pow2 (- (10 * Z.of_nat j)))%Q /\
    (j = n \/ (v' < 1024)%Q) /\ (j = 0%nat \/ (1 <= v')%Q).
Proof.
  induction n as [|n IH]; intros v i Hv Hd; cbn [scale].
  - exists 0%nat, v. rewrite Nat.add_0_r. split_and!; try done; try (by left).
    change (Double.pow2 (- (10 * Z.of_nat 0))) with 1%Q. ring.
  - destruct (Qle_bool 1024 v) eqn:E.
    + apply Qle_bool_iff in E.
      assert (Hq : (Double.div v 1024 == v * Double.pow2 (-10))%Q).
      { unfold Double.div. change (Double.pow2 (-10)) with (1 # 1024).
        assert (Hs : (v / 1024 == v * (1 # 1024))%Q) by (field).
        transitivity (v / 1024)%Q; [|exact Hs]. apply Double.round_double.
        apply (Double.is_double_scale v _ (-10)); [done | exact Hs]. }
      destruct (IH (Double.div v 1024) (S i)) as (j & v' & Hs & Hj & Hv' & H1 & H2).
      * rewrite Hq. change (Double.pow2 (-10)) with (1 # 1024). lra.
      * by apply (Double.is_double_scale v _ (-10)).
      * exists (S j), v'. rewrite Hs. split_and!.
        -- f_equal. lia.
        -- lia.
        -- rewrite Hv', Hq, <- Qmult_assoc, <- Double.pow2_plus.
           by replace (-10 + - (10 * Z.of_nat j)) with (- (10 * Z.of_nat (S j))) by lia.
        -- destruct H1; [left; lia | by right].
        -- right. destruct H2 as [->|H2]; [|done].
           rewrite Hv', Hq. change (Double.pow2 (- (10 * Z.of_nat 0))) with 1%Q.
           change (Double.pow2 (-10)) with (1 # 1024). lra.
    + exists 0%nat, v. rewrite Nat.add_0_r.
      assert (Hlt : (v < 1024)%Q).
      { apply Qnot_le_lt. intros H. apply Qle_bool_iff in H. congruence. }
      split_and!; try done; [lia | | by right | by left].
      change (Double.pow2 (- (10 * Z.of_nat 0))) with 1%Q. ring.
Qed.

(** A double near a count of bytes is on the same side of a power of two below [2 ^ 53]. *)
Lemma of_Z_large z : 2 ^ 50 <= z -> (inject_Z (2 ^ 50) <= Double.of_Z z)%Q.
Proof.
  intros Hz. destruct (Z.lt_ge_cases z (2 ^ 53)).
  - rewrite Double.of_Z_exact by lia. by apply Double.inject_Z_le.
  - pose proof (Double.of_Z_error z ltac:(lia)) as [He _].
    assert (Hz' : (inject_Z (2 ^ 53) <= inject_Z z)%Q) by by apply Double.inject_Z_le.
    change (Double.pow2 (-53)) with (1 # 9007199254740992)%Q in He.
    change (inject_Z (2 ^ 53)) with (9007199254740992 # 1)%Q in Hz'. change (inject_Z (2 ^ 50)) with (1125899906842624 # 1)%Q.
    nra.
Qed.

Lemma trunc_Z q z : (0 <= z) -> (q == inject_Z z)%Q -> Double.trunc q = z.
Proof.
  intros Hz Hq. unfold Double.trunc. apply Double.inject_Z_le in Hz. change (inject_Z 0) with 0%Q in Hz.
  assert (Qle_bool 0 q = true) as -> by (apply Qle_bool_iff; rewrite Hq; done).
  rewrite Hq. apply Qfloor_Z.
Qed.

(** What the loop finds for a count of bytes. *)
Lemma scale_bytes value :
  0 <= value < 2 ^ 53 ->
  exists (j : nat) v',
    scale max_index (Double.of_Z value) 0 = (v', j) /\ (j <= 5)%nat /\
    (v' * inject_Z (1024 ^ Z.of_nat j) == inject_Z value)%Q /\
    (j = 5%nat \/ value < 1024 ^ Z.of_nat (S j)) /\
    (j = 0%nat \/ 1024 ^ Z.of_nat j <= value).
Proof.
  intros Hv. pose proof (Double.of_Z_exact value Hv) as He.
  assert (H0 : (0 <= inject_Z value)%Q).
  { apply Double.inject_Z_nonneg. lia. }
  destruct (scale_spec max_index (Double.of_Z value) 0) as (j & v' & Hs & Hj & Hv' & H1 & H2).
  { by rewrite He. }
  { destruct (Double.is_double_Z value Hv) as (m & e & Hm & Hr). exists m, e. split; [by rewrite He | done]. }
  assert (Hp : forall k, 1024 ^ Z.of_nat k = 2 ^ (10 * Z.of_nat k)).
  { intros k. change 1024 with (2 ^ 10). rewrite <- Z.pow_mul_r by lia. done. }
  assert (Hm : (v' * inject_Z (1024 ^ Z.of_nat j) == inject_Z value)%Q).
  { rewrite Hv', He, Hp, <- Double.pow2_Z by lia. rewrite <- Qmult_assoc, <- Double.pow2_plus.
    replace (_ + _) with 0 by lia. change (Double.pow2 0) with 1%Q. ring. }
  assert (Hpos : (0 < inject_Z (1024 ^ Z.of_nat j))%Q).
  { apply Double.inject_Z_pos. lia. }
  exists j, v'. split_and!; try done.
  - destruct H1 as [->|H1]; [by left|]. right. apply Double.inject_Z_lt.
    rewrite Nat2Z.inj_succ, Z.pow_succ_r, inject_Z_mult by lia.
    change (inject_Z 1024) with 1024%Q. nra.
  - destruct H2 as [->|H2]; [by left|]. right. apply Double.inject_Z_le. nra.
Qed.

(** Only one number of divisions fits a count. *)
Lemma scale_unique value i j :
  (i <= 4)%nat -> 1024 ^ Z.of_nat i <= value < 1024 ^ Z.of_nat (S i) ->
  (j = 5%nat \/ value < 1024 ^ Z.of_nat (S j)) -> (j = 0%nat \/ 1024 ^ Z.of_nat j <= value) ->
  j = i.
Proof.
  intros Hi [H1 H2] Ha Hb. destruct (Nat.lt_trichotomy j i) as [Hc|[Hc|Hc]]; [|done|]; exfalso.
  - destruct Ha as [->|Ha]; [lia|].
    assert (1024 ^ Z.of_nat (S j) <= 1024 ^ Z.of_nat i) by (apply Z.pow_le_mono_r; lia). lia.
  - destruct Hb as [->|Hb]; [lia|].
    assert (1024 ^ Z.of_nat (S i) <= 1024 ^ Z.of_nat j) by (apply Z.pow_le_mono_r; lia). lia.
Qed.

Lemma scale_at value i :
  (i <= 4)%nat -> 0 <= value ->
  (i = 0%nat \/ 1024 ^ Z.of_nat i <= value) -> value < 1024 ^ Z.of_nat (S i) ->
  exists v',
    scale max_index (Double.of_Z value) 0 = (v', i) /\
    (v' * inject_Z (1024 ^ Z.of_nat i) == inject_Z value)%Q.
Proof.
  intros Hi H0 H1 H2.
  assert (Hmax : 1024 ^ Z.of_nat (S i) <= 1024 ^ 5) by (apply Z.pow_le_mono_r; lia).
  change (1024 ^ 5) with (2 ^ 50) in Hmax.
  destruct (scale_bytes value ltac:(lia)) as (j & v' & Hs & Hj & Hm & Ha & Hb).
  assert (j = i) as ->; [|by exists v'].
  destruct (Z.eq_dec value 0) as [->|Hne].
  - destruct H1 as [->|H1]; [|lia]. destruct Hb as [->|Hb]; [done | lia].
  - apply (scale_unique value i j); try done. split; [|done]. destruct H1 as [->|H1]; lia.
Qed.

(** The nearest number of tenths, in whole numbers. *)
Lemma tenths_near v' p value :
  0 < p -> (v' * inject_Z p == inject_Z value)%Q ->
  2 * Z.abs (Double.rne (v' * 10) * p - 10 * value) <= p.
Proof.
  intros Hp Hm. pose proof (Double.rne_bounds (v' * 10)) as [H3 H4].
  set (k := Double.rne (v' * 10)) in *.
  assert (Hq : (0 < inject_Z p)%Q).
  { by apply Double.inject_Z_pos. }
  assert (inject_Z (2 * (k * p)) <= inject_Z (20 * value + p))%Q.
  { rewrite inject_Z_plus, !inject_Z_mult, <- Hm. change (inject_Z 20) with 20%Q.
    change (inject_Z 2) with 2%Q. nra. }
  assert (inject_Z (20 * value) <= inject_Z (2 * (k * p) + p))%Q.
  { rewrite inject_Z_plus, !inject_Z_mult, <- Hm. change (inject_Z 20) with 20%Q.
    change (inject_Z 2) with 2%Q. nra. }
  rewrite <- Zle_Qle in *. lia.
Qed.

Lemma bytes_display_overflow value : 1024 ^ 5 <= value -> bytes_display_string value = Undef.
Proof.
  intros Hl. change (1024 ^ 5) with (2 ^ 50) in Hl. pose proof (of_Z_large value Hl) as Hz.
  change (inject_Z (2 ^ 50)) with (1125899906842624 # 1)%Q in Hz.
  destruct (scale_spec max_index (Double.of_Z value) 0) as (j & v' & Hs & Hj & Hv' & H1 & H2).
  { lra. }
  { apply Double.round_is_double, Double.inject_Z_nonneg. lia. }
  unfold bytes_display_string. rewrite Hs. assert (j = 5%nat) as ->; [|done].
  destruct H1 as [->|H1]; [done|]. unfold max_index in Hj.
  destruct (Nat.eq_dec j 5%nat) as [->|Hne]; [done|]. exfalso.
  assert (Hp : (Double.pow2 (-40) <= Double.pow2 (- (10 * Z.of_nat j)))%Q).
  { apply Qpower_le_compat_l; [lia | lra]. }
  change (Double.pow2 (-40)) with (1 # 1099511627776)%Q in Hp. nra.
Qed.

Lemma bytes_display_returns value :
  0 <= value < 2 ^ 50 -> exists s, bytes_display_string value = Ok s.
Proof.
  intros Hv. destruct (scale_bytes value ltac:(lia)) as (j & v' & Hs & Hj & _ & _ & Hb).
  unfold bytes_display_string. rewrite Hs.
  assert (Hj5 : (j < length units)%nat).
  { cbn. destruct Hb as [->|Hb]; [lia|]. destruct (Nat.eq_dec j 5%nat) as [->|]; [|lia].
    change (1024 ^ Z.of_nat 5) with (2 ^ 50) in Hb. lia. }
  destruct (lookup_lt_is_Some_2 units j Hj5) as [u ->]. destruct (Nat.eqb j 0); by eexists.
Qed.

(** C40: A count of bytes below 1024 is shown as it is; from 1024 on as a number of
    KiB, MiB, GiB or TiB, rounded to the nearest tenth from the exact value; from
    1024 TiB on the table of the units is read past its end. *)
Theorem bytes_display_spec value :
  0 <= value ->
  (value < 1024 -> bytes_display_string value = Ok (to_string value +:+ " B")) /\
  (forall (i : nat) unit_, (i <> 0)%nat -> units !! i = Some unit_ ->
     1024 ^ Z.of_nat i <= value < 1024 ^ Z.of_nat (S i) ->
     exists tenths,
       2 * Z.abs (tenths * 1024 ^ Z.of_nat i - 10 * value) <= 1024 ^ Z.of_nat i /\
       bytes_display_string value
       = Ok (to_string (tenths / 10) +:+ "." +:+ to_string (tenths mod 10) +:+ " " +:+ unit_)) /\
  (1024 ^ 5 <= value -> bytes_display_string value = Undef).
Proof.
  intros Hv. split_and!; [| |apply bytes_display_overflow].
  - intros Hlt. destruct (scale_at value 0) as (v' & Hs & Hm); [lia | done | by left | done |].
    unfold bytes_display_string. rewrite Hs. cbn [units lookup list_lookup Nat.eqb].
    rewrite (trunc_Z v' value); [done | done|]. rewrite <- Hm.
    change (inject_Z (1024 ^ Z.of_nat 0)) with 1%Q. ring.
  - intros i unit_ Hi Hu [H1 H2].
    destruct (scale_at value i) as (v' & Hs & Hm); [|done|by right|done|].
    { apply lookup_lt_Some in Hu. cbn in Hu. lia. }
    exists (Double.rne (v' * 10)). split; [apply tenths_near; [lia | done]|].
    unfold bytes_display_string. rewrite Hs, Hu.
    destruct (Nat.eqb_spec i 0) as [->|_]; [done|]. unfold Double.to_fixed1. cbv zeta.
    by rewrite !string_app_assoc.
Qed.

(** ** Numbers beside the histogram *)

Lemma length_to_string_lt1000 :
  forallb (fun v => Nat.leb (String.length (to_string (Z.of_nat v))) 3) (seq 0 1000) = true.
Proof. vm_compute. reflexivity. Qed.

Lemma short_number v : 0 <= v < 1000 -> (String.length (to_string v) <= 3)%nat.
Proof.
  intros Hv. pose proof length_to_string_lt1000 as H. rewrite forallb_forall in H.
  specialize (H (Z.to_nat v)). rewrite Z2Nat.id in H by lia. apply Nat.leb_le, H, in_seq. lia.
Qed.

Definition spaces (n : nat) : string := String.string_of_list_ascii (replicate n " "%char).

(** The text of a label: short numbers are filled up to four characters. *)
Definition label_text (v : Z) : string :=
  " " +:+ decimal_suffix_string v
  +:+ (if v <? 1000 then spaces (4 - String.length (to_string v)) else EmptyString) +:+ " ".

Lemma y_axis_text_spec v : 0 <= v < 10 ^ 7 -> y_axis_text v = Ok (label_text v).
Proof.
  intros Hv. unfold y_axis_text, label_text, decimal_suffix_string.
  destruct (v <? 1000) eqn:E; bool_to_Z.
  - repeat match goal with |- context [if ?b then _ else _] =>
      replace b with false by (symmetry; lia) end.
    pose proof (short_number v ltac:(lia)) as Hl. unfold spaces_string.
    rewrite string_length_app, u64_small by (cbn; lia). cbn [String.length].
    destruct (_ >? _) eqn:E'; bool_to_Z; [unfold MAX_STRING in E'; lia|]. cbn [obind].
    rewrite !string_app_assoc. unfold spaces.
    replace (Z.to_nat _) with (4 - String.length (to_string v))%nat by lia. done.
  - destruct ((v >=? 1000 * 1000) && _) eqn:E1; [cbn [obind]; by rewrite ?string_app_assoc|].
    destruct ((v >=? 10 * 1000) && _) eqn:E2; [cbn [obind]; by rewrite ?string_app_assoc|].
    replace ((v >=? 1000) && (v <? 10000)) with true by (symmetry; lia).
    cbn [obind]; by rewrite ?string_app_assoc.
Qed.

Lemma length_decimal_digits fuel : forall z acc,
  (String.length (decimal_digits fuel z acc) <= fuel + String.length acc)%nat.
Proof.
  induction fuel as [|f IH]; intros z acc; cbn [decimal_digits]; [lia|].
  destruct (z <? 10); cbn [String.length]; [lia|]. etransitivity; [apply IH | cbn; lia].
Qed.

Lemma digits_of_power k : forall fuel z acc,
  10 ^ Z.of_nat k <= z < 2 ^ Z.of_nat fuel ->
  (k + 1 + String.length acc <= String.length (decimal_digits fuel z acc))%nat.
Proof.
  induction k as [|k IH]; intros fuel z acc Hz.
  - destruct fuel as [|f]; [simpl in Hz; lia|]. cbn [decimal_digits].
    assert (Hge : forall f z acc,
      (String.length acc <= String.length (decimal_digits f z acc))%nat).
    { clear. induction f as [|f IH]; intros z acc; cbn [decimal_digits]; [lia|].
      destruct (z <? 10); cbn [String.length]; [lia|].
      specialize (IH (z / 10) (String (digit_char (z mod 10)) acc)). cbn in IH. lia. }
    destruct (z <? 10); cbn [String.length]; [lia|].
    specialize (Hge f (z / 10) (String (digit_char (z mod 10)) acc)). cbn in Hge. lia.
  - rewrite Nat2Z.inj_succ, Z.pow_succ_r in Hz by lia.
    assert (0 < 10 ^ Z.of_nat k) by (apply Z.pow_pos_nonneg; lia).
    destruct fuel as [|f]; [simpl in Hz; lia|]. cbn [decimal_digits].
    destruct (z <? 10) eqn:E; bool_to_Z; [lia|].
    rewrite Nat2Z.inj_succ, Z.pow_succ_r in Hz by lia.
    specialize (IH f (z / 10) (String (digit_char (z mod 10)) acc)). cbn [String.length] in IH.
    etransitivity; [|apply IH]; [lia|].
    split; [apply Z.div_le_lower_bound; lia | apply Z.div_lt_upper_bound; lia].
Qed.

(** A longer number has no room for its padding. *)
Lemma long_number v :
  10 ^ 7 <= v < 2 ^ 64 -> (8 <= String.length (to_string v) <= 64)%nat.
Proof.
  intros Hv. unfold to_string. rewrite Z.abs_eq by lia.
  replace (v <? 0) with false by (symmetry; lia).
  assert (Hl : Z.log2 v < 64) by (apply Z.log2_lt_pow2; lia).
  pose proof (Z.log2_nonneg v). pose proof (Z.log2_spec v ltac:(lia)) as [_ Hs]. split.
  - apply (digits_of_power 7 _ v EmptyString).
    rewrite (Nat2Z.inj_succ (Z.to_nat _)), Z2Nat.id by done. lia.
  - etransitivity; [apply length_decimal_digits|]. cbn [String.length]. lia.
Qed.

Lemma y_axis_text_throws v : 10 ^ 7 <= v < 2 ^ 64 -> y_axis_text v = Err "length_error".
Proof.
  intros Hv. unfold y_axis_text.
  repeat match goal with |- context [if (?a && ?b) then _ else _] =>
    replace (a && b) with false by (symmetry; lia) end.
  pose proof (long_number v Hv) as Hl. unfold spaces_string.
  rewrite string_length_app. cbn [String.length]. unfold u64.
  rewrite <- (Z.mod_add _ 1) by lia. rewrite Z.mod_small by lia.
  destruct (_ >? _) eqn:E; bool_to_Z; [done | unfold MAX_STRING in E; lia].
Qed.

(** ** Histograms *)

Import Histogram.

(** The first maximum is the largest number. *)
Lemma max_element_spec l :
  Forall (fun b => 0 <= b) l -> l <> [] -> max_element l = Some (foldr Z.max 0 l).
Proof.
  destruct l as [|x l]; [done|]. intros Hl _. cbn [max_element]. f_equal.
  apply List.Forall_cons_iff in Hl as [Hx Hl].
  assert (Hg : forall l x, 0 <= x -> Forall (fun b => 0 <= b) l ->
    fold_left (fun m y => if m <? y then y else m) l x = foldr Z.max 0 (x :: l)).
  { clear. induction l as [|y l IH]; intros x Hx Hl; [cbn; lia|].
    apply List.Forall_cons_iff in Hl as [Hy Hl]. cbn [fold_left].
    replace (if x <? y then y else x) with (Z.max x y) by (destruct (Z.ltb_spec x y); lia).
    rewrite IH by (done || lia). cbn [foldr]. lia. }
  by apply Hg.
Qed.

Lemma foldr_max_bounds l hi :
  0 < hi -> Forall (fun b => 0 <= b < hi) l ->
  0 <= foldr Z.max 0 l < hi /\ Forall (fun b => 0 <= b <= foldr Z.max 0 l) l.
Proof.
  intros Hhi. induction 1 as [|b l Hb _ [IH1 IH2]]; cbn [foldr]; [split; [lia | constructor]|].
  split; [lia|]. constructor; [lia|].
  eapply Forall_impl; [|exact IH2]. intros c Hc. cbn in Hc. lia.
Qed.

(** The height of a bar: [8 * b / max], rounded half up, without doubles. *)
Definition fill_spec (max b : Z) : Z := if max =? 0 then 0 else (16 * b + max) / (2 * max).

(** A quotient of whole numbers in doubles. *)
Lemma div_error b d :
  0 <= b < 2 ^ 53 -> 0 < d < 2 ^ 53 ->
  let r := Double.div (Double.of_Z b) (Double.of_Z d) in
  Double.is_double r /\ (0 <= r)%Q /\
  (inject_Z b - inject_Z b * Double.pow2 (-53) <= r * inject_Z d
   <= inject_Z b + inject_Z b * Double.pow2 (-53))%Q /\
  (Double.is_double (inject_Z b / inject_Z d) -> (r * inject_Z d == inject_Z b)%Q).
Proof.
  intros Hb Hd. cbv zeta. unfold Double.div.
  set (q := (Double.of_Z b / Double.of_Z d)%Q).
  assert (Hq : (q == inject_Z b / inject_Z d)%Q) by (unfold q; rewrite !Double.of_Z_exact by lia; reflexivity).
  pose proof (Double.inject_Z_nonneg b ltac:(lia)) as Hb0.
  pose proof (Double.inject_Z_pos d ltac:(lia)) as Hd0.
  assert (Hqd : (q * inject_Z d == inject_Z b)%Q) by (rewrite Hq; field; lra).
  assert (Hq0 : (0 <= q)%Q) by nra.
  pose proof (Double.round_error q Hq0) as [H1 H2].
  assert (Hsmall : (Double.pow2 (-53) <= 1)%Q) by (change (Double.pow2 (-53)) with (1 # 9007199254740992)%Q; lra).
  pose proof (Double.pow2_pos (-53)) as Hp. set (eps := Double.pow2 (-53)) in *.
  split; [by apply Double.round_is_double|]. split; [nra|]. split.
  - assert (He : (q * eps * inject_Z d == inject_Z b * eps)%Q) by (rewrite <- Hqd; ring). split; nra.
  - intros (m & e & Hm & Hr). rewrite <- Hqd. rewrite (Double.round_exact q m e); [done | by rewrite Hq | done].
Qed.

Lemma round_mul8 r : Double.is_double r -> (Double.mul r (Double.of_Z 8) == r * 8)%Q.
Proof.
  intros Hr. unfold Double.mul.
  assert (Hq : (r * Double.of_Z 8 == r * Double.pow2 3)%Q) by reflexivity.
  rewrite Double.round_double; [exact Hq|]. by apply (Double.is_double_scale r _ 3).
Qed.

(** The quotient of a tie between two heights is a double: sixteenths. *)
Lemma tie_is_double b max :
  0 <= b <= max -> 0 < max -> (2 * (8 * b) + max) mod (2 * max) = 0 ->
  Double.is_double (inject_Z b / inject_Z max).
Proof.
  intros Hb Hm Ht. apply Z.mod_divide in Ht as [R HR]; [|lia].
  exists (2 * R - 1), (-4). split; [|nia].
  assert (Hb' : (inject_Z 16 * inject_Z b == inject_Z (2 * R - 1) * inject_Z max)%Q).
  { rewrite <- !inject_Z_mult. replace (16 * b) with ((2 * R - 1) * max) by lia. reflexivity. }
  change (Double.pow2 (-4)) with (1 # 16)%Q. change (inject_Z 16) with 16%Q in Hb'.
  pose proof (Double.inject_Z_pos max ltac:(lia)).
  assert (Hbb : (inject_Z b == (1 # 16) * (inject_Z (2 * R - 1) * inject_Z max))%Q) by lra.
  rewrite Hbb. field. lra.
Qed.

(** Counts this small leave the error of a double far below a tie. *)
Lemma small_error b :
  b < 2 ^ 40 -> (inject_Z b * Double.pow2 (-53) < 1 # 4096)%Q.
Proof.
  intros Hb. assert (inject_Z b <= inject_Z (2 ^ 40))%Q as Hb40 by (apply Double.inject_Z_le; lia).
  change (inject_Z (2 ^ 40)) with (1099511627776 # 1)%Q in Hb40.
  change (Double.pow2 (-53)) with (1 # 9007199254740992)%Q. lra.
Qed.

Lemma fill_exact max b :
  0 <= b <= max -> max < 2 ^ 40 -> fill_of 8 max b = Ok (fill_spec max b).
Proof.
  intros Hb Hm. unfold fill_of, fill_spec. destruct (max >? 0) eqn:E; bool_to_Z.
  2: { by replace (max =? 0) with true by (symmetry; lia). }
  replace (max =? 0) with false by (symmetry; lia).
  destruct (div_error b max) as (Hd & H0 & [H1 H2] & Hx); [lia | lia|].
  rewrite (round_mul8 _ Hd). set (r := Double.div (Double.of_Z b) (Double.of_Z max)) in *.
  pose proof (small_error b ltac:(lia)) as Hs.
  assert (H8 : (inject_Z (8 * b) == 8 * inject_Z b)%Q) by (by rewrite inject_Z_mult).
  rewrite (Double.round_nearest (r * 8) (8 * b) max); [|lia|lra|rewrite H8; split; lra|].
  2: { intros Ht. rewrite H8, <- (Hx (tie_is_double b max Hb ltac:(lia) Ht)). ring. }
  replace (2 * (8 * b)) with (16 * b) by lia.
  assert (0 <= (16 * b + max) / (2 * max) <= 8).
  { split; [apply Z.div_pos; lia|]. apply Z.lt_succ_r, Z.div_lt_upper_bound; lia. }
  unfold Double.to_int, INT_MIN, INT_MAX.
  replace (_ && _) with true by (symmetry; lia). cbn [obind]. f_equal.
  destruct (_ >? 8) eqn:E'; bool_to_Z; lia.
Qed.

(** The numbers of the two labels. *)
Lemma label_top max : 0 <= max < 2 ^ 53 -> label_val 8 max 7 = Ok max.
Proof.
  intros Hm. unfold label_val, Double.mul.
  assert (Hq : (Double.div (Double.of_Z 7) (Double.of_Z (8 - 1)) * Double.of_Z max == inject_Z max)%Q).
  { rewrite (Double.of_Z_exact max) by lia. change (Double.div (Double.of_Z 7) (Double.of_Z (8 - 1))) with 1%Q. ring. }
  rewrite (Double.round_exact _ max 0); [|rewrite Hq; change (Double.pow2 0) with 1%Q; ring|done].
  rewrite Hq, Double.round_Z by lia. unfold Double.to_uint64.
  by replace (_ && _) with true by (symmetry; lia).
Qed.

Lemma label_middle max : 0 <= max < 2 ^ 40 -> label_val 8 max 3 = Ok ((6 * max + 7) / 14).
Proof.
  intros Hm. unfold label_val, Double.mul.
  set (f := Double.div (Double.of_Z 3) (Double.of_Z (8 - 1))).
  assert (Hf : f = (7720456504063707 # 18014398509481984)%Q) by (vm_compute; reflexivity).
  pose proof (Double.inject_Z_nonneg max ltac:(lia)) as H0.
  pose proof (small_error max ltac:(lia)) as Hs.
  change (Double.pow2 (-53)) with (1 # 9007199254740992)%Q in Hs.
  set (y := (f * Double.of_Z max)%Q).
  assert (Hy : (y == f * inject_Z max)%Q).
  { unfold y. rewrite (Double.of_Z_exact max) by lia. reflexivity. }
  rewrite Hf in Hy. pose proof (Double.round_error y ltac:(lra)) as [H1 H2].
  change (Double.pow2 (-53)) with (1 # 9007199254740992)%Q in H1, H2.
  set (x := Double.round_to_double y) in *.
  assert (H3 : (inject_Z (3 * max) == 3 * inject_Z max)%Q) by (by rewrite inject_Z_mult).
  rewrite (Double.round_nearest x (3 * max) 7); [|lia|lra|rewrite H3; change (inject_Z 7) with 7%Q; split; lra|].
  2: { intros Ht. exfalso. apply Z.mod_divide in Ht as [R HR]; lia. }
  replace (2 * (3 * max) + 7) with (6 * max + 7) by lia. change (2 * 7) with 14.
  assert (0 <= (6 * max + 7) / 14 < 2 ^ 64).
  { split; [apply Z.div_pos; lia|]. apply Z.div_lt_upper_bound; lia. }
  unfold Double.to_uint64. by replace (_ && _) with true by (symmetry; lia).
Qed.

Definition value_or {A} (d : A) (m : outcome A) : A := match m with Ok a => a | _ => d end.

Section Histogram.
Context `{Ftxui}.

Lemma spaces_string_ok n : 0 <= n <= MAX_STRING -> spaces_string n = Ok (spaces (Z.to_nat n)).
Proof. intros Hn. unfold spaces_string. destruct (_ >? _) eqn:E; bool_to_Z; [lia | done]. Qed.

(** The segment of a column and its place there, for all 16 columns. *)
Definition segment (i : nat) : nat := find_stop (column_place 16 (Z.of_nat i)) 5 0.

Definition segment_place (i : nat) : option Double.t :=
  match hist_stops !! segment i, hist_stops !! S (segment i) with
  | Some s0, Some s1 =>
      Some (Double.div (Double.sub (column_place 16 (Z.of_nat i)) s0) (Double.sub s1 s0))
  | _, _ => None
  end.

Definition segment_ok (i : nat) : bool :=
  Nat.ltb (segment i) 4 &&
  match segment_place i with Some s => Qle_bool 0 s && Qle_bool s 1 | None => false end.

Lemma segments_ok : forallb segment_ok (seq 0 16) = true.
Proof. vm_compute. reflexivity. Qed.

(** The colour of a column lies between two neighbours of the scheme. *)
Definition between_colors (i : nat) (c : Color) : Prop :=
  exists s c0 c1,
    hist_colors !! segment i = Some c0 /\ hist_colors !! S (segment i) = Some c1 /\
    segment_place i = Some s /\ (0 <= s <= 1)%Q /\ c = Interpolate s c0 c1.

Lemma rgb_interp_ok i :
  (i < 16)%nat -> exists c, rgb_interp 16 (Z.of_nat i) = Ok c /\ between_colors i c.
Proof.
  intros Hi. pose proof segments_ok as Hs. rewrite forallb_forall in Hs.
  specialize (Hs i ltac:(apply in_seq; lia)). unfold segment_ok in Hs.
  apply andb_true_iff in Hs as [Hk Hs]. apply Nat.ltb_lt in Hk.
  destruct (segment_place i) as [s|] eqn:Es; [|done].
  apply andb_true_iff in Hs as [H0 H1]. apply Qle_bool_iff in H0, H1.
  destruct (lookup_lt_is_Some_2 hist_colors (segment i)) as [c0 E0];
    [change (length hist_colors) with 5%nat; lia|].
  destruct (lookup_lt_is_Some_2 hist_colors (S (segment i))) as [c1 E1];
    [change (length hist_colors) with 5%nat; lia|].
  exists (Interpolate s c0 c1). split; [|by exists s, c0, c1].
  unfold rgb_interp. fold (segment i). change (length hist_colors - 1)%nat with 4%nat.
  change (find_stop _ (length hist_stops) 0) with (segment i).
  destruct (Nat.leb_spec 4 (segment i)) as [|_]; [lia|]. rewrite E0, E1.
  unfold segment_place in Es. destruct (hist_stops !! segment i); [|done].
  destruct (hist_stops !! S (segment i)); [|done]. by injection Es as <-.
Qed.

(** The blank and the filled rows of a bar. *)
Definition blank (n : nat) : Element := center (text (spaces n)).

Lemma bar_rows_ok width column c fill bin_width empty r :
  rgb_interp width column = Ok c ->
  bar_rows width column fill bin_width empty r
  = Ok (replicate (r - Z.to_nat fill) (center (text empty))
        ++ replicate (Nat.min r (Z.to_nat fill)) (color c (text (block bin_width)))).
Proof.
  intros Hc. induction r as [|r IH]; [done|]. cbn [bar_rows]. rewrite IH, Hc.
  destruct (Z.ltb_spec (Z.of_nat r) fill) as [Hr|Hr]; cbn [obind]; f_equal.
  - replace (S r - Z.to_nat fill)%nat with 0%nat by lia.
    replace (r - Z.to_nat fill)%nat with 0%nat by lia.
    replace (Nat.min (S r) (Z.to_nat fill)) with (S r) by lia.
    by replace (Nat.min r (Z.to_nat fill)) with r by lia.
  - replace (S r - Z.to_nat fill)%nat with (S (r - Z.to_nat fill)) by lia.
    by replace (Nat.min (S r) (Z.to_nat fill)) with (Nat.min r (Z.to_nat fill)) by lia.
Qed.

(** ** The histogram, without doubles *)

Definition column_ref (colour : nat -> Color) (max : Z) (i : nat) (b : Z) : Element :=
  let fill := Z.to_nat (fill_spec max b) in
  vbox (replicate (8 - fill) (blank 4) ++ replicate fill (color (colour i) (text (block 4)))
        ++ [blank 4; center (text (List.nth i latency_labels EmptyString));
            center (text (List.nth i unit_labels EmptyString))]).

(** Two labels, four rows apart: the largest count and three sevenths of it. *)
Definition axis_ref (max : Z) : Element :=
  vbox ([center (text (label_text max)); blank 6; blank 6; blank 6;
         center (text (label_text ((6 * max + 7) / 14))); blank 6; blank 6; blank 6]
        ++ [blank 6; blank 6; blank 6]).

Definition histogram_ref (colour : nat -> Color) (buckets : list Z) (title : string) : Element :=
  let max := foldr Z.max 0 buckets in
  vbox [center (bold (text title)); separator;
        hbox [axis_ref max; text " "; hbox (imap (column_ref colour max) buckets)]].

Lemma lookup_nth (l : list string) i : (i < length l)%nat -> l !! i = Some (List.nth i l EmptyString).
Proof. intros Hi. destruct (lookup_lt_is_Some_2 l i Hi) as [x Hx]. by rewrite nth_lookup, Hx. Qed.

(** A column is drawn whenever its bar can be computed. *)
Lemma column_ok max i b f c :
  (i < 16)%nat -> rgb_interp 16 (Z.of_nat i) = Ok c -> fill_of 8 max (u64 b) = Ok f ->
  Histogram.column 8 4 max 16 i b
  = Ok (vbox (replicate (8 - Z.to_nat f) (blank 4)
              ++ replicate (Nat.min 8 (Z.to_nat f)) (color c (text (block 4)))
              ++ [blank 4; center (text (List.nth i latency_labels EmptyString));
                  center (text (List.nth i unit_labels EmptyString))])).
Proof.
  intros Hi Hc Hf. unfold Histogram.column. change (Z.of_nat 8) with 8. rewrite Hf. cbn [obind].
  rewrite spaces_string_ok by done. cbn [obind]. rewrite (bar_rows_ok _ _ c) by done. cbn [obind].
  rewrite !lookup_nth by done. by rewrite <- app_assoc.
Qed.

Lemma columns_ok max (f : nat -> Z -> Element) buckets : forall i,
  (forall j b, buckets !! j = Some b -> Histogram.column 8 4 max 16 (i + j) b = Ok (f (i + j)%nat b)) ->
  columns 8 4 max 16 i buckets = Ok (imap (fun j => f (i + j)%nat) buckets).
Proof.
  induction buckets as [|b l IH]; intros i Hc; cbn [columns]; [done|].
  pose proof (Hc 0%nat b eq_refl) as H0. rewrite Nat.add_0_r in H0. rewrite H0. cbn [obind].
  rewrite (IH (S i)).
  - cbn [obind imap]. rewrite Nat.add_0_r. do 2 f_equal. apply imap_ext. intros j x _. cbn.
    by rewrite Nat.add_succ_r.
  - intros j b' Hb. rewrite Nat.add_succ_l, <- Nat.add_succ_r. by apply Hc.
Qed.

Lemma fill_spec_bounds max b : 0 <= b <= max -> 0 <= fill_spec max b <= 8.
Proof.
  intros Hb. unfold fill_spec. destruct (max =? 0) eqn:E; bool_to_Z; [lia|].
  split; [apply Z.div_pos; lia|]. apply Z.lt_succ_r, Z.div_lt_upper_bound; lia.
Qed.

Lemma column_reference colour max i b :
  (i < 16)%nat -> rgb_interp 16 (Z.of_nat i) = Ok (colour i) -> 0 <= b <= max -> max < 2 ^ 40 ->
  Histogram.column 8 4 max 16 i b = Ok (column_ref colour max i b).
Proof.
  intros Hi Hc Hb Hm. rewrite (column_ok max i b (fill_spec max b) (colour i)); [|done|done|].
  - unfold column_ref. cbv zeta. pose proof (fill_spec_bounds max b Hb).
    by replace (Nat.min 8 (Z.to_nat (fill_spec max b))) with (Z.to_nat (fill_spec max b)) by lia.
  - rewrite u64_small by lia. by apply fill_exact.
Qed.

Lemma axis_rows_ok max :
  0 <= max < 10 ^ 7 ->
  (let! rows := axis_rows 8 max (spaces 6) 0 8 in
   Ok (vbox (rows ++ [blank 6; blank 6; blank 6]))) = Ok (axis_ref max).
Proof.
  intros Hm. cbn [axis_rows Nat.eqb negb Nat.sub]. change (Z.of_nat 7) with 7. change (Z.of_nat 3) with 3.
  rewrite label_top by lia. cbn [obind]. rewrite y_axis_text_spec by lia. cbn [obind].
  rewrite label_middle by lia. cbn [obind]. rewrite y_axis_text_spec; [done|].
  split; [apply Z.div_pos; lia|]. apply Z.div_lt_upper_bound; lia.
Qed.

(** Beyond: the bars can be computed, the top label cannot be written. *)
Lemma fill_returns max b : 0 <= b <= max -> max < 2 ^ 63 -> exists f, fill_of 8 max b = Ok f.
Proof.
  intros Hb Hm. unfold fill_of. destruct (max >? 0) eqn:E; bool_to_Z; [|by exists 0].
  pose proof (Double.of_Z_error b ltac:(lia)) as [Hb1 Hb2].
  pose proof (Double.of_Z_error max ltac:(lia)) as [Hm1 Hm2].
  pose proof (Double.inject_Z_nonneg b ltac:(lia)). pose proof (Double.inject_Z_pos max ltac:(lia)).
  assert (Hle : (inject_Z b <= inject_Z max)%Q) by (apply Double.inject_Z_le; lia).
  change (Double.pow2 (-53)) with (1 # 9007199254740992)%Q in Hb1, Hb2, Hm1, Hm2.
  set (q := (Double.of_Z b / Double.of_Z max)%Q).
  assert (Hq : (q * Double.of_Z max == Double.of_Z b)%Q) by (unfold q; field; lra).
  assert (Hq0 : (0 <= q)%Q) by nra. assert (Hq2 : (q <= 2)%Q) by nra.
  pose proof (Double.round_error q Hq0) as [He1 He2].
  change (Double.pow2 (-53)) with (1 # 9007199254740992)%Q in He1, He2.
  set (r := Double.round_to_double q) in *.
  assert (Double.round (Double.mul (Double.div (Double.of_Z b) (Double.of_Z max)) (Double.of_Z 8))
          = Double.round (r * 8)) as ->.
  { by rewrite (round_mul8 (Double.div (Double.of_Z b) (Double.of_Z max)) (Double.round_is_double q Hq0)). }
  pose proof (Double.round_bounds (r * 8) ltac:(lra)) as [Hr1 Hr2].
  assert (-1 < Double.round (r * 8)) by (apply Double.inject_Z_lt; change (inject_Z (-1)) with (-1)%Q; lra).
  assert (Double.round (r * 8) < 100) by (apply Double.inject_Z_lt; change (inject_Z 100) with 100%Q; lra).
  unfold Double.to_int, INT_MIN, INT_MAX. replace (_ && _) with true by (symmetry; lia).
  eexists. reflexivity.
Qed.

Lemma label_top_large max :
  10 ^ 7 <= max < 2 ^ 63 -> exists v, label_val 8 max 7 = Ok v /\ 10 ^ 7 <= v < 2 ^ 64.
Proof.
  intros Hm. destruct (Z.lt_ge_cases max (2 ^ 53)).
  { exists max. split; [apply label_top; lia | lia]. }
  unfold label_val, Double.mul. change (Double.div (Double.of_Z 7) (Double.of_Z (8 - 1))) with 1%Q.
  assert (Hd : Double.is_double (Double.of_Z max)).
  { apply Double.round_is_double, Double.inject_Z_nonneg. lia. }
  assert (Hq : (Double.round_to_double (1 * Double.of_Z max) == Double.of_Z max)%Q).
  { rewrite Double.round_double; [ring|]. apply (Double.is_double_scale (Double.of_Z max) _ 0); [done|].
    change (Double.pow2 0) with 1%Q. ring. }
  apply Double.round_proper in Hq. rewrite Hq. clear Hq.
  pose proof (Double.of_Z_error max ltac:(lia)) as [H1 H2].
  change (Double.pow2 (-53)) with (1 # 9007199254740992)%Q in H1, H2.
  assert (H3 : (inject_Z (2 ^ 53) <= inject_Z max)%Q) by (apply Double.inject_Z_le; lia).
  assert (H4 : (inject_Z max < inject_Z (2 ^ 63))%Q) by (apply Double.inject_Z_lt; lia).
  change (inject_Z (2 ^ 53)) with (9007199254740992 # 1)%Q in H3.
  change (inject_Z (2 ^ 63)) with (9223372036854775808 # 1)%Q in H4.
  pose proof (Double.round_bounds (Double.of_Z max) ltac:(lra)) as [H5 H6].
  set (v := Double.round (Double.of_Z max)) in *.
  assert (10 ^ 7 < v) by (apply Double.inject_Z_lt; change (inject_Z (10 ^ 7)) with (10000000 # 1)%Q; lra).
  assert (v < 2 ^ 64).
  { apply Double.inject_Z_lt. change (inject_Z (2 ^ 64)) with (18446744073709551616 # 1)%Q. lra. }
  unfold Double.to_uint64. replace (_ && _) with true by (symmetry; lia).
  exists v. split; [done | lia].
Qed.

Lemma histogram_drawn buckets title :
  length buckets = NUM_BUCKETS -> Forall (fun b => 0 <= b < 10 ^ 7) buckets ->
  exists colour,
    (forall i, (i < NUM_BUCKETS)%nat -> between_colors i (colour i)) /\
    generate_histogram buckets title 8 4 = Ok (histogram_ref colour buckets title).
Proof.
  intros Hl Hb. destruct (foldr_max_bounds buckets (10 ^ 7) ltac:(lia) Hb) as [Hm Hle].
  set (colour := fun i => match rgb_interp 16 (Z.of_nat i) with Ok c => c | _ => NumericDisplay.scheme_red end).
  assert (Hc : forall i, (i < 16)%nat -> rgb_interp 16 (Z.of_nat i) = Ok (colour i) /\ between_colors i (colour i)).
  { intros i Hi. destruct (rgb_interp_ok i Hi) as (c & H1 & H2). unfold colour. by rewrite H1. }
  exists colour. split; [intros i Hi; by apply Hc|]. unfold generate_histogram.
  rewrite max_element_spec; [|eapply Forall_impl; [|exact Hb]; cbn; lia | by destruct buckets].
  cbv zeta. rewrite Hl. set (max := foldr Z.max 0 buckets) in *. rewrite u64_small by lia.
  change (i32 (Z.of_nat NUM_BUCKETS)) with 16. change (Z.of_nat 8) with 8.
  rewrite (columns_ok max (column_ref colour max)).
  - cbn [obind]. rewrite spaces_string_ok by done. cbn [obind].
    pose proof (axis_rows_ok max Hm) as Ha. change (Z.to_nat y_label_width) with 6%nat.
    destruct (axis_rows 8 max (spaces 6) 0 8) as [rows| | |]; try discriminate Ha. cbn [obind] in Ha |- *.
    injection Ha as Ha. fold (blank 6). by rewrite Ha.
  - intros j b Hj. pose proof (lookup_lt_Some _ _ _ Hj) as Hlt. rewrite Hl in Hlt. cbn [Nat.add].
    apply column_reference; [done | by apply Hc | | lia].
    exact (Forall_lookup_1 _ _ _ _ Hle Hj).
Qed.

(** C24: As long as every count is below ten million, the histogram is drawn, and
    with doubles as it would be with exact numbers: the bar of a bucket has
    [8 * count / max] rows, rounded half up, in the colour of its column, over the
    label of its latency; the axis shows the largest count and, four rows below,
    three sevenths of it. *)
Theorem histogram_reference buckets title :
  length buckets = NUM_BUCKETS -> Forall (fun b => 0 <= b < 10 ^ 7) buckets ->
  exists colour,
    (forall i, (i < NUM_BUCKETS)%nat -> between_colors i (colour i)) /\
    generate_histogram buckets title 8 4 = Ok (histogram_ref colour buckets title).
Proof. apply histogram_drawn. Qed.

Lemma histogram_overflows buckets title :
  length buckets = NUM_BUCKETS -> Forall (fun b => 0 <= b < 2 ^ 63) buckets ->
  Exists (fun b => 10 ^ 7 <= b) buckets ->
  generate_histogram buckets title 8 4 = Err "length_error".
Proof.
  intros Hl Hb Hx. destruct (foldr_max_bounds buckets (2 ^ 63) ltac:(lia) Hb) as [Hm Hle].
  unfold generate_histogram.
  rewrite max_element_spec; [|eapply Forall_impl; [|exact Hb]; cbn; lia | by destruct buckets].
  cbv zeta. rewrite Hl. set (max := foldr Z.max 0 buckets) in *. rewrite u64_small by lia.
  change (i32 (Z.of_nat NUM_BUCKETS)) with 16. change (Z.of_nat 8) with 8.
  assert (Hmax : 10 ^ 7 <= max).
  { apply List.Exists_exists in Hx as (b & Hin & Hge). rewrite List.Forall_forall in Hle.
    specialize (Hle b Hin). cbn in Hle. lia. }
  rewrite (columns_ok max (fun i b => value_or separator (Histogram.column 8 4 max 16 i b))).
  - cbn [obind]. rewrite spaces_string_ok by done. cbn [obind axis_rows Nat.eqb negb].
    change (Z.of_nat 7) with 7. destruct (label_top_large max ltac:(lia)) as (v & -> & Hv).
    cbn [obind]. by rewrite y_axis_text_throws.
  - intros j b Hj. pose proof (lookup_lt_Some _ _ _ Hj) as Hlt. rewrite Hl in Hlt. cbn [Nat.add].
    pose proof (Forall_lookup_1 _ _ _ _ Hle Hj) as Hbm. cbn in Hbm.
    destruct (rgb_interp_ok j Hlt) as (c & Hc & _).
    destruct (fill_returns max b Hbm ltac:(lia)) as [f Hf]. rewrite <- (u64_small b) in Hf by lia.
    by rewrite (column_ok max j b f c).
Qed.

(** A histogram with a count of ten million or more is not drawn: the text of
    the largest count leaves no room for the padding of its label, whose length
    wraps around, and [std::string] throws. *)
Theorem histogram_throws buckets title :
  length buckets = NUM_BUCKETS -> Forall (fun b => 0 <= b < 2 ^ 63) buckets ->
  Exists (fun b => 10 ^ 7 <= b) buckets ->
  generate_histogram buckets title 8 4 = Err "length_error".
Proof. apply histogram_overflows. Qed.

End Histogram.

(** ** Witnesses *)

Lemma bytes_display_spec_witness : bytes_display_string (1024 ^ 5) = Undef.
Proof. apply (bytes_display_spec (1024 ^ 5)); vm_compute; discriminate. Defined.

(** The elements as a tree. *)
#[warnings="-register-all"]
Inductive tree : Type :=
| Text (s : string)
| Separator
| Decorated (d : string) (e : tree)
| Colored (c : Z) (e : tree)
| Box (d : string) (l : list tree).

Definition tree_ftxui : Ftxui := {|
  Element := tree;
  Color := Z;
  text := Text;
  separator := Separator;
  bold := Decorated "bold";
  dim := Decorated "dim";
  center := Decorated "center";
  xflex := Decorated "xflex";
  yflex := Decorated "yflex";
  color := Colored;
  hbox := Box "hbox";
  vbox := Box "vbox";
  gridbox l := Box "gridbox" (map (Box "row") l);
  RGB r g b := r * 65536 + g * 256 + b;
  Interpolate t c0 c1 := c0 + c1
|}.

Definition sample_buckets : list Z := [0; 1; 2; 3; 5; 8; 13; 21; 34; 55; 89; 144; 233; 377; 610; 987].

Lemma histogram_reference_witness :
  is_ok (generate_histogram (H := tree_ftxui) sample_buckets "Send Latency (totals)" 8 4) = true.
Proof.
  destruct (histogram_reference (H := tree_ftxui) sample_buckets "Send Latency (totals)") as (c & _ & ->).
  - reflexivity.
  - repeat constructor; closed_Z.
  - reflexivity.
Defined.

Lemma histogram_throws_witness :
  generate_histogram (H := tree_ftxui) (<[3%nat := 10000000]> sample_buckets)
    "Send Latency (totals)" 8 4 = Err "length_error".
Proof.
  apply (histogram_throws (H := tree_ftxui)).
  - reflexivity.
  - repeat constructor; closed_Z.
  - do 3 apply Exists_cons_tl. apply Exists_cons_hd. closed_Z.
Defined.
