(* ===== verification/Cli.v ===== *)
(** * The command line (src/cli/{cli,cli-parsing,main}.cpp, cli.h, cli-parsing.h, version.h)

    From [main] to the start of the orchestrator: the options, the dry run, the
    acknowledgement, the two ways to run a plan, and the terminal interface.

    A function returns the list of what it did (calls of the logger, the line it
    read, what it told FTXUI and the orchestrator) together with its outcome, where
    [Err] is an exception that leaves it.  The trace holds the calls these files
    make; the warnings other parts log are not in it.

    Parameters, for code not under src/: boost's program_options (the class
    [ProgramOptions]), FTXUI (the class [Ftxui] and the inputs of its loop), and
    in [environment] the line typed at the prompt, the exceptions the standard
    library throws and how the run of the orchestrator ends, if it does.  A call
    that does not return is [NoFuel]: no fuel would be enough. *)

From Stdlib Require Import QArith.
From S2P Require Import Prelude Script Resolver Interpreter Payload ExecutionPlan Metrics.
From S2P Require Import Shard Orchestrator Logger Double Display.
#[local] Open Scope Z_scope.

Definition nl : string := char_string NEWLINE.

(** ** cli-parsing.h *)

Module CLIOptions.
Record t : Type := mk {
  script_file : string;
  dry_run : bool;
  expand_envs : bool;
  acknowledged_responsibility : bool;
  quiet : bool;
  arena_init_mb : Z
}.

Definition init : t := mk EmptyString false false false false 0.
End CLIOptions.

Module ParseStatus.
Inductive t : Type := Ok | Help | Version | Error.
End ParseStatus.

Module CLIParseResult.
Record t : Type := mk { options : CLIOptions.t; status : ParseStatus.t }.

Definition good_parse (r : t) : bool :=
  match status r with ParseStatus.Ok => true | _ => false end.

Definition status_code (r : t) : Z :=
  match status r with ParseStatus.Error => 1 | _ => 0 end.
End CLIParseResult.

(** ** What the program does *)

Section Events.
Context `{Ftxui}.

Inductive event : Type :=
| Log (e : Logger.event)
| GetLine
| StartOrchestrator (interactive : bool) (plan : ExecutionPlan.work) (shard_count : Z)
| EarlyStop
| PostEvent
| ExitLoop
| Drawn (e : Element).

Definition cmd (A : Type) : Type := list event * outcome A.

Definition done_ {A} (o : outcome A) : cmd A := ([], o).

Definition ret {A} (a : A) : cmd A := done_ (Ok a).

Definition emit (e : event) : cmd unit := ([e], Ok tt).

Definition bind {A B} (m : cmd A) (k : A -> cmd B) : cmd B :=
  match m with
  | (l, Ok a) => let '(l', o) := k a in (l ++ l', o)
  | (l, Err e) => (l, Err e)
  | (l, Undef) => (l, Undef)
  | (l, NoFuel) => (l, NoFuel)
  end.

Definition info (msg : string) : cmd unit := emit (Log (Logger.Push LogLevel.INFO msg)).
Definition warn (msg : string) : cmd unit := emit (Log (Logger.Push LogLevel.WARN msg)).
Definition error (msg : string) : cmd unit := emit (Log (Logger.Push LogLevel.ERROR msg)).
End Events.

Declare Scope cmd_scope.
Notation "'do!' x ':=' m 'in' k" := (bind m (fun x => k))
  (at level 10, x pattern, m at level 100, k at level 200) : cmd_scope.
#[global] Open Scope cmd_scope.

(** ** parse_cli *)

(** How an option gets its value: a flag without one, a string, a switch that is
    false by default, a [uint64_t]. *)
Inductive semantic : Type := Flag | StringValue | BoolSwitch | UintValue.

Inductive value : Type := VFlag | VString (s : string) | VBool (b : bool) | VUint (z : Z).

(** [po::command_line_parser(...).options(...).positional(...).run()] and
    [po::store]: the map of the values, or what the [po::error] says; and how the
    options are printed. *)
Class ProgramOptions : Type := {
  store : list (string * semantic * string) -> string -> list string ->
          gmap string value + string;
  print_options : list (string * semantic * string) -> string
}.

Definition VERSION_PRINTSTRING : string := "loadshear v1.0.0".

Definition op_desc : list (string * semantic * string) :=
  [ ("help,h", Flag, "Show options.");
    ("version,v", Flag, "Show version information");
    ("script,s", StringValue, "Path to your script.");
    ("dry-run,d", BoolSwitch, "Show runtime plan generated from your script and options.");
    ("expand-envs,e", BoolSwitch, "Expand environment variables in script paths.");
    ("acknowledge", BoolSwitch, "Automatically acknowledge legal responsibility.");
    ("quiet", BoolSwitch, "Only show warnings/errors after acknowledgement");
    ("arena-init-mb", UintValue, "Initial size of arena allocator for packet data.") ]%string.

(** The positional option. *)
Definition pos_desc : string := "script".

Definition get_string (m : gmap string value) (k d : string) : string :=
  match m !! k with Some (VString s) => s | _ => d end.
Definition get_bool (m : gmap string value) (k : string) : bool :=
  match m !! k with Some (VBool b) => b | _ => false end.
Definition get_uint (m : gmap string value) (k : string) (d : Z) : Z :=
  match m !! k with Some (VUint z) => z | _ => d end.

(** [po::notify]: the values go to the variables of the options. *)
Definition notify (m : gmap string value) (o : CLIOptions.t) : CLIOptions.t :=
  CLIOptions.mk (get_string m "script" (CLIOptions.script_file o)) (get_bool m "dry-run")
    (get_bool m "expand-envs") (get_bool m "acknowledge") (get_bool m "quiet")
    (get_uint m "arena-init-mb" (CLIOptions.arena_init_mb o)).

(** [var_map.count(k)] *)
Definition has (m : gmap string value) (k : string) : bool :=
  match m !! k with Some _ => true | None => false end.

Section ParseCli.
Context `{Ftxui} `{ProgramOptions}.

Definition parse_cli (argv : list string) : cmd CLIParseResult.t :=
  match store op_desc pos_desc argv with
  | inr what =>
      do! _ := error ("Error: " +:+ what) in
      ret (CLIParseResult.mk CLIOptions.init ParseStatus.Error)
  | inl var_map =>
      let cli_ops := notify var_map CLIOptions.init in
      if has var_map "version" then
        do! _ := info VERSION_PRINTSTRING in
        ret (CLIParseResult.mk cli_ops ParseStatus.Version)
      else if has var_map "help" || String.eqb (CLIOptions.script_file cli_ops) EmptyString then
        do! _ := info (nl +:+ "Usage: loadshear <script_file> [options]" +:+ nl +:+ nl
                       +:+ print_options op_desc +:+ nl) in
        ret (CLIParseResult.mk cli_ops ParseStatus.Help)
      else ret (CLIParseResult.mk cli_ops ParseStatus.Ok)
  end.
End ParseCli.

(** ** The texts of the dry run *)

(** The parts are padded with zeros to two and to three digits. *)
Definition ms_to_timestring (offset_ms : Z) : string :=
  let minutes := offset_ms / 60000 in
  let seconds := offset_ms mod 60000 / 1000 in
  let milliseconds := offset_ms mod 1000 in
  let min_str := to_string minutes in
  let sec_str := to_string seconds in
  let milli_str := to_string milliseconds in
  let min_str := if Nat.ltb (String.length min_str) 2 then "0" +:+ min_str else min_str in
  let sec_str := if Nat.ltb (String.length sec_str) 2 then "0" +:+ sec_str else sec_str in
  let milli_str :=
    if Nat.eqb (String.length milli_str) 1 then "00" +:+ milli_str
    else if Nat.eqb (String.length milli_str) 2 then "0" +:+ milli_str else milli_str in
  "[" +:+ min_str +:+ ":" +:+ sec_str +:+ ":" +:+ milli_str +:+ "] ".

Definition packet_op_to_str (type : PacketOperationType.t) : string :=
  match type with
  | PacketOperationType.IDENTITY => "IDENTITY"
  | PacketOperationType.COUNTER => "COUNTER"
  | PacketOperationType.TIMESTAMP => "TIMESTAMP"
  end.

(** The sessions of an action; [sessions_end - 1] is a [uint32_t]. *)
Definition sessions_text (action : ActionDescriptor.t) : string :=
  "sessions indexed " +:+ to_string (ActionDescriptor.sessions_start action)
  +:+ " through " +:+ to_string (u32 (ActionDescriptor.sessions_end action - 1)).

Definition op_text (op : PacketOperation.t) : string :=
  "<" +:+ packet_op_to_str (PacketOperation.type op) +:+ ", "
  +:+ to_string (PacketOperation.length op) +:+ "> ".

Definition ops_text (ops : list PacketOperation.t) : string :=
  fold_left (fun msg op => msg +:+ op_text op) ops EmptyString.

(** The start of the line of every action, and that of a SEND up to its payload. *)
Definition action_prefix (action : ActionDescriptor.t) : string :=
  ms_to_timestring (ActionDescriptor.offset action)
  +:+ ActionDescriptor.type_to_string action +:+ " ".

Definition send_text (action : ActionDescriptor.t) (dsl_action : Action.t) : string :=
  "(" +:+ to_string (ActionDescriptor.count action) +:+ "x) packet identity "
  +:+ Action.packet_identifier dsl_action +:+ " with payload data" +:+ nl
  +:+ "                ".

Definition ACKNOWLEDGEMENT_STRING_START : string :=
  nl +:+ Logger.ESC "[1;31mWARNING:" +:+ Logger.ESC "[0m" +:+ nl
  +:+ "This tool can generate high network loads, rapid connection" +:+ nl
  +:+ "churn, and resource exhaustion if misused." +:+ nl
  +:+ nl
  +:+ "The following endpoints are set to be used:" +:+ nl.

Definition ACKNOWLEDGEMENT_STRING_END : string :=
  "You " +:+ Logger.ESC "[1mMUST" +:+ Logger.ESC "[0m have explicit authorization to act "
  +:+ "on these systems." +:+ nl
  +:+ "Unauthorized use of this tool can cause service disruption" +:+ nl
  +:+ "and may be illegal." +:+ nl
  +:+ nl
  +:+ "If you are unsure whether you are authorized, stop now." +:+ nl
  +:+ nl
  +:+ "By proceeding, you confirm that you:" +:+ nl
  +:+ " - Are authorized to act on these endpoints" +:+ nl
  +:+ " - Understand the behavior of this tool for your script" +:+ nl
  +:+ " - Accept full responsibility for its use" +:+ nl
  +:+ nl
  +:+ "To proceed, type " +:+ Logger.ESC "[1mI UNDERSTAND" +:+ Logger.ESC "[0m below." +:+ nl.

(** ** The terminal interface *)

Module Mode.
Inductive t : Type := Totals | Deltas.
End Mode.

Module TUIState.
Record t : Type := mk {
  metrics : MetricsSnapshot.t * MetricsDelta.t;
  mode : Mode.t
}.

Definition init : t :=
  mk (MetricsSnapshot.init, MetricsDelta.mk 0 0 0 0 0 0 empty_buckets empty_buckets empty_buckets)
    Mode.Totals.
End TUIState.

(** The events of FTXUI the handler distinguishes. *)
Module Event.
Inductive t : Type := Character (c : ascii) | Escape | ArrowLeft | ArrowRight | Custom | Other.
End Event.

(** What the loop of FTXUI meets: an event, new metrics from the orchestrator, the
    end of the orchestrator's thread, a moment to draw, or a reason of FTXUI's own
    to return, such as a signal. *)
Inductive input : Type :=
| Key (e : Event.t)
| Metrics (data : MetricsSnapshot.t * MetricsDelta.t)
| Draw
| ThreadDone
| ScreenExit.

Section TUI.
Context `{Ftxui}.

Definition flexed (e : Element) : Element := yflex (xflex e).

(** [tui_renderer] *)
Definition tui_renderer (state : TUIState.t) : outcome Element :=
  let '(totals, deltas) := TUIState.metrics state in
  let bytes_header := center (bold (text "Throughput")) in
  let! sent :=
    NumericDisplay.create_bytes_display "sent: " (MetricsSnapshot.bytes_sent totals)
      (MetricsDelta.bytes_sent deltas) in
  let! read :=
    NumericDisplay.create_bytes_display "read: " (MetricsSnapshot.bytes_read totals)
      (MetricsDelta.bytes_read deltas) in
  let bytes_box := vbox [sent; read] in
  let connections_header := center (bold (text "Connections")) in
  let connections_box :=
    vbox
      [ NumericDisplay.create_numeric_display "active: "
          (MetricsSnapshot.connected_sessions totals) (MetricsDelta.connected_sessions deltas);
        NumericDisplay.create_numeric_display "attempted: "
          (MetricsSnapshot.connection_attempts totals) (MetricsDelta.connection_attempts deltas);
        NumericDisplay.create_numeric_display "failed: "
          (MetricsSnapshot.failed_connections totals) (MetricsDelta.failed_connections deltas);
        NumericDisplay.create_numeric_display "successful: "
          (MetricsSnapshot.finished_connections totals)
          (MetricsDelta.finished_connections deltas) ] in
  let metrics_box :=
    vbox [bytes_header; separator; bytes_box; separator; connections_header; separator;
          connections_box] in
  let! (hist, send_hist, read_hist) :=
    match TUIState.mode state with
    | Mode.Totals =>
        let! hist :=
          Histogram.generate_histogram (MetricsSnapshot.connection_latency_buckets totals)
            "Connection Latency (totals)" 8 4 in
        let! send_hist :=
          Histogram.generate_histogram (MetricsSnapshot.send_latency_buckets totals)
            "Send Latency (totals)" 8 4 in
        let! read_hist :=
          Histogram.generate_histogram (MetricsSnapshot.read_latency_buckets totals)
            "Read Latency (totals)" 8 4 in
        Ok (hist, send_hist, read_hist)
    | Mode.Deltas =>
        let! hist :=
          Histogram.generate_histogram (MetricsDelta.connection_latency_buckets deltas)
            "Connection Latency (latest)" 8 4 in
        let! send_hist :=
          Histogram.generate_histogram (MetricsDelta.send_latency_buckets deltas)
            "Send Latency (latest)" 8 4 in
        let! read_hist :=
          Histogram.generate_histogram (MetricsDelta.read_latency_buckets deltas)
            "Read Latency (latest)" 8 4 in
        Ok (hist, send_hist, read_hist)
    end in
  let columns :=
    gridbox [ [flexed metrics_box; separator; flexed hist];
              [separator; separator; separator];
              [flexed send_hist; separator; flexed read_hist] ] in
  let footer := dim (text "Press q to quit, Left / Right arrows to cycle histograms.") in
  Ok (vbox [separator; columns; separator; footer]).

(** The handler of [CatchEvent]: whether the event is consumed. *)
Definition catch_event (event_ : Event.t) (state : TUIState.t) : cmd (bool * TUIState.t) :=
  match event_ with
  | Event.Character "q"%char | Event.Character "Q"%char | Event.Escape =>
      do! _ := emit EarlyStop in
      do! _ := emit ExitLoop in
      ret (true, state)
  | Event.ArrowRight =>
      let state :=
        match TUIState.mode state with
        | Mode.Totals => TUIState.mk (TUIState.metrics state) Mode.Deltas
        | Mode.Deltas => state
        end in
      do! _ := emit PostEvent in
      ret (true, state)
  | Event.ArrowLeft =>
      let state :=
        match TUIState.mode state with
        | Mode.Deltas => TUIState.mk (TUIState.metrics state) Mode.Totals
        | Mode.Totals => state
        end in
      do! _ := emit PostEvent in
      ret (true, state)
  | _ => ret (false, state)
  end.

(** [metric_sink_tui] *)
Definition metric_sink_tui (data : MetricsSnapshot.t * MetricsDelta.t) (state : TUIState.t)
  : cmd TUIState.t :=
  do! _ := emit PostEvent in
  ret (TUIState.mk data (TUIState.mode state)).

Definition quits (e : Event.t) : bool :=
  match e with
  | Event.Character "q"%char | Event.Character "Q"%char | Event.Escape => true
  | _ => false
  end.

(** [screen.Loop(main_component)] over its inputs; it returns after the first one
    that asks it to exit, and waits for ever when none does. *)
Fixpoint loop_ (inputs : list input) (state : TUIState.t) : cmd unit :=
  match inputs with
  | [] => done_ NoFuel
  | Key e :: inputs =>
      do! (_, state) := catch_event e state in
      if quits e then ret tt else loop_ inputs state
  | Metrics data :: inputs =>
      do! state := metric_sink_tui data state in
      loop_ inputs state
  | Draw :: inputs =>
      do! e := done_ (tui_renderer state) in
      do! _ := emit (Drawn e) in
      loop_ inputs state
  | ThreadDone :: inputs =>
      do! _ := emit PostEvent in
      do! _ := emit ExitLoop in
      ret tt
  | ScreenExit :: inputs => ret tt
  end.
End TUI.

(** ** class CLI *)

(** What comes from outside: the line [std::getline] reads; what the exception says
    that the constructor of [CLI] or that of the orchestrator throws, if one is
    thrown; how [Orchestrator::start] ends, which connects to other machines: it
    returns, throws, meets undefined behaviour, or never returns; the inputs of the
    terminal interface. *)
Record environment : Type := mk_environment {
  user_response : string;
  cli_error : option string;
  construct_error : option string;
  orchestrator_run : outcome unit;
  inputs : list input
}.

Module CLI.
Section CLI.
Context `{Ftxui} (env : environment).

(** ** Dry run *)

(** The line of an action, and [current_payload_id] after it. *)
Definition action_message (plan : ExecutionPlan.work) (action : ActionDescriptor.t)
    (dsl_action : Action.t) (current_payload_id : Z) : cmd (string * Z) :=
  let action_msg := action_prefix action in
  match ActionDescriptor.type action with
  | ActionType.CREATE =>
      ret (action_msg +:+ to_string (ActionDescriptor.count action) +:+ " sessions",
           current_payload_id)
  | ActionType.CONNECT | ActionType.FLOOD | ActionType.DRAIN | ActionType.DISCONNECT =>
      ret (action_msg +:+ sessions_text action, current_payload_id)
  | ActionType.SEND =>
      let action_msg := action_msg +:+ send_text action dsl_action in
      if current_payload_id >? Z.of_nat (length (ExecutionPlan.payloads plan)) then
        do! _ := warn "Application has a logic error" in
        ret (action_msg, current_payload_id)
      else
        match ExecutionPlan.payloads plan !! Z.to_nat current_payload_id with
        | None => done_ Undef
        | Some payload =>
            ret (action_msg +:+ ops_text (PayloadDescriptor.ops payload),
                 u64 (current_payload_id + ActionDescriptor.count action))
        end
  end.

(** The loop over [plan.actions], with the actions of the script beside it. *)
Fixpoint dry_run_loop (plan : ExecutionPlan.work) (actions : list ActionDescriptor.t)
    (actions_dsl : list Action.t) (current_payload_id : Z) : cmd unit :=
  match actions with
  | [] => ret tt
  | action :: actions =>
      match actions_dsl with
      | [] => done_ Undef
      | dsl_action :: actions_dsl =>
          do! (action_msg, current_payload_id) :=
            action_message plan action dsl_action current_payload_id in
          do! _ := info action_msg in
          dry_run_loop plan actions actions_dsl current_payload_id
      end
  end.

Definition dry_run (plan : ExecutionPlan.work) (endpoint_list : string) (data : DSLData.t)
  : cmd unit :=
  do! _ := info ("             " +:+ Logger.ESC "[1mStarting dry run" +:+ Logger.ESC "[0m"
                 +:+ nl) in
  do! _ := info ("The following endpoints are set to be used:" +:+ nl) in
  do! _ := info endpoint_list in
  dry_run_loop plan (ExecutionPlan.actions plan)
    (Orchestrator_block.actions (DSLData.orchestrator data)) 0.

Definition request_acknowledgement (endpoints_list : string) : cmd bool :=
  do! _ := info ACKNOWLEDGEMENT_STRING_START in
  do! _ := info endpoints_list in
  do! _ := info ACKNOWLEDGEMENT_STRING_END in
  do! _ := emit GetLine in
  if String.eqb (user_response env) "I UNDERSTAND" then ret true
  else
    do! _ := info (nl +:+ "Aborting") in
    ret false.

(** ** Running a plan *)

(** The constructor of the orchestrator, whatever its sessions: an exception, or
    its access to the last action. *)
Definition construct (plan : ExecutionPlan.work) (shard_count : Z) : cmd unit :=
  match construct_error env with
  | Some what => done_ (Err what)
  | None =>
      done_ (let! _ := Orchestrator.init (Sess := unit) (H := unit)
                         (ExecutionPlan.actions plan) shard_count in Ok tt)
  end.

(** [try { body } catch (const std::exception & error) { ... return 1; }] *)
Definition catching (message : string) (body : cmd Z) : cmd Z :=
  match body with
  | (l, Err what) =>
      let '(l', o) := do! _ := error (message +:+ what) in ret 1 in (l ++ l', o)
  | r => r
  end.

Definition start_orchestrator_loop_uninteractive (plan : ExecutionPlan.work) (shard_count : Z)
  : cmd Z :=
  catching "Caught exception in orchestrator loop: "
    (do! _ := construct plan shard_count in
     do! _ := info (nl +:+ "Starting orchestrator loop") in
     do! _ := emit (StartOrchestrator false plan shard_count) in
     do! _ := done_ (orchestrator_run env) in
     ret 0).

(** The thread of the orchestrator: it catches what [start] throws.  The result says
    whether it ends, for the [join]. *)
Definition orchestrator_thread (plan : ExecutionPlan.work) (shard_count : Z) : cmd bool :=
  do! _ := emit (StartOrchestrator true plan shard_count) in
  match orchestrator_run env with
  | Ok _ => ret true
  | Err what =>
      do! _ := error ("Caught exception in orchestrator loop: " +:+ what) in
      ret true
  | Undef => done_ Undef
  | NoFuel => ret false
  end.

(** What the thread logs, and undefined behaviour in it, is put at its start; the
    [join] waits for a thread that does not end.  An exception that leaves the loop
    of FTXUI is caught, and the return then destroys the thread, which nobody has
    joined: [std::terminate]. *)
Definition start_orchestrator_loop (plan : ExecutionPlan.work) (shard_count : Z) : cmd Z :=
  let message := "Caught exception in orchestrator construction: "%string in
  match construct plan shard_count with
  | (l, Ok _) =>
      do! _ := info (nl +:+ "Starting orchestrator loop") in
      do! ends := orchestrator_thread plan shard_count in
      do! _ := emit (Log Logger.Pause) in
      match loop_ (inputs env) TUIState.init with
      | (l, Err what) =>
          do! _ := (l, Ok tt) in
          do! _ := error (message +:+ what) in
          done_ (Err "terminate")
      | (l, o) =>
          do! _ := (l, o) in
          do! _ := emit (Log Logger.Resume) in
          if ends then ret 0 else done_ NoFuel
      end
  | (l, Err what) => catching message (l, Err what)
  | (l, Undef) => (l, Undef)
  | (l, NoFuel) => (l, NoFuel)
  end.

(** ** execute_script *)

Context `{System} `{HashOrder} {wasm_module : Type}.
Variables (options : CLIOptions.t) (can_allocate : Z -> bool)
  (compile : list Z -> option wasm_module) (resolve_host : string -> string -> list Endpoint.t).
Variables (hardware_concurrency garbage garbage_header garbage_body : Z).

(** [Resolver::set_global_resolve_options(resolver_ops)] *)
Definition resolver_ops : Resolver.options :=
  Resolver.mk_options (CLIOptions.expand_envs options).

(** The body of both cases of [execute_script], from [plan_tmp] on. *)
Definition execute_plan {endpoints : Type} (dump_endpoint_list : endpoints -> string)
    (script : DSLData.t)
    (plan_tmp : outcome (ExecutionPlan.work * ExecutionPlan.config endpoints wasm_module))
  : cmd Z :=
  match plan_tmp with
  | Undef => done_ Undef
  | NoFuel => done_ NoFuel
  | Err e_msg =>
      do! _ := error e_msg in
      ret 1
  | Ok (plan, config) =>
      let endpoint_list := dump_endpoint_list (ExecutionPlan.host_info config) in
      let shard_count := ExecutionPlan.shard_count config in
      if CLIOptions.dry_run options then
        do! _ := dry_run plan endpoint_list script in
        ret 0
      else
        do! ack :=
          if negb (CLIOptions.acknowledged_responsibility options)
          then request_acknowledgement endpoint_list
          else ret true in
        if negb ack then ret 0
        else if CLIOptions.quiet options then
          do! _ := emit (Log (Logger.SetLevel LogLevel.WARN)) in
          start_orchestrator_loop_uninteractive plan shard_count
        else start_orchestrator_loop plan shard_count
  end.

Definition execute_script (script : DSLData.t) : cmd Z :=
  let protocol := Settings.session_protocol (DSLData.settings script) in
  if String.eqb protocol "TCP" then
    execute_plan ExecutionPlan.dump_tcp_endpoint_list script
      (ExecutionPlan.generate_tcp_plan resolver_ops can_allocate compile resolve_host garbage
         script)
  else if String.eqb protocol "UDP" then
    execute_plan ExecutionPlan.dump_udp_endpoint_list script
      (ExecutionPlan.generate_udp_plan resolver_ops can_allocate compile resolve_host garbage
         script)
  else
    do! _ := error ("Unrecognized transport " +:+ protocol +:+ " was specified.") in
    ret 1.

Definition run : cmd Z :=
  match Interpreter.parse_script resolver_ops hardware_concurrency garbage garbage_header
          garbage_body (CLIOptions.script_file options) with
  | Undef => done_ Undef
  | NoFuel => done_ NoFuel
  | Err reason =>
      do! _ := error reason in
      ret 1
  | Ok script_ => execute_script script_
  end.

End CLI.
End CLI.

(** ** main.cpp *)

Section Main.
Context `{Ftxui} `{ProgramOptions} `{System} `{HashOrder} {wasm_module : Type}.
Variables (env : environment) (can_allocate : Z -> bool)
  (compile : list Z -> option wasm_module) (resolve_host : string -> string -> list Endpoint.t).
Variables (hardware_concurrency garbage garbage_header garbage_body : Z).

(** The constructor of [CLI] may throw; it allocates nothing yet. *)
Definition main (argv : list string) : cmd Z :=
  do! _ := emit (Log (Logger.Init LogLevel.INFO)) in
  do! parse_res := parse_cli argv in
  if negb (CLIParseResult.good_parse parse_res) then ret (CLIParseResult.status_code parse_res)
  else
    let c_ops := CLIParseResult.options parse_res in
    do! _ := info VERSION_PRINTSTRING in
    match cli_error env with
    | Some what =>
        do! _ := error ("Tried to start program (got error: " +:+ what +:+ ")") in
        do! _ := emit (Log Logger.Shutdown) in
        ret 1
    | None =>
        do! cli_res :=
          CLI.run env c_ops can_allocate compile resolve_host hardware_concurrency garbage
            garbage_header garbage_body in
        do! _ := emit (Log Logger.Shutdown) in
        ret cli_res
    end.

End Main.
