(* ===== verification/CliProps.v ===== *)
(** * Properties of the command line

    The dry run shows the plan and never leaves its vectors; nothing is started
    without a test the interpreter accepted and the consent of the user; the exit
    code says whether an error was logged, if the run of the orchestrator ends; and
    what ends the terminal interface. *)

From S2P Require Import Prelude Script ParserProps Payload Resolver Interpreter InterpreterFacts.
From S2P Require Import InterpreterProps ParserPrint ExecutionPlan ExecutionPlanFacts ExecutionPlanProps Metrics.
From S2P Require Import Shard Orchestrator Logger Double Display DisplayProps Cli.

Section Events.
Context `{Ftxui}.

Definition logs (level : LogLevel.t) (msgs : list string) : list event :=
  map (fun msg => Log (Logger.Push level msg)) msgs.

Lemma bind_ok {A B} (l : list event) (a : A) (k : A -> cmd B) l' o :
  k a = (l', o) -> bind (l, Ok a) k = (l ++ l', o).
Proof. intros Hk. cbn [bind]. by rewrite Hk. Qed.

(** ** Dry run *)

(** The lines of the actions of a script, their descriptors and the payloads the
    SENDs made of them: as many copies of one payload as the SEND sends. *)
Inductive dry_lines (packets : list (list Z))
  : list Action.t -> list ActionDescriptor.t -> list PayloadDescriptor.t -> list string -> Prop :=
| dry_nil : dry_lines packets [] [] [] []
| dry_create a d l ds ps lines :
    ActionDescriptor.type d = ActionType.CREATE ->
    dry_lines packets l ds ps lines ->
    dry_lines packets (a :: l) (d :: ds) ps
      ((action_prefix d +:+ to_string (ActionDescriptor.count d) +:+ " sessions") :: lines)
| dry_range a d l ds ps lines :
    ActionDescriptor.type d <> ActionType.CREATE -> ActionDescriptor.type d <> ActionType.SEND ->
    dry_lines packets l ds ps lines ->
    dry_lines packets (a :: l) (d :: ds) ps ((action_prefix d +:+ sessions_text d) :: lines)
| dry_send a d l ds ps lines buf payload steps :
    ActionDescriptor.type d = ActionType.SEND ->
    ActionDescriptor.count d = Action.count a -> 0 < Action.count a ->
    buf ∈ packets -> ExecutionPlan.build_payload a buf = Ok (payload, steps) ->
    dry_lines packets l ds ps lines ->
    dry_lines packets (a :: l) (d :: ds) (replicate (Z.to_nat (Action.count a)) payload ++ ps)
      ((action_prefix d +:+ send_text d a +:+ ops_text (PayloadDescriptor.ops payload)) :: lines).

Lemma action_message_send plan d a pre payload rest :
  ActionDescriptor.type d = ActionType.SEND -> 
  ExecutionPlan.payloads plan = pre ++ payload :: rest ->
  CLI.action_message plan d a (Z.of_nat (length pre))
  = ([], Ok (action_prefix d +:+ send_text d a +:+ ops_text (PayloadDescriptor.ops payload),
             u64 (Z.of_nat (length pre) + ActionDescriptor.count d))).
Proof.
  intros Ht Hp. unfold CLI.action_message. rewrite Ht, Hp, length_app. cbn [length].
  destruct (_ >? _) eqn:E; bool_to_Z; [lia|]. rewrite Nat2Z.id, lookup_app_r by lia.
  rewrite Nat.sub_diag. cbn [lookup list_lookup]. by rewrite string_app_assoc.
Qed.

Lemma action_message_other plan d a id :
  ActionDescriptor.type d <> ActionType.SEND ->
  CLI.action_message plan d a id
  = ([], Ok (action_prefix d
             +:+ (match ActionDescriptor.type d with
                  | ActionType.CREATE => to_string (ActionDescriptor.count d) +:+ " sessions"
                  | _ => sessions_text d
                  end), id)).
Proof. intros Ht. unfold CLI.action_message. by destruct (ActionDescriptor.type d). Qed.

(** The loop follows the payloads: at every action [current_payload_id] is the
    number of the payloads before those of the action. *)
Lemma dry_run_loop_spec plan packets l ds ps lines :
  Z.of_nat (length (ExecutionPlan.payloads plan)) < 2 ^ 64 ->
  dry_lines packets l ds ps lines ->
  forall pre, ExecutionPlan.payloads plan = pre ++ ps ->
    CLI.dry_run_loop plan ds l (Z.of_nat (length pre)) = (logs LogLevel.INFO lines, Ok tt).
Proof.
  intros Hsize. induction 1 as [|a d l ds ps lines Ht Hd IH|a d l ds ps lines Ht Ht' Hd IH
    |a d l ds ps lines buf payload steps Ht Hc Hpos Hin Hb Hd IH]; intros pre Hp;
    cbn [CLI.dry_run_loop]; [done|..].
  - rewrite action_message_other by congruence. rewrite Ht. cbn [bind]. by rewrite (IH pre Hp).
  - rewrite action_message_other by done. cbn [bind]. rewrite (IH pre Hp).
    by destruct (ActionDescriptor.type d).
  - assert (Hn : Z.to_nat (Action.count a) = S (Nat.pred (Z.to_nat (Action.count a)))) by lia.
    rewrite (action_message_send plan d a pre payload
               (replicate (Nat.pred (Z.to_nat (Action.count a))) payload ++ ps)); [|done|].
    2: { rewrite Hp, Hn. done. }
    cbn [bind]. rewrite Hc. 
    assert (Hl : u64 (Z.of_nat (length pre) + Action.count a)
                 = Z.of_nat (length (pre ++ replicate (Z.to_nat (Action.count a)) payload))).
    { rewrite Hp, !length_app, length_replicate in Hsize.
      rewrite length_app, length_replicate, u64_small; lia. }
    rewrite Hl, (IH (pre ++ replicate (Z.to_nat (Action.count a)) payload)).
    + done.
    + by rewrite <- app_assoc.
Qed.

Section Plan.
Context `{System} `{HashOrder} (options : Resolver.options) (can_allocate : Z -> bool) (garbage : Z).
Import ExecutionPlan.

Definition counts_positive (l : list Action.t) : Prop :=
  Forall (fun a => Action.type a = ActionType.SEND -> 0 < Action.count a) l.

Lemma plan_actions_lines maps l : forall o w w',
  plan_actions garbage maps l o w = Ok w' -> counts_positive l ->
  exists ds ps lines,
    actions w' = actions w ++ ds /\ payloads w' = payloads w ++ ps /\
    dry_lines (packet_data w) l ds ps lines.
Proof.
  induction l as [|a l IH]; intros o w w' Hp Hc; cbn [plan_actions] in Hp.
  - injection Hp as <-. exists [], [], []. rewrite !app_nil_r. split_and!; [done | done | constructor].
  - apply List.Forall_cons_iff in Hc as [Ha Hc]. cbv zeta in Hp.
    apply obind_Ok in Hp as ([d w1] & Hd & Hp). destruct (IH _ _ _ Hp Hc) as (ds & ps & lines & H1' & H2 & H3).
    cbn [actions payloads packet_data] in H1', H2, H3. unfold plan_action in Hd. cbv zeta in Hd.
    destruct (Action.type a) eqn:Et;
      try (injection Hd as <- <-; eexists (_ :: ds), ps, (_ :: lines);
           rewrite H1', <- app_assoc;
           split_and!; [reflexivity | exact H2 | first [apply dry_create; done | apply dry_range; done]]).
    unfold plan_send in Hd. cbv zeta in Hd.
    destruct (identity_map maps !! _) as [i|]; [|done].
    destruct (packet_data w !! i) as [buf|] eqn:Eb; [|done].
    apply obind_Ok in Hd as ([payload steps] & Hb & Hd). injection Hd as <- <-.
    cbn [actions payloads packet_data] in H1', H2, H3.
    eexists (_ :: ds), _, (_ :: lines). rewrite H1', H2, <- !app_assoc.
    split_and!; [reflexivity | reflexivity |].
    eapply dry_send; try done; [by apply Ha | by eapply list_elem_of_lookup_2].
Qed.

Lemma plan_common_lines script w :
  generate_plan_common options can_allocate garbage script = Ok w ->
  counts_positive (Orchestrator_block.actions (DSLData.orchestrator script)) ->
  exists lines,
    dry_lines (packet_data w) (Orchestrator_block.actions (DSLData.orchestrator script))
      (actions w) (payloads w) lines.
Proof.
  unfold generate_plan_common. cbv zeta. intros Hp Hc.
  apply obind_Ok in Hp as ([maps packets] & _ & Hp).
  assert (Hpk : forall l o w w', plan_actions garbage maps l o w = Ok w' -> packet_data w' = packet_data w).
  { clear. induction l as [|a l IH]; intros o w w' Hp; [by injection Hp as <-|].
    cbn [plan_actions] in Hp. cbv zeta in Hp. apply obind_Ok in Hp as ([d w1] & Hd & Hp).
    rewrite (IH _ _ _ Hp). cbn. unfold plan_action, plan_send in Hd. cbv zeta in Hd.
    destruct (Action.type a); try by injection Hd as <- <-.
    destruct (identity_map maps !! _); [|done]. destruct (packet_data w !! _); [|done].
    apply obind_Ok in Hd as ([] & _ & Hd). by injection Hd as <- <-. }
  pose proof (Hpk _ _ _ _ Hp) as Hpd.
  destruct (plan_actions_lines _ _ _ _ _ Hp Hc) as (ds & ps & lines & H1' & H2 & H3).
  cbn in H1', H2, H3, Hpd. rewrite H1', H2, Hpd. by exists lines.
Qed.

(** The SENDs of a valid script send something. *)
Lemma valid_counts script :
  script_wf script -> script_valid options script ->
  counts_positive (Orchestrator_block.actions (DSLData.orchestrator script)).
Proof.
  intros [_ Hwf] (_ & _ & _ & _ & q & Hr). revert Hwf Hr.
  generalize no_plan. generalize (Orchestrator_block.actions (DSLData.orchestrator script)).
  induction l as [|a l IH]; intros p Hwf Hr; [constructor|].
  apply List.Forall_cons_iff in Hwf as [Ha Hwf]. inversion Hr as [|? p1 ? ? ? Hs Hr']; subst.
  constructor; [|by apply (IH p1)]. intros Ht. destruct Ha as (_ & _ & _ & Ha). rewrite Ht in Ha.
  unfold is_int in Ha. inversion Hs; subst; try congruence. lia.
Qed.

Lemma descriptors_length o l ds : descriptors o l ds -> length ds = length l.
Proof. induction 1; cbn; congruence. Qed.

(** C23: The dry run of the plan of a valid script stays in the vectors of the plan
    and of the script and prints one line per action: its time, its kind and its
    sessions, and for a SEND the operations of the very payload whose copies the
    plan holds for it, the payloads of the plan being those copies one after the
    other. *)
Theorem dry_run_spec script w endpoint_list :
  script_wf script -> script_valid options script ->
  generate_plan_common options can_allocate garbage script = Ok w ->
  Z.of_nat (length (payloads w)) < 2 ^ 64 ->
  exists header lines,
    dry_lines (packet_data w) (Orchestrator_block.actions (DSLData.orchestrator script))
      (actions w) (payloads w) lines /\
    CLI.dry_run w endpoint_list script
    = (logs LogLevel.INFO (header ++ [endpoint_list] ++ lines), Ok tt).
Proof.
  intros Hwf Hv Hg Hsize. 
  destruct (plan_common_lines script w Hg (valid_counts script Hwf Hv)) as [lines Hl].
  eexists [_; _], lines. split; [done|]. unfold CLI.dry_run, info, emit. cbn [bind].
  change 0 with (Z.of_nat (length (@nil PayloadDescriptor.t))).
  by rewrite (dry_run_loop_spec w _ _ _ _ _ Hsize Hl []).
Qed.

(** Without a bound on the number of payloads: it returns. *)
Lemma dry_run_loop_returns packets l ds ps lines plan :
  dry_lines packets l ds ps lines ->
  forall id k, ExecutionPlan.payloads plan = k ++ ps -> 0 <= id <= Z.of_nat (length k) ->
    exists tr, CLI.dry_run_loop plan ds l id = (tr, Ok tt) /\
      forall e, In e tr -> exists m, e = Log (Logger.Push LogLevel.INFO m).
Proof.
  induction 1 as [|a d l ds ps lines Ht Hd IH|a d l ds ps lines Ht Ht' Hd IH
    |a d l ds ps lines buf payload steps Ht Hc Hpos Hin Hb Hd IH]; intros id k Hp Hid;
    cbn [CLI.dry_run_loop]; [by exists []|..].
  - rewrite action_message_other by congruence. cbn [bind].
    destruct (IH id k Hp Hid) as (tr & -> & Htr). eexists. split; [reflexivity|].
    intros e [<-|He]; [by eexists | by apply Htr].
  - rewrite action_message_other by done. cbn [bind].
    destruct (IH id k Hp Hid) as (tr & -> & Htr). eexists. split; [reflexivity|].
    intros e [<-|He]; [by eexists | by apply Htr].
  - assert (Hlt : (Z.to_nat id < length (ExecutionPlan.payloads plan))%nat).
    { rewrite Hp, !length_app, length_replicate. lia. }
    unfold CLI.action_message. rewrite Ht.
    destruct (_ >? _) eqn:E; bool_to_Z; [lia|].
    destruct (lookup_lt_is_Some_2 _ _ Hlt) as [pl ->]. cbn [bind ret done_].
    destruct (IH (u64 (id + ActionDescriptor.count d))
                (k ++ replicate (Z.to_nat (Action.count a)) payload)) as (tr & -> & Htr).
    + by rewrite <- app_assoc.
    + rewrite length_app, length_replicate, Hc. pose proof (u64_range (id + Action.count a)).
      split; [lia|]. etransitivity; [apply Z.mod_le; lia | lia].
    + eexists. split; [reflexivity|]. intros e [<-|He]; [by eexists | by apply Htr].
Qed.

End Plan.

(** ** Exit codes *)

Definition error_in (tr : list event) : Prop :=
  exists msg, In (Log (Logger.Push LogLevel.ERROR msg)) tr.

(** A call that returns without having logged an error. *)
Definition quietly {A} (m : cmd A) (a : A) : Prop :=
  exists tr, m = (tr, Ok a) /\ ~ error_in tr.

(** A call that returns 0, or 1 after an error. *)
Definition reports (m : cmd Z) : Prop :=
  exists tr c, m = (tr, Ok c) /\ ((c = 0 /\ ~ error_in tr) \/ (c = 1 /\ error_in tr)).

Lemma error_in_app l l' : error_in (l ++ l') <-> error_in l \/ error_in l'.
Proof.
  unfold error_in. setoid_rewrite List.in_app_iff. split; [intros (m & [H1|H1]) | intros [[m H1]|[m H1]]]; eauto.
Qed.

Lemma quietly_bind {A B} (m : cmd A) (k : A -> cmd B) a b :
  quietly m a -> quietly (k a) b -> quietly (bind m k) b.
Proof.
  intros (tr & -> & Hn) (tr' & Hk & Hn'). cbn [bind]. rewrite Hk. exists (tr ++ tr').
  split; [done|]. rewrite error_in_app. tauto.
Qed.

Lemma reports_bind {A} (m : cmd A) (k : A -> cmd Z) a :
  quietly m a -> reports (k a) -> reports (bind m k).
Proof.
  intros (tr & -> & Hn) (tr' & c & Hk & Hc). cbn [bind]. rewrite Hk. exists (tr ++ tr'), c.
  split; [done|]. rewrite error_in_app. tauto.
Qed.

Lemma quietly_ret {A} (a : A) : quietly (ret a) a.
Proof. exists []. split; [done|]. by intros [msg []]. Qed.

Lemma quietly_emit e : (forall msg, e <> Log (Logger.Push LogLevel.ERROR msg)) -> quietly (emit e) tt.
Proof. intros He. exists [e]. split; [done|]. intros [msg [Heq|[]]]. by apply (He msg). Qed.

Lemma reports_ok : reports (ret 0).
Proof. exists [], 0. split; [done|]. left. split; [done|]. by intros [msg []]. Qed.

Lemma reports_error e : reports (do! _ := error e in ret 1).
Proof. exists [Log (Logger.Push LogLevel.ERROR e)], 1. split; [done|]. right. split; [done|]. exists e. by left. Qed.

(** An event after the call changes nothing. *)
Lemma reports_then (m : cmd Z) e :
  (forall msg, e <> Log (Logger.Push LogLevel.ERROR msg)) -> reports m ->
  reports (do! r := m in do! _ := emit e in ret r).
Proof.
  intros He (tr & c & -> & Hc). exists (tr ++ [e]), c. split; [done|].
  rewrite error_in_app. assert (~ error_in [e]) by (intros [msg [Heq|[]]]; by apply (He msg)). tauto.
Qed.

Create HintDb reports.
#[local] Hint Resolve quietly_ret reports_ok reports_error : reports.
#[local] Hint Extern 1 (quietly (emit _) _) => apply quietly_emit; congruence : reports.
#[local] Hint Extern 1 (quietly (info _) _) => apply quietly_emit; congruence : reports.

(** One step of a function: what it emits is no error. *)
Ltac step_quietly := first [apply reports_bind with tt | apply quietly_bind with tt]; [by auto with reports|].

(** ** The terminal interface *)

(** Metrics the interface can show: fewer than 1024 TiB, fewer than ten million in
    each bucket. *)
Definition buckets_small (l : list Z) : Prop :=
  length l = NUM_BUCKETS /\ Forall (fun b => 0 <= b < 10 ^ 7) l.

Definition displayable (data : MetricsSnapshot.t * MetricsDelta.t) : Prop :=
  let '(totals, deltas) := data in
  0 <= MetricsSnapshot.bytes_sent totals < 2 ^ 50 /\ 0 <= MetricsSnapshot.bytes_read totals < 2 ^ 50 /\
  MetricsDelta.bytes_sent deltas < 2 ^ 50 /\ MetricsDelta.bytes_read deltas < 2 ^ 50 /\
  buckets_small (MetricsSnapshot.connection_latency_buckets totals) /\
  buckets_small (MetricsSnapshot.send_latency_buckets totals) /\
  buckets_small (MetricsSnapshot.read_latency_buckets totals) /\
  buckets_small (MetricsDelta.connection_latency_buckets deltas) /\
  buckets_small (MetricsDelta.send_latency_buckets deltas) /\
  buckets_small (MetricsDelta.read_latency_buckets deltas).

Lemma bytes_display_draws title v d :
  0 <= v < 2 ^ 50 -> d < 2 ^ 50 -> exists e, NumericDisplay.create_bytes_display title v d = Ok e.
Proof.
  intros Hv Hd. unfold NumericDisplay.create_bytes_display. rewrite i64_small by lia.
  destruct (bytes_display_returns v Hv) as [s ->].
  destruct (d >? 0) eqn:E; bool_to_Z; cbn [obind]; [|by eexists].
  destruct (bytes_display_returns d ltac:(lia)) as [s' ->]. cbn [obind]. by eexists.
Qed.

Lemma histogram_draws l title :
  buckets_small l -> exists e, Histogram.generate_histogram l title 8 4 = Ok e.
Proof. intros [Hl Hb]. destruct (histogram_drawn l title Hl Hb) as (c & _ & ->). by eexists. Qed.

Lemma renderer_draws state :
  displayable (TUIState.metrics state) -> exists e, tui_renderer state = Ok e.
Proof.
  unfold tui_renderer, displayable. destruct (TUIState.metrics state) as [totals deltas].
  intros (H1 & H2 & H3 & H4 & H5 & H6 & H7 & H8 & H9 & H10).
  destruct (bytes_display_draws "sent: " _ _ H1 H3) as [e1 ->].
  destruct (bytes_display_draws "read: " _ _ H2 H4) as [e2 ->]. cbn [obind].
  destruct (TUIState.mode state).
  - destruct (histogram_draws _ "Connection Latency (totals)" H5) as [a ->].
    destruct (histogram_draws _ "Send Latency (totals)" H6) as [b ->].
    destruct (histogram_draws _ "Read Latency (totals)" H7) as [c ->]. by eexists.
  - destruct (histogram_draws _ "Connection Latency (latest)" H8) as [a ->].
    destruct (histogram_draws _ "Send Latency (latest)" H9) as [b ->].
    destruct (histogram_draws _ "Read Latency (latest)" H10) as [c ->]. by eexists.
Qed.

(** An event changes at most the mode. *)
Lemma catch_event_quietly e state :
  exists b mode, quietly (catch_event e state) (b, TUIState.mk (TUIState.metrics state) mode).
Proof.
  destruct state as [data mode]. unfold catch_event.
  destruct e as [c| | | | |]; cbn [TUIState.mode TUIState.metrics].
  - destruct c as [[] [] [] [] [] [] [] []]; eexists _, mode;
      first [apply quietly_ret | do 2 step_quietly; apply quietly_ret].
  - exists true, mode. do 2 step_quietly. apply quietly_ret.
  - destruct mode; eexists true, _; step_quietly; apply quietly_ret.
  - destruct mode; eexists true, _; step_quietly; apply quietly_ret.
  - exists false, mode. apply quietly_ret.
  - exists false, mode. apply quietly_ret.
Qed.

(** Inputs the loop returns after. *)
Definition exits (i : input) : bool :=
  match i with Key e => quits e | ThreadDone | ScreenExit => true | _ => false end.

Lemma loop_quietly inputs : forall state,
  displayable (TUIState.metrics state) ->
  Forall (fun i => match i with Metrics data => displayable data | _ => True end) inputs ->
  existsb exits inputs = true ->
  quietly (loop_ inputs state) tt.
Proof.
  induction inputs as [|i inputs IH]; intros state Hs Hf Hx; cbn [loop_]; [done|].
  apply List.Forall_cons_iff in Hf as [Hi Hf]. cbn [existsb] in Hx.
  destruct i as [e|data| | |]; cbn [exits orb] in Hx.
  - destruct (catch_event_quietly e state) as (b & mode & Hc).
    eapply quietly_bind; [exact Hc|]. cbv beta iota. destruct (quits e); [apply quietly_ret|].
    by apply IH.
  - apply quietly_bind with (TUIState.mk data (TUIState.mode state)); [|by apply IH].
    unfold metric_sink_tui. step_quietly. apply quietly_ret.
  - destruct (renderer_draws state Hs) as [e ->]. eapply quietly_bind; [apply quietly_ret|].
    step_quietly. by apply IH.
  - do 2 step_quietly. apply quietly_ret.
  - apply quietly_ret.
Qed.

Lemma init_displayable : displayable (TUIState.metrics TUIState.init).
Proof.
  cbn. assert (buckets_small empty_buckets) by (split; [done | repeat constructor; closed_Z]).
  split_and!; done || closed_Z.
Qed.

(** ** Running *)

Section Run.
Context `{System} `{HashOrder} {wasm_module : Type} (env : environment).
Variables (options : CLIOptions.t) (can_allocate : Z -> bool)
  (compile : list Z -> option wasm_module) (resolve_host : string -> string -> list Endpoint.t).
Variables (hardware_concurrency garbage garbage_header garbage_body : Z).

Abbreviation execute := (CLI.execute_script env options can_allocate compile resolve_host garbage).
Abbreviation opts := (CLI.resolver_ops options).

(** The run of the orchestrator returns, and the terminal interface is only shown
    metrics it can show, until it is left. *)
Definition calm : Prop :=
  orchestrator_run env = Ok tt /\
  Forall (fun i => match i with Metrics data => displayable data | _ => True end) (inputs env) /\
  existsb exits (inputs env) = true.

(** What supposes nothing of the run of the orchestrator beyond its end: a dry run,
    a user who does not consent, a quiet run that returns or throws. *)
Definition ends : Prop :=
  CLIOptions.dry_run options = true \/
  CLIOptions.acknowledged_responsibility options = false /\ user_response env <> "I UNDERSTAND" \/
  CLIOptions.quiet options = true /\ returns (orchestrator_run env) \/
  calm.

Lemma uninteractive_reports plan n :
  returns (orchestrator_run env) -> ExecutionPlan.actions plan <> [] ->
  reports (CLI.start_orchestrator_loop_uninteractive env plan n).
Proof.
  intros Hr Ha. unfold CLI.start_orchestrator_loop_uninteractive, CLI.construct.
  destruct (construct_error env) as [what|]; [apply reports_error|].
  unfold Orchestrator.init. destruct (ExecutionPlan.actions plan); [done|].
  cbn [obind bind done_]. destruct (orchestrator_run env) as [[]|what| |]; try done.
  - eexists _, 0. split; [reflexivity|]. left. split; [done|].
    intros [msg [Hc|[Hc|[]]]]; discriminate Hc.
  - eexists _, 1. split; [reflexivity|]. right. split; [done|]. eexists. right. right. by left.
Qed.

Lemma interactive_reports plan n :
  calm -> ExecutionPlan.actions plan <> [] -> reports (CLI.start_orchestrator_loop env plan n).
Proof.
  intros (Hr & Hf & Hx) Ha. unfold CLI.start_orchestrator_loop, CLI.construct.
  destruct (construct_error env) as [what|]; [apply reports_error|].
  unfold Orchestrator.init. destruct (ExecutionPlan.actions plan); [done|]. cbn [obind done_].
  step_quietly. apply reports_bind with true.
  { unfold CLI.orchestrator_thread. rewrite Hr. step_quietly. apply quietly_ret. }
  step_quietly. destruct (loop_quietly (inputs env) TUIState.init init_displayable Hf Hx)
    as (tr & -> & Hn).
  apply reports_bind with tt; [by exists tr|]. step_quietly. apply reports_ok.
Qed.

Lemma acknowledgement_quietly eps :
  quietly (CLI.request_acknowledgement env eps) (String.eqb (user_response env) "I UNDERSTAND").
Proof.
  unfold CLI.request_acknowledgement. do 4 step_quietly.
  destruct (String.eqb _ _); [apply quietly_ret|]. step_quietly. apply quietly_ret.
Qed.

Lemma make_factory_returns settings : returns (ExecutionPlan.make_factory opts compile settings).
Proof.
  unfold ExecutionPlan.make_factory. destruct (_ || _); [done|]. destruct (ends_with _ _); [|done].
  destruct (Resolver.resolve_file _ _) as [path e]. destruct (negb _); [done|].
  destruct (Resolver.read_binary_file path) as [bytes e']. destruct (negb _); [done|].
  by destruct (compile bytes).
Qed.

(** Both kinds of plan are the common plan with the shards of the settings. *)
Definition plan_for {endpoints : Type} (script : DSLData.t)
    (plan_tmp : outcome (ExecutionPlan.work * ExecutionPlan.config endpoints wasm_module)) : Prop :=
  returns plan_tmp /\
  forall w c, plan_tmp = Ok (w, c) ->
    ExecutionPlan.generate_plan_common opts can_allocate garbage script = Ok w /\
    ExecutionPlan.shard_count c = Settings.shards (DSLData.settings script).

Lemma tcp_plan_for script :
  script_wf script ->
  plan_for script (ExecutionPlan.generate_tcp_plan opts can_allocate compile resolve_host garbage script).
Proof.
  intros Hwf. destruct (plan_common_ok opts can_allocate garbage script Hwf) as [Hr _].
  unfold plan_for, ExecutionPlan.generate_tcp_plan. cbv zeta. split.
  - apply returns_obind; [apply make_factory_returns|]. intros f _.
    destruct (ExecutionPlan.tcp_endpoints _ _); [done|]. by apply returns_obind.
  - intros w c Hp. inv_ok. destruct (ExecutionPlan.tcp_endpoints _ _); [done|]. inv_ok.
    injection Hp as <- <-. done.
Qed.

Lemma udp_plan_for script :
  script_wf script ->
  plan_for script (ExecutionPlan.generate_udp_plan opts can_allocate compile resolve_host garbage script).
Proof.
  intros Hwf. destruct (plan_common_ok opts can_allocate garbage script Hwf) as [Hr _].
  unfold plan_for, ExecutionPlan.generate_udp_plan. cbv zeta. split.
  - apply returns_obind; [apply make_factory_returns|]. intros f _.
    destruct (bool_decide _); [done|]. apply returns_obind; [done|]. intros w _.
    by destruct (existsb _ _).
  - intros w c Hp. inv_ok. injection Hp as <- <-. done.
Qed.

Lemma plan_has_actions script w :
  script_wf script -> script_valid opts script ->
  ExecutionPlan.generate_plan_common opts can_allocate garbage script = Ok w ->
  ExecutionPlan.actions w <> [].
Proof.
  intros Hwf Hv Hg. destruct (plan_common_ok opts can_allocate garbage script Hwf) as [_ Hp].
  destruct (Hp w Hg) as [_ Hd]. apply descriptors_length in Hd.
  destruct Hv as (_ & _ & _ & Ha & _). intros He. rewrite He in Hd.
  by destruct (Orchestrator_block.actions (DSLData.orchestrator script)).
Qed.

Lemma dry_run_quietly script w eps :
  script_wf script -> script_valid opts script ->
  ExecutionPlan.generate_plan_common opts can_allocate garbage script = Ok w ->
  quietly (CLI.dry_run w eps script) tt.
Proof.
  intros Hwf Hv Hg. unfold CLI.dry_run. do 3 step_quietly.
  destruct (plan_common_lines opts can_allocate garbage script w Hg
              (valid_counts opts script Hwf Hv)) as [lines Hl].
  destruct (dry_run_loop_returns _ _ _ _ _ w Hl 0 [] eq_refl ltac:(cbn; lia)) as (tr & Htr & Hi).
  exists tr. split; [exact Htr|]. intros [msg Hin]. by destruct (Hi _ Hin).
Qed.

Lemma execute_plan_reports {endpoints} (dump : endpoints -> string) script plan_tmp :
  script_wf script -> script_valid opts script -> plan_for script plan_tmp ->
  ends -> reports (CLI.execute_plan env options dump script plan_tmp).
Proof.
  intros Hwf Hv [Hr Hp] Hmode. unfold CLI.execute_plan.
  destruct plan_tmp as [[w c]|e| |]; try done; [|apply reports_error].
  destruct (Hp w c eq_refl) as [Hg _]. pose proof (plan_has_actions script w Hwf Hv Hg) as Ha.
  cbv zeta. destruct (CLIOptions.dry_run options) eqn:Ed.
  { apply reports_bind with tt; [by apply dry_run_quietly | apply reports_ok]. }
  apply reports_bind with (CLIOptions.acknowledged_responsibility options
                           || String.eqb (user_response env) "I UNDERSTAND").
  { destruct (CLIOptions.acknowledged_responsibility options);
      [apply quietly_ret | apply acknowledgement_quietly]. }
  destruct (_ || _) eqn:Eack; [|apply reports_ok]. cbn [negb].
  assert (Hrun : CLIOptions.quiet options = true /\ returns (orchestrator_run env) \/ calm).
  { destruct Hmode as [Hm|[[Hm1 Hm2]|Hm]]; [congruence | | done].
    rewrite Hm1 in Eack. by apply String.eqb_eq in Eack. }
  destruct (CLIOptions.quiet options) eqn:Eq.
  - step_quietly. apply uninteractive_reports; [|done].
    destruct Hrun as [[_ Hrun]|[Hrun _]]; [done | by rewrite Hrun].
  - apply interactive_reports; [|done]. by destruct Hrun as [[? _]|Hrun].
Qed.

Hypothesis Hcores : hardware_concurrency <= INT_MAX.

Lemma run_reports :
  ends -> reports (CLI.run env options can_allocate compile resolve_host hardware_concurrency garbage
             garbage_header garbage_body).
Proof.
  intros Hmode. unfold CLI.run.
  destruct (parse_script_spec opts hardware_concurrency Hcores garbage garbage_header garbage_body
              (CLIOptions.script_file options)) as [Hr Hs].
  destruct (Interpreter.parse_script _ _ _ _ _ _) as [script|e| |]; try done; [|apply reports_error].
  destruct (Hs script eq_refl) as [Hwf Hv]. unfold CLI.execute_script. cbv zeta.
  destruct (String.eqb _ "TCP"); [|destruct (String.eqb _ "UDP"); [|apply reports_error]].
  - apply execute_plan_reports; try done. by apply tcp_plan_for.
  - apply execute_plan_reports; try done. by apply udp_plan_for.
Qed.
End Run.

Lemma reports_emitted {A} (m : cmd A) (k : A -> cmd Z) tr a c :
  m = (tr, Ok a) -> k a = ([], Ok c) -> (c = 0 /\ ~ error_in tr) \/ (c = 1 /\ error_in tr) ->
  reports (bind m k).
Proof.
  intros -> Hk Hc. cbn [bind]. rewrite Hk. exists (tr ++ []), c. by rewrite app_nil_r.
Qed.

(** ** Consent *)

(** A start that is none of the listed events. *)
Ltac not_started H :=
  exfalso; cbn in H;
  repeat match type of H with _ \/ _ => destruct H as [H|H]; [discriminate H|] end;
  done.

(** Every start among the events is that of [plan] with [n] shards. *)
Definition starts (interactive : bool) (plan : ExecutionPlan.work) (n : Z) (e : event) : Prop :=
  match e with
  | StartOrchestrator i p k => i = interactive /\ p = plan /\ k = n
  | _ => True
  end.

Definition no_start (e : event) : Prop :=
  match e with StartOrchestrator _ _ _ => False | _ => True end.

Lemma events_bind {A B} (P : event -> Prop) (m : cmd A) (k : A -> cmd B) :
  Forall P (fst m) -> (forall a, Forall P (fst (k a))) -> Forall P (fst (bind m k)).
Proof.
  intros Hm Hk. destruct m as [l [a|e| |]]; cbn [bind fst] in *; try done.
  specialize (Hk a). destruct (k a). apply Forall_app. by split.
Qed.

Ltac events :=
  repeat match goal with
  | |- Forall _ (fst (bind _ _)) => apply events_bind; [|intros ?]
  | |- Forall _ (fst (ret _)) => constructor
  | |- Forall _ (fst (done_ _)) => constructor
  | |- Forall _ (fst (emit _)) => constructor; [|constructor]
  | |- Forall _ (fst (info _)) => constructor; [|constructor]
  | |- Forall _ (fst (warn _)) => constructor; [|constructor]
  | |- Forall _ (fst (error _)) => constructor; [|constructor]
  | |- Forall _ (fst (if ?b then _ else _)) => destruct b
  | |- Forall _ (fst (match ?x with _ => _ end)) => destruct x
  | |- Forall _ (fst (let '(_, _) := ?x in _)) => destruct x
  | |- no_start _ => exact I
  end.

Lemma no_start_in (tr : list event) i p n : Forall no_start tr -> ~ In (StartOrchestrator i p n) tr.
Proof. rewrite List.Forall_forall. intros H1 H2. by apply (H1 _ H2). Qed.

Lemma catch_event_no_start e state : Forall no_start (fst (catch_event e state)).
Proof.
  destruct state as [data mode]. destruct e as [c| | | | |]; [|cbn; destruct mode; cbn; repeat constructor..].
  destruct c as [[] [] [] [] [] [] [] []]; repeat constructor.
Qed.

Lemma loop_no_start inputs : forall state, Forall no_start (fst (loop_ inputs state)).
Proof.
  induction inputs as [|i inputs IH]; intros state; cbn [loop_]; [constructor|].
  destruct i as [e|data| | |]; unfold metric_sink_tui; events; try apply IH.
  apply catch_event_no_start.
Qed.

Lemma dry_run_no_start plan eps script : Forall no_start (fst (CLI.dry_run plan eps script)).
Proof.
  unfold CLI.dry_run. events.
  generalize 0, (Orchestrator_block.actions (DSLData.orchestrator script)).
  induction (ExecutionPlan.actions plan) as [|d ds IH]; intros id [|x l]; cbn [CLI.dry_run_loop]; unfold CLI.action_message;
    try constructor. events; apply IH.
Qed.

Lemma starts_weaken i plan n tr : Forall no_start tr -> Forall (starts i plan n) tr.
Proof. apply List.Forall_impl. by intros []. Qed.

(** What the prompt shows before it reads the line. *)
Definition asked (endpoint_list : string) : list event :=
  logs LogLevel.INFO [ACKNOWLEDGEMENT_STRING_START; endpoint_list; ACKNOWLEDGEMENT_STRING_END]
  ++ [GetLine].

Section Consent.
Context `{System} `{HashOrder} {wasm_module : Type} (env : environment) (options : CLIOptions.t).

Lemma uninteractive_starts plan n :
  Forall (starts false plan n) (fst (CLI.start_orchestrator_loop_uninteractive env plan n)).
Proof.
  unfold CLI.start_orchestrator_loop_uninteractive, CLI.construct.
  destruct (construct_error env); [repeat constructor|].
  unfold Orchestrator.init. destruct (ExecutionPlan.actions plan); [constructor|].
  cbn [obind bind done_]. destruct (orchestrator_run env); repeat constructor.
Qed.

Lemma interactive_starts plan n :
  Forall (starts true plan n) (fst (CLI.start_orchestrator_loop env plan n)).
Proof.
  unfold CLI.start_orchestrator_loop, CLI.construct.
  destruct (construct_error env); [repeat constructor|].
  unfold Orchestrator.init. destruct (ExecutionPlan.actions plan); [constructor|].
  cbn [obind done_]. pose proof (loop_no_start (inputs env) TUIState.init) as Hl.
  apply (starts_weaken true plan n) in Hl.
  apply events_bind; [repeat constructor | intros _]. apply events_bind; [|intros ends_].
  { unfold CLI.orchestrator_thread. destruct (orchestrator_run env); repeat constructor. }
  apply events_bind; [repeat constructor | intros _].
  destruct (loop_ (inputs env) TUIState.init) as [tr o]. cbn [fst] in Hl.
  destruct o; (apply events_bind; [exact Hl | intros _; destruct ends_; repeat constructor]).
Qed.

Lemma execute_plan_starts {endpoints} (dump : endpoints -> string) script
    (plan_tmp : outcome (ExecutionPlan.work * ExecutionPlan.config endpoints wasm_module)) i p n :
  In (StartOrchestrator i p n) (fst (CLI.execute_plan env options dump script plan_tmp)) ->
  exists c,
    plan_tmp = Ok (p, c) /\ n = ExecutionPlan.shard_count c /\
    CLIOptions.dry_run options = false /\ i = negb (CLIOptions.quiet options) /\
    (CLIOptions.acknowledged_responsibility options = true \/
     user_response env = "I UNDERSTAND" /\
     exists post,
       fst (CLI.execute_plan env options dump script plan_tmp)
       = asked (dump (ExecutionPlan.host_info c)) ++ post).
Proof.
  unfold CLI.execute_plan. destruct plan_tmp as [[w c]|e| |]; try done.
  2: { intros Hin. not_started Hin. }
  cbv zeta. destruct (CLIOptions.dry_run options).
  { intros Hin. exfalso. revert Hin. apply no_start_in. events. apply dry_run_no_start. }
  set (rest := if CLIOptions.quiet options then _ else _).
  assert (Hs : Forall (starts (negb (CLIOptions.quiet options)) w (ExecutionPlan.shard_count c)) (fst rest)).
  { unfold rest. destruct (CLIOptions.quiet options); cbn [negb]; [|apply interactive_starts].
    apply events_bind; [repeat constructor | intros _; apply uninteractive_starts]. }
  rewrite List.Forall_forall in Hs. intros Hin. exists c.
  destruct (CLIOptions.acknowledged_responsibility options) eqn:Ea; cbn [negb] in Hin |- *.
  - cbn [bind ret done_ negb app] in Hin. destruct rest as [tr o]. cbn [fst app] in *.
    destruct (Hs _ Hin) as (-> & -> & ->). split_and!; try done. by left.
  - unfold CLI.request_acknowledgement in *. cbn [bind info emit] in *.
    destruct (String.eqb (user_response env) "I UNDERSTAND") eqn:Eu; cbn [ret done_ app] in *.
    2: { not_started Hin. }
    apply String.eqb_eq in Eu. cbn [bind negb] in *. destruct rest as [tr o]. cbn [fst app] in *.
    assert (Hin' : In (StartOrchestrator i p n) tr) by naive_solver.
    destruct (Hs _ Hin') as (-> & -> & ->). split_and!; try done. right. split; [done|].
    by exists tr.
Qed.
End Consent.

(** ** The end of the program *)

Section Waits.
Context `{System} `{HashOrder} {wasm_module : Type} (env : environment) (options : CLIOptions.t)
  (can_allocate : Z -> bool) (compile : list Z -> option wasm_module)
  (resolve_host : string -> string -> list Endpoint.t)
  (hardware_concurrency garbage garbage_header garbage_body : Z).

(** A call that started the orchestrator only returns when its run has ended. *)
Definition waits {A} (m : cmd A) : Prop :=
  forall i p n a, In (StartOrchestrator i p n) (fst m) -> snd m = Ok a ->
    returns (orchestrator_run env).

Lemma waits_bind {A B} (m : cmd A) (k : A -> cmd B) :
  waits m -> (forall a, waits (k a)) -> waits (bind m k).
Proof.
  intros Hm Hk i p n b. destruct m as [l [a|e| |]]; cbn [bind]; try done.
  specialize (Hk a). destruct (k a) as [l' o]. cbn [fst snd]. intros Hin Ho.
  apply in_app_or in Hin as [Hin|Hin]; [by apply (Hm i p n a) | by apply (Hk i p n b)].
Qed.

Lemma waits_no_start {A} (m : cmd A) : Forall no_start (fst m) -> waits m.
Proof. intros Hm i p n a Hin. by apply no_start_in in Hin. Qed.

Lemma uninteractive_waits plan n : waits (CLI.start_orchestrator_loop_uninteractive env plan n).
Proof.
  intros i p k a. unfold CLI.start_orchestrator_loop_uninteractive, CLI.construct.
  destruct (construct_error env) as [what|]; [intros Hin; not_started Hin|].
  unfold Orchestrator.init. destruct (ExecutionPlan.actions plan); [done|].
  cbn [obind bind done_]. by destruct (orchestrator_run env).
Qed.

Lemma interactive_waits plan n : waits (CLI.start_orchestrator_loop env plan n).
Proof.
  intros i p k a Hin Ho. destruct (orchestrator_run env) as [[]|what| |] eqn:Er; try done; exfalso;
    revert Hin Ho; unfold CLI.start_orchestrator_loop, CLI.construct, CLI.orchestrator_thread;
    (destruct (construct_error env) as [what|]; [intros Hin; not_started Hin|]);
    unfold Orchestrator.init; (destruct (ExecutionPlan.actions plan); [done|]);
    cbn [obind bind done_]; rewrite Er; [done|].
  by destruct (loop_ (inputs env) TUIState.init) as [tr [[]|e| |]].
Qed.

Lemma execute_plan_waits {endpoints} (dump : endpoints -> string) script
    (plan_tmp : outcome (ExecutionPlan.work * ExecutionPlan.config endpoints wasm_module)) :
  waits (CLI.execute_plan env options dump script plan_tmp).
Proof.
  unfold CLI.execute_plan.
  destruct plan_tmp as [[w c]|e| |]; try (apply waits_no_start; events; done). cbv zeta.
  destruct (CLIOptions.dry_run options).
  { apply waits_no_start. events. apply dry_run_no_start. }
  apply waits_bind.
  { apply waits_no_start. unfold CLI.request_acknowledgement. events. }
  intros ack. destruct (negb ack); [apply waits_no_start; events|].
  destruct (CLIOptions.quiet options); [|apply interactive_waits].
  apply waits_bind; [apply waits_no_start; events | intros _; apply uninteractive_waits].
Qed.

Lemma run_waits :
  waits (CLI.run env options can_allocate compile resolve_host hardware_concurrency garbage
           garbage_header garbage_body).
Proof.
  unfold CLI.run.
  destruct (Interpreter.parse_script _ _ _ _ _ _) as [script|e| |];
    try (apply waits_no_start; events; done).
  unfold CLI.execute_script. cbv zeta.
  destruct (String.eqb _ "TCP"); [|destruct (String.eqb _ "UDP")]; try apply execute_plan_waits.
  apply waits_no_start. events.
Qed.
End Waits.

(** C21: The end of the program, over every command line, the files it names, and
    every way the run of the orchestrator ends or does not end.  The program ends
    with status 0 and no error logged, or with status 1 after an error was logged,
    in a dry run, when the user does not consent, in a quiet run when the run of
    the orchestrator returns or throws, and in the terminal interface when that
    run returns, the interface is left, and the metrics are ones it can show (a
    run that throws is logged by its thread without changing the status).
    Whatever the options, a program that started the orchestrator ends only if
    its run does. *)
Theorem main_reports `{ProgramOptions} `{System} `{HashOrder} {wasm_module : Type} env
    can_allocate (compile : list Z -> option wasm_module) resolve_host hardware_concurrency
    garbage garbage_header garbage_body argv :
  hardware_concurrency <= INT_MAX ->
  let m := main env can_allocate compile resolve_host hardware_concurrency garbage
             garbage_header garbage_body argv in
  ((forall var_map, store op_desc pos_desc argv = inl var_map ->
      ends env (notify var_map CLIOptions.init)) ->
   reports m) /\
  (forall i p n status, In (StartOrchestrator i p n) (fst m) -> snd m = Ok status ->
     returns (orchestrator_run env)).
Proof.
  intros Hcores. cbv zeta. split.
  - intros Hmode. unfold main, parse_cli. step_quietly.
    destruct (store op_desc pos_desc argv) as [var_map|what].
    2: { eapply reports_emitted; [reflexivity | reflexivity|]. right. split; [done|]. eexists. by left. }
    specialize (Hmode var_map eq_refl). cbv zeta. set (options := notify var_map CLIOptions.init) in *.
    destruct (has var_map "version").
    { eapply reports_emitted; [reflexivity | reflexivity|]. left. split; [done|].
      by intros [msg [Hc|[]]]. }
    destruct (_ || _).
    { eapply reports_emitted; [reflexivity | reflexivity|]. left. split; [done|].
      by intros [msg [Hc|[]]]. }
    apply reports_bind with (CLIParseResult.mk options ParseStatus.Ok); [apply quietly_ret|].
    cbn [CLIParseResult.good_parse CLIParseResult.status negb CLIParseResult.options]. step_quietly.
    destruct (cli_error env) as [what|].
    + eexists _, 1. split; [reflexivity|]. right. split; [done|]. eexists. by left.
    + apply reports_then; [congruence|]. by apply run_reports.
  - fold (@waits env Z (main env can_allocate compile resolve_host hardware_concurrency garbage
      garbage_header garbage_body argv)).
    unfold main. apply waits_bind; [apply waits_no_start; events | intros _].
    apply waits_bind; [apply waits_no_start; unfold parse_cli; events | intros r].
    destruct (negb _); [apply waits_no_start; events|]. cbv zeta.
    apply waits_bind; [apply waits_no_start; events | intros _].
    destruct (cli_error env); [apply waits_no_start; events|].
    apply waits_bind; [apply run_waits | intros c]. apply waits_no_start; events.
Qed.

(** The endpoints the user is shown: those the plan was made for. *)
Definition shown_endpoints resolve_host (settings : Settings.t) (endpoint_list : string) : Prop :=
  (Settings.session_protocol settings = "TCP" /\
   endpoint_list
   = ExecutionPlan.dump_tcp_endpoint_list (ExecutionPlan.tcp_endpoints resolve_host settings)) \/
  (Settings.session_protocol settings = "UDP" /\
   endpoint_list
   = ExecutionPlan.dump_udp_endpoint_list (ExecutionPlan.udp_endpoint resolve_host settings)).

Section Main.
Context `{ProgramOptions} `{System} `{HashOrder} {wasm_module : Type} (env : environment).
Variables (can_allocate : Z -> bool) (compile : list Z -> option wasm_module)
  (resolve_host : string -> string -> list Endpoint.t).
Variables (hardware_concurrency garbage garbage_header garbage_body : Z).
Hypothesis Hcores : hardware_concurrency <= INT_MAX.

(** The test that is started, and the consent to it, in the trace [tr]. *)
Definition consented (options : CLIOptions.t) (tr : list event) i p n : Prop :=
  exists script endpoint_list,
    CLIOptions.dry_run options = false /\ i = negb (CLIOptions.quiet options) /\
    Interpreter.parse_script (CLI.resolver_ops options) hardware_concurrency garbage
      garbage_header garbage_body (CLIOptions.script_file options) = Ok script /\
    script_wf script /\ script_valid (CLI.resolver_ops options) script /\
    ExecutionPlan.generate_plan_common (CLI.resolver_ops options) can_allocate garbage script
    = Ok p /\
    n = Settings.shards (DSLData.settings script) /\
    shown_endpoints resolve_host (DSLData.settings script) endpoint_list /\
    (CLIOptions.acknowledged_responsibility options = true \/
     user_response env = "I UNDERSTAND" /\
     exists pre post, tr = pre ++ asked endpoint_list ++ post /\
       In (StartOrchestrator i p n) post).

Lemma tcp_hosts opts script w c :
  ExecutionPlan.generate_tcp_plan opts can_allocate compile resolve_host garbage script = Ok (w, c) ->
  ExecutionPlan.host_info c = ExecutionPlan.tcp_endpoints resolve_host (DSLData.settings script).
Proof.
  unfold ExecutionPlan.generate_tcp_plan. cbv zeta. intros Hp. inv_ok.
  destruct (ExecutionPlan.tcp_endpoints _ _); [done|]. inv_ok. by injection Hp as <- <-.
Qed.

Lemma udp_host opts script w c :
  ExecutionPlan.generate_udp_plan opts can_allocate compile resolve_host garbage script = Ok (w, c) ->
  ExecutionPlan.host_info c = ExecutionPlan.udp_endpoint resolve_host (DSLData.settings script).
Proof.
  unfold ExecutionPlan.generate_udp_plan. cbv zeta. intros Hp. inv_ok. by injection Hp as <- <-.
Qed.

Lemma run_starts options i p n :
  let m := CLI.run env options can_allocate compile resolve_host hardware_concurrency garbage
             garbage_header garbage_body in
  In (StartOrchestrator i p n) (fst m) -> consented options (fst m) i p n.
Proof.
  cbv zeta. unfold CLI.run.
  destruct (parse_script_spec (CLI.resolver_ops options) hardware_concurrency Hcores garbage
              garbage_header garbage_body (CLIOptions.script_file options)) as [_ Hs].
  destruct (Interpreter.parse_script _ _ _ _ _ _) as [script|e| |] eqn:Ep; try done.
  2: { intros Hin. not_started Hin. }
  destruct (Hs script eq_refl) as [Hwf Hv]. unfold CLI.execute_script. cbv zeta.
  assert (Hgo : forall endpoints (dump : endpoints -> string)
    (plan_tmp : outcome (ExecutionPlan.work * ExecutionPlan.config endpoints wasm_module)),
    plan_for options can_allocate garbage script plan_tmp ->
    (forall w c, plan_tmp = Ok (w, c) ->
       shown_endpoints resolve_host (DSLData.settings script) (dump (ExecutionPlan.host_info c))) ->
    In (StartOrchestrator i p n) (fst (CLI.execute_plan env options dump script plan_tmp)) ->
    consented options (fst (CLI.execute_plan env options dump script plan_tmp)) i p n).
  { intros endpoints dump plan_tmp [_ Hp] Hshow Hin.
    destruct (execute_plan_starts env options dump script plan_tmp i p n Hin)
      as (c & Hc & -> & Hd & Hi & Hack).
    destruct (Hp p c Hc) as [Hg Hn]. rewrite Hn in *.
    exists script, (dump (ExecutionPlan.host_info c)). split_and!; try done; [by eapply Hshow|].
    destruct Hack as [Hack|(Hu & post & Htr)]; [by left|]. right. split; [done|].
    exists [], post. split; [done|]. rewrite Htr in Hin. apply in_app_or in Hin as [Hin|Hin]; [|done].
    not_started Hin. }
  destruct (String.eqb _ "TCP") eqn:Et; [|destruct (String.eqb _ "UDP") eqn:Eu].
  - apply Hgo; [by apply tcp_plan_for|]. intros w c Hc. left. apply String.eqb_eq in Et.
    split; [done|]. by rewrite (tcp_hosts _ _ _ _ Hc).
  - apply Hgo; [by apply udp_plan_for|]. intros w c Hc. right. apply String.eqb_eq in Eu.
    split; [done|]. by rewrite (udp_host _ _ _ _ Hc).
  - intros Hin. not_started Hin.
Qed.

(** The trace of [main] after the options were read. *)
Lemma main_trace options :
  let m := CLI.run env options can_allocate compile resolve_host hardware_concurrency garbage
             garbage_header garbage_body in
  exists post, Forall no_start post /\
    fst (do! _ := emit (Log (Logger.Init LogLevel.INFO)) in
         do! _ := ret (CLIParseResult.mk options ParseStatus.Ok) in
         do! _ := info VERSION_PRINTSTRING in
         do! cli_res := m in do! _ := emit (Log Logger.Shutdown) in ret cli_res)
    = [Log (Logger.Init LogLevel.INFO); Log (Logger.Push LogLevel.INFO VERSION_PRINTSTRING)]
      ++ fst m ++ post.
Proof.
  cbv zeta. destruct (CLI.run env options _ _ _ _ _ _ _) as [tr [r|e| |]];
    [exists [Log Logger.Shutdown] | exists [] | exists [] | exists []];
    (split; [repeat constructor|]); cbn; by rewrite ?app_nil_r.
Qed.

(** C9: No test is started without consent: whenever the orchestrator is started,
    the script was accepted by the interpreter, it is its plan that runs on its
    number of shards, it was no dry run, and the user consented: with
    [--acknowledge], or by typing the sentence after the warning and the
    endpoints of the plan were printed. *)
Theorem start_needs_consent argv i p n :
  let m := main env can_allocate compile resolve_host hardware_concurrency garbage
             garbage_header garbage_body argv in
  In (StartOrchestrator i p n) (fst m) ->
  exists var_map,
    store op_desc pos_desc argv = inl var_map /\
    consented (notify var_map CLIOptions.init) (fst m) i p n.
Proof.
  cbv zeta. unfold main, parse_cli. intros Hin.
  destruct (store op_desc pos_desc argv) as [var_map|what].
  2: { not_started Hin. }
  exists var_map. split; [done|]. cbv zeta in *. set (options := notify var_map CLIOptions.init) in *.
  destruct (has var_map "version"); [not_started Hin|].
  destruct (_ || _); [not_started Hin|].
  destruct (cli_error env) as [what|]; [not_started Hin|].
  pose proof (run_starts options i p n) as Hr. destruct (main_trace options) as (post & Hpost & Ht).
  cbv zeta in Hr, Ht. set (m := CLI.run env options _ _ _ _ _ _ _) in *.
  change (In (StartOrchestrator i p n) (fst (do! _ := emit (Log (Logger.Init LogLevel.INFO)) in
         do! _ := ret (CLIParseResult.mk options ParseStatus.Ok) in
         do! _ := info VERSION_PRINTSTRING in
         do! cli_res := m in do! _ := emit (Log Logger.Shutdown) in ret cli_res))) in Hin.
  change (consented options (fst (do! _ := emit (Log (Logger.Init LogLevel.INFO)) in
         do! _ := ret (CLIParseResult.mk options ParseStatus.Ok) in
         do! _ := info VERSION_PRINTSTRING in
         do! cli_res := m in do! _ := emit (Log Logger.Shutdown) in ret cli_res)) i p n).
  rewrite Ht in Hin |- *. apply in_app_or in Hin as [Hin|Hin]; [not_started Hin|].
  apply in_app_or in Hin as [Hin|Hin]; [|by apply no_start_in in Hin].
  destruct (Hr Hin) as (script & eps & H1' & H2' & H3 & H4 & H5 & H6 & H7 & H8 & H9).
  exists script, eps. split_and!; try done. destruct H9 as [H9|(Hu & pre & post' & Hm & Hp)]; [by left|].
  right. split; [done|].
  exists ([Log (Logger.Init LogLevel.INFO); Log (Logger.Push LogLevel.INFO VERSION_PRINTSTRING)] ++ pre),
    (post' ++ post).
  split; [rewrite Hm; by rewrite <- !app_assoc|]. apply in_or_app. left. exact Hp.
Qed.
End Main.

(** ** What ends the terminal interface *)

(** C39: As soon as the interface has to draw a histogram with ten million events in
    one bucket, the program is terminated: the renderer throws, the handler logs
    it as an error of the construction, with the logger still paused, and returns
    without joining the thread of the orchestrator, whether its run has ended or
    not. *)
Theorem tui_crash env plan n totals deltas rest :
  ExecutionPlan.actions plan <> [] -> construct_error env = None -> orchestrator_run env <> Undef ->
  inputs env = Metrics (totals, deltas) :: Draw :: rest ->
  0 <= MetricsSnapshot.bytes_sent totals < 2 ^ 50 -> 0 <= MetricsSnapshot.bytes_read totals < 2 ^ 50 ->
  MetricsDelta.bytes_sent deltas < 2 ^ 50 -> MetricsDelta.bytes_read deltas < 2 ^ 50 ->
  length (MetricsSnapshot.connection_latency_buckets totals) = NUM_BUCKETS ->
  Forall (fun b => 0 <= b < 2 ^ 63) (MetricsSnapshot.connection_latency_buckets totals) ->
  Exists (fun b => 10 ^ 7 <= b) (MetricsSnapshot.connection_latency_buckets totals) ->
  exists tr,
    CLI.start_orchestrator_loop env plan n
    = (tr ++ [Log (Logger.Push LogLevel.ERROR
                     ("Caught exception in orchestrator construction: " +:+ "length_error"))],
       Err "terminate") /\
    In (StartOrchestrator true plan n) tr /\ In (Log Logger.Pause) tr /\
    ~ In (Log Logger.Resume) tr.
Proof.
  intros Ha Hc Hr Hi Hs Hrd Hds Hdr Hl Hb Hx.
  assert (Hd : tui_renderer (TUIState.mk (totals, deltas) Mode.Totals) = Err "length_error").
  { unfold tui_renderer. cbn [TUIState.metrics TUIState.mode].
    destruct (bytes_display_draws "sent: " _ _ Hs Hds) as [e1 ->].
    destruct (bytes_display_draws "read: " _ _ Hrd Hdr) as [e2 ->]. cbn [obind].
    by rewrite (histogram_overflows _ _ Hl Hb Hx). }
  unfold CLI.start_orchestrator_loop, CLI.construct, CLI.orchestrator_thread. rewrite Hc, Hi.
  unfold Orchestrator.init. destruct (ExecutionPlan.actions plan); [done|].
  cbn [loop_ metric_sink_tui bind emit ret done_ obind TUIState.mode TUIState.init]. rewrite Hd.
  set (said := match orchestrator_run env with
               | Err what => logs LogLevel.ERROR ["Caught exception in orchestrator loop: " +:+ what]
               | _ => []
               end).
  exists ([Log (Logger.Push LogLevel.INFO (nl +:+ "Starting orchestrator loop"));
           StartOrchestrator true plan n] ++ said ++ [Log Logger.Pause; PostEvent]).
  split; [|split; [|split]].
  - subst said. by destruct (orchestrator_run env) as [[]|what| |].
  - right. by left.
  - rewrite !List.in_app_iff. right. right. by left.
  - subst said. destruct (orchestrator_run env); cbn; intuition discriminate.
Qed.
End Events.

(** ** Witnesses *)

(** A command line of switches and a script. *)
Definition sample_switches : list string := ["quiet"; "dry-run"; "acknowledge"; "expand-envs"].

Definition sample_store (argv : list string) : gmap string value :=
  fold_left (fun m a =>
               match List.find (fun k => String.eqb a ("--" +:+ k)) sample_switches with
               | Some k => <[k := VBool true]> m
               | None => <[pos_desc := VString a]> m
               end) argv ∅.

Definition sample_program_options : ProgramOptions :=
  {| store := fun _ _ argv => inl (sample_store argv); print_options := fun _ => EmptyString |}.

Definition sample_environment : environment := mk_environment "I UNDERSTAND" None None (Ok tt) [].

Definition sample_main (argv : list string) : @cmd tree_ftxui Z :=
  @main tree_ftxui sample_program_options sample_system sample_order unit sample_environment
    any_size (fun _ => None) sample_resolve 4 7 1 2 argv.

Definition start_of (tr : list (@event tree_ftxui)) : option (bool * ExecutionPlan.work * Z) :=
  List.hd_error (omap (fun e => match e with
                                | StartOrchestrator i p n => Some (i, p, n)
                                | _ => None
                                end) tr).

Definition sample_started : bool * ExecutionPlan.work * Z :=
  default (true, ExecutionPlan.mk_work [] [] [] [], 0)
    (start_of (fst (sample_main ["script.ls"; "--quiet"]%string))).

Lemma sample_trace : exists pre post,
  fst (sample_main ["script.ls"; "--quiet"]%string)
  = pre ++ StartOrchestrator false (sample_started.1.2) 2 :: post.
Proof.
  set (tr := fst (sample_main _)).
  exists (List.firstn 8 tr), (List.skipn 9 tr). vm_compute. reflexivity.
Qed.

Lemma start_needs_consent_witness :
  user_response sample_environment = "I UNDERSTAND"%string /\
  exists var_map script,
    @store sample_program_options op_desc pos_desc ["script.ls"; "--quiet"]%string = inl var_map /\
    @script_valid sample_system (CLI.resolver_ops (notify var_map CLIOptions.init)) script.
Proof.
  split; [reflexivity|].
  destruct (@start_needs_consent tree_ftxui sample_program_options sample_system sample_order unit
              sample_environment any_size (fun _ => None) sample_resolve 4 7 1 2 sample_hardware
              ["script.ls"; "--quiet"]%string false (sample_started.1.2) 2)
    as (var_map & Hs & script & eps & _ & _ & _ & _ & Hv & _).
  - destruct sample_trace as (pre & post & Ht). unfold sample_main in Ht. rewrite Ht.
    apply in_or_app. right. left. reflexivity.
  - exists var_map, script. split; [exact Hs | exact Hv].
Defined.

Lemma main_reports_witness :
  @reports tree_ftxui (sample_main ["script.ls"; "--quiet"]%string) /\
  @returns unit (orchestrator_run sample_environment).
Proof.
  destruct (@main_reports tree_ftxui sample_program_options sample_system sample_order unit
              sample_environment any_size (fun _ => None) sample_resolve 4 7 1 2
              ["script.ls"; "--quiet"]%string sample_hardware) as [Hr Hw].
  split.
  - apply Hr. intros var_map Hs. right. right. left. injection Hs as <-.
    split; [vm_compute; reflexivity | exact I].
  - destruct sample_trace as (pre & post & Ht).
    apply (Hw false (sample_started.1.2) 2 0).
    + unfold sample_main in Ht. rewrite Ht. apply in_or_app. right. left. reflexivity.
    + vm_compute. reflexivity.
Defined.

Definition sample_plan : ExecutionPlan.work :=
  value_or (ExecutionPlan.mk_work [] [] [] [])
    (@ExecutionPlan.generate_plan_common sample_system sample_order sample_options any_size 7
       (sample_data 7)).

Lemma dry_run_spec_witness :
  exists l, @CLI.dry_run tree_ftxui sample_plan "endpoints" (sample_data 7)
            = (logs LogLevel.INFO l, Ok tt).
Proof.
  destruct (@dry_run_spec tree_ftxui sample_system sample_order sample_options any_size 7
              (sample_data 7) sample_plan "endpoints") as (header & lines & _ & Hd).
  - apply (sample_wf 7).
  - destruct (@script_spec sample_system sample_order sample_options (sample_data 7)
                (sample_wf 7)) as [[Hv _]|[_ Hv]]; [exact Hv | vm_compute in Hv; discriminate Hv].
  - vm_compute. reflexivity.
  - vm_compute. reflexivity.
  - eexists. exact Hd.
Defined.

Definition large_metrics : MetricsSnapshot.t * MetricsDelta.t :=
  (MetricsSnapshot.mk 0 0 10000000 0 10000000 0 (10000000 :: replicate 15 0) empty_buckets
     empty_buckets,
   snd (TUIState.metrics TUIState.init)).

Lemma tui_crash_witness :
  snd (@CLI.start_orchestrator_loop tree_ftxui
         (mk_environment "" None None NoFuel [Metrics large_metrics; Draw]) sample_plan 2)
  = Err "terminate".
Proof.
  destruct (@tui_crash tree_ftxui (mk_environment "" None None NoFuel [Metrics large_metrics; Draw])
              sample_plan 2 (fst large_metrics) (snd large_metrics) []) as (tr & Ht & _).
  - vm_compute. discriminate.
  - reflexivity.
  - discriminate.
  - reflexivity.
  - closed_Z.
  - closed_Z.
  - closed_Z.
  - closed_Z.
  - reflexivity.
  - repeat constructor; closed_Z.
  - apply Exists_cons_hd. closed_Z.
  - rewrite Ht. reflexivity.
Defined.
