(* ===== verification/Heartbeat.v ===== *)
(** * The guests of the SDK (src/sdk/wasm/)

    The two example modules that come with the program, as they run in the linear
    memory of a [wasm32] instance: functions on a memory of bytes and the static
    [heap_top], and the runtime their calls make.  An access outside the memory
    traps.  The linker's [__heap_base] is a parameter. *)

From S2P Require Import Prelude MessageHandler.

(** The memory of an instance and its static variable. *)
Module Guest.
Record t : Type := mk { memory : list Z; heap_top : Z }.

(** A run in an instance: a result, or [None] when it traps, and the instance
    afterwards. *)
Definition exec (A : Type) : Type := t -> option A * t.

Definition ret {A} (a : A) : exec A := fun g => (Some a, g).

Definition bind {A B} (m : exec A) (k : A -> exec B) : exec B :=
  fun g => match m g with
           | (Some a, g) => k a g
           | (None, g) => (None, g)
           end.

Definition in_memory (g : t) (index : Z) : bool :=
  (0 <=? index) && (index <? Z.of_nat (length (memory g))).

Definition load (index : Z) : exec Z :=
  fun g => (if in_memory g index then memory g !! Z.to_nat index else None, g).

Definition store (index v : Z) : exec unit :=
  fun g => if in_memory g index
           then (Some tt, mk (<[Z.to_nat index := u8 v]> (memory g)) (heap_top g))
           else (None, g).
End Guest.

Declare Scope guest_scope.
Notation "'run!' x ':=' m 'in' k" := (Guest.bind m (fun x => k))
  (at level 10, x pattern, m at level 100, k at level 200) : guest_scope.
#[local] Open Scope guest_scope.

(** The functions a module exports. *)
Inductive func : Type := Alloc | Dealloc | HandleBody | HandleHeader.

Section Heap.
Variable heap_base : Z.

(** [alloc] and [dealloc] of both modules. *)
Definition alloc (g : Guest.t) (input_size : Z) : Z * Guest.t :=
  let heap_top := if Guest.heap_top g =? 0 then heap_base else Guest.heap_top g in
  (heap_top, Guest.mk (Guest.memory g) (u32 (heap_top + input_size))).

Definition dealloc (g : Guest.t) (input_index input_size : Z) : Guest.t :=
  Guest.mk (Guest.memory g) heap_base.

(** [((uint64_t)out_length << 32) | (uint64_t)out_ptr] *)
Definition pack (out_length out_ptr : Z) : Z := Z.lor (Z.shiftl out_length 32) out_ptr.
End Heap.

(** ** tcp-single-session-heartbeat.cpp *)

Module Heartbeat.

Module HeaderType.
Inductive t : Type := Login | Register | Ping | PingResponse | SendDM.

Definition to_Z (x : t) : Z :=
  match x with Login => 0 | Register => 1 | Ping => 2 | PingResponse => 3 | SendDM => 4 end.
End HeaderType.

Definition expected_header_size : Z := 5.

Definition handle_body (input_index input_size : Z) : Guest.exec Z :=
  if (input_index =? 0) || (input_size <? expected_header_size) then Guest.ret 0
  else
    let packet := input_index in
    run! type_ := Guest.load packet in
    let out_ptr := input_index in
    let out_length := expected_header_size in
    if type_ =? HeaderType.to_Z HeaderType.Ping then
      let out_packet := input_index in
      run! _ := Guest.store out_packet (HeaderType.to_Z HeaderType.PingResponse) in
      run! _ := Guest.store (out_packet + 1) 0 in
      run! _ := Guest.store (out_packet + 2) 0 in
      run! _ := Guest.store (out_packet + 3) 0 in
      run! _ := Guest.store (out_packet + 4) 0 in
      Guest.ret (pack out_length out_ptr)
    else Guest.ret 0.

Definition handle_header (input_index input_size : Z) : Guest.exec Z :=
  if negb (input_size =? expected_header_size) || (input_index =? 0) then Guest.ret 0
  else
    run! b1 := Guest.load (input_index + 1) in
    run! b2 := Guest.load (input_index + 2) in
    run! b3 := Guest.load (input_index + 3) in
    run! b4 := Guest.load (input_index + 4) in
    Guest.ret (Z.lor (Z.lor (Z.lor b1 (Z.shiftl b2 8)) (Z.shiftl b3 16)) (Z.shiftl b4 24)).
End Heartbeat.

(** ** tcp-single-session-parsing.c *)

Module Parsing.

(** The loop from [i] on: [n] more bytes. *)
Fixpoint fill (n : nat) (index : Z) : Guest.exec unit :=
  match n with
  | O => Guest.ret tt
  | S n =>
      run! _ := Guest.store index 85 in
      fill n (index + 1)
  end.

Definition handle_body (input_index input_size : Z) : Guest.exec Z :=
  run! _ := fill (Z.to_nat input_size) input_index in
  Guest.ret (pack input_size input_index).

Definition handle_header (input_index input_size : Z) : Guest.exec Z := Guest.ret 0.
End Parsing.

(** ** The runtime of a module *)

Section Runtime.
Variable heap_base : Z.
Variables handle_body handle_header : Z -> Z -> Guest.exec Z.
Variable exports_header : bool.

(** The exports of the Makefile: [--export=...], and the memory. *)
Definition guest_export (g : Guest.t) (name : string) : option (extern func) :=
  if String.eqb name "memory" then Some ExternMemory
  else if String.eqb name "alloc" then Some (ExternFunc Alloc)
  else if String.eqb name "dealloc" then Some (ExternFunc Dealloc)
  else if String.eqb name "handle_body" then Some (ExternFunc HandleBody)
  else if String.eqb name "handle_header" && exports_header
  then Some (ExternFunc HandleHeader) else None.

(** The arguments and results pass as signed integers. *)
Definition guest_call (g : Guest.t) (f : func) (args : list Z) : call_result Guest.t :=
  match f, args with
  | Alloc, [size] =>
      let '(res, g) := alloc heap_base g (u32 size) in Returned g [I32 (i32 res)]
  | Dealloc, [index; size] => Returned (dealloc heap_base g (u32 index) (u32 size)) []
  | HandleBody, [index; size] =>
      match handle_body (u32 index) (u32 size) g with
      | (Some packed, g) => Returned g [I64 (i64 packed)]
      | (None, g) => Thrown g
      end
  | HandleHeader, [index; size] =>
      match handle_header (u32 index) (u32 size) g with
      | (Some len, g) => Returned g [I32 (i32 len)]
      | (None, g) => Thrown g
      end
  | _, _ => Thrown g
  end.

(** An instance starts with the memory of the module and [heap_top = 0]. *)
Definition guest_runtime : Runtime (list Z) Guest.t func := {|
  instantiate := fun memory => Some (Guest.mk memory 0);
  export := guest_export;
  data := Guest.memory;
  set_data := fun g d => Guest.mk d (Guest.heap_top g);
  call := guest_call
|}.
End Runtime.

Definition heartbeat_runtime (heap_base : Z) : Runtime (list Z) Guest.t func :=
  guest_runtime heap_base Heartbeat.handle_body Heartbeat.handle_header true.

Definition parsing_runtime (heap_base : Z) : Runtime (list Z) Guest.t func :=
  guest_runtime heap_base Parsing.handle_body Parsing.handle_header false.
