(* ===== verification/HeartbeatProps.v ===== *)
(** * Properties of the guests of the SDK

    The example modules behind the message handler of the host: what a session
    sends back for every message, and the length it reads from a header. *)

From S2P Require Import Prelude MessageHandler MessageHandlerProps Heartbeat.
Import WASMMessageHandler.

(** ** Numbers that pass between host and guest *)

Lemma u32_i32 x : 0 <= x < 2 ^ 32 -> u32 (i32 x) = x.
Proof.
  intros Hx. unfold u32, i32. rewrite Zminus_mod_idemp_l, Z.add_simpl_r. by apply Z.mod_small.
Qed.

Lemma u64_i64 x : 0 <= x < 2 ^ 64 -> u64 (i64 x) = x.
Proof.
  intros Hx. unfold u64, i64. rewrite Zminus_mod_idemp_l, Z.add_simpl_r. by apply Z.mod_small.
Qed.

(** Bits that do not overlap add up. *)
Lemma lor_shiftl a b k : 0 <= k -> 0 <= a < 2 ^ k -> Z.lor a (Z.shiftl b k) = a + b * 2 ^ k.
Proof.
  intros Hk Ha. rewrite Z.shiftl_mul_pow2 by done. symmetry. apply Z.add_nocarry_lor.
  apply Z.bits_inj'. intros n Hn. rewrite Z.land_spec, Z.bits_0.
  destruct (Z.lt_ge_cases n k) as [Hlt|Hge].
  - by rewrite Z.mul_pow2_bits_low, andb_false_r.
  - rewrite <- (Z.mod_small a (2 ^ k) Ha). by rewrite Z.mod_pow2_bits_high.
Qed.

Lemma pack_value len ptr : 0 <= ptr < 2 ^ 32 -> pack len ptr = ptr + len * 2 ^ 32.
Proof. intros Hp. unfold pack. rewrite Z.lor_comm. by apply lor_shiftl. Qed.

(** ** The memory of a guest *)

(** An access that is inside. *)
Ltac inside :=
  match goal with |- context [(?x <=? ?y) && (?z <? ?w)] =>
    replace ((x <=? y) && (z <? w)) with true
      by (symmetry; apply andb_true_iff; split; [apply Z.leb_le | apply Z.ltb_lt]; lia)
  end.

Lemma load_at a m h k b :
  m !! k = Some b ->
  Guest.load (Z.of_nat (length a) + Z.of_nat k) (Guest.mk (a ++ m) h)
  = (Some b, Guest.mk (a ++ m) h).
Proof.
  intros Hk. pose proof (lookup_lt_Some _ _ _ Hk). unfold Guest.load, Guest.in_memory. cbn [Guest.memory].
  rewrite length_app. inside.
  replace (Z.to_nat _) with (length a + k)%nat by lia.
  rewrite lookup_app_r by lia. replace (_ - _)%nat with k by lia. by rewrite Hk.
Qed.

Lemma store_at a m h k v :
  (k < length m)%nat ->
  Guest.store (Z.of_nat (length a) + Z.of_nat k) v (Guest.mk (a ++ m) h)
  = (Some tt, Guest.mk (a ++ <[k := u8 v]> m) h).
Proof.
  intros Hk. unfold Guest.store, Guest.in_memory. cbn [Guest.memory Guest.heap_top].
  rewrite length_app. inside.
  replace (Z.to_nat _) with (length a + k)%nat by lia. by rewrite insert_app_r.
Qed.

(** ** The calls of the host *)

Section Module_.
Variable heap_base : Z.
Variables handle_body handle_header : Z -> Z -> Guest.exec Z.
Variable exports_header : bool.
Hypothesis heap_base_pos : 0 < heap_base < 2 ^ 32.

#[local] Instance runtime_ : Runtime (list Z) Guest.t func :=
  guest_runtime heap_base handle_body handle_header exports_header.

(** The handler of an instance. *)
Definition handler_of (g : Guest.t) : WASMMessageHandler.t Guest.t func :=
  WASMMessageHandler.mk g Alloc Dealloc HandleBody
    (if exports_header then Some HandleHeader else None).

(** Between two calls the heap is empty. *)
Definition ready (g : Guest.t) : Prop := Guest.heap_top g = 0 \/ Guest.heap_top g = heap_base.

Lemma module_constructed memory :
  WASMMessageHandler.init memory = Ok (handler_of (Guest.mk memory 0)).
Proof. unfold handler_of, runtime_, guest_runtime, guest_export. by destruct exports_header. Qed.

Lemma module_well_typed g : well_typed (handler_of g).
Proof.
  unfold well_typed, handler_of. cbn. split_and!.
  - intros s args s' r. cbn. destruct args as [|size [|]]; try discriminate.
    intros [= <- <-]. by eexists _, [].
  - intros s args s' r. cbn. destruct args as [|index [|size [|]]]; try discriminate.
    destruct (handle_body _ _ _) as [[packed|] g']; [|discriminate]. intros [= <- <-]. by eexists _, [].
  - intros f. destruct exports_header; [|done]. intros [= <-] s args s' r. cbn.
    destruct args as [|index [|size [|]]]; try discriminate.
    destruct (handle_header _ _ _) as [[len|] g']; [|discriminate]. intros [= <- <-]. by eexists _, [].
Qed.

Lemma data_set_guest (g : Guest.t) d : data (set_data g d) = d.
Proof. done. Qed.

Lemma alloc_ready g n : ready g -> fst (alloc heap_base g n) = heap_base.
Proof. intros [Hg|Hg]; unfold alloc; rewrite Hg; [done|]. cbn. destruct (heap_base =? 0) eqn:E; bool_to_Z; lia. Qed.

Lemma alloc_call g n :
  ready g -> 0 <= n < 2 ^ 32 -> heap_base + n < 2 ^ 32 ->
  call g Alloc [i32 n] = Returned (Guest.mk (Guest.memory g) (heap_base + n)) [I32 (i32 heap_base)].
Proof.
  intros Hg Hn Hs. cbn. unfold guest_call, alloc. rewrite u32_i32 by done.
  assert ((if Guest.heap_top g =? 0 then heap_base else Guest.heap_top g) = heap_base) as ->.
  { destruct Hg as [->| ->]; [done|]. by destruct (heap_base =? 0). }
  by rewrite u32_small by lia.
Qed.

Lemma dealloc_call g a b :
  call g Dealloc [a; b] = Returned (Guest.mk (Guest.memory g) heap_base) [].
Proof. done. Qed.

(** A message whose handling does not trap is answered with the bytes the result
    of [handle_body] designates, and the heap is empty again. *)
Lemma module_message g header body packed g2 :
  ready g ->
  let msg := header ++ body in
  let n := Z.of_nat (length msg) in
  let size := Z.of_nat (length (Guest.memory g)) in
  heap_base + n <= size < 2 ^ 32 ->
  handle_body heap_base n
    (Guest.mk (splice (Z.to_nat heap_base) msg (Guest.memory g)) (heap_base + n))
  = (Some packed, g2) ->
  0 <= packed < 2 ^ 64 -> length (Guest.memory g2) = length (Guest.memory g) ->
  (packed / 2 ^ 32 = 0 \/ packed mod 2 ^ 32 + packed / 2 ^ 32 <= size) ->
  parse_message (handler_of g) header body
  = Ok ([take (Z.to_nat (packed / 2 ^ 32)) (drop (Z.to_nat (packed mod 2 ^ 32)) (Guest.memory g2))],
        handler_of (Guest.mk (Guest.memory g2) heap_base)).
Proof.
  cbv zeta. intros Hg Hsize Hb Hp Hl Hout. rewrite length_app, Nat2Z.inj_add in Hsize, Hb.
  set (n := Z.of_nat (length header) + Z.of_nat (length body)) in *.
  unfold parse_message. cbv zeta. fold n. rewrite (u32_small n) by lia.
  unfold try_call at 1. cbn [store_ alloc_ handler_of]. rewrite alloc_call by (done || lia).
  cbn [first_i32 obind]. rewrite u32_i32 by lia.
  destruct (heap_base =? 0) eqn:E0; bool_to_Z; [lia|].
  unfold out_of_bounds at 1. cbn [data runtime_ guest_runtime Guest.memory].
  destruct (_ >? _) eqn:E1; bool_to_Z; [lia|].
  set (g1 := Guest.mk (Guest.memory g) (heap_base + n)).
  rewrite <- obind_assoc, (copy_in_given data_set_guest g1) by (cbn; lia). cbn [obind].
  assert (given g1 heap_base header body
          = Guest.mk (splice (Z.to_nat heap_base) (header ++ body) (Guest.memory g)) (heap_base + n)) as ->.
  { pose proof (data_given data_set_guest g1 heap_base header body ltac:(lia) ltac:(cbn; lia)) as Hd.
    cbn in Hd. by rewrite <- Hd. }
  unfold try_call at 1. cbn [call runtime_ guest_runtime guest_call handle_body_ handler_of].
  rewrite !u32_i32 by lia. rewrite Hb. cbn [first_i64 first_i32 obind]. rewrite u64_i64 by done.
  assert (Hpd : 0 <= packed / 2 ^ 32 < 2 ^ 32).
  { split; [apply Z.div_pos; lia | apply Z.div_lt_upper_bound; lia]. }
  rewrite Z.shiftr_div_pow2, !Z.land_ones by lia. rewrite (Z.mod_small (packed / 2 ^ 32)) by done.
  destruct (packed / 2 ^ 32 >? 0) eqn:E2; bool_to_Z.
  - unfold out_of_bounds. cbn [data runtime_ guest_runtime]. rewrite Hl.
    destruct (_ >? _) eqn:E3; bool_to_Z; [lia|].
    pose proof (Z.mod_pos_bound packed (2 ^ 32) ltac:(lia)) as Hmb.
    unfold copy_out. cbn [data runtime_ guest_runtime]. rewrite Hl.
    replace (_ && _) with true by (symmetry; apply andb_true_iff; split; lia). cbn [obind]. done.
  - replace (packed / 2 ^ 32) with 0 by lia. done.
Qed.

(** What the host makes of the result of [handle_header]: it reads it as a signed
    number. *)
Definition header_result (len : Z) : HeaderResult.t :=
  if len <? 2 ^ 31 then HeaderResult.mk len HeaderResult.OK else HeaderResult.mk 0 HeaderResult.ERROR.

Lemma i32_sign x : 0 <= x < 2 ^ 32 -> (i32 x <? 0) = negb (x <? 2 ^ 31).
Proof.
  intros Hx. unfold i32. destruct (Z.ltb_spec x (2 ^ 31)).
  - rewrite Z.mod_small by lia. apply Z.ltb_ge. lia.
  - rewrite <- (Z.mod_add _ (-1)) by lia. rewrite Z.mod_small by lia. apply Z.ltb_lt. lia.
Qed.

Lemma module_header g buffer len g2 :
  exports_header = true -> ready g ->
  let n := Z.of_nat (length buffer) in
  heap_base + n <= Z.of_nat (length (Guest.memory g)) < 2 ^ 32 ->
  handle_header heap_base n
    (Guest.mk (splice (Z.to_nat heap_base) buffer (Guest.memory g)) (heap_base + n))
  = (Some len, g2) ->
  0 <= len < 2 ^ 32 ->
  parse_header (handler_of g) buffer
  = Ok (header_result len, handler_of (Guest.mk (Guest.memory g2) heap_base)).
Proof.
  cbv zeta. intros He Hg Hsize Hh Hlen. set (n := Z.of_nat (length buffer)) in *.
  unfold parse_header, handler_of. rewrite He. cbn [handle_header_].
  unfold parse_header_func. cbv zeta. fold n. rewrite (u32_small n) by lia.
  unfold try_call at 1. cbn [store_ alloc_]. rewrite alloc_call by (done || lia).
  cbn [first_i32 obind]. rewrite u32_i32 by lia.
  destruct (heap_base =? 0) eqn:E0; bool_to_Z; [lia|].
  unfold out_of_bounds at 1. cbn [data runtime_ guest_runtime Guest.memory].
  destruct (_ >? _) eqn:E1; bool_to_Z; [lia|].
  unfold copy_in. cbn [data set_data runtime_ guest_runtime Guest.memory Guest.heap_top].
  replace (_ && _) with true by (symmetry; apply andb_true_iff; split; lia). cbn [obind].
  rewrite inserts_splice by lia. unfold try_call at 1. cbn [call runtime_ guest_runtime guest_call].
  rewrite !u32_i32 by lia. rewrite Hh. cbn [first_i32 obind]. rewrite i32_sign, u32_i32 by done.
  unfold header_result. by destruct (len <? 2 ^ 31).
Qed.
End Module_.

(** ** The heartbeat module *)

(** A ping of five bytes or more is answered with a ping response without payload,
    everything else with nothing. *)
Definition heartbeat_answer (msg : list Z) : list Z :=
  match msg with
  | type_ :: _ :: _ :: _ :: _ :: _ =>
      if type_ =? Heartbeat.HeaderType.to_Z Heartbeat.HeaderType.Ping
      then [Heartbeat.HeaderType.to_Z Heartbeat.HeaderType.PingResponse; 0; 0; 0; 0] else []
  | _ => []
  end.

(** The length in a header: little endian, after the type. *)
Definition header_length (header : list Z) : Z :=
  match header with
  | [_; b1; b2; b3; b4] => b1 + b2 * 2 ^ 8 + b3 * 2 ^ 16 + b4 * 2 ^ 24
  | _ => 0
  end.

Section Heartbeat_.
Variable heap_base : Z.
Hypothesis heap_base_pos : 0 < heap_base < 2 ^ 32.

#[local] Instance heartbeat_ : Runtime (list Z) Guest.t func := heartbeat_runtime heap_base.

(** The memory around a message at [heap_base]. *)
Lemma splice_parts msg memory :
  heap_base + Z.of_nat (length msg) <= Z.of_nat (length memory) ->
  exists a r, splice (Z.to_nat heap_base) msg memory = a ++ msg ++ r /\ Z.of_nat (length a) = heap_base /\
    length (a ++ msg ++ r) = length memory.
Proof.
  intros Hl. eexists _, _. split; [reflexivity|]. rewrite length_take. split; [lia|].
  rewrite !length_app, length_take, length_drop. lia.
Qed.

Lemma heartbeat_body a msg r top :
  Z.of_nat (length a) = heap_base -> heap_base + Z.of_nat (length msg) < 2 ^ 32 ->
  exists packed m,
    Heartbeat.handle_body heap_base (Z.of_nat (length msg)) (Guest.mk (a ++ msg ++ r) top)
    = (Some packed, Guest.mk m top) /\
    length m = length (a ++ msg ++ r) /\ 0 <= packed < 2 ^ 64 /\
    (packed / 2 ^ 32 = 0 \/ packed mod 2 ^ 32 + packed / 2 ^ 32 <= Z.of_nat (length (a ++ msg ++ r))) /\
    take (Z.to_nat (packed / 2 ^ 32)) (drop (Z.to_nat (packed mod 2 ^ 32)) m) = heartbeat_answer msg.
Proof.
  intros Ha Hs. unfold Heartbeat.handle_body.
  destruct (_ || _) eqn:E.
  { exists 0, (a ++ msg ++ r). split; [done|]. split; [done|]. split; [lia|]. split; [by left|].
    apply orb_true_iff in E as [E|E]; bool_to_Z; [lia|]. unfold Heartbeat.expected_header_size in E.
    destruct msg as [|b0 [|b1 [|b2 [|b3 [|b4 msg]]]]]; try done. cbn [length] in E. lia. }
  apply orb_false_iff in E as [_ E]. bool_to_Z. unfold Heartbeat.expected_header_size in E.
  destruct msg as [|b0 [|b1 [|b2 [|b3 [|b4 msg]]]]]; cbn [length] in E; try lia. clear E.
  cbv zeta. unfold Guest.bind at 1. rewrite <- Ha.
  pose proof (load_at a ((b0 :: b1 :: b2 :: b3 :: b4 :: msg) ++ r) top 0 b0 eq_refl) as Hload.
  rewrite Z.add_0_r in Hload. rewrite Hload. cbn [heartbeat_answer].
  destruct (b0 =? _) eqn:Eb.
  2: { exists 0, (a ++ (b0 :: b1 :: b2 :: b3 :: b4 :: msg) ++ r).
       split; [done|]. split; [done|]. split; [lia|]. split; [by left | done]. }
  assert (Hst : forall L k v m, L = Z.of_nat (length a) + Z.of_nat k -> (k < length m)%nat ->
    Guest.store L v (Guest.mk (a ++ m) top) = (Some tt, Guest.mk (a ++ <[k := u8 v]> m) top)).
  { intros L k v m -> Hk. by apply store_at. }
  unfold Guest.bind, Guest.ret.
  rewrite (Hst _ 0%nat) by (cbn; lia). cbn [insert list_insert app].
  rewrite (Hst _ 1%nat) by (cbn; lia). cbn [insert list_insert app].
  rewrite (Hst _ 2%nat) by (cbn; lia). cbn [insert list_insert app].
  rewrite (Hst _ 3%nat) by (cbn; lia). cbn [insert list_insert app].
  rewrite (Hst _ 4%nat) by (cbn; lia). cbn [insert list_insert app].
  set (L := Z.of_nat (length a)) in *.
  assert (Hp : pack Heartbeat.expected_header_size L = L + 5 * 2 ^ 32) by (apply pack_value; lia).
  assert (Hd : (L + 5 * 2 ^ 32) / 2 ^ 32 = 5) by (rewrite Z.div_add, Z.div_small; lia).
  assert (Hm : (L + 5 * 2 ^ 32) mod 2 ^ 32 = L) by (rewrite Z.mod_add, Z.mod_small; lia).
  rewrite Hp. eexists _, _. split; [reflexivity|]. rewrite Hd, Hm.
  split; [by rewrite !length_app; cbn [length]; rewrite !length_app|]. split; [lia|].
  split; [right; rewrite !length_app; cbn [length]; lia|].
  unfold L. rewrite Nat2Z.id, drop_app_length. done.
Qed.

Definition byte (b : Z) : Prop := 0 <= b < 256.

Lemma heartbeat_header a header r top :
  Z.of_nat (length a) = heap_base -> length header = 5%nat -> Forall byte header ->
  Heartbeat.handle_header heap_base 5 (Guest.mk (a ++ header ++ r) top)
  = (Some (header_length header), Guest.mk (a ++ header ++ r) top) /\
  0 <= header_length header < 2 ^ 32.
Proof.
  intros Ha Hl Hb.
  destruct header as [|t [|b1 [|b2 [|b3 [|b4 [|]]]]]]; try discriminate Hl. cbn [header_length].
  repeat (apply List.Forall_cons_iff in Hb as [? Hb]). unfold byte in *. split; [|lia].
  unfold Heartbeat.handle_header. change (negb (5 =? Heartbeat.expected_header_size)) with false.
  destruct (heap_base =? 0) eqn:E; bool_to_Z; [lia|]. cbn [orb].
  assert (Hld : forall L k b, L = Z.of_nat (length a) + Z.of_nat k ->
    ([t; b1; b2; b3; b4] ++ r) !! k = Some b ->
    Guest.load L (Guest.mk (a ++ [t; b1; b2; b3; b4] ++ r) top)
    = (Some b, Guest.mk (a ++ [t; b1; b2; b3; b4] ++ r) top)).
  { intros L k b -> Hk. by apply load_at. }
  unfold Guest.bind, Guest.ret.
  rewrite (Hld _ 1%nat b1), (Hld _ 2%nat b2), (Hld _ 3%nat b3), (Hld _ 4%nat b4)
    by (done || lia).
  rewrite (lor_shiftl b1 b2 8), (lor_shiftl _ b3 16), (lor_shiftl _ b4 24) by lia. done.
Qed.

(** What a session does with a message: its header, then all of it. *)
Definition exchange (h : WASMMessageHandler.t Guest.t func) (header body : list Z)
  : outcome ((HeaderResult.t * list (list Z)) * WASMMessageHandler.t Guest.t func) :=
  let! (r, h) := parse_header h header in
  let! (packets, h) := parse_message h header body in
  Ok ((r, packets), h).

Fixpoint exchanges (h : WASMMessageHandler.t Guest.t func) (msgs : list (list Z * list Z))
  : outcome (list (HeaderResult.t * list (list Z))) :=
  match msgs with
  | [] => Ok []
  | (header, body) :: msgs =>
      let! (r, h) := exchange h header body in
      let! rest := exchanges h msgs in
      Ok (r :: rest)
  end.

Definition fits (size : nat) (msg : list Z * list Z) : Prop :=
  length (fst msg) = 5%nat /\ Forall byte (fst msg) /\
  heap_base + 5 + Z.of_nat (length (snd msg)) <= Z.of_nat size.

Lemma exchange_ok g header body :
  ready heap_base g -> Z.of_nat (length (Guest.memory g)) < 2 ^ 32 ->
  fits (length (Guest.memory g)) (header, body) ->
  exists g',
    exchange (handler_of true g) header body
    = Ok ((header_result (header_length header), [heartbeat_answer (header ++ body)]),
          handler_of true g') /\
    ready heap_base g' /\ length (Guest.memory g') = length (Guest.memory g).
Proof.
  intros Hg Hsize (Hl & Hb & Hfit). cbn [fst snd] in *. unfold exchange.
  destruct (splice_parts header (Guest.memory g)) as (a & r & Hsp & Ha & Hlen); [lia|].
  destruct (heartbeat_header a header r (heap_base + 5) Ha Hl Hb) as [Hh Hv].
  pose proof (module_header heap_base Heartbeat.handle_body Heartbeat.handle_header true heap_base_pos
    g header (header_length header) (Guest.mk (a ++ header ++ r) (heap_base + 5)) eq_refl Hg) as Hmh.
  change (runtime_ _ _ _ _) with heartbeat_ in Hmh.
  cbv zeta in Hmh. rewrite Hl, Hsp in Hmh. change (Z.of_nat 5) with 5 in Hmh.
  rewrite Hmh; [|lia|exact Hh|done]. cbn [obind Guest.memory]. clear Hmh.
  set (m1 := a ++ header ++ r) in *. set (g1 := Guest.mk m1 heap_base).
  assert (Hn : Z.of_nat (length (header ++ body)) = 5 + Z.of_nat (length body)) by (rewrite length_app; lia).
  destruct (splice_parts (header ++ body) m1) as (a' & r' & Hsp' & Ha' & Hlen'); [lia|].
  destruct (heartbeat_body a' (header ++ body) r' (heap_base + Z.of_nat (length (header ++ body))) Ha')
    as (packed & m & Hbody & Hm & Hp & Hout & Hans); [lia|].
  pose proof (module_message heap_base Heartbeat.handle_body Heartbeat.handle_header true heap_base_pos
    g1 header body packed (Guest.mk m (heap_base + Z.of_nat (length (header ++ body))))) as Hmm.
  change (runtime_ _ _ _ _) with heartbeat_ in Hmm.
  cbv zeta in Hmm. cbn [Guest.memory g1] in Hmm. rewrite Hsp' in Hmm.
  rewrite Hlen' in Hm, Hout. rewrite Hmm; [|by right|lia|exact Hbody|done|done|done].
  cbn [obind]. rewrite Hans. eexists. split; [reflexivity|]. split; [by right|]. cbn. lia.
Qed.

Lemma exchanges_ok msgs : forall g,
  ready heap_base g -> Z.of_nat (length (Guest.memory g)) < 2 ^ 32 ->
  Forall (fits (length (Guest.memory g))) msgs ->
  exchanges (handler_of true g) msgs
  = Ok (map (fun m => (header_result (header_length (fst m)),
                       [heartbeat_answer (fst m ++ snd m)])) msgs).
Proof.
  induction msgs as [|[header body] msgs IH]; intros g Hg Hs Hf; [done|].
  apply List.Forall_cons_iff in Hf as [Hm Hf]. cbn [exchanges].
  destruct (exchange_ok g header body Hg Hs Hm) as (g' & -> & Hg' & Hl). cbn [obind].
  rewrite (IH g'); [done | done | by rewrite Hl | by rewrite Hl].
Qed.

(** C22: The heartbeat module behind the handler of the host, over a whole session:
    as long as every message fits above the heap base, no call traps and the
    memory is reused; for every header the host gets its little-endian length,
    or an error when that is 2^31 or more; and every message is answered once: a
    ping with a ping response of five bytes, anything else with nothing. *)
Theorem heartbeat_session memory msgs :
  Z.of_nat (length memory) < 2 ^ 32 -> Forall (fits (length memory)) msgs ->
  exists h,
    WASMMessageHandler.init memory = Ok h /\
    exchanges h msgs
    = Ok (map (fun m => (header_result (header_length (fst m)),
                         [heartbeat_answer (fst m ++ snd m)])) msgs).
Proof.
  intros Hs Hf. exists (handler_of true (Guest.mk memory 0)).
  split; [apply module_constructed|]. apply exchanges_ok; [by left | done | done].
Qed.

(** The module obeys the laws the sessions rely on. *)
Lemma heartbeat_well_typed g : well_typed (handler_of true g).
Proof. apply module_well_typed. Qed.
End Heartbeat_.

(** ** The parsing module *)

Section Parsing_.
Variable heap_base : Z.
Hypothesis heap_base_pos : 0 < heap_base < 2 ^ 32.

#[local] Instance parsing_ : Runtime (list Z) Guest.t func := parsing_runtime heap_base.

Lemma fill_spec m : forall a r top,
  Parsing.fill (length m) (Z.of_nat (length a)) (Guest.mk (a ++ m ++ r) top)
  = (Some tt, Guest.mk (a ++ replicate (length m) 85 ++ r) top).
Proof.
  induction m as [|b m IH]; intros a r top; [done|]. cbn [length Parsing.fill]. unfold Guest.bind.
  pose proof (store_at a ((b :: m) ++ r) top 0 85 ltac:(cbn; lia)) as Hst.
  rewrite Z.add_0_r in Hst. rewrite Hst. cbn [app insert list_insert].
  change (u8 85) with 85. specialize (IH (a ++ [85]) r top).
  rewrite length_app, Nat2Z.inj_add, <- !app_assoc in IH. exact IH.
Qed.

(** Every message is answered with as many bytes, all of them 0x55. *)
Theorem parsing_answer g header body :
  ready heap_base g ->
  heap_base + Z.of_nat (length (header ++ body)) <= Z.of_nat (length (Guest.memory g)) < 2 ^ 32 ->
  exists g',
    parse_message (handler_of false g) header body
    = Ok ([replicate (length (header ++ body)) 85], handler_of false g') /\
    ready heap_base g' /\ length (Guest.memory g') = length (Guest.memory g).
Proof.
  intros Hg Hs. destruct (splice_parts heap_base heap_base_pos (header ++ body) (Guest.memory g))
    as (a & r & Hsp & Ha & Hlen); [lia|].
  set (msg := header ++ body) in *. set (n := Z.of_nat (length msg)) in *.
  assert (Hn : 0 <= n < 2 ^ 32) by lia.
  pose proof (module_message heap_base Parsing.handle_body Parsing.handle_header false heap_base_pos
    g header body (pack n heap_base)
    (Guest.mk (a ++ replicate (length msg) 85 ++ r) (heap_base + n)) Hg) as Hmm.
  change (runtime_ _ _ _ _) with parsing_ in Hmm. cbv zeta in Hmm. fold msg n in Hmm.
  rewrite Hsp, pack_value in Hmm by lia.
  assert (Hd : (heap_base + n * 2 ^ 32) / 2 ^ 32 = n) by (rewrite Z.div_add, Z.div_small; lia).
  assert (Hm : (heap_base + n * 2 ^ 32) mod 2 ^ 32 = heap_base) by (rewrite Z.mod_add, Z.mod_small; lia).
  rewrite Hd, Hm in Hmm. cbn [Guest.memory] in Hmm.
  assert (Hl : length (a ++ replicate (length msg) 85 ++ r) = length (Guest.memory g)).
  { rewrite <- Hlen, !length_app, length_replicate. done. }
  exists (Guest.mk (a ++ replicate (length msg) 85 ++ r) heap_base).
  rewrite Hmm; [|lia| |lia|done|right; lia].
  - split; [|split; [by right | exact Hl]]. do 2 f_equal. f_equal.
    rewrite <- Ha, !Nat2Z.id, drop_app_length. unfold n. rewrite Nat2Z.id, take_app_length'; [done|]. by rewrite length_replicate.
  - pose proof (fill_spec msg a r (heap_base + n)) as Hf. rewrite Ha in Hf.
    unfold Parsing.handle_body, Guest.bind, n at 1. rewrite Nat2Z.id, Hf. unfold Guest.ret.
    rewrite pack_value by lia. done.
Qed.
End Parsing_.

Lemma heartbeat_session_witness :
  exists h, WASMMessageHandler.init (H := heartbeat_runtime 16) (replicate 64 0) = Ok h /\
    exchanges 16 h [([2; 3; 0; 0; 0], [7; 7; 7]); ([0; 0; 0; 0; 128], [])]
    = Ok [(HeaderResult.mk 3 HeaderResult.OK, [[3; 0; 0; 0; 0]]);
          (HeaderResult.mk 0 HeaderResult.ERROR, [[]])].
Proof.
  apply (heartbeat_session 16 ltac:(lia) (replicate 64 0) [([2; 3; 0; 0; 0], [7; 7; 7]); ([0; 0; 0; 0; 128], [])]).
  - closed_Z.
  - repeat constructor; cbn; lia.
Defined.
